(* ===== verification/_CoqProject ===== *)
-Q . S2P
Prelude.v
Crypto.v
StdTime.v
Json.v
Strtod.v
StrtodFacts.v
JsonLexer.v
JsonGrammar.v
JsonLexerFacts.v
JsonParser.v
JsonParserFacts.v
JsonExact.v
JsonFloat.v
JsonFloatFacts.v
JsonPrinter.v
JsonPrinterFacts.v
JsonFloatText.v
JsonRoundtrip.v
JsonValues.v
JsonErrors.v
JsonNlohmann.v
Transaction.v
Block.v
State.v
Consensus.v
Storage.v
Blockchain.v
SampleNode.v
ChainInvariant.v
ChainSafety.v
Wallet.v
HttpText.v
Texts.v
Peer.v
PeerScorer.v
PeerManager.v
Connections.v
Effects.v
Node.v
NodeFacts.v
NodeSafety.v
SampleP2P.v
NodeLive.v
Config.v
Http.v
HttpFacts.v
HttpAnswers.v
HttpMining.v
SampleHttp.v
Main.v
