(* ===== verification/Prelude.v ===== *)
(** * personalblockchain: a verification library

    The program (src/) is a C++17 blockchain node: a proof-of-work chain of
    signed transfers with a mempool and a file store, a peer-to-peer network
    with reputation and peer discovery, wallets with a login, and an HTTP
    interface. This library translates its parts to definitions that compute and
    proves what they promise.

    ** The parts and their files

    Shared:
    - Prelude: machine integers as [Z] with the wraps written out, exceptions
      ([result]), strings and their searches, decimal text, tactics and hints.
    - Effects: computations over a state ([St]) and the ways a handler can end
      (it returns, raises, blocks on a mutex, dies with the process, or is still
      mining when the fuel is used up), with three logics used by the clients:
      relations kept ([keeps]), invariants with allowed endings ([holds]) and
      triples ([triple]).
    - StdTime: the parts of <ctime>, <chrono> and <iomanip> the program calls.
    - Json: nlohmann::json values and accessors (src/include/utils/json.hpp, as
      far as the program calls it), and the contract of their text.

    The text of JSON (json.hpp):
    - JsonLexer ([class lexer]), JsonParser ([class parser] and the builder
      [json_sax_dom_parser], whose pointers into the value under construction are
      paths), JsonPrinter ([class serializer]), JsonFloat ([dtoa_impl], the
      shortest digits of a double); Strtod: the conversions of <cstdlib> that the
      scanner calls.
    - JsonGrammar: the grammar of JSON texts as relations between texts and
      values ([lexes], [reads], [json_text]), without a scanner or a stack.
    - JsonLexerFacts, JsonParserFacts and JsonExact: the parser accepts exactly
      the grammar, and ends. JsonPrinterFacts: what the printer writes, within its
      buffers. JsonRoundtrip, JsonValues and JsonErrors: texts read back, parsed
      values are well formed, exceptions. JsonNlohmann: the two as an instance of
      the interface.
    - StrtodFacts, JsonFloatFacts and JsonFloatText: strtod reads whatever lies
      between the midpoints around a double as that double, the digits of Grisu2
      lie between them, so the text of a double reads back as the double.

    The ledger:
    - Crypto (src/src/crypto), Transaction (src/src/transaction), Block
      (src/src/block), State (src/src/state), Consensus (src/src/consensus and
      the engines of src/include/consensus): one file per component.
    - Storage (src/src/storage/leveldb_manager.cpp): programs over a file system
      in which any operation may fail or end the process.
    - Blockchain (src/src/core/blockchain.cpp): the object [Blockchain] and one
      definition per member function. [bstep] (ChainInvariant) is the relation
      between the states before and after one operation; [chain_inv] is its
      invariant.
    - ChainInvariant and ChainSafety hold the theorems on the ledger; SampleNode
      a small concrete node.
    - Wallet (src/src/wallet): keys, addresses, the challenge login.
    - Texts: the texts of exceptions, and which values can be printed.

    The network:
    - Peer (peer.cpp, message.cpp), PeerScorer (peer_scorer.cpp), PeerManager
      (peer_manager.cpp), Connections (connection_manager.cpp,
      bootstrap_manager.cpp, network_metrics.cpp), all in src/src/network.
    - Node (node.cpp): the record [Node] holds every member of the class and of
      the objects it owns; each handler is a computation [M]. [node_event] and
      [run_event] (NodeFacts) are what the event loop can run, [after] a history
      of events. NodeFacts holds the logics of the handlers (relations kept by
      whatever touches neither the ledger nor a timer, [LocalRel] and [EventRel];
      endings and the state of the mutexes, [lock_ok]); NodeSafety and NodeLive
      hold the theorems, SampleP2P the concrete scenarios.
    - Config (main.cpp, node_identity.cpp): configuration file, command line and
      the persistent identity.

    The HTTP interface (http_server.cpp):
    - HttpText: from bytes to a request and from a response to bytes.
    - Http: the state of the server ([Http], which contains the node it shares),
      the router [handleRequest] and one computation per handler.
    - HttpFacts: what requests do to the ledger, and the events of the whole
      program ([system_event]: those of the node and HTTP connections);
      HttpAnswers: how requests end, the outcome of a submission, the listing;
      HttpMining: the cooldown; SampleHttp: the witnesses.

    The process (main.cpp):
    - Main: [main], from the arguments to the exit status. It opens the store,
      loads or creates the chain and the identity, starts the node and the server,
      runs the events on as many threads as the machine gives, joins the threads
      when a signal stops the loop, and saves the chain. It composes the
      definitions of Config, Storage, Blockchain, Node and Http.

    ** Interfaces between the parts

    What lies outside the repository is a class of parameters, with the
    documented behaviour some theorems rely on in a second class and a concrete
    instance that meets it: [OpenSSL], [OpenSSLSpec], [ToyOpenSSL] (Crypto);
    [World] (Node: clocks, random devices, shuffles, hash-set orders). The program
    uses the text of JSON through the class [JsonText] and its laws
    [JsonTextSpec] (Json), which [Nlohmann.nlohmann] and
    [Nlohmann.nlohmann_spec] (JsonNlohmann) implement. Consensus engines
    are the record [IConsensusEngine] with the laws [EngineSpec]; the theorems on
    the chain are proved for any lawful engine, and the proof-of-work engine is
    shown lawful. The node calls the blockchain through [on_chain], under
    [with_chainMutex], and the HTTP server calls the node through [liftN].

    ** What the theorems show

    - The ledger: its invariant after any operations, clocks and disk faults; the
      exact conditions and effect of adding a transaction, accepting a block,
      replacing the chain and mining; balances as a ledger of postings in
      unbounded arithmetic, conservation of value, and the other tables as
      functions of the chain; what a tip's hash determines, and what it does not
      (coinbases, a repeated last transaction); the mining loop's result and the
      increments it takes; when the difficulty is retargeted, and its bounds;
      Merkle binding.
    - Persistence: a save and a load, one fault or crash during an atomic write,
      disk and memory in step, synchronisation from a peer.
    - The process: what a second start finds on the disk that a first run, with any
      history, left; how a peer keeps it from stopping or ends it, and the request
      bodies that end it.
    - JSON: parsing is the grammar and always ends; printing stays inside its
      string, number and indentation buffers for values of the C++ types and fails
      exactly on text that is not UTF-8; texts read back as
      their values, floats included; parsed values are well typed.
    - The program: its ledger changes only by operations of the blockchain along
      any history of network events and HTTP connections.
    - The network: exact relaying, and how long a message is remembered; bans; when
      the node blocks for ever, and that its timers run for ever otherwise; forged
      and malformed messages; message framing; the write queue; scores.
    - HTTP: every request is answered, but for bodies whose parse error cannot be
      printed, which end the thread; the outcome of a submission; the mining
      cooldown along any series of requests; listings read back as the ledger;
      delivery of bodies, their exact content and bounds.
    - Wallets, login and identity: signatures verify, logins are sound and
      single-use, the identity survives restarts unless the advertised address
      given to the later one is not UTF-8.
    Several theorems record behaviour that differs from what comments and
    documents promise; their comments say so.

    ** Fuel and bounds

    Only the search for a nonce has no bound in the code. Its fuel is the number
    of increments; [mineBlock_terminates] shows that it is enough exactly when it
    reaches the first nonce that meets the target, and a computation whose fuel
    is used up is [Unfinished] (or [None]), never a result. The receive loop of
    Peer takes the length of the bytes as fuel, which every turn decreases. The
    loops of the JSON scanner and parser take the bytes left and a constant
    ([fuel_for], [parse_fuel]); [parsing_ends] shows that more changes nothing.
    The digits of a double end within their fuel ([grisu2_near],
    [round_loop_more]).
    Other recursions are structural.

    ** Not modelled

    - OpenSSL, Boost.Asio, the file system and the clocks: parameters or events.
    - The parts of json.hpp the program never calls (binary formats, pointers,
      patches, iterators, callbacks, comments, non-strict error handlers).
    - The text of a [filesystem_error], which quotes a path: a fixed text stands
      for it.
    - Interleavings inside a handler: each handler of the node and of the HTTP
      server runs as one step, after the one before it has ended or has lost its
      thread (to a mutex, or to a search for a nonce that goes on). The mutexes
      that outlive a step are members of [Node]: [peersMutex_], and the mutex of
      the blockchain, which is held while an operation calls back into the node
      or searches. The other mutexes are released before a handler ends.
    - Power loss (what was written counts as on disk), directories, permissions.
    - Allocation failures, and signed overflow where C++ leaves it undefined (the
      model wraps).
    - The acceptor loop of the HTTP server, a signal before the event loop runs,
      and the log output.
    - The block explorer (JavaScript), the tests and the build products. *)

From Stdlib Require Export ZArith Lia Bool List.
From Stdlib Require Export Ascii.
From stdpp Require Export base tactics numbers option list strings gmap sets fin_maps sorting pretty.
From Stdlib Require String.

#[global] Open Scope Z_scope.

(** ** Machine integers

    C++ fixed-width integers are values of [Z]; arithmetic that can leave the
    range of the type is wrapped explicitly at the width of the type. *)

Definition two64 : Z := 2 ^ 64.

Definition wrapu (w z : Z) : Z := z mod 2 ^ w.
Definition wraps (w z : Z) : Z := (z + 2 ^ (w - 1)) mod 2 ^ w - 2 ^ (w - 1).

Abbreviation u8 := (wrapu 8).
Abbreviation u16 := (wrapu 16).
Abbreviation u32 := (wrapu 32).
Abbreviation u64 := (wrapu 64).
Abbreviation i32 := (wraps 32).
Abbreviation i64 := (wraps 64).

Definition in_u (w z : Z) : Prop := 0 <= z < 2 ^ w.
Definition in_s (w z : Z) : Prop := - 2 ^ (w - 1) <= z < 2 ^ (w - 1).

(** The same test as a boolean. *)
Definition in_ub (w z : Z) : bool := (0 <=? z) && (z <? 2 ^ w).

Lemma in_ub_spec w z : in_ub w z = true -> in_u w z.
Proof. unfold in_ub, in_u. lia. Qed.

(** [static_cast<double>] aside, every conversion the program makes is between
    integer widths; [max_u64] and [max_i32] are [std::max] at those types. *)
Definition int_max (a b : Z) : Z := if a <? b then b else a.
Definition int_min (a b : Z) : Z := if b <? a then b else a.

Create HintDb chain discriminated.
#[export] Hint Constants Opaque : chain.

Lemma wrapu_range w z : 0 <= w -> in_u w (wrapu w z).
Proof. intros. unfold in_u, wrapu. apply Z.mod_pos_bound. lia. Qed.

Lemma wrapu_small w z : in_u w z -> wrapu w z = z.
Proof. unfold in_u, wrapu. intros. by apply Z.mod_small. Qed.

Lemma wrapu_idemp w z : 0 <= w -> wrapu w (wrapu w z) = wrapu w z.
Proof. intros. by apply wrapu_small, wrapu_range. Qed.

Lemma wraps_range w z : 0 < w -> in_s w (wraps w z).
Proof.
  intros. unfold in_s, wraps.
  pose proof (Z.mod_pos_bound (z + 2 ^ (w - 1)) (2 ^ w) ltac:(lia)).
  assert (2 ^ w = 2 * 2 ^ (w - 1)) by (rewrite <- Z.pow_succ_r by lia; f_equal; lia).
  lia.
Qed.

Lemma wraps_small w z : 0 < w -> in_s w z -> wraps w z = z.
Proof.
  intros. unfold in_s, wraps in *.
  assert (2 ^ w = 2 * 2 ^ (w - 1)) by (rewrite <- Z.pow_succ_r by lia; f_equal; lia).
  rewrite Z.mod_small; lia.
Qed.

Lemma int_max_spec a b : int_max a b = Z.max a b.
Proof. unfold int_max. destruct (Z.ltb_spec a b); lia. Qed.

Lemma int_min_spec a b : int_min a b = Z.min a b.
Proof. unfold int_min. destruct (Z.ltb_spec b a); lia. Qed.

(** Low bits next to high ones. *)
Lemma lor_low n a c : 0 <= n -> 0 <= a < 2 ^ n -> Z.lor a (c * 2 ^ n) = a + c * 2 ^ n.
Proof.
  intros Hn Ha. symmetry. apply Z.add_nocarry_lor. apply Z.bits_inj'. intros k Hk.
  rewrite Z.land_spec, Z.bits_0. destruct (Z.ltb_spec k n).
  - by rewrite Z.mul_pow2_bits_low, andb_false_r.
  - rewrite <- (Z.mod_small a (2 ^ n)), Z.mod_pow2_bits_high by lia. done.
Qed.

(** The low bits. *)
Lemma land_low w n : 0 <= w -> Z.land n (Z.shiftl 1 w - 1) = n mod 2 ^ w.
Proof.
  intros Hw. replace (Z.shiftl 1 w - 1) with (Z.ones w) by (by rewrite Z.ones_equiv, Z.shiftl_1_l). by apply Z.land_ones.
Qed.

#[export] Hint Resolve wrapu_range wraps_range : chain.
Create Rewrite HintDb chain.
#[export] Hint Rewrite int_max_spec int_min_spec : chain.

(** ** Exceptions

    A function that may throw returns a [result]; [let!] sequences. The
    constructors of [exn] are the exception classes the program can raise:
    those of the standard library and those of nlohmann::json. *)

Inductive exn : Type :=
| invalid_argument (what : string)
| out_of_range (what : string)
| runtime_error (what : string)
| json_type_error (id : Z) (what : string)
| json_parse_error (what : string)
| json_range_error (what : string).

(** [e.what()] *)
Definition what (e : exn) : string :=
  match e with
  | invalid_argument w | out_of_range w | runtime_error w
  | json_type_error _ w | json_parse_error w | json_range_error w => w
  end.

Inductive result (A : Type) : Type :=
| Ok (a : A)
| Throw (e : exn).
Arguments Ok {A} a.
Arguments Throw {A} e.

Definition rbind {A B} (m : result A) (f : A -> result B) : result B :=
  match m with Ok a => f a | Throw e => Throw e end.

Declare Scope chain_scope.
Delimit Scope chain_scope with chain.
#[global] Open Scope chain_scope.

Notation "'let!' x := m 'in' k" := (rbind m (fun x => k))
  (at level 10, x binder, m at level 100, k at level 200) : chain_scope.

(** [try { m } catch (...) { h }] *)
Definition try_catch {A} (m : result A) (h : exn -> A) : A :=
  match m with Ok a => a | Throw e => h e end.

Fixpoint rmap {A B} (f : A -> result B) (l : list A) : result (list B) :=
  match l with
  | [] => Ok []
  | x :: l => let! y := f x in let! ys := rmap f l in Ok (y :: ys)
  end.

Lemma rbind_ok_inv {A B} (m : result A) (f : A -> result B) b :
  rbind m f = Ok b -> exists a, m = Ok a /\ f a = Ok b.
Proof. destruct m; simpl; [eauto | discriminate]. Qed.

Lemma rmap_map {A B} (f : A -> result B) (g : A -> B) (l : list A) :
  (forall x, x ∈ l -> f x = Ok (g x)) -> rmap f l = Ok (map g l).
Proof.
  induction l as [|x l IH]; intros Hf; [done|].
  simpl. rewrite Hf by set_solver. simpl. rewrite IH by set_solver. done.
Qed.

Lemma rmap_compose {A B C} (f : B -> result C) (g : A -> B) (l : list A) :
  rmap f (map g l) = rmap (fun x => f (g x)) l.
Proof. induction l as [|x l IH]; simpl; [done|]. by rewrite IH. Qed.

(** ** Proof automation *)

(** Case analysis on the head test of a goal or hypothesis, keeping equations. *)
Ltac case_if :=
  match goal with
  | |- context [if ?b then _ else _] => let E := fresh "E" in destruct b eqn:E
  end.

Ltac case_if_in H :=
  match type of H with
  | context [if ?b then _ else _] => let E := fresh "E" in destruct b eqn:E
  end.

(** Turn the boolean guards of the code into propositions. *)
Ltac bool_to_prop :=
  repeat match goal with
  | H : _ && _ = true |- _ => apply andb_prop in H; destruct H
  | H : _ || _ = false |- _ => apply orb_false_elim in H; destruct H
  | H : negb _ = true |- _ => apply negb_true_iff in H
  | H : negb _ = false |- _ => apply negb_false_iff in H
  | H : (_ =? _) = true |- _ => apply Z.eqb_eq in H
  | H : (_ =? _) = false |- _ => apply Z.eqb_neq in H
  | H : (_ <? _) = true |- _ => apply Z.ltb_lt in H
  | H : (_ <? _) = false |- _ => apply Z.ltb_ge in H
  | H : (_ <=? _) = true |- _ => apply Z.leb_le in H
  | H : (_ <=? _) = false |- _ => apply Z.leb_gt in H
  | H : String.eqb _ _ = true |- _ => apply String.eqb_eq in H
  | H : String.eqb _ _ = false |- _ => apply String.eqb_neq in H
  | H : bool_decide _ = true |- _ => apply bool_decide_eq_true in H
  | H : bool_decide _ = false |- _ => apply bool_decide_eq_false in H
  end.

(** Follow a chain of guarded early returns to the branch that was taken. *)
Ltac guards H :=
  repeat (case_if_in H; try discriminate H); bool_to_prop.


(** ** Strings

    [std::string] is [String.string]: a sequence of bytes. *)

#[global] Arguments String.append : simpl nomatch.

Fixpoint str_repeat (n : nat) (c : ascii) : string :=
  match n with O => EmptyString | S n => String c (str_repeat n c) end.

Fixpoint str_forallb (p : ascii -> bool) (s : string) : bool :=
  match s with EmptyString => true | String c s => p c && str_forallb p s end.

Fixpoint str_map (f : ascii -> ascii) (s : string) : string :=
  match s with EmptyString => EmptyString | String c s => String (f c) (str_map f s) end.

(** [s.empty()] *)
Definition str_empty (s : string) : bool :=
  match s with EmptyString => true | _ => false end.

(** [s.find(c)], [s.rfind(c)] for one character; [None] is [npos]. *)
Fixpoint str_find (c : ascii) (s : string) : option nat :=
  match s with
  | EmptyString => None
  | String d s => if Ascii.eqb d c then Some O else S <$> str_find c s
  end.

Fixpoint str_rfind (c : ascii) (s : string) : option nat :=
  match s with
  | EmptyString => None
  | String d s =>
      match str_rfind c s with
      | Some i => Some (S i)
      | None => if Ascii.eqb d c then Some O else None
      end
  end.

(** The suffix from position [n], and the prefix of length [n]. *)
Fixpoint str_drop (n : nat) (s : string) : string :=
  match n, s with
  | O, _ => s
  | S _, EmptyString => EmptyString
  | S n, String _ s => str_drop n s
  end.

Fixpoint str_take (n : nat) (s : string) : string :=
  match n, s with
  | O, _ => EmptyString
  | S _, EmptyString => EmptyString
  | S n, String c s => String c (str_take n s)
  end.

(** [s.substr(pos, len)]: throws when [pos] is past the end. *)
Definition substr (pos len : nat) (s : string) : result string :=
  if decide (pos <= String.length s)%nat then Ok (str_take len (str_drop pos s))
  else Throw (out_of_range "basic_string::substr").

(** Repeated [std::getline(stream, field, c)]: the fields between separators;
    a separator at the very end opens no further field. *)
Fixpoint str_split (c : ascii) (cur : string) (s : string) : list string :=
  match s with
  | EmptyString => if str_empty cur then [] else [cur]
  | String d s =>
      if Ascii.eqb d c then cur :: str_split c EmptyString s
      else str_split c (cur +:+ String d EmptyString) s
  end.
Definition getlines (c : ascii) (s : string) : list string := str_split c EmptyString s.

(** Character classes of [<cctype>] in the C locale. *)
Definition code (c : ascii) : Z := Z.of_N (N_of_ascii c).
Definition chr (z : Z) : ascii := ascii_of_N (Z.to_N (z mod 256)).

Definition is_digit (c : ascii) : bool := (48 <=? code c) && (code c <=? 57).
Definition is_upper (c : ascii) : bool := (65 <=? code c) && (code c <=? 90).
Definition is_space (c : ascii) : bool :=
  (code c =? 32) || ((9 <=? code c) && (code c <=? 13)).

Definition hex_val (c : ascii) : option Z :=
  let n := code c in
  if (48 <=? n) && (n <=? 57) then Some (n - 48)
  else if (97 <=? n) && (n <=? 102) then Some (n - 87)
  else if (65 <=? n) && (n <=? 70) then Some (n - 55)
  else None.
Definition is_xdigit (c : ascii) : bool :=
  match hex_val c with Some _ => true | None => false end.

Definition tolower (c : ascii) : ascii := if is_upper c then chr (code c + 32) else c.

(** [std::to_string] and [operator<<] on integers. *)
Definition to_string (z : Z) : string := pretty z.

(** [std::stoi]/[std::stoul] read: blanks, a sign, then digits. *)
Fixpoint skip_spaces (s : string) : string :=
  match s with
  | String c s' => if is_space c then skip_spaces s' else s
  | EmptyString => s
  end.

Fixpoint read_digits (acc : option Z) (s : string) : option Z :=
  match s with
  | String c s' =>
      if is_digit c
      then read_digits (Some (10 * default 0 acc + (code c - 48))) s'
      else acc
  | EmptyString => acc
  end.

(** An optional sign: whether it was a minus, and the rest. *)
Definition strip_sign (s : string) : bool * string :=
  match s with
  | String c s' =>
      if Ascii.eqb c "-" then (true, s')
      else if Ascii.eqb c "+" then (false, s')
      else (false, s)
  | EmptyString => (false, s)
  end.

(** The value [strtol]/[strtoul] reads before any range check, [None] when there
    is no number. *)
Definition read_int (s : string) : option Z :=
  let '(neg, s') := strip_sign (skip_spaces s) in
  (if neg then Z.opp else id) <$> read_digits None s'.

Definition stoi (s : string) : result Z :=
  match read_int s with
  | None => Throw (invalid_argument "stoi")
  | Some z => if (- 2 ^ 31 <=? z) && (z <? 2 ^ 31) then Ok z else Throw (out_of_range "stoi")
  end.

(** [std::stoul] with a 64-bit [unsigned long]: a minus sign negates modulo 2^64. *)
Definition stoul (s : string) : result Z :=
  match read_int s with
  | None => Throw (invalid_argument "stoul")
  | Some z => if Z.abs z <? 2 ^ 64 then Ok (u64 z) else Throw (out_of_range "stoul")
  end.

(** [operator<] on [std::string], the order of [std::map] and [std::set] keys. *)
Definition str_lt (a b : string) : bool := String.ltb a b.

(** The keys of a [std::map]/[std::set] in iteration order. *)
Definition sorted_keys (s : gset string) : list string := merge_sort String.le (elements s).

(** *** Lemmas on strings *)

Lemma str_length_app a b : String.length (a +:+ b) = (String.length a + String.length b)%nat.
Proof. induction a as [|c a IH]; simpl; [done|]. by rewrite IH. Qed.

Lemma str_app_nil_r a : a +:+ EmptyString = a.
Proof. induction a as [|c a IH]; simpl; [done|]. by rewrite IH. Qed.

Lemma str_app_assoc a b c : (a +:+ b) +:+ c = a +:+ (b +:+ c).
Proof. induction a as [|x a IH]; simpl; [done|]. by rewrite IH. Qed.

Lemma str_length_repeat n c : String.length (str_repeat n c) = n.
Proof. induction n as [|n IH]; simpl; [done|]. by rewrite IH. Qed.

Lemma str_length_map f s : String.length (str_map f s) = String.length s.
Proof. induction s as [|c s IH]; simpl; [done|]. by rewrite IH. Qed.

Lemma str_length_take n s : String.length (str_take n s) = Nat.min n (String.length s).
Proof. revert s; induction n as [|n IH]; intros [|c s]; simpl; [done..|]. by rewrite IH. Qed.

Lemma str_take_drop n s : str_take n s +:+ str_drop n s = s.
Proof. revert s; induction n as [|n IH]; intros [|c s]; simpl; [done..|]. by rewrite IH. Qed.

Lemma str_take_app n a b : String.length a = n -> str_take n (a +:+ b) = a.
Proof. intros <-. induction a as [|c a IH]; simpl; [by destruct b|]. by rewrite IH. Qed.

Lemma str_drop_app n a b : String.length a = n -> str_drop n (a +:+ b) = b.
Proof. intros <-. induction a as [|c a IH]; simpl; [by destruct b|]. by rewrite IH. Qed.

Lemma str_take_all n s : (String.length s <= n)%nat -> str_take n s = s.
Proof.
  revert s; induction n as [|n IH]; intros [|c s] ?; simpl in *; try done; [lia|].
  rewrite IH; [done|lia].
Qed.

Lemma str_app_inj a1 a2 b1 b2 :
  String.length a1 = String.length a2 -> a1 +:+ b1 = a2 +:+ b2 -> a1 = a2 /\ b1 = b2.
Proof.
  revert a2; induction a1 as [|c a1 IH]; intros [|d a2] Hl He; simpl in *; try done.
  injection He as -> He. injection Hl as Hl. destruct (IH _ Hl He) as [-> ->]. done.
Qed.

Lemma str_empty_spec s : str_empty s = bool_decide (s = EmptyString).
Proof. by destruct s. Qed.

Lemma str_empty_false s : str_empty s = false <-> s <> EmptyString.
Proof. by destruct s. Qed.

Lemma str_forallb_app p a b : str_forallb p (a +:+ b) = str_forallb p a && str_forallb p b.
Proof. induction a as [|c a IH]; simpl; [done|]. by rewrite IH, andb_assoc. Qed.

Lemma str_rfind_app_none c a b :
  str_rfind c b = None ->
  str_rfind c (a +:+ String c b) = Some (String.length a).
Proof.
  intros Hb. induction a as [|d a IH]; simpl.
  - by rewrite Hb, Ascii.eqb_refl.
  - by rewrite IH.
Qed.

Lemma str_rfind_forallb p c s : p c = false -> str_forallb p s = true -> str_rfind c s = None.
Proof.
  intros Hc. induction s as [|d s IH]; simpl; [done|].
  intros [Hd Hs]%andb_prop. rewrite IH by done.
  destruct (Ascii.eqb_spec d c) as [->|]; congruence.
Qed.

(** *** Decimal output *)

Lemma pretty_N_char_code n : (n < 10)%N -> code (pretty_N_char n) = 48 + Z.of_N n.
Proof.
  intros Hn. assert (Hin : In n (map N.of_nat (seq 0 10))).
  { apply in_map_iff. exists (N.to_nat n). split; [lia|]. apply in_seq. lia. }
  simpl in Hin. repeat (destruct Hin as [<-|Hin]; [reflexivity|]). done.
Qed.

Lemma is_digit_pretty n : (n < 10)%N -> is_digit (pretty_N_char n) = true.
Proof. intros. unfold is_digit. rewrite pretty_N_char_code by done. lia. Qed.

Lemma pretty_N_go_digits n s :
  str_forallb is_digit s = true -> str_forallb is_digit (pretty_N_go n s) = true.
Proof.
  revert s. induction (N.lt_wf_0 n) as [n _ IH]; intros s Hs.
  destruct (decide (n = 0)%N) as [->|]; [done|].
  rewrite pretty_N_go_step by lia. apply IH; [apply N.div_lt; lia|].
  simpl. rewrite is_digit_pretty, Hs; [done|]. apply N.mod_lt; lia.
Qed.

Lemma pretty_N_go_length n s :
  String.length (pretty_N_go n s) = (String.length (pretty_N_go n "") + String.length s)%nat.
Proof.
  revert s. induction (N.lt_wf_0 n) as [n _ IH]; intros s.
  destruct (decide (n = 0)%N) as [->|]; [done|].
  rewrite (pretty_N_go_step n s), (pretty_N_go_step n "") by lia.
  rewrite (IH (n `div` 10)%N) by (apply N.div_lt; lia).
  rewrite (IH (n `div` 10)%N) with (s := String _ "") by (apply N.div_lt; lia). simpl. lia.
Qed.

(** Reading digits back. *)
Lemma read_digits_go n s acc :
  n <> 0%N ->
  read_digits acc (pretty_N_go n s) =
  read_digits (Some (10 ^ Z.of_nat (String.length (pretty_N_go n "")) * default 0 acc
                     + Z.of_N n)) s.
Proof.
  revert s acc. induction (N.lt_wf_0 n) as [n _ IH]; intros s acc Hn.
  rewrite (pretty_N_go_step n s), (pretty_N_go_step n "") by lia.
  rewrite pretty_N_go_length. simpl String.length.
  assert (Hm : (n `mod` 10 < 10)%N) by (apply N.mod_lt; lia).
  pose proof (f_equal Z.of_N (N.div_mod n 10 ltac:(lia))) as Hdm.
  rewrite N2Z.inj_add, N2Z.inj_mul in Hdm.
  rewrite Nat2Z.inj_add, Z.pow_add_r by lia. change (10 ^ Z.of_nat 1) with 10.
  destruct (decide (n `div` 10 = 0)%N) as [Hd|Hd].
  - rewrite Hd in *. rewrite pretty_N_go_0. simpl.
    rewrite is_digit_pretty, pretty_N_char_code by done. do 2 f_equal. lia.
  - rewrite IH by (done || (apply N.div_lt; lia)). simpl.
    rewrite is_digit_pretty, pretty_N_char_code by done. do 2 f_equal. simpl. lia.
Qed.

Lemma to_string_digits z : 0 <= z -> str_forallb is_digit (to_string z) = true.
Proof.
  intros. unfold to_string, pretty, pretty_Z. destruct z as [|p|p]; [done| |lia].
  unfold pretty, pretty_positive, pretty, pretty_N. rewrite decide_False by done.
  by apply pretty_N_go_digits.
Qed.

Lemma read_digits_to_string z : 0 <= z -> read_digits None (to_string z) = Some z.
Proof.
  intros. unfold to_string, pretty, pretty_Z. destruct z as [|p|p]; [done| |lia].
  unfold pretty, pretty_positive, pretty, pretty_N. rewrite decide_False by done.
  rewrite read_digits_go by done. simpl. f_equal. lia.
Qed.

Lemma to_string_head z : 0 <= z -> exists c s, to_string z = String c s /\ is_digit c = true.
Proof.
  intros Hz. pose proof (to_string_digits z Hz) as Hd.
  pose proof (read_digits_to_string z Hz) as Hr.
  destruct (to_string z) as [|c s] eqn:E; [done|]. exists c, s. split; [done|].
  simpl in Hd. by apply andb_prop in Hd as [? _].
Qed.

Lemma read_int_to_string z : 0 <= z -> read_int (to_string z) = Some z.
Proof.
  intros Hz. destruct (to_string_head z Hz) as (c & s & E & Hc).
  unfold read_int. rewrite E. simpl.
  assert (is_space c = false) as ->.
  { unfold is_space, is_digit in *. lia. }
  simpl. destruct (Ascii.eqb_spec c "-") as [->|]; [done|].
  destruct (Ascii.eqb_spec c "+") as [->|]; [done|].
  rewrite <- E, read_digits_to_string by done. done.
Qed.

Lemma stoi_to_string z : 0 <= z < 2 ^ 31 -> stoi (to_string z) = Ok z.
Proof.
  intros. unfold stoi. rewrite read_int_to_string by lia.
  replace ((- 2 ^ 31 <=? z) && (z <? 2 ^ 31)) with true by lia. done.
Qed.

Lemma to_string_inj a b : to_string a = to_string b -> a = b.
Proof. unfold to_string. apply (inj pretty). Qed.

(** *** Bytes of a string *)

Fixpoint str_bytes (s : string) : list Z :=
  match s with EmptyString => [] | String c s => code c :: str_bytes s end.

Fixpoint bytes_str (bs : list Z) : string :=
  match bs with [] => EmptyString | b :: bs => String (chr b) (bytes_str bs) end.

Lemma code_range c : in_u 8 (code c).
Proof. unfold in_u, code. pose proof (N_ascii_bounded c). lia. Qed.

Lemma chr_code c : chr (code c) = c.
Proof.
  pose proof (code_range c) as Hc. unfold in_u in Hc. unfold chr.
  rewrite Z.mod_small by done. unfold code. rewrite N2Z.id. apply ascii_N_embedding.
Qed.

Lemma code_chr z : in_u 8 z -> code (chr z) = z.
Proof.
  unfold in_u, code, chr. intros. rewrite Z.mod_small by done.
  rewrite N_ascii_embedding by lia. lia.
Qed.

Lemma str_bytes_range s : Forall (in_u 8) (str_bytes s).
Proof. induction s; simpl; constructor; auto using code_range. Qed.

Lemma bytes_str_bytes s : bytes_str (str_bytes s) = s.
Proof. induction s as [|c s IH]; simpl; [done|]. by rewrite chr_code, IH. Qed.

Lemma tolower_idemp c : tolower (tolower c) = tolower c.
Proof. destruct c as [[] [] [] [] [] [] [] []]; reflexivity. Qed.

Lemma str_map_tolower_idemp s : str_map tolower (str_map tolower s) = str_map tolower s.
Proof. induction s as [|c s IH]; simpl; [done|]. by rewrite tolower_idemp, IH. Qed.
