(* ===== verification/Crypto.v ===== *)
(** * Crypto: src/src/crypto/sha256.cpp and src/src/crypto/ecdsa.cpp

    OpenSSL is outside the repository: the class [OpenSSL] lists the calls the
    program makes as parameters of the model, and [OpenSSLSpec] the documented
    behaviour some theorems rely on. Everything the repository itself does
    around those calls (hex coding, hashing before signing, error branches) is
    translated. Allocation failures of OpenSSL objects ([EVP_MD_CTX_new],
    [EC_KEY_new_by_curve_name]) are not modelled. [ToyOpenSSL] is a concrete
    instance on which the witnesses of the development evaluate. *)

From S2P Require Import Prelude.

(** ** The OpenSSL interface *)

Class OpenSSL : Type := {
  BIGNUM : Type;
  EC_POINT : Type;
  ECDSA_SIG : Type;
  EVP_sha256 : string -> list Z;                       (* digest bytes *)
  BN_hex2bn : string -> option BIGNUM;
  EC_KEY_generate_key : Z -> option BIGNUM;            (* entropy *)
  BN_bn2hex : BIGNUM -> string;
  EC_KEY_set_private_key : BIGNUM -> bool;
  EC_POINT_mul : BIGNUM -> option EC_POINT;            (* times the generator *)
  EC_KEY_set_public_key : EC_POINT -> bool;
  EC_POINT_point2hex : EC_POINT -> option string;
  EC_POINT_hex2point : string -> option EC_POINT;
  ECDSA_do_sign : Z -> list Z -> BIGNUM -> EC_POINT -> option ECDSA_SIG;  (* entropy first *)
  ECDSA_do_verify : list Z -> ECDSA_SIG -> EC_POINT -> Z;
  i2d_ECDSA_SIG : ECDSA_SIG -> list Z;
  d2i_ECDSA_SIG : list Z -> option ECDSA_SIG;
}.

Class OpenSSLSpec (O : OpenSSL) : Prop := {
  EVP_sha256_length : forall s, length (EVP_sha256 s) = 32%nat;
  EVP_sha256_bytes : forall s, Forall (in_u 8) (EVP_sha256 s);
  i2d_bytes : forall sig, Forall (in_u 8) (i2d_ECDSA_SIG sig);
  i2d_nonempty : forall sig, i2d_ECDSA_SIG sig <> [];
  d2i_i2d : forall sig, d2i_ECDSA_SIG (i2d_ECDSA_SIG sig) = Some sig;
  set_public_ok : forall bn pt, EC_POINT_mul bn = Some pt -> EC_KEY_set_public_key pt = true;
  verify_sign : forall ent h bn pt sig,
    EC_POINT_mul bn = Some pt -> ECDSA_do_sign ent h bn pt = Some sig ->
    ECDSA_do_verify h sig pt = 1;
  hex2point_point2hex : forall bn pt hex,
    EC_POINT_mul bn = Some pt -> EC_POINT_point2hex pt = Some hex ->
    EC_POINT_hex2point (str_map tolower hex) = Some pt;
}.

(** ** Hex coding *)

(** [ss << std::hex << two_chars; ss >> byte]: the number the stream extracts;
    a failed extraction stores 0 (for two blanks the C++ variable would stay
    uninitialised; the model takes 0 there too). *)
Fixpoint read_xdigits (acc : option Z) (s : string) : option Z :=
  match s with
  | String c s' =>
      match hex_val c with
      | Some d => read_xdigits (Some (16 * default 0 acc + d)) s'
      | None => acc
      end
  | EmptyString => acc
  end.

Definition stream_hex (s : string) : Z :=
  let '(neg, s') := strip_sign (skip_spaces s) in
  let v := default 0 (read_xdigits None s') in
  if neg then u32 (- v) else v.

(** The loop [for (i = 0; i < hex.size(); i += 2)] on an even-length string. *)
Fixpoint hex_pairs (s : string) : list Z :=
  match s with
  | String a (String b s') => u8 (stream_hex (String a (String b EmptyString))) :: hex_pairs s'
  | _ => []
  end.

Definition hexToBytes (hex : string) : result (list Z) :=
  if Nat.eqb (String.length hex `mod` 2) 0
  then Ok (hex_pairs hex)
  else Throw (invalid_argument "Hex string must have even length").

(** One hex digit as [std::hex] prints it. *)
Definition hex_digit (d : Z) : ascii := if d <? 10 then chr (48 + d) else chr (87 + d).

(** [std::hex << std::setw(2) << std::setfill('0')] of one byte. *)
Definition byte_hex (b : Z) : string :=
  String (hex_digit (b / 16)) (String (hex_digit (b mod 16)) EmptyString).

Fixpoint bytesToHex (bytes : list Z) : string :=
  match bytes with [] => EmptyString | b :: bs => byte_hex b +:+ bytesToHex bs end.

Definition is_lower_xdigit (c : ascii) : bool := is_xdigit c && negb (is_upper c).

Section crypto.
Context `{OS : OpenSSL}.

(** ** SHA-256 *)
Definition sha256 (data : string) : string := bytesToHex (EVP_sha256 data).

Definition doubleSha256 (data : string) : string := sha256 (sha256 data).

(** ** Keys *)
Record KeyPair := mkKeyPair { kp_privateKey : string; kp_publicKey : string }.

Definition generateKeyPair (entropy : Z) : result KeyPair :=
  match EC_KEY_generate_key entropy with
  | None => Throw (runtime_error "Failed to generate EC key pair")
  | Some privBN =>
      match EC_POINT_mul privBN with
      | None => Throw (runtime_error "Failed to generate EC key pair")
      | Some pubPoint =>
          match EC_POINT_point2hex pubPoint with
          | None => Throw (runtime_error "Failed to convert public key to hex")
          | Some pubHex =>
              Ok (mkKeyPair (str_map tolower (BN_bn2hex privBN)) (str_map tolower pubHex))
          end
      end
  end.

(** ** Signing: hash the message, rebuild the key, sign, DER-encode, hex. *)
Definition sign (entropy : Z) (message privateKeyHex : string) : result string :=
  let hashHex := sha256 message in
  let! hashBytes := hexToBytes hashHex in
  match BN_hex2bn privateKeyHex with
  | None => Throw (runtime_error "Failed to parse private key hex")
  | Some privBN =>
      if negb (EC_KEY_set_private_key privBN)
      then Throw (runtime_error "Failed to set private key")
      else match EC_POINT_mul privBN with
      | None => Throw (runtime_error "Failed to derive public key")
      | Some pubPoint =>
          if negb (EC_KEY_set_public_key pubPoint)
          then Throw (runtime_error "Failed to set public key")
          else match ECDSA_do_sign entropy hashBytes privBN pubPoint with
          | None => Throw (runtime_error "Failed to create ECDSA signature")
          | Some sig =>
              let derSig := i2d_ECDSA_SIG sig in
              if Nat.eqb (length derSig) 0
              then Throw (runtime_error "Failed to get DER length")
              else Ok (bytesToHex derSig)
          end
      end
  end.

(** ** Verification: the whole body is a [try] whose [catch (...)] returns false. *)
Definition verify (message signatureHex publicKeyHex : string) : bool :=
  try_catch
    (let hashHex := sha256 message in
     let! hashBytes := hexToBytes hashHex in
     let! sigBytes := hexToBytes signatureHex in
     match d2i_ECDSA_SIG sigBytes with
     | None => Ok false
     | Some sig =>
         match EC_POINT_hex2point publicKeyHex with
         | None => Ok false
         | Some pubPoint =>
             if negb (EC_KEY_set_public_key pubPoint) then Ok false
             else Ok (ECDSA_do_verify hashBytes sig pubPoint =? 1)
         end
     end)
    (fun _ => false).

(** The V2 wallet address and the legacy one (transaction.cpp, helper
    functions; [WalletManager::addressFromPublicKey] is the same text). *)
Definition deriveAddressV2 (publicKey : string) : string :=
  let digest := sha256 publicKey in
  "PCN_" +:+ str_take 40 digest.

Definition deriveAddressLegacy (publicKey : string) : string := sha256 publicKey.
End crypto.

(** ** Lemmas *)

Lemma hex_val_digit d : 0 <= d < 16 -> hex_val (hex_digit d) = Some d.
Proof.
  intros. assert (Hd : In d (map Z.of_nat (seq 0 16))).
  { apply in_map_iff. exists (Z.to_nat d). split; [lia|]. apply in_seq. lia. }
  simpl in Hd. repeat (destruct Hd as [<-|Hd]; [reflexivity|]). done.
Qed.

Lemma hex_digit_plain d : 0 <= d < 16 ->
  is_space (hex_digit d) = false /\ hex_digit d <> "-"%char /\ hex_digit d <> "+"%char /\
  is_lower_xdigit (hex_digit d) = true.
Proof.
  intros. assert (Hd : In d (map Z.of_nat (seq 0 16))).
  { apply in_map_iff. exists (Z.to_nat d). split; [lia|]. apply in_seq. lia. }
  simpl in Hd. repeat (destruct Hd as [<-|Hd]; [by repeat split|]). done.
Qed.

Lemma byte_hex_length b : String.length (byte_hex b) = 2%nat.
Proof. done. Qed.

Lemma stream_hex_byte b : in_u 8 b -> stream_hex (byte_hex b) = b.
Proof.
  unfold in_u. intros. assert (0 <= b / 16 < 16) by (split; [apply Z.div_pos|apply Z.div_lt_upper_bound]; lia).
  assert (0 <= b mod 16 < 16) by (apply Z.mod_pos_bound; lia).
  destruct (hex_digit_plain (b / 16)) as (Hs & Hm & Hp & _); [done|].
  unfold stream_hex, byte_hex. simpl. rewrite Hs. simpl.
  destruct (Ascii.eqb_spec (hex_digit (b / 16)) "-") as [|_]; [done|].
  destruct (Ascii.eqb_spec (hex_digit (b / 16)) "+") as [|_]; [done|]. simpl.
  rewrite hex_val_digit by done. simpl.
  rewrite hex_val_digit by done. simpl. rewrite (Z.div_mod b 16) at 3 by lia. lia.
Qed.

Lemma bytesToHex_length bs : String.length (bytesToHex bs) = (2 * length bs)%nat.
Proof.
  induction bs as [|b bs IH]; [done|]. simpl. rewrite IH. lia.
Qed.

Lemma hex_pairs_bytesToHex bs : Forall (in_u 8) bs -> hex_pairs (bytesToHex bs) = bs.
Proof.
  induction 1 as [|b bs Hb _ IH]; [done|]. simpl. rewrite IH. f_equal.
  fold (byte_hex b). rewrite stream_hex_byte by done. by apply wrapu_small.
Qed.

Lemma hexToBytes_bytesToHex bs :
  Forall (in_u 8) bs -> hexToBytes (bytesToHex bs) = Ok bs.
Proof.
  intros. unfold hexToBytes. rewrite bytesToHex_length.
  rewrite Nat.mul_comm, Nat.Div0.mod_mul. simpl. by rewrite hex_pairs_bytesToHex.
Qed.

Lemma bytesToHex_lower bs :
  Forall (in_u 8) bs -> str_forallb is_lower_xdigit (bytesToHex bs) = true.
Proof.
  unfold in_u. induction 1 as [|b bs Hb _ IH]; [done|]. simpl.
  assert (0 <= b / 16 < 16) by (split; [apply Z.div_pos|apply Z.div_lt_upper_bound]; lia).
  assert (0 <= b mod 16 < 16) by (apply Z.mod_pos_bound; lia).
  destruct (hex_digit_plain (b / 16)) as (_ & _ & _ & ->); [done|].
  destruct (hex_digit_plain (b mod 16)) as (_ & _ & _ & ->); [done|]. done.
Qed.

Section crypto_lemmas.
Context `{OS : OpenSSL} {OSS : OpenSSLSpec OS}.

Lemma sha256_length s : String.length (sha256 s) = 64%nat.
Proof. unfold sha256. by rewrite bytesToHex_length, EVP_sha256_length. Qed.

Lemma sha256_lower s : str_forallb is_lower_xdigit (sha256 s) = true.
Proof. unfold sha256. apply bytesToHex_lower, EVP_sha256_bytes. Qed.

Lemma sha256_nonempty s : sha256 s <> EmptyString.
Proof. intros H. pose proof (sha256_length s) as Hl. by rewrite H in Hl. Qed.

Lemma hexToBytes_sha256 s : hexToBytes (sha256 s) = Ok (EVP_sha256 s).
Proof. unfold sha256. apply hexToBytes_bytesToHex, EVP_sha256_bytes. Qed.

Lemma deriveAddressV2_length pk : String.length (deriveAddressV2 pk) = 44%nat.
Proof. unfold deriveAddressV2. by rewrite str_length_app, str_length_take, sha256_length. Qed.

Lemma deriveAddressV2_not_legacy pk pk' : deriveAddressV2 pk <> deriveAddressLegacy pk'.
Proof.
  intros H. apply (f_equal String.length) in H.
  by rewrite deriveAddressV2_length in H; unfold deriveAddressLegacy in H; rewrite sha256_length in H.
Qed.
End crypto_lemmas.

#[export] Hint Resolve sha256_length sha256_lower sha256_nonempty deriveAddressV2_length : chain.

(** ** A concrete instance

    A small mixing function stands for SHA-256 and a keyed digest for ECDSA, so
    that the hypotheses of [OpenSSLSpec] are met by functions that compute. *)

Module ToyOpenSSL.
Fixpoint mix (h : Z) (s : string) : Z :=
  match s with
  | EmptyString => h
  | String c s' => mix (Z.land (h * 1099511628211 + code c + 1) 18446744073709551615) s'
  end.

Fixpoint split_bytes (n : nat) (z : Z) : list Z :=
  match n with O => [] | S n => z mod 256 :: split_bytes n (z / 256) end.

Lemma split_bytes_length n z : length (split_bytes n z) = n.
Proof. revert z; induction n as [|n IH]; intros z; simpl; auto. Qed.

Lemma split_bytes_range n z : Forall (in_u 8) (split_bytes n z).
Proof.
  revert z; induction n as [|n IH]; intros z; simpl; constructor; auto.
  unfold in_u. apply Z.mod_pos_bound. lia.
Qed.

Definition digest (s : string) : list Z :=
  let h := mix 14695981039346656037 s in split_bytes 32 (h * (h / 65536 + 1)).

Lemma digest_length s : length (digest s) = 32%nat.
Proof. apply split_bytes_length. Qed.

Lemma digest_range s : Forall (in_u 8) (digest s).
Proof. apply split_bytes_range. Qed.

Definition hex_key (s : string) : option string :=
  if negb (str_empty s) && str_forallb is_xdigit s then Some (str_map tolower s) else None.

#[export] Instance toy : OpenSSL := {|
  BIGNUM := string;
  EC_POINT := string;
  ECDSA_SIG := string;
  EVP_sha256 := digest;
  BN_hex2bn := hex_key;
  EC_KEY_generate_key := fun ent => Some (bytesToHex (digest (to_string ent)));
  BN_bn2hex := id;
  EC_KEY_set_private_key := fun _ => true;
  EC_POINT_mul := fun bn => Some (str_map tolower ("02" +:+ bn));
  EC_KEY_set_public_key := fun _ => true;
  EC_POINT_point2hex := fun pt => Some pt;
  EC_POINT_hex2point := fun hex => Some hex;
  ECDSA_do_sign := fun _ h _ pt => Some (bytesToHex (digest (pt +:+ bytesToHex h)));
  ECDSA_do_verify := fun h sig pt =>
    if String.eqb sig (bytesToHex (digest (pt +:+ bytesToHex h))) then 1 else 0;
  i2d_ECDSA_SIG := fun sig => 48 :: str_bytes sig;
  d2i_ECDSA_SIG := fun bs => match bs with _ :: sig => Some (bytes_str sig) | [] => None end;
|}.

#[export] Instance toy_spec : OpenSSLSpec toy.
Proof.
  split.
  - exact digest_length.
  - exact digest_range.
  - intros sig. change (Forall (in_u 8) (48 :: str_bytes sig)).
    constructor; [done|apply str_bytes_range].
  - done.
  - intros sig. simpl. by rewrite bytes_str_bytes.
  - done.
  - intros ent h bn pt sig _ [= <-]. unfold ECDSA_do_verify, toy.
    by rewrite String.eqb_refl.
  - intros bn pt hex [= <-] [= <-]. simpl. by rewrite str_map_tolower_idemp.
Qed.
End ToyOpenSSL.
