(* ===== verification/StdTime.v ===== *)
(** * StdTime: the calendar part of the C++ library the program uses

    [std::get_time] with the format ["%Y-%m-%dT%H:%M:%S"], [timegm],
    [gmtime_r] and [std::put_time] with the same format, and
    [system_clock::from_time_t]. Times are integers: seconds for [time_t],
    nanoseconds for a [system_clock] time point. *)

From S2P Require Import Prelude.

Record tm := mkTm {
  tm_year : Z;   (* since 1900 *)
  tm_mon : Z;    (* 0-11 *)
  tm_mday : Z;
  tm_hour : Z;
  tm_min : Z;
  tm_sec : Z
}.

(** ** Calendar arithmetic *)

(** Days from 1970-01-01 to the given proleptic Gregorian date. *)
Definition days_from_civil (y m d : Z) : Z :=
  let y' := if m <=? 2 then y - 1 else y in
  let era := y' / 400 in
  let yoe := y' mod 400 in
  let mp := (m + 9) mod 12 in
  let doy := (153 * mp + 2) / 5 + d - 1 in
  era * 146097 + (yoe * 365 + yoe / 4 - yoe / 100 + doy) - 719468.

Definition timegm (t : tm) : Z :=
  86400 * days_from_civil (tm_year t + 1900) (tm_mon t + 1) (tm_mday t)
  + 3600 * tm_hour t + 60 * tm_min t + tm_sec t.

(** Day of the 400-year era on which a year of the era starts (on March 1). *)
Definition year_start (yoe : Z) : Z := yoe * 365 + yoe / 4 - yoe / 100.

(** Year, month and day of a day number, by the day of the 400-year era. *)
Definition civil_of_doe (doe : Z) : Z * Z * Z :=
  let y0 := doe / 366 in
  let yoe := if (y0 <? 399) && (year_start (y0 + 1) <=? doe) then y0 + 1 else y0 in
  let doy := doe - year_start yoe in
  let mp := (5 * doy + 2) / 153 in
  let d := doy - (153 * mp + 2) / 5 + 1 in
  let m := if mp <? 10 then mp + 3 else mp - 9 in
  ((if m <=? 2 then yoe + 1 else yoe), m, d).

Definition civil_from_days (z : Z) : Z * Z * Z :=
  let era := (z + 719468) / 146097 in
  let '(y, m, d) := civil_of_doe ((z + 719468) mod 146097) in
  (400 * era + y, m, d).

Definition gmtime (t : Z) : tm :=
  let '(y, m, d) := civil_from_days (t / 86400) in
  let s := t mod 86400 in
  mkTm (y - 1900) (m - 1) d (s / 3600) (s / 60 mod 60) (s mod 60).

(** ** [std::put_time(&tm, "%Y-%m-%dT%H:%M:%SZ")] *)

Definition pad2 (z : Z) : string :=
  String (chr (48 + z / 10 mod 10)) (String (chr (48 + z mod 10)) EmptyString).
Definition pad4 (z : Z) : string := pad2 (z / 100) +:+ pad2 (z mod 100).

Definition put_time (t : tm) : string :=
  pad4 (tm_year t + 1900) +:+ "-" +:+ pad2 (tm_mon t + 1) +:+ "-" +:+ pad2 (tm_mday t)
  +:+ "T" +:+ pad2 (tm_hour t) +:+ ":" +:+ pad2 (tm_min t) +:+ ":" +:+ pad2 (tm_sec t)
  +:+ "Z".

(** [to_time_t(system_clock::now())], broken down and printed. *)
Definition iso_now (now_ns : Z) : string := put_time (gmtime (Z.quot now_ns (10 ^ 9))).

(** ** [std::get_time]

    [extract_num] is libstdc++'s [_M_extract_num]: at most [len] digits, each
    prefix checked against the range, and all [len] of them required; a year may
    also have exactly two digits. *)

Fixpoint extract_loop (fuel i : nat) (mult value lo hi : Z) (s : string) : nat * Z * string :=
  match fuel, s with
  | S fuel, String c s' =>
      if is_digit c then
        let value := value * 10 + (code c - 48) in
        let valuec := value * mult in
        if (hi <? valuec) || (valuec + mult <? lo + 1) then (i, value, s)
        else extract_loop fuel (S i) (mult / 10) value lo hi s'
      else (i, value, s)
  | _, _ => (i, value, s)
  end.

Definition extract_num (len : nat) (lo hi : Z) (s : string) : option (Z * string) :=
  let mult := if Nat.eqb len 2 then 10 else if Nat.eqb len 4 then 1000 else 1 in
  let '(i, value, s') := extract_loop len 0 mult 0 lo hi s in
  if Nat.eqb i len then Some (value, s')
  else if Nat.eqb len 4 && Nat.eqb i 2 then Some (value - 100, s')
  else None.

Definition extract_char (c : ascii) (s : string) : option string :=
  match s with
  | String d s' => if Ascii.eqb d c then Some s' else None
  | EmptyString => None
  end.

(** [ss >> std::get_time(&tm, "%Y-%m-%dT%H:%M:%S")]; [None] is [ss.fail()]. *)
Definition get_time (s : string) : option tm :=
  '(y, s) ← extract_num 4 0 9999 (skip_spaces s);
  s ← extract_char "-" s;
  '(mon, s) ← extract_num 2 1 12 s;
  s ← extract_char "-" s;
  '(d, s) ← extract_num 2 1 31 s;
  s ← extract_char "T" s;
  '(h, s) ← extract_num 2 0 23 s;
  s ← extract_char ":" s;
  '(mi, s) ← extract_num 2 0 59 s;
  s ← extract_char ":" s;
  '(sec, s) ← extract_num 2 0 60 s;
  Some (mkTm (if y <? 0 then y + 100 else y - 1900) (mon - 1) d h mi sec).

(** ** [system_clock] *)

(** [from_time_t]: seconds to the 64-bit nanosecond count of the clock. The
    product can leave the range of the type, where C++ leaves the result
    undefined; the model takes the two's complement value compiled code has. *)
Definition from_time_t (t : Z) : Z := i64 (t * 10 ^ 9).

(** [duration_cast<seconds>] truncates toward zero. *)
Definition to_seconds (ns : Z) : Z := Z.quot ns (10 ^ 9).

(** ** Lemmas *)

Lemma year_of_doe doe :
  0 <= doe < 146097 ->
  let y0 := doe / 366 in
  let yoe := if (y0 <? 399) && (year_start (y0 + 1) <=? doe) then y0 + 1 else y0 in
  0 <= yoe <= 399 /\ 0 <= doe - year_start yoe <= 365.
Proof.
  intros Hdoe y0 yoe. subst yoe.
  pose proof (Z.div_mod doe 366 ltac:(lia)) as Hdm.
  pose proof (Z.mod_pos_bound doe 366 ltac:(lia)). fold y0 in Hdm. unfold year_start.
  assert (0 <= y0 < 400) by (subst y0; split; [apply Z.div_pos | apply Z.div_lt_upper_bound]; lia).
  clearbody y0. destruct (_ && _) eqn:E.
  - bool_to_prop. unfold year_start in *. Z.to_euclidean_division_equations. lia.
  - apply andb_false_iff in E. unfold year_start in E. split; [lia|].
    destruct E as [E|E]; bool_to_prop; Z.to_euclidean_division_equations; lia.
Qed.

Lemma month_of_doy doy :
  0 <= doy <= 365 ->
  let mp := (5 * doy + 2) / 153 in
  0 <= mp <= 11 /\ 0 <= doy - (153 * mp + 2) / 5 <= 30.
Proof.
  intros Hdoy mp.
  pose proof (Z.div_mod (5 * doy + 2) 153 ltac:(lia)) as E1.
  pose proof (Z.mod_pos_bound (5 * doy + 2) 153 ltac:(lia)). fold mp in E1. clearbody mp.
  pose proof (Z.div_mod (153 * mp + 2) 5 ltac:(lia)).
  pose proof (Z.mod_pos_bound (153 * mp + 2) 5 ltac:(lia)). lia.
Qed.

Lemma civil_of_doe_spec doe y m d :
  0 <= doe < 146097 -> civil_of_doe doe = (y, m, d) ->
  days_from_civil y m d = doe - 719468 /\ 1 <= m <= 12 /\ 1 <= d <= 31 /\ 0 <= y <= 400.
Proof.
  intros Hdoe. unfold civil_of_doe. pose proof (year_of_doe doe Hdoe) as Hy. simpl in Hy.
  set (yoe := if _ && _ then _ else _) in *. clearbody yoe.
  set (doy := doe - year_start yoe) in *.
  pose proof (month_of_doy doy ltac:(lia)) as Hm. simpl in Hm.
  set (mp := (5 * doy + 2) / 153) in *. clearbody mp.
  intros [= <- <- <-]. unfold days_from_civil.
  destruct (Z.ltb_spec mp 10).
  - replace (mp + 3 <=? 2) with false by lia.
    replace ((mp + 3 + 9) mod 12) with mp by (Z.to_euclidean_division_equations; lia).
    rewrite Z.div_small, Z.mod_small by lia. unfold doy, year_start in *. lia.
  - replace (mp - 9 <=? 2) with true by lia.
    replace ((mp - 9 + 9) mod 12) with mp by (Z.to_euclidean_division_equations; lia).
    replace (yoe + 1 - 1) with yoe by lia.
    rewrite Z.div_small, Z.mod_small by lia. unfold doy, year_start in *. lia.
Qed.

Lemma days_from_civil_era era y m d :
  days_from_civil (400 * era + y) m d = 146097 * era + days_from_civil y m d.
Proof.
  unfold days_from_civil.
  assert (Hd : forall y, (400 * era + y) / 400 = era + y / 400).
  { intros. rewrite Z.mul_comm, Z.div_add_l by lia. done. }
  assert (Hm : forall y, (400 * era + y) mod 400 = y mod 400).
  { intros. rewrite Z.mul_comm, Z.add_comm. apply Z.mod_add. lia. }
  destruct (m <=? 2).
  - replace (400 * era + y - 1) with (400 * era + (y - 1)) by lia. rewrite Hd, Hm. lia.
  - rewrite Hd, Hm. lia.
Qed.

Lemma civil_from_days_spec z y m d :
  civil_from_days z = (y, m, d) ->
  days_from_civil y m d = z /\ 1 <= m <= 12 /\ 1 <= d <= 31 /\
  400 * ((z + 719468) / 146097) <= y <= 400 * ((z + 719468) / 146097) + 400.
Proof.
  unfold civil_from_days. intros H.
  pose proof (Z.mod_pos_bound (z + 719468) 146097 ltac:(lia)) as Hb.
  pose proof (Z.div_mod (z + 719468) 146097 ltac:(lia)) as Hz.
  destruct (civil_of_doe _) as [[y0 m0] d0] eqn:E. injection H as <- <- <-.
  apply civil_of_doe_spec in E as (He & ?); [|done]. rewrite days_from_civil_era, He. lia.
Qed.

Lemma timegm_gmtime t : timegm (gmtime t) = t.
Proof.
  unfold gmtime. destruct (civil_from_days (t / 86400)) as [[y m] d] eqn:E.
  apply civil_from_days_spec in E as (Hd & _). unfold timegm. simpl.
  replace (y - 1900 + 1900) with y by lia. replace (m - 1 + 1) with m by lia. rewrite Hd.
  Z.to_euclidean_division_equations. lia.
Qed.

(** *** Printing and reading back *)

Lemma digit_chr k : 0 <= k < 10 ->
  code (chr (48 + k)) = 48 + k /\ is_digit (chr (48 + k)) = true /\
  is_space (chr (48 + k)) = false.
Proof.
  intros. assert (Hc : code (chr (48 + k)) = 48 + k) by (apply code_chr; unfold in_u; lia).
  unfold is_digit, is_space. rewrite Hc. lia.
Qed.

Lemma extract_pad2 lo hi v s :
  0 <= lo -> lo <= v <= hi -> v < 100 -> extract_num 2 lo hi (pad2 v +:+ s) = Some (v, s).
Proof.
  intros Hlo Hv H100. unfold extract_num, pad2. simpl.
  assert (Hq : v / 10 mod 10 = v / 10).
  { apply Z.mod_small. split; [apply Z.div_pos|apply Z.div_lt_upper_bound]; lia. }
  rewrite Hq.
  pose proof (Z.div_mod v 10 ltac:(lia)). pose proof (Z.mod_pos_bound v 10 ltac:(lia)).
  destruct (digit_chr (v / 10)) as (-> & -> & _);
    [split; [apply Z.div_pos|apply Z.div_lt_upper_bound]; lia|].
  replace (48 + v / 10 - 48) with (v / 10) by lia. change (10 / 10) with 1.
  destruct (digit_chr (v mod 10)) as (-> & -> & _); [lia|].
  match goal with |- context [if ?x then (0%nat, _, _) else _] => replace x with false by lia end.
  match goal with |- context [if ?x then (1%nat, _, _) else _] => replace x with false by lia end.
  simpl. do 2 f_equal. lia.
Qed.

Lemma extract_pad4 v s :
  0 <= v <= 9999 -> extract_num 4 0 9999 (pad4 v +:+ s) = Some (v, s).
Proof.
  intros Hv. unfold extract_num, pad4, pad2. simpl.
  pose proof (Z.div_mod v 100 ltac:(lia)). pose proof (Z.mod_pos_bound v 100 ltac:(lia)).
  set (a := v / 100) in *. set (b := v mod 100) in *.
  assert (0 <= a < 100) by (split; [apply Z.div_pos|apply Z.div_lt_upper_bound]; lia).
  clearbody a b.
  pose proof (Z.div_mod a 10 ltac:(lia)). pose proof (Z.mod_pos_bound a 10 ltac:(lia)).
  pose proof (Z.div_mod b 10 ltac:(lia)). pose proof (Z.mod_pos_bound b 10 ltac:(lia)).
  assert (0 <= a / 10 < 10) by (split; [apply Z.div_pos|apply Z.div_lt_upper_bound]; lia).
  assert (0 <= b / 10 < 10) by (split; [apply Z.div_pos|apply Z.div_lt_upper_bound]; lia).
  rewrite (Z.mod_small (a / 10)), (Z.mod_small (b / 10)) by done.
  destruct (digit_chr (a / 10)) as (-> & -> & _); [lia|].
  destruct (digit_chr (a mod 10)) as (-> & -> & _); [lia|].
  destruct (digit_chr (b / 10)) as (-> & -> & _); [lia|].
  destruct (digit_chr (b mod 10)) as (-> & -> & _); [lia|].
  set (a1 := a / 10) in *. set (a0 := a mod 10) in *.
  set (b1 := b / 10) in *. set (b0 := b mod 10) in *. clearbody a1 a0 b1 b0.
  change (1000 / 10) with 100. change (100 / 10) with 10. change (10 / 10) with 1.
  match goal with |- context [if ?x then (0%nat, _, _) else _] => replace x with false by lia end.
  match goal with |- context [if ?x then (1%nat, _, _) else _] => replace x with false by lia end.
  match goal with |- context [if ?x then (2%nat, _, _) else _] => replace x with false by lia end.
  match goal with |- context [if ?x then (3%nat, _, _) else _] => replace x with false by lia end.
  simpl. do 2 f_equal. lia.
Qed.

Lemma skip_spaces_pad4 v s : 0 <= v -> skip_spaces (pad4 v +:+ s) = pad4 v +:+ s.
Proof.
  intros. unfold pad4, pad2. simpl.
  destruct (digit_chr (v / 100 / 10 mod 10)) as (_ & _ & ->); [by apply Z.mod_pos_bound|done].
Qed.

(** The fields [gmtime] produces. *)
Definition tm_ok (t : tm) : Prop :=
  0 <= tm_year t + 1900 <= 9999 /\ 0 <= tm_mon t <= 11 /\ 1 <= tm_mday t <= 31 /\
  0 <= tm_hour t <= 23 /\ 0 <= tm_min t <= 59 /\ 0 <= tm_sec t <= 59.

#[local] Opaque pad2 pad4 extract_num.

Lemma get_time_put_time t : tm_ok t -> get_time (put_time t) = Some t.
Proof.
  unfold tm_ok. intros (Hy & Hmo & Hd & Hh & Hmi & Hs). unfold get_time, put_time.
  rewrite skip_spaces_pad4 by lia. rewrite extract_pad4 by lia. simpl.
  rewrite extract_pad2 by lia. simpl. rewrite extract_pad2 by lia. simpl.
  rewrite extract_pad2 by lia. simpl. rewrite extract_pad2 by lia. simpl.
  rewrite extract_pad2 by lia. simpl.
  replace (tm_year t + 1900 <? 0) with false by lia.
  destruct t; simpl. do 2 f_equal; lia.
Qed.

(** Seconds of the years 1970 to 9999. *)
Definition time_in_range (t : Z) : Prop := 0 <= t < 253402300800.

Lemma gmtime_ok t : time_in_range t -> tm_ok (gmtime t).
Proof.
  unfold time_in_range. intros Ht. unfold gmtime.
  assert (Hz : 0 <= t / 86400 < 2932897).
  { split; [apply Z.div_pos|apply Z.div_lt_upper_bound]; lia. }
  destruct (civil_from_days (t / 86400)) as [[y m] d] eqn:E.
  pose proof (civil_from_days_spec _ _ _ _ E) as (Hdays & Hm & Hd & Hy).
  assert (Hy9 : 0 <= y <= 9999).
  { split; [assert (0 <= (t / 86400 + 719468) / 146097) by (apply Z.div_pos; lia); lia|].
    destruct (Z.le_gt_cases y 9999) as [|Hgt]; [done|exfalso].
    assert (y = 10000).
    { assert ((t / 86400 + 719468) / 146097 < 25) by (apply Z.div_lt_upper_bound; lia). lia. }
    subst y. clear E Hy Ht. revert Hdays. unfold days_from_civil.
    generalize dependent (t / 86400). intros q Hz.
    assert (0 <= (153 * ((m + 9) mod 12) + 2) / 5) by (apply Z.div_pos; [|lia];
      pose proof (Z.mod_pos_bound (m + 9) 12 ltac:(lia)); lia).
    destruct (Z.leb_spec m 2).
    - change ((10000 - 1) / 400) with 24. change ((10000 - 1) mod 400) with 399.
      assert (306 <= (153 * ((m + 9) mod 12) + 2) / 5).
      { assert (m = 1 \/ m = 2) as [->| ->] by lia; vm_compute; congruence. }
      change (399 / 4) with 99. change (399 / 100) with 3.
      generalize dependent ((153 * ((m + 9) mod 12) + 2) / 5). lia.
    - change (10000 / 400) with 25. change (10000 mod 400) with 0. 
      change (0 / 4) with 0. change (0 / 100) with 0.
      generalize dependent ((153 * ((m + 9) mod 12) + 2) / 5). lia. }
  assert (0 <= t mod 86400 < 86400) by (apply Z.mod_pos_bound; lia).
  unfold tm_ok. simpl.
  assert (0 <= t mod 86400 / 3600 < 24) by (split; [apply Z.div_pos|apply Z.div_lt_upper_bound]; lia).
  pose proof (Z.mod_pos_bound (t mod 86400 / 60) 60 ltac:(lia)).
  pose proof (Z.mod_pos_bound (t mod 86400) 60 ltac:(lia)). lia.
Qed.

(** What [currentTimestamp] prints is read back as the same second. *)
Lemma get_time_iso_now now_ns :
  time_in_range (to_seconds now_ns) ->
  get_time (iso_now now_ns) = Some (gmtime (to_seconds now_ns)).
Proof. intros. unfold iso_now. fold (to_seconds now_ns). by apply get_time_put_time, gmtime_ok. Qed.
