(* ===== verification/Json.v ===== *)
(** * Json: the nlohmann::json values the program builds and reads

    The values of [src/include/utils/json.hpp] and the accessors the program calls
    ([value], [contains], [operator[]] on objects, range-for iteration and the
    [from_json] conversions behind [value]). [JsonText] is the interface of the
    text printer and of the parsers ([dump], [parse], [operator>>]), and
    [JsonTextSpec] what the rest of the program relies on: the files Strtod to
    JsonNlohmann model their code and discharge it. *)

From S2P Require Import Prelude.
From Stdlib Require Import SpecFloat.

Inductive json : Type :=
| JNull
| JBool (b : bool)
| JUnsigned (n : Z)                     (* number_unsigned_t, 64 bit *)
| JInteger (n : Z)                      (* number_integer_t, 64 bit *)
| JFloat (f : spec_float)
| JString (s : string)
| JArray (l : list json)
| JObject (m : list (string * json)).   (* std::map: sorted by key *)

(** ** Objects *)

Fixpoint obj_find (k : string) (m : list (string * json)) : option json :=
  match m with
  | [] => None
  | (k', v) :: m => if String.eqb k k' then Some v else obj_find k m
  end.

(** [object[k] = v]: replace, or insert at the key's place. *)
Fixpoint obj_set (k : string) (v : json) (m : list (string * json)) : list (string * json) :=
  match m with
  | [] => [(k, v)]
  | (k', v') :: m' =>
      if String.eqb k k' then (k, v) :: m'
      else if str_lt k k' then (k, v) :: (k', v') :: m'
      else (k', v') :: obj_set k v m'
  end.

(** [j[k] = v] on a null value or an object (its only uses). *)
Definition json_set (k : string) (v : json) (j : json) : json :=
  match j with
  | JObject m => JObject (obj_set k v m)
  | _ => JObject (obj_set k v [])
  end.

(** [nlohmann::json{{k1, v1}, ...}] *)
Definition json_object (l : list (string * json)) : json :=
  JObject (fold_left (fun m kv => obj_set kv.1 kv.2 m) l []).

Definition is_array (j : json) : bool := match j with JArray _ => true | _ => false end.
Definition is_string (j : json) : bool := match j with JString _ => true | _ => false end.
Definition is_object (j : json) : bool := match j with JObject _ => true | _ => false end.

(** [j.contains(key)] *)
Definition contains (k : string) (j : json) : bool :=
  match j with JObject m => match obj_find k m with Some _ => true | None => false end | _ => false end.

(** [for (const auto &x : j)]: the elements of an array, the values of an
    object, nothing for null, the value itself for a scalar. *)
Definition json_items (j : json) : list json :=
  match j with
  | JArray l => l
  | JObject m => map snd m
  | JNull => []
  | j => [j]
  end.

(** [j.size()] *)
Definition json_size (j : json) : nat := length (json_items j).

(** ** Conversions *)

(** [static_cast] of a double to an integer truncates toward zero (values out of
    range of the target are undefined in C++). *)
Definition trunc_float (f : spec_float) : Z :=
  match f with
  | S754_finite s m e =>
      let z := if 0 <=? e then Z.pos m * 2 ^ e else Z.pos m / 2 ^ (- e) in
      if s then - z else z
  | _ => 0
  end.

(** [j.type_name()] *)
Definition type_name (j : json) : string :=
  match j with
  | JNull => "null"
  | JObject _ => "object"
  | JArray _ => "array"
  | JString _ => "string"
  | JBool _ => "boolean"
  | JUnsigned _ | JInteger _ | JFloat _ => "number"
  end.

(** [exception::name(ename, id)] and [type_error::create(id, what_arg)]. *)
Definition exception_name (ename : string) (id : Z) : string :=
  "[json.exception." +:+ ename +:+ "." +:+ to_string id +:+ "] ".
Definition type_error {A} (id : Z) (what_arg : string) : result A :=
  Throw (json_type_error id (exception_name "type_error" id +:+ what_arg)).

Definition type_must_be {A} (ty : string) (j : json) : result A :=
  type_error 302 ("type must be " +:+ ty +:+ ", but is " +:+ type_name j).

(** [from_json] at [std::string]. *)
Definition get_string (j : json) : result string :=
  match j with JString s => Ok s | _ => type_must_be "string" j end.

(** [from_json] at [uint64_t], [int64_t] ([get_arithmetic_value]): no booleans. *)
Definition get_u64 (j : json) : result Z :=
  match j with
  | JUnsigned n | JInteger n => Ok (u64 n)
  | JFloat f => Ok (u64 (trunc_float f))
  | _ => type_must_be "number" j
  end.

(** [from_json] at the other arithmetic types; [conv] casts to the type. *)
Definition get_arith (conv : Z -> Z) (j : json) : result Z :=
  match j with
  | JUnsigned n | JInteger n => Ok (conv n)
  | JFloat f => Ok (conv (trunc_float f))
  | JBool b => Ok (conv (if b then 1 else 0))
  | _ => type_must_be "number" j
  end.

Definition get_json (j : json) : result json := Ok j.

(** [j.value(key, default)] *)
Definition jvalue {A} (get : json -> result A) (key : string) (def : A) (j : json) : result A :=
  match j with
  | JObject m => match obj_find key m with Some v => get v | None => Ok def end
  | _ => type_error 306 ("cannot use value() with " +:+ type_name j)
  end.

Definition value_string := jvalue get_string.
Definition value_u64 := jvalue get_u64.
Definition value_u32 := jvalue (get_arith u32).
Definition value_u16 := jvalue (get_arith u16).
Definition value_i32 := jvalue (get_arith i32).

(** ** Text *)

Class JsonText : Type := {
  json_dump : option Z -> json -> result string;   (* indentation first *)
  json_parse : string -> result json;
  json_stream : string -> result json;   (* [operator>>]: the first value *)
}.

(** [catch (const nlohmann::json::exception &)] *)
Definition is_json_exn (e : exn) : bool :=
  match e with json_type_error _ _ | json_parse_error _ | json_range_error _ => true | _ => false end.

Definition is_ascii_char (c : ascii) : bool := code c <? 128.
Definition is_ascii (s : string) : bool := str_forallb is_ascii_char s.

(** *** UTF-8 (table 3-7 of the Unicode standard) *)

(** The bytes that may follow a first byte. *)
Definition lead_ranges (c : Z) : option (list (Z * Z)) :=
  if c <? 0x80 then Some []
  else if c <? 0xC2 then None
  else if c <? 0xE0 then Some [(0x80, 0xBF)]
  else if c =? 0xE0 then Some [(0xA0, 0xBF); (0x80, 0xBF)]
  else if c =? 0xED then Some [(0x80, 0x9F); (0x80, 0xBF)]
  else if c <? 0xF0 then Some [(0x80, 0xBF); (0x80, 0xBF)]
  else if c =? 0xF0 then Some [(0x90, 0xBF); (0x80, 0xBF); (0x80, 0xBF)]
  else if c <? 0xF4 then Some [(0x80, 0xBF); (0x80, 0xBF); (0x80, 0xBF)]
  else if c =? 0xF4 then Some [(0x80, 0x8F); (0x80, 0xBF); (0x80, 0xBF)]
  else None.

Definition in_range (c : ascii) (r : Z * Z) : bool := (r.1 <=? code c) && (code c <=? r.2).

(** A text that continues a sequence whose bytes left are in [pending]. *)
Fixpoint utf8_from (pending : list (Z * Z)) (s : string) : bool :=
  match s, pending with
  | EmptyString, [] => true
  | EmptyString, _ => false
  | String c s, [] =>
      match lead_ranges (code c) with Some pending => utf8_from pending s | None => false end
  | String c s, r :: pending => in_range c r && utf8_from pending s
  end.
Definition utf8 (s : string) : bool := utf8_from [] s.

(** Values whose strings and keys are UTF-8. *)
Fixpoint json_utf8 (j : json) : bool :=
  match j with
  | JString s => utf8 s
  | JArray l => forallb json_utf8 l
  | JObject m => forallb (fun kv => utf8 kv.1 && json_utf8 kv.2) m
  | _ => true
  end.

(** *** The contract of the text *)

(** Values that survive a print and a parse unchanged: no floats, non-negative
    integers stored as unsigned, UTF-8 text, keys in strict order. *)
Fixpoint sorted_strict (l : list string) : bool :=
  match l with
  | k1 :: ((k2 :: _) as l') => str_lt k1 k2 && sorted_strict l'
  | _ => true
  end.

Fixpoint json_canonical (j : json) : bool :=
  match j with
  | JNull | JBool _ => true
  | JUnsigned n => (0 <=? n) && (n <? 2 ^ 64)
  | JInteger n => (- 2 ^ 63 <=? n) && (n <? 0)
  | JFloat _ => false
  | JString s => utf8 s
  | JArray l => forallb json_canonical l
  | JObject m =>
      sorted_strict (map fst m) &&
      forallb (fun kv => utf8 (fst kv) && json_canonical (snd kv)) m
  end.

(** What a print and a parse do to integers: a non-negative one is read back as
    unsigned, whatever type it had. *)
Fixpoint json_norm (j : json) : json :=
  match j with
  | JInteger n => if 0 <=? n then JUnsigned n else j
  | JArray l => JArray (map json_norm l)
  | JObject m => JObject (map (fun kv => (fst kv, json_norm (snd kv))) m)
  | _ => j
  end.

(** An indentation the printer supports. *)
Definition indent_ok (indent : option Z) : bool :=
  match indent with Some n => n <=? 512 | None => true end.

(** An exception that the printer raises: type_error 316, with an ASCII text. *)
Definition raises_316 {A} (r : result A) : Prop :=
  exists text, is_ascii text = true /\ r = Throw (json_type_error 316 text).

Definition newline : string := String (chr 10) EmptyString.

(** Printing and parsing back, for the whole text and for a line of a stream; the
    length of an array's text (what the storage's emptiness test looks at);
    printing fails exactly on text that is not UTF-8; what is parsed is UTF-8;
    parsing raises the library's exceptions, whose text quotes the input. *)
Class JsonTextSpec (T : JsonText) : Prop := {
  parse_dump : forall indent j,
    indent_ok indent = true -> json_canonical j = true ->
    exists s, json_dump indent j = Ok s /\ json_parse s = Ok j /\ s <> EmptyString;
  stream_dump : forall indent j s,
    indent_ok indent = true -> json_canonical (json_norm j) = true -> json_dump indent j = Ok s ->
    json_stream (s +:+ newline) = Ok (json_norm j);
  dump_array_length : forall indent j l s,
    indent_ok indent = true -> json_canonical (JArray (j :: l)) = true ->
    json_dump indent (JArray (j :: l)) = Ok s -> (2 < String.length s)%nat;
  dump_utf8 : forall indent j,
    if json_utf8 j then exists s, json_dump indent j = Ok s else raises_316 (json_dump indent j);
  parse_utf8 : forall s j, json_parse s = Ok j -> json_utf8 j = true;
  parse_raises : forall s e, json_parse s = Throw e ->
    is_json_exn e = true /\ (is_ascii s = true -> is_ascii (what e) = true);
}.

(** ** Lemmas *)

Lemma obj_find_set_eq k v m : obj_find k (obj_set k v m) = Some v.
Proof.
  induction m as [|[k' v'] m IH]; simpl; [by rewrite String.eqb_refl|].
  destruct (String.eqb_spec k k') as [->|Hne]; simpl; [by rewrite String.eqb_refl|].
  destruct (str_lt k k'); simpl; [by rewrite String.eqb_refl|].
  destruct (String.eqb_spec k k'); [done|]. apply IH.
Qed.

Lemma obj_find_set_ne k k' v m : k <> k' -> obj_find k (obj_set k' v m) = obj_find k m.
Proof.
  intros Hne. induction m as [|[k0 v0] m IH]; simpl.
  - destruct (String.eqb_spec k k'); done.
  - destruct (String.eqb_spec k' k0) as [->|]; simpl.
    + destruct (String.eqb_spec k k0); done.
    + destruct (str_lt k' k0); simpl; destruct (String.eqb_spec k k'); try done.
      by rewrite IH.
Qed.

(** *** Keys in order *)

Lemma str_lt_leb a b : str_lt a b = negb (String.leb b a).
Proof.
  unfold str_lt, String.ltb, String.leb. rewrite (String.compare_antisym b a).
  by destruct (String.compare a b).
Qed.

Lemma str_lt_trans a b c : str_lt a b = true -> str_lt b c = true -> str_lt a c = true.
Proof.
  rewrite !str_lt_leb, !negb_true_iff. intros H1 H2.
  destruct (String.leb c a) eqn:E; [|done].
  assert (Hbc : String.le b c).
  { destruct (total String.le b c) as [?|H]; [done|]. unfold String.le in H. by rewrite H2 in H. }
  assert (Hba : String.le b a) by (transitivity c; [done|unfold String.le; by rewrite E]).
  unfold String.le in Hba. by rewrite H1 in Hba.
Qed.

Lemma str_lt_asym a b : str_lt a b = true -> str_lt b a = false.
Proof.
  rewrite !str_lt_leb, negb_true_iff. intros H. rewrite negb_false_iff.
  destruct (total String.le a b) as [E|E]; unfold String.le in E;
    [by destruct (String.leb a b)|by rewrite H in E].
Qed.

Lemma str_lt_total a b : String.eqb a b = false -> str_lt a b = false -> str_lt b a = true.
Proof.
  intros Hne. rewrite !str_lt_leb, negb_false_iff, negb_true_iff. intros H.
  destruct (String.leb a b) eqn:E; [|done]. apply String.eqb_neq in Hne. destruct Hne.
  apply (anti_symm String.le); unfold String.le; [by rewrite E|by rewrite H].
Qed.

Lemma sorted_strict_cons k l :
  sorted_strict (k :: l) = true <->
  sorted_strict l = true /\ Forall (fun k' => str_lt k k' = true) l.
Proof.
  revert k. induction l as [|k' l IH]; intros k.
  - simpl. split; [split; [done|constructor]|done].
  - change (sorted_strict (k :: k' :: l)) with (str_lt k k' && sorted_strict (k' :: l)).
    rewrite andb_true_iff. split.
    + intros [H1 H2]. split; [done|]. constructor; [done|].
      apply IH in H2 as [_ H2]. eapply Forall_impl; [exact H2|]. intros x. by apply str_lt_trans.
    + intros [H1 H2]. apply Forall_cons in H2 as [H2 _]. done.
Qed.

Lemma obj_set_keys k v m x : x ∈ map fst (obj_set k v m) -> x = k \/ x ∈ map fst m.
Proof.
  induction m as [|[k' v'] m IH]; simpl; [set_solver|].
  destruct (String.eqb_spec k k') as [->|]; simpl; [set_solver|].
  destruct (str_lt k k'); simpl; set_solver.
Qed.

Lemma obj_set_sorted k v m :
  sorted_strict (map fst m) = true -> sorted_strict (map fst (obj_set k v m)) = true.
Proof.
  induction m as [|[k' v'] m IH]; [done|]. cbn [map fst obj_set].
  rewrite sorted_strict_cons. intros [H1 H2].
  destruct (String.eqb_spec k k') as [->|Hne]; [cbn [map fst]; by rewrite sorted_strict_cons|].
  destruct (str_lt k k') eqn:E; cbn [map fst].
  - rewrite !sorted_strict_cons. split; [done|]. constructor; [done|].
    eapply Forall_impl; [exact H2|]. intros x. by apply str_lt_trans.
  - rewrite sorted_strict_cons. split; [by apply IH|]. apply Forall_forall. intros x Hx.
    apply obj_set_keys in Hx as [->|Hx].
    + apply str_lt_total; [by apply String.eqb_neq|done].
    + rewrite Forall_forall in H2. by apply H2.
Qed.

(** Induction on values, through arrays and objects. *)
Section json_induction.
Variable P : json -> Prop.
Hypothesis Hnull : P JNull.
Hypothesis Hbool : forall b, P (JBool b).
Hypothesis Hunsigned : forall n, P (JUnsigned n).
Hypothesis Hinteger : forall n, P (JInteger n).
Hypothesis Hfloat : forall f, P (JFloat f).
Hypothesis Hstring : forall s, P (JString s).
Hypothesis Harray : forall l, Forall P l -> P (JArray l).
Hypothesis Hobject : forall m, Forall (fun kv => P kv.2) m -> P (JObject m).

Fixpoint json_nested_ind (j : json) : P j :=
  match j with
  | JNull => Hnull
  | JBool b => Hbool b
  | JUnsigned n => Hunsigned n
  | JInteger n => Hinteger n
  | JFloat f => Hfloat f
  | JString s => Hstring s
  | JArray l =>
      Harray l ((fix go l := match l return Forall P l with
                             | [] => Forall_nil_2 P
                             | x :: l => Forall_cons_2 P x l (json_nested_ind x) (go l)
                             end) l)
  | JObject m =>
      Hobject m ((fix go m := match m return Forall (fun kv => P kv.2) m with
                              | [] => Forall_nil_2 _
                              | kv :: m => Forall_cons_2 _ kv m (json_nested_ind kv.2) (go m)
                              end) m)
  end.

End json_induction.

(** ** ASCII and UTF-8 *)

Lemma utf8_from_app pending a b :
  utf8_from pending a = true -> utf8_from pending (a +:+ b) = utf8 b.
Proof.
  revert pending. induction a as [|c a IH]; intros pending Ha; cbn [utf8_from String.append] in *.
  - by destruct pending.
  - destruct pending as [|r pending].
    + destruct (lead_ranges (code c)) as [pending|]; [by apply IH|done].
    + apply andb_prop in Ha as [-> Ha]. by apply IH.
Qed.

Lemma utf8_app a b : utf8 a = true -> utf8 (a +:+ b) = utf8 b.
Proof. apply utf8_from_app. Qed.

Lemma ascii_utf8 s : is_ascii s = true -> utf8 s = true.
Proof.
  unfold is_ascii, utf8. induction s as [|c s IH]; [done|]. cbn [str_forallb utf8_from].
  intros [Hc Hs]%andb_prop. unfold lead_ranges. unfold is_ascii_char in Hc. by rewrite Hc, IH.
Qed.

Lemma is_ascii_app a b : is_ascii (a +:+ b) = is_ascii a && is_ascii b.
Proof. apply str_forallb_app. Qed.

Lemma digit_ascii s : str_forallb is_digit s = true -> is_ascii s = true.
Proof.
  unfold is_ascii. induction s as [|c s IH]; simpl; [done|]. intros [H1 H2]%andb_prop. rewrite IH by done.
  unfold is_digit, is_ascii_char in *. lia.
Qed.

Lemma to_string_ascii z : is_ascii (to_string z) = true.
Proof.
  destruct (Z.leb_spec 0 z); [by apply digit_ascii, to_string_digits|].
  destruct z as [|p|p]; try lia. change (is_ascii (to_string (Z.pos p)) = true).
  by apply digit_ascii, to_string_digits.
Qed.

Lemma bind_316 {A B} (r : result A) (f : A -> result B) : raises_316 r -> raises_316 (let! x := r in f x).
Proof. intros (text & H & ->). by exists text. Qed.

Lemma type_error_316 {A} text : is_ascii text = true -> raises_316 (@type_error A 316 text).
Proof.
  intros H. eexists. split; [|reflexivity]. by rewrite is_ascii_app, H.
Qed.

(** The consequences of [dump_utf8]. *)
Section dumping.
Context `{JTS : JsonTextSpec}.

Lemma dump_total indent j : json_utf8 j = true -> exists s, json_dump indent j = Ok s.
Proof. intros H. pose proof (dump_utf8 indent j) as Hd. by rewrite H in Hd. Qed.

Lemma dump_raises indent j e : json_dump indent j = Throw e -> is_ascii (what e) = true.
Proof.
  intros H. pose proof (dump_utf8 indent j) as Hd. rewrite H in Hd.
  destruct (json_utf8 j); [by destruct Hd|]. by destruct Hd as (text & Ht & [= ->]).
Qed.
End dumping.
