(* ===== verification/Strtod.v ===== *)
(** * Strtod: the conversions of <cstdlib> from text to numbers

    [strtoull] and [strtoll] with their range error, and [strtod]: the double
    nearest to a decimal number, ties to even, which is what the standard asks of
    an implementation with IEEE arithmetic (F.5). The program reaches them through
    the number scanner of nlohmann::json. *)

From S2P Require Import Prelude.
From Stdlib Require Import SpecFloat.
#[local] Open Scope Z_scope.

(** ** Integers

    The value and whether [errno] was set to ERANGE. *)

Definition ULLONG_MAX : Z := 2 ^ 64 - 1.
Definition LLONG_MIN : Z := - 2 ^ 63.
Definition LLONG_MAX : Z := 2 ^ 63 - 1.

Definition strtoull (s : string) : Z * bool :=
  let z := default 0 (read_int s) in
  if ULLONG_MAX <? Z.abs z then (ULLONG_MAX, true) else (u64 z, false).

Definition strtoll (s : string) : Z * bool :=
  let z := default 0 (read_int s) in
  if z <? LLONG_MIN then (LLONG_MIN, true)
  else if LLONG_MAX <? z then (LLONG_MAX, true) else (z, false).

(** ** Reading a decimal number: [(-1)^s * m * 10^e] *)

Record decimal := mkDecimal { dec_sign : bool; dec_digits : Z; dec_exp : Z }.

(** A run of digits: its value appended to [acc], its length, and the rest. *)
Fixpoint digit_run (acc : Z) (n : Z) (s : string) : Z * Z * string :=
  match s with
  | String c s' => if is_digit c then digit_run (10 * acc + (code c - 48)) (n + 1) s' else (acc, n, s)
  | EmptyString => (acc, n, s)
  end.

(** The fraction after a point, and the exponent after an [e]. *)
Definition fraction (acc : Z) (s : string) : Z * Z * string :=
  match s with
  | String c s' => if Ascii.eqb c "." then digit_run acc 0 s' else (acc, 0, s)
  | EmptyString => (acc, 0, s)
  end.

Definition exponent (s : string) : Z :=
  match s with
  | String c s' =>
      if Ascii.eqb c "e" || Ascii.eqb c "E" then
        let '(neg, s') := strip_sign s' in
        let '(e, _, _) := digit_run 0 0 s' in if (neg : bool) then - e else e
      else 0
  | EmptyString => 0
  end.

Definition read_decimal (s : string) : decimal :=
  let '(neg, s) := strip_sign (skip_spaces s) in
  let '(m, _, s) := digit_run 0 0 s in
  let '(m, n, s) := fraction m s in
  mkDecimal neg m (exponent s - n).

(** ** Rounding a positive ratio to binary64 *)

Definition emin : Z := -1074.
Definition emax : Z := 971.

(** [p / (q * 2^e)] as a ratio. *)
Definition scaled (p q e : Z) : Z * Z :=
  if 0 <=? e then (p, q * 2 ^ e) else (p * 2 ^ (- e), q).

Definition round_half_even (n d : Z) : Z :=
  let m := n / d in
  let r := n mod d in
  if 2 * r <? d then m
  else if 2 * r =? d then (if Z.even m then m else m + 1)
  else m + 1.

(** The exponent at which the ratio has 53 bits, or the least one. *)
Definition ratio_exp (p q : Z) : Z :=
  let e := Z.log2 p - Z.log2 q - 53 in
  let '(n, d) := scaled p q e in
  Z.max emin (if 2 ^ 53 * d <=? n then e + 1 else e).

Definition round_at (s : bool) (p q e : Z) : spec_float :=
  let '(n, d) := scaled p q e in
  let m := round_half_even n d in
  let '(m, e) := if 2 ^ 53 <=? m then (2 ^ 52, e + 1) else (m, e) in
  match m with
  | Z.pos m => if emax <? e then S754_infinity s else S754_finite s m e
  | _ => S754_zero s
  end.

Definition round_ratio (s : bool) (p q : Z) : spec_float := round_at s p q (ratio_exp p q).

(** [std::strtod]. Numbers of 10^400 and more are infinite, and those below
    10^-400 are zero, whatever their digits. *)
Definition strtod (str : string) : spec_float :=
  let d := read_decimal str in
  let m := dec_digits d in
  let e := dec_exp d in
  if m =? 0 then S754_zero (dec_sign d)
  else if 400 <? e then S754_infinity (dec_sign d)
  else if e + Z.log2 m <? -400 then S754_zero (dec_sign d)
  else if 0 <=? e then round_ratio (dec_sign d) (m * 10 ^ e) 1
  else round_ratio (dec_sign d) m (10 ^ (- e)).
