(* ===== verification/StrtodFacts.v ===== *)
(** * StrtodFacts: the rounding of strtod

    [round_ratio_near]: whatever lies strictly between the midpoints around a
    double reads as that double. [strtod_binary64]: what is read is a double. *)

From Stdlib Require Import SpecFloat.
From S2P Require Import Prelude Strtod.
#[local] Open Scope Z_scope.

(** ** Doubles *)

(** The values of binary64: a mantissa of 53 bits, or fewer at the least
    exponent. *)
Definition binary64 (x : spec_float) : bool := valid_binary 53 1024 x.

Lemma digits2_log2 m : Z.pos (digits2_pos m) = Z.log2 (Z.pos m) + 1.
Proof.
  induction m as [m IH|m IH|]; [| |done]; cbn [digits2_pos]; rewrite Pos2Z.inj_succ, IH.
  - rewrite (Pos2Z.inj_xI m), Z.log2_succ_double by lia. lia.
  - rewrite (Pos2Z.inj_xO m), Z.log2_double by lia. lia.
Qed.

Lemma binary64_spec s m e :
  binary64 (S754_finite s m e) = true <->
  Z.pos m < 2 ^ 53 /\ emin <= e <= emax /\ (e = emin \/ 2 ^ 52 <= Z.pos m).
Proof.
  change (binary64 _) with (bounded 53 1024 m e). unfold bounded, canonical_mantissa, fexp, SpecFloat.emin.
  rewrite digits2_log2, andb_true_iff, Z.eqb_eq, Z.leb_le.
  change (3 - 1024 - 53) with emin. change (1024 - 53) with emax.
  rewrite (Z.log2_lt_pow2 (Z.pos m) 53), (Z.log2_le_pow2 (Z.pos m) 52) by lia. unfold emin. lia.
Qed.

(** ** Ratios in common units

    [p / q] in units of [2^-K], where [K] is large enough for every exponent in
    sight. *)
Lemma scaled_units K p q e :
  0 < q -> 0 <= K -> - K <= e ->
  let '(n, d) := scaled p q e in
  0 < d /\ exists c, 0 < c /\ n * c = p * 2 ^ K /\ d * c = q * 2 ^ (e + K).
Proof.
  intros Hq HK He. unfold scaled. destruct (Z.leb_spec 0 e) as [H|H].
  - split; [apply Z.mul_pos_pos; [done|apply Z.pow_pos_nonneg; lia]|]. exists (2 ^ K).
    split_and!; [apply Z.pow_pos_nonneg; lia|done|]. rewrite Z.pow_add_r by lia. lia.
  - split; [done|]. exists (2 ^ (e + K)). split_and!; [apply Z.pow_pos_nonneg; lia| |done].
    rewrite <- Z.mul_assoc, <- Z.pow_add_r by lia. do 2 f_equal. lia.
Qed.

(** The comparisons of a scaled ratio. *)
Lemma scaled_compare K p q e a b :
  0 < q -> 0 <= K -> - K <= e ->
  let '(n, d) := scaled p q e in
  (a * d < b * n <-> a * q * 2 ^ (e + K) < b * p * 2 ^ K) /\
  (b * n < a * d <-> b * p * 2 ^ K < a * q * 2 ^ (e + K)).
Proof.
  intros Hq HK He. pose proof (scaled_units K p q e Hq HK He) as H.
  destruct (scaled p q e) as [n d]. destruct H as (_ & c & Hc & Hn & Hd).
  rewrite <- (Z.mul_assoc a q), <- (Z.mul_assoc b p), <- Hn, <- Hd. split; split; nia.
Qed.

(** ** Rounding to an integer *)

Lemma round_half_even_near n d m :
  0 < d -> (2 * m - 1) * d < 2 * n -> 2 * n < (2 * m + 1) * d -> round_half_even n d = m.
Proof.
  intros Hd H1 H2. unfold round_half_even. pose proof (Z.div_mod n d ltac:(lia)) as E.
  pose proof (Z.mod_pos_bound n d Hd) as Hr. set (k := n / d) in *. set (r := n mod d) in *.
  assert (Hk : k = m \/ k = m - 1) by nia. destruct (Z.ltb_spec (2 * r) d); [nia|].
  destruct (Z.eqb_spec (2 * r) d); nia.
Qed.

Lemma round_half_even_range n d a b :
  0 < d -> a * d <= n < b * d -> a <= round_half_even n d <= b.
Proof.
  intros Hd Hn. unfold round_half_even. pose proof (Z.div_mod n d ltac:(lia)) as E.
  pose proof (Z.mod_pos_bound n d Hd) as Hr. set (k := n / d) in *. set (r := n mod d) in *.
  assert (Hk : a <= k < b) by nia. repeat case_if; lia.
Qed.

(** ** The exponent *)

Definition exponent_of (p q e : Z) : Prop :=
  emin <= e /\ let '(n, d) := scaled p q e in n < 2 ^ 53 * d /\ (e = emin \/ 2 ^ 52 * d <= n).

Lemma exponent_units K p q e :
  0 < q -> 0 <= K -> - K <= e -> emin <= e ->
  exponent_of p q e <->
  p * 2 ^ K < 2 ^ 53 * q * 2 ^ (e + K) /\ (e = emin \/ 2 ^ 52 * q * 2 ^ (e + K) <= p * 2 ^ K).
Proof.
  intros Hq HK He Hm. unfold exponent_of. pose proof (scaled_compare K p q e (2 ^ 53) 1 Hq HK He) as H1.
  pose proof (scaled_compare K p q e (2 ^ 52) 1 Hq HK He) as H2.
  destruct (scaled p q e) as [n d]. rewrite !Z.mul_1_l in *.
  rewrite !Z.le_ngt, (proj2 H2), <- (proj2 H1). pose proof (proj1 (Z.le_ngt emin e) Hm). tauto.
Qed.

Lemma ratio_exp_of p q : 0 < p -> 0 < q -> exponent_of p q (ratio_exp p q).
Proof.
  intros Hp Hq. unfold ratio_exp. set (e := Z.log2 p - Z.log2 q - 53). set (K := Z.abs e + 1200).
  pose proof (Z.log2_nonneg p) as Hlp. pose proof (Z.log2_nonneg q) as Hlq.
  pose proof (Z.log2_spec p Hp) as Sp. pose proof (Z.log2_spec q Hq) as Sq.
  rewrite <- !Z.add_1_r, !Z.pow_add_r in Sp, Sq by lia.
  assert (HP : 2 ^ K * 2 ^ Z.log2 p = 2 ^ 53 * 2 ^ Z.log2 q * 2 ^ (e + K)).
  { rewrite <- !Z.pow_add_r by (subst K; lia). f_equal. subst e K. lia. }
  assert (HK : 0 < 2 ^ (e + K)) by (apply Z.pow_pos_nonneg; subst K; lia).
  assert (HK' : 0 < 2 ^ K) by (apply Z.pow_pos_nonneg; subst K; lia).
  assert (Hb : 2 ^ 52 * q * 2 ^ (e + K) < p * 2 ^ K < 2 ^ 54 * q * 2 ^ (e + K)).
  { change (2 ^ 52) with 4503599627370496 in *. change (2 ^ 53) with (2 * 4503599627370496) in *.
    change (2 ^ 54) with (4 * 4503599627370496). change (2 ^ 1) with 2 in *.
    set (a := 2 ^ Z.log2 p) in *. set (b := 2 ^ Z.log2 q) in *. set (k := 2 ^ K) in *. set (u := 2 ^ (e + K)) in *.
    clearbody a b k u. split; nia. }
  pose proof (scaled_compare K p q e (2 ^ 53) 1 Hq ltac:(subst K; lia) ltac:(subst K; lia)) as Hc.
  destruct (scaled p q e) as [n d]. rewrite !Z.mul_1_l in Hc.
  assert (Hu : 2 ^ (e + 1 + K) = 2 * 2 ^ (e + K)).
  { replace (e + 1 + K) with (1 + (e + K)) by lia. by rewrite Z.pow_add_r by (subst K; lia). }
  assert (Hmin : forall e', e <= e' <= emin -> 2 ^ (e' + K) <= 2 ^ (emin + K)).
  { intros e' He'. apply Z.pow_le_mono_r; lia. }
  set (e' := if 2 ^ 53 * d <=? n then e + 1 else e).
  assert (He' : p * 2 ^ K < 2 ^ 53 * q * 2 ^ (e' + K) /\ 2 ^ 52 * q * 2 ^ (e' + K) <= p * 2 ^ K /\ e <= e' <= e + 1).
  { subst e'. destruct (Z.leb_spec (2 ^ 53 * d) n) as [Hn|Hn].
    - rewrite Hu. split_and!; [lia| |lia..]. apply Z.le_ngt. intros Hlt.
      assert (n < 2 ^ 53 * d); [apply Hc; lia|lia].
    - apply Hc in Hn. lia. }
  clearbody e'. apply (exponent_units K); [done|subst K; lia|subst K; unfold emin; lia|lia|].
  destruct (Z.max_spec emin e') as [[Hm ->]|[Hm ->]]; [lia|]. split; [|by left].
  specialize (Hmin e' ltac:(lia)). nia.
Qed.

Lemma exponent_unique p q e e' :
  0 < q -> exponent_of p q e -> exponent_of p q e' -> e <= e'.
Proof.
  intros Hq H H'. destruct (Z.le_gt_cases e e') as [|Hlt]; [done|exfalso].
  pose proof (proj1 H) as He. pose proof (proj1 H') as He'.
  apply (exponent_units 1200) in H, H'; try done; try (unfold emin in *; lia).
  destruct H as [_ [->|H]]; [lia|]. destruct H' as [H' _].
  assert (2 * 2 ^ (e' + 1200) <= 2 ^ (e + 1200)).
  { rewrite <- (Z.pow_succ_r 2 (e' + 1200)) by (unfold emin in *; lia). apply Z.pow_le_mono_r; lia. }
  change (2 ^ 53) with (2 * 2 ^ 52) in H'. nia.
Qed.

Lemma ratio_exp_unique p q e : 0 < p -> 0 < q -> exponent_of p q e -> ratio_exp p q = e.
Proof.
  intros Hp Hq H. pose proof (ratio_exp_of p q Hp Hq) as H'.
  pose proof (exponent_unique p q _ _ Hq H H'). pose proof (exponent_unique p q _ _ Hq H' H). lia.
Qed.

(** ** Rounding to a double *)

(** The midpoint below a double, in quarters of its last place: the double below
    a power of two is closer. *)
Definition lower_quarters (m e : Z) : Z :=
  if (m =? 2 ^ 52) && (emin <? e) then 4 * m - 1 else 4 * m - 2.

Lemma round_at_near K s p q e m :
  0 < q -> 0 <= K -> - K <= e -> 0 < m <= 2 ^ 53 ->
  (2 * m - 1) * q * 2 ^ (e + K) < 2 * p * 2 ^ K -> 2 * p * 2 ^ K < (2 * m + 1) * q * 2 ^ (e + K) ->
  round_at s p q e =
    let '(m, e) := if 2 ^ 53 <=? m then (2 ^ 52, e + 1) else (m, e) in
    if emax <? e then S754_infinity s else S754_finite s (Z.to_pos m) e.
Proof.
  intros Hq HK He Hm H1 H2. pose proof (scaled_compare K p q e (2 * m - 1) 2 Hq HK He) as Hc1.
  pose proof (scaled_compare K p q e (2 * m + 1) 2 Hq HK He) as Hc2.
  pose proof (scaled_units K p q e Hq HK He) as Hc3. unfold round_at.
  destruct (scaled p q e) as [n d]. apply Hc1 in H1. apply Hc2 in H2. destruct Hc3 as [Hd _].
  rewrite (round_half_even_near n d m) by done. destruct (Z.leb_spec (2 ^ 53) m); [done|].
  destruct m; [lia|done|lia].
Qed.

Lemma lower_quarters_cases m e :
  lower_quarters m e = 4 * m - 1 /\ m = 2 ^ 52 /\ emin < e \/
  lower_quarters m e = 4 * m - 2 /\ (m = 2 ^ 52 -> e <= emin).
Proof.
  unfold lower_quarters. destruct (Z.eqb_spec m (2 ^ 52)), (Z.ltb_spec emin e); cbn [andb]; lia.
Qed.

(** The units of a fraction of the last place. *)
Lemma units_double e : 0 <= e -> 2 ^ (e + 1) = 2 * 2 ^ e.
Proof. intros H. rewrite Z.add_1_r. by apply Z.pow_succ_r. Qed.

Lemma round_ratio_near K s p q m e :
  0 < p -> 0 < q -> 1076 <= K -> binary64 (S754_finite s m e) = true ->
  lower_quarters (Z.pos m) e * q * 2 ^ (e - 2 + K) < p * 2 ^ K ->
  p * 2 ^ K < (4 * Z.pos m + 2) * q * 2 ^ (e - 2 + K) ->
  round_ratio s p q = S754_finite s m e.
Proof.
  intros Hp Hq HK (Hm & [He1 He2] & Hn)%binary64_spec H1 H2. unfold round_ratio.
  assert (Hk : 0 <= e - 2 + K) by (unfold emin in *; lia).
  assert (Hu1 : 2 ^ (e - 1 + K) = 2 * 2 ^ (e - 2 + K)) by (rewrite <- units_double by done; f_equal; lia).
  assert (Hu2 : 2 ^ (e + K) = 4 * 2 ^ (e - 2 + K)).
  { replace (e + K) with (e - 1 + K + 1) by lia. rewrite units_double, Hu1 by lia. lia. }
  assert (Hu : 0 < 2 ^ (e - 2 + K)) by (by apply Z.pow_pos_nonneg).
  set (u := 2 ^ (e - 2 + K)) in *. set (P := p * 2 ^ K) in *.
  pose proof (exponent_units K p q) as Hexp. fold P in Hexp.
  change (2 ^ 53) with 9007199254740992 in *. change (2 ^ 52) with 4503599627370496 in *.
  assert (Hat : exponent_of p q e -> (4 * Z.pos m - 2) * q * u < P ->
    round_at s p q (ratio_exp p q) = S754_finite s m e).
  { intros He Hl. rewrite (ratio_exp_unique p q e) by done.
    rewrite (round_at_near K s p q e (Z.pos m)); rewrite ?Hu2, <- ?(Z.mul_assoc 2 p);
      fold P; change (2 ^ 53) with 9007199254740992; try lia; try nia.
    destruct (Z.leb_spec 9007199254740992 (Z.pos m)); [lia|]. by destruct (Z.ltb_spec emax e); [lia|]. }
  destruct (lower_quarters_cases (Z.pos m) e) as [(El & Em & He)|[El Hbig]]; rewrite El in H1.
  - destruct (Z.le_gt_cases (4503599627370496 * q * (4 * u)) P) as [Hle|Hlt].
    + apply Hat; [|nia]. apply Hexp; [done|lia..|]. rewrite Hu2. split; [nia|by right].
    + rewrite (ratio_exp_unique p q (e - 1)); [|done..|apply Hexp; [done|lia..|rewrite Hu1; split; [nia|right; nia]]].
      rewrite (round_at_near K s p q (e - 1) (2 ^ 53)); rewrite ?Hu1, <- ?(Z.mul_assoc 2 p);
        fold P; change (2 ^ 53) with 9007199254740992; try lia; try nia.
      change (_ <=? _) with true. cbv iota beta. replace (e - 1 + 1) with e by lia.
      destruct (Z.ltb_spec emax e); [lia|]. f_equal. apply Pos2Z.inj. by rewrite Em.
  - change (2 ^ 52) with 4503599627370496 in Hbig.
    apply Hat; [|done]. apply Hexp; [done|lia..|]. rewrite Hu2. split; [nia|].
    destruct (Z.eq_dec e emin) as [->|]; [by left|right]. nia.
Qed.

Lemma round_ratio_binary64 s p q : 0 < p -> 0 < q -> binary64 (round_ratio s p q) = true.
Proof.
  intros Hp Hq. unfold round_ratio. pose proof (ratio_exp_of p q Hp Hq) as [He H]. set (e := ratio_exp p q) in *.
  clearbody e. unfold round_at.
  pose proof (scaled_units (Z.abs e) p q e Hq ltac:(lia) ltac:(lia)) as Hc.
  destruct (scaled p q e) as [n d]. destruct Hc as (Hd & c & Hc & Hn & _). destruct H as [H1 H2].
  assert (Hn0 : 0 <= n).
  { apply Z.le_ngt. intros Hlt. assert (0 < p * 2 ^ Z.abs e) by (apply Z.mul_pos_pos; [done|apply Z.pow_pos_nonneg; lia]). nia. }
  set (a := if decide (e = emin) then 0 else 2 ^ 52).
  assert (Ha : a * d <= n) by (subst a; destruct (decide _); [lia|destruct H2; [done|lia]]).
  pose proof (round_half_even_range n d a (2 ^ 53) Hd (conj Ha H1)) as Hr. set (m := round_half_even n d) in *. clearbody m.
  assert (Hval : forall m e, 0 <= m < 2 ^ 53 -> emin <= e -> e = emin \/ 2 ^ 52 <= m ->
    binary64 (match m with Z.pos m => if emax <? e then S754_infinity s else S754_finite s m e | _ => S754_zero s end) = true).
  { clear. intros m e Hm He Hn. destruct m as [|m|m]; [done| |lia]. destruct (Z.ltb_spec emax e); [done|].
    apply binary64_spec. lia. }
  destruct (Z.leb_spec (2 ^ 53) m).
  - apply Hval; lia.
  - apply Hval; subst a; destruct (decide _); lia.
Qed.

(** ** strtod *)

Lemma digit_run_nonneg acc n s : 0 <= acc -> 0 <= (digit_run acc n s).1.1.
Proof.
  revert acc n. induction s as [|c s IH]; intros acc n H; [done|]. cbn [digit_run]. destruct (is_digit c) eqn:E; [|done].
  apply IH. unfold is_digit in E. lia.
Qed.

Lemma read_decimal_nonneg s : 0 <= dec_digits (read_decimal s).
Proof.
  unfold read_decimal. destruct (strip_sign _) as [neg s1]. pose proof (digit_run_nonneg 0 0 s1 ltac:(lia)) as H.
  destruct (digit_run 0 0 s1) as [[m0 n0] s2]. cbn [fst] in H. unfold fraction.
  destruct s2 as [|c s2]; [done|]. destruct (Ascii.eqb c "."); [|done].
  pose proof (digit_run_nonneg m0 0 s2 H) as H'. by destruct (digit_run m0 0 s2) as [[m n] s3].
Qed.

Lemma strtod_binary64 s : binary64 (strtod s) = true.
Proof.
  unfold strtod. pose proof (read_decimal_nonneg s). set (m := dec_digits _) in *. set (e := dec_exp _). cbv zeta.
  destruct (Z.eqb_spec m 0); [done|]. destruct (400 <? e); [done|]. destruct (e + Z.log2 m <? -400); [done|].
  destruct (Z.leb_spec 0 e); apply round_ratio_binary64; lia.
Qed.
