(* ===== verification/JsonLexer.v ===== *)
(** * JsonLexer: the scanner of nlohmann::json (src/include/utils/json.hpp)

    [class lexer]: the state of the scanner as a record with the members of the
    class, [get] and [unget] over the input adapter, and one definition per scan
    function. An [int] holds the last byte read or [eof]. The program uses the
    default settings: comments are not skipped, and the decimal point is the one
    of the "C" locale. The counters of [position_t] are integers without a width:
    they count the bytes of an input that fits in memory.

    A loop takes fuel: one unit per byte left suffices, since each turn reads one
    (the lemmas on [fuel_for], and [scan_string_fuel]). *)

From S2P Require Import Prelude Json Strtod.
From Stdlib Require Import SpecFloat.
#[local] Open Scope Z_scope.

Module token_type.
Inductive t : Type :=
| uninitialized
| literal_true
| literal_false
| literal_null
| value_string
| value_unsigned
| value_integer
| value_float
| begin_array
| begin_object
| end_array
| end_object
| name_separator
| value_separator
| parse_error
| end_of_input
| literal_or_value.

#[global] Instance t_eq_dec : EqDecision t.
Proof. solve_decision. Defined.
End token_type.

Abbreviation token := token_type.t.

Definition token_type_name (t : token) : string :=
  match t with
  | token_type.uninitialized => "<uninitialized>"
  | token_type.literal_true => "true literal"
  | token_type.literal_false => "false literal"
  | token_type.literal_null => "null literal"
  | token_type.value_string => "string literal"
  | token_type.value_unsigned | token_type.value_integer | token_type.value_float => "number literal"
  | token_type.begin_array => "'['"
  | token_type.begin_object => "'{'"
  | token_type.end_array => "']'"
  | token_type.end_object => "'}'"
  | token_type.name_separator => "':'"
  | token_type.value_separator => "','"
  | token_type.parse_error => "<parse error>"
  | token_type.end_of_input => "end of input"
  | token_type.literal_or_value => "'[', '{', or a literal"
  end.

(** ** State *)

Record position_t := mkPosition {
  chars_read_total : Z; chars_read_current_line : Z; lines_read : Z
}.

(** The value of the last number scanned. *)
Record numbers := mkNumbers {
  value_integer : Z; value_unsigned : Z; value_float : spec_float
}.

Record lexer := mkLexer {
  ia : string;  (* what the input adapter has not delivered *)
  current : Z;
  next_unget : bool;
  position : position_t;
  token_string : string;
  token_buffer : string;
  error_message : string;
  value_ : numbers
}.

Definition eof : Z := -1.

(** The constructor. *)
Definition newLexer (input : string) : lexer :=
  mkLexer input eof false (mkPosition 0 0 0) "" "" "" (mkNumbers 0 0 (S754_zero false)).

(** [s.push_back(c)], and [s.pop_back()] on a string that is not empty. *)
Definition push_back (s : string) (c : ascii) : string := s +:+ String c EmptyString.
Fixpoint pop_back (s : string) : string :=
  match s with
  | EmptyString => EmptyString
  | String c EmptyString => EmptyString
  | String c s => String c (pop_back s)
  end.

(** ** Input management *)

(** The position after a byte is read, and after it is put back. *)
Definition advance (c : Z) (p : position_t) : position_t :=
  if c =? 10 then mkPosition (chars_read_total p + 1) 0 (lines_read p + 1)
  else mkPosition (chars_read_total p + 1) (chars_read_current_line p + 1) (lines_read p).

Definition retreat (p : position_t) : position_t :=
  if chars_read_current_line p =? 0
  then mkPosition (chars_read_total p - 1) 0
         (if 0 <? lines_read p then lines_read p - 1 else lines_read p)
  else mkPosition (chars_read_total p - 1) (chars_read_current_line p - 1) (lines_read p).

(** [ia.get_character()], or the byte that was put back. *)
Definition next_char (l : lexer) : Z * string :=
  if next_unget l then (current l, ia l)
  else match ia l with EmptyString => (eof, EmptyString) | String c s => (code c, s) end.

Definition get (l : lexer) : lexer :=
  let '(c, input) := next_char l in
  mkLexer input c false (advance c (position l))
    (if c =? eof then token_string l else push_back (token_string l) (chr c))
    (token_buffer l) (error_message l) (value_ l).

Definition unget (l : lexer) : lexer :=
  mkLexer (ia l) (current l) true (retreat (position l))
    (if current l =? eof then token_string l else pop_back (token_string l))
    (token_buffer l) (error_message l) (value_ l).

Definition add (c : Z) (l : lexer) : lexer :=
  mkLexer (ia l) (current l) (next_unget l) (position l) (token_string l)
    (push_back (token_buffer l) (chr c)) (error_message l) (value_ l).

Definition reset (l : lexer) : lexer :=
  mkLexer (ia l) (current l) (next_unget l) (position l)
    (String (chr (current l)) EmptyString) EmptyString (error_message l) (value_ l).

Definition with_value (v : numbers) (l : lexer) : lexer :=
  mkLexer (ia l) (current l) (next_unget l) (position l) (token_string l) (token_buffer l)
    (error_message l) v.

(** [error_message = text] *)
Definition error (text : string) (l : lexer) : lexer :=
  mkLexer (ia l) (current l) (next_unget l) (position l) (token_string l) (token_buffer l) text
    (value_ l).

(** [error_message = text; return token_type::parse_error;] *)
Definition fail_scan (text : string) (l : lexer) : token * lexer :=
  (token_type.parse_error, error text l).

(** The bytes [scan_string] and [scan] compare with. *)
Definition at_char (l : lexer) (c : ascii) : bool := current l =? code c.
Definition current_in (l : lexer) (lo hi : Z) : bool := (lo <=? current l) && (current l <=? hi).

(** The turns of a loop that reads a byte in each. *)
Definition fuel_for (l : lexer) : nat := S (S (String.length (ia l))).

(** ** Strings *)

(** The four hexadecimal digits after [\u]; [None] is -1. *)
Definition hex_digit_at (l : lexer) : option Z :=
  if current_in l 48 57 then Some (current l - 48)
  else if current_in l 65 70 then Some (current l - 55)
  else if current_in l 97 102 then Some (current l - 87)
  else None.

Fixpoint codepoint_digits (factors : list Z) (codepoint : Z) (l : lexer) : option Z * lexer :=
  match factors with
  | [] => (Some codepoint, l)
  | factor :: factors =>
      let l := get l in
      match hex_digit_at l with
      | Some d => codepoint_digits factors (codepoint + Z.shiftl d factor) l
      | None => (None, l)
      end
  end.

Definition get_codepoint (l : lexer) : option Z * lexer := codepoint_digits [12; 8; 4; 0] 0 l.

(** Ranges are pairs of inclusive bounds. *)
Fixpoint next_bytes (ranges : list (Z * Z)) (l : lexer) : bool * lexer :=
  match ranges with
  | [] => (true, l)
  | (lo, hi) :: ranges =>
      let l := get l in
      if current_in l lo hi then next_bytes ranges (add (current l) l)
      else (false, error "invalid string: ill-formed UTF-8 byte" l)
  end.

Definition next_byte_in_range (ranges : list (Z * Z)) (l : lexer) : bool * lexer :=
  next_bytes ranges (add (current l) l).

(** The bytes of a code point. *)
Definition utf8_bytes (codepoint : Z) : list Z :=
  if codepoint <? 0x80 then [codepoint]
  else if codepoint <=? 0x7FF
  then [Z.lor 0xC0 (Z.shiftr codepoint 6); Z.lor 0x80 (Z.land codepoint 0x3F)]
  else if codepoint <=? 0xFFFF
  then [Z.lor 0xE0 (Z.shiftr codepoint 12); Z.lor 0x80 (Z.land (Z.shiftr codepoint 6) 0x3F);
        Z.lor 0x80 (Z.land codepoint 0x3F)]
  else [Z.lor 0xF0 (Z.shiftr codepoint 18); Z.lor 0x80 (Z.land (Z.shiftr codepoint 12) 0x3F);
        Z.lor 0x80 (Z.land (Z.shiftr codepoint 6) 0x3F); Z.lor 0x80 (Z.land codepoint 0x3F)].

Definition add_codepoint (codepoint : Z) (l : lexer) : lexer :=
  fold_left (fun l b => add b l) (utf8_bytes codepoint) l.

Definition bad_hex : string := "invalid string: '\u' must be followed by 4 hex digits".
Definition bad_surrogate : string :=
  "invalid string: surrogate U+D800..U+DBFF must be followed by U+DC00..U+DFFF".

(** After [\u]. *)
Definition scan_unicode (l : lexer) : bool * lexer :=
  let '(codepoint1, l) := get_codepoint l in
  match codepoint1 with
  | None => (false, error bad_hex l)
  | Some codepoint1 =>
      if (0xD800 <=? codepoint1) && (codepoint1 <=? 0xDBFF) then
        let l := get l in
        if negb (at_char l "\") then (false, error bad_surrogate l)
        else
          let l := get l in
          if negb (at_char l "u") then (false, error bad_surrogate l)
          else
            let '(codepoint2, l) := get_codepoint l in
            match codepoint2 with
            | None => (false, error bad_hex l)
            | Some codepoint2 =>
                if (0xDC00 <=? codepoint2) && (codepoint2 <=? 0xDFFF)
                then (true, add_codepoint (u32 (Z.shiftl codepoint1 10 + codepoint2 - 0x35FDC00)) l)
                else (false, error bad_surrogate l)
            end
      else if (0xDC00 <=? codepoint1) && (codepoint1 <=? 0xDFFF)
      then (false, error "invalid string: surrogate U+DC00..U+DFFF must follow U+D800..U+DBFF" l)
      else (true, add_codepoint codepoint1 l)
  end.

(** After a backslash. *)
Definition scan_escape (l : lexer) : bool * lexer :=
  let l := get l in
  if current l =? 34 then (true, add 34 l)
  else if at_char l "\" then (true, add (code "\") l)
  else if at_char l "/" then (true, add (code "/") l)
  else if at_char l "b" then (true, add 8 l)
  else if at_char l "f" then (true, add 12 l)
  else if at_char l "n" then (true, add 10 l)
  else if at_char l "r" then (true, add 13 l)
  else if at_char l "t" then (true, add 9 l)
  else if at_char l "u" then scan_unicode l
  else (false, error "invalid string: forbidden character after backslash" l).

(** The message for a control character: its number, its name, and how to
    write it. *)
Definition control_names : list (string * string * string) :=
  [("0000", "NUL", ""); ("0001", "SOH", ""); ("0002", "STX", ""); ("0003", "ETX", "");
   ("0004", "EOT", ""); ("0005", "ENQ", ""); ("0006", "ACK", ""); ("0007", "BEL", "");
   ("0008", "BS", " or \b"); ("0009", "HT", " or \t"); ("000A", "LF", " or \n"); ("000B", "VT", "");
   ("000C", "FF", " or \f"); ("000D", "CR", " or \r"); ("000E", "SO", ""); ("000F", "SI", "");
   ("0010", "DLE", ""); ("0011", "DC1", ""); ("0012", "DC2", ""); ("0013", "DC3", "");
   ("0014", "DC4", ""); ("0015", "NAK", ""); ("0016", "SYN", ""); ("0017", "ETB", "");
   ("0018", "CAN", ""); ("0019", "EM", ""); ("001A", "SUB", ""); ("001B", "ESC", "");
   ("001C", "FS", ""); ("001D", "GS", ""); ("001E", "RS", ""); ("001F", "US", "")].

Definition control_message (c : Z) : string :=
  match control_names !! Z.to_nat c with
  | Some (number, name, short) =>
      "invalid string: control character U+" +:+ number +:+ " (" +:+ name +:+
      ") must be escaped to \u" +:+ number +:+ short
  | None => ""
  end.

(** A character of a string, after it was read: not the closing quote, nor the
    end of the input. *)
Definition scan_char (l : lexer) : bool * lexer :=
  if at_char l "\" then scan_escape l
  else if current_in l 0x00 0x1F then (false, error (control_message (current l)) l)
  else if current_in l 0x20 0x7F then (true, add (current l) l)
  else if current_in l 0xC2 0xDF then next_byte_in_range [(0x80, 0xBF)] l
  else if current_in l 0xE0 0xE0 then next_byte_in_range [(0xA0, 0xBF); (0x80, 0xBF)] l
  else if current_in l 0xE1 0xEC || current_in l 0xEE 0xEF
  then next_byte_in_range [(0x80, 0xBF); (0x80, 0xBF)] l
  else if current_in l 0xED 0xED then next_byte_in_range [(0x80, 0x9F); (0x80, 0xBF)] l
  else if current_in l 0xF0 0xF0
  then next_byte_in_range [(0x90, 0xBF); (0x80, 0xBF); (0x80, 0xBF)] l
  else if current_in l 0xF1 0xF3
  then next_byte_in_range [(0x80, 0xBF); (0x80, 0xBF); (0x80, 0xBF)] l
  else if current_in l 0xF4 0xF4
  then next_byte_in_range [(0x80, 0x8F); (0x80, 0xBF); (0x80, 0xBF)] l
  else (false, error "invalid string: ill-formed UTF-8 byte" l).

Fixpoint scan_string_loop (fuel : nat) (l : lexer) : token * lexer :=
  match fuel with
  | O => (token_type.uninitialized, l)
  | S fuel =>
      let l := get l in
      if current l =? eof then fail_scan "invalid string: missing closing quote" l
      else if current l =? 34 then (token_type.value_string, l)
      else
        let '(ok, l) := scan_char l in
        if (ok : bool) then scan_string_loop fuel l else (token_type.parse_error, l)
  end.

Definition scan_string (l : lexer) : token * lexer :=
  let l := reset l in scan_string_loop (fuel_for l) l.

(** ** Numbers *)

(** The labels of [scan_number]. *)
Inductive label : Type :=
| scan_number_minus
| scan_number_zero
| scan_number_any1
| scan_number_decimal1
| scan_number_decimal2
| scan_number_exponent
| scan_number_sign
| scan_number_any2.

(** What a label does with the byte it reads. *)
Inductive branch : Type :=
| goto (s : label)   (* the byte is added *)
| done               (* it is put back *)
| reject (message : string).

Definition digit_in (c lo hi : Z) : bool := (lo <=? c) && (c <=? hi).
Definition is_exponent (c : Z) : bool := (c =? code "e") || (c =? code "E").

Definition branch_of (s : label) (c : Z) : branch :=
  match s with
  | scan_number_minus =>
      if c =? code "0" then goto scan_number_zero
      else if digit_in c 49 57 then goto scan_number_any1
      else reject "invalid number; expected digit after '-'"
  | scan_number_zero =>
      if c =? code "." then goto scan_number_decimal1
      else if is_exponent c then goto scan_number_exponent
      else done
  | scan_number_any1 =>
      if digit_in c 48 57 then goto scan_number_any1
      else if c =? code "." then goto scan_number_decimal1
      else if is_exponent c then goto scan_number_exponent
      else done
  | scan_number_decimal1 =>
      if digit_in c 48 57 then goto scan_number_decimal2
      else reject "invalid number; expected digit after '.'"
  | scan_number_decimal2 =>
      if digit_in c 48 57 then goto scan_number_decimal2
      else if is_exponent c then goto scan_number_exponent
      else done
  | scan_number_exponent =>
      if (c =? code "+") || (c =? code "-") then goto scan_number_sign
      else if digit_in c 48 57 then goto scan_number_any2
      else reject "invalid number; expected '+', '-', or digit after exponent"
  | scan_number_sign =>
      if digit_in c 48 57 then goto scan_number_any2
      else reject "invalid number; expected digit after exponent sign"
  | scan_number_any2 => if digit_in c 48 57 then goto scan_number_any2 else done
  end.

(** The type of the number once a label is reached. *)
Definition type_at (s : label) (number_type : token) : token :=
  match s with
  | scan_number_minus => token_type.value_integer
  | scan_number_decimal1 | scan_number_exponent => token_type.value_float
  | _ => number_type
  end.

(** [scan_number_done]: integers first, floats when they do not fit. *)
Definition scan_number_done (number_type : token) (l : lexer) : token * lexer :=
  let l := unget l in
  let v := value_ l in
  let as_float :=
    (token_type.value_float,
     with_value (mkNumbers (value_integer v) (value_unsigned v) (strtod (token_buffer l))) l) in
  match number_type with
  | token_type.value_unsigned =>
      let '(x, erange) := strtoull (token_buffer l) in
      if erange : bool then as_float
      else (token_type.value_unsigned, with_value (mkNumbers (value_integer v) x (value_float v)) l)
  | token_type.value_integer =>
      let '(x, erange) := strtoll (token_buffer l) in
      if erange : bool then as_float
      else (token_type.value_integer, with_value (mkNumbers x (value_unsigned v) (value_float v)) l)
  | _ => as_float
  end.

Fixpoint scan_number_from (fuel : nat) (s : label) (number_type : token) (l : lexer)
    : token * lexer :=
  match fuel with
  | O => (token_type.uninitialized, l)
  | S fuel =>
      let number_type := type_at s number_type in
      let l := get l in
      match branch_of s (current l) with
      | goto s => scan_number_from fuel s number_type (add (current l) l)
      | done => scan_number_done number_type l
      | reject message => fail_scan message l
      end
  end.

(** The init state: [scan] calls it on a minus sign or a digit. *)
Definition scan_number (l : lexer) : token * lexer :=
  let l := reset l in
  let s := if at_char l "-" then scan_number_minus
           else if at_char l "0" then scan_number_zero else scan_number_any1 in
  scan_number_from (fuel_for l) s token_type.value_unsigned (add (current l) l).

(** ** Tokens *)

(** The rest of a literal. *)
Fixpoint scan_literal (literal_text : string) (return_type : token) (l : lexer) : token * lexer :=
  match literal_text with
  | EmptyString => (return_type, l)
  | String c literal_text =>
      let l := get l in
      if at_char l c then scan_literal literal_text return_type l else fail_scan "invalid literal" l
  end.

Definition skip_bom (l : lexer) : bool * lexer :=
  let l := get l in
  if current l =? 0xEF then
    let l := get l in
    if current l =? 0xBB then let l := get l in (current l =? 0xBF, l) else (false, l)
  else (true, unget l).

Definition is_blank (c : Z) : bool := (c =? 32) || (c =? 9) || (c =? 10) || (c =? 13).

Fixpoint skip_whitespace_loop (fuel : nat) (l : lexer) : lexer :=
  match fuel with
  | O => l
  | S fuel => let l := get l in if is_blank (current l) then skip_whitespace_loop fuel l else l
  end.

Definition skip_whitespace (l : lexer) : lexer := skip_whitespace_loop (fuel_for l) l.

(** The switch of [scan] on the first byte of a token. *)
Definition scan_token (l : lexer) : token * lexer :=
  if at_char l "[" then (token_type.begin_array, l)
  else if at_char l "]" then (token_type.end_array, l)
  else if at_char l "{" then (token_type.begin_object, l)
  else if at_char l "}" then (token_type.end_object, l)
  else if at_char l ":" then (token_type.name_separator, l)
  else if at_char l "," then (token_type.value_separator, l)
  else if at_char l "t" then scan_literal "rue" token_type.literal_true l
  else if at_char l "f" then scan_literal "alse" token_type.literal_false l
  else if at_char l "n" then scan_literal "ull" token_type.literal_null l
  else if current l =? 34 then scan_string l
  else if at_char l "-" || current_in l 48 57 then scan_number l
  else if (current l =? 0) || (current l =? eof) then (token_type.end_of_input, l)
  else fail_scan "invalid literal" l.

Definition scan (l : lexer) : token * lexer :=
  let '(ok, l) := if chars_read_total (position l) =? 0 then skip_bom l else (true, l) in
  if (ok : bool) then scan_token (skip_whitespace l)
  else fail_scan "invalid BOM; must be 0xEF 0xBB 0xBF if given" l.

(** ** Diagnostics *)

(** "%.4X" of a byte. *)
Definition hex_upper (d : Z) : ascii := if d <? 10 then chr (48 + d) else chr (55 + d).
Definition hex4_upper (b : Z) : string :=
  String "0" (String "0" (String (hex_upper (b / 16)) (String (hex_upper (b mod 16)) EmptyString))).

Definition show_char (c : ascii) : string :=
  if code c <=? 0x1F then "<U+" +:+ hex4_upper (code c) +:+ ">" else String c EmptyString.

Fixpoint show_string (s : string) : string :=
  match s with EmptyString => EmptyString | String c s => show_char c +:+ show_string s end.

Definition get_token_string (l : lexer) : string := show_string (token_string l).
