(* ===== verification/JsonGrammar.v ===== *)
(** * JsonGrammar: the texts of JSON values (RFC 8259)

    The grammar the parser is compared with, on strings and independent of the
    state of the parser: characters and strings with their escapes, well-formed
    UTF-8 (table 3-7 of the Unicode standard), numbers as the automaton of section
    6, tokens and values. [lexes s t r]: the text [s] starts with the token [t] and
    goes on with [r]; [reads s v r]: it starts with a value. Two extensions of the
    library are part of it: a null byte ends the input, and a key that occurs twice
    keeps its last value. *)

From S2P Require Import Prelude Json Strtod JsonLexer.
From Stdlib Require Import SpecFloat.
#[local] Open Scope Z_scope.

(** ** Strings *)

(** The bytes of the ranges, and the rest. *)
Fixpoint take_ranges (ranges : list (Z * Z)) (s : string) : option (string * string) :=
  match ranges, s with
  | [], _ => Some (EmptyString, s)
  | r :: ranges, String c s =>
      if in_range c r then '(v, s) ← take_ranges ranges s; Some (String c v, s) else None
  | _, EmptyString => None
  end.

(** Hexadecimal digits. *)
Fixpoint take_hex (n : nat) (acc : Z) (s : string) : option (Z * string) :=
  match n, s with
  | O, _ => Some (acc, s)
  | S n, String c s => d ← hex_val c; take_hex n (16 * acc + d) s
  | S _, EmptyString => None
  end.

Definition take_char (c : ascii) (s : string) : option string :=
  match s with String d s => if Ascii.eqb d c then Some s else None | EmptyString => None end.

Definition utf8_text (codepoint : Z) : string := bytes_str (utf8_bytes codepoint).

Definition is_high (c : Z) : bool := (0xD800 <=? c) && (c <=? 0xDBFF).
Definition is_low (c : Z) : bool := (0xDC00 <=? c) && (c <=? 0xDFFF).

(** After [\u]: a code point, or two halves of one. *)
Definition lex_unicode (s : string) : option (string * string) :=
  '(c1, s) ← take_hex 4 0 s;
  if is_high c1 then
    s ← take_char "\" s;
    s ← take_char "u" s;
    '(c2, s) ← take_hex 4 0 s;
    if is_low c2 then Some (utf8_text (0x10000 + (c1 - 0xD800) * 0x400 + (c2 - 0xDC00)), s) else None
  else if is_low c1 then None
  else Some (utf8_text c1, s).

(** What the two-character escapes stand for. *)
Definition escape_of (c : ascii) : option ascii :=
  if code c =? 34 then Some c
  else if Ascii.eqb c "\" then Some c
  else if Ascii.eqb c "/" then Some c
  else if Ascii.eqb c "b" then Some (chr 8)
  else if Ascii.eqb c "f" then Some (chr 12)
  else if Ascii.eqb c "n" then Some (chr 10)
  else if Ascii.eqb c "r" then Some (chr 13)
  else if Ascii.eqb c "t" then Some (chr 9)
  else None.

(** One character of a string: its bytes, and the rest. *)
Definition lex_char (s : string) : option (string * string) :=
  match s with
  | EmptyString => None
  | String c s =>
      if code c =? 34 then None
      else if Ascii.eqb c "\" then
        match s with
        | EmptyString => None
        | String d s =>
            match escape_of d with
            | Some b => Some (String b EmptyString, s)
            | None => if Ascii.eqb d "u" then lex_unicode s else None
            end
        end
      else if code c <? 0x20 then None
      else
        ranges ← lead_ranges (code c);
        '(v, s) ← take_ranges ranges s;
        Some (String c v, s)
  end.

(** The text of a string after its opening quote. *)
Inductive string_text : string -> string -> string -> Prop :=
| string_end c r : code c = 34 -> string_text (String c r) EmptyString r
| string_char s v s' w r :
    lex_char s = Some (v, s') -> string_text s' w r -> string_text s (v +:+ w) r.

(** ** Numbers *)

(** The bytes the automaton adds from a label on, the type it ends with, and the
    rest. *)
Fixpoint run_label (s : label) (ty : token) (text : string) : option (string * token * string) :=
  let ty := type_at s ty in
  match text with
  | EmptyString =>
      match branch_of s eof with done => Some (EmptyString, ty, text) | _ => None end
  | String c text' =>
      match branch_of s (code c) with
      | goto s' => '(w, ty, r) ← run_label s' ty text'; Some (String c w, ty, r)
      | done => Some (EmptyString, ty, text)
      | reject _ => None
      end
  end.

Definition first_label (c : ascii) : label :=
  if Ascii.eqb c "-" then scan_number_minus
  else if Ascii.eqb c "0" then scan_number_zero else scan_number_any1.

(** A text that cannot continue a number. *)
Definition stops (r : string) : bool :=
  match r with
  | EmptyString => true
  | String c _ => negb (is_digit c) && negb (Ascii.eqb c ".") && negb (is_exponent (code c))
  end.

(** ** Tokens *)

Inductive tok : Type :=
| TTrue | TFalse | TNull
| TString (s : string)
| TUnsigned (n : Z)
| TInteger (n : Z)
| TFloat (f : spec_float)
| TBeginArray | TBeginObject | TEndArray | TEndObject | TName | TComma
| TEnd.

#[export] Instance spec_float_eq_dec : EqDecision spec_float.
Proof. solve_decision. Defined.
#[export] Instance tok_eq_dec : EqDecision tok.
Proof. solve_decision. Defined.

(** The value of a number's text: integers that do not fit are floats. *)
Definition number_tok (w : string) (ty : token) : tok :=
  match ty with
  | token_type.value_unsigned => let '(x, erange) := strtoull w in
                                 if erange : bool then TFloat (strtod w) else TUnsigned x
  | token_type.value_integer => let '(x, erange) := strtoll w in
                                if erange : bool then TFloat (strtod w) else TInteger x
  | _ => TFloat (strtod w)
  end.

Definition structural (c : ascii) : option tok :=
  if Ascii.eqb c "[" then Some TBeginArray
  else if Ascii.eqb c "]" then Some TEndArray
  else if Ascii.eqb c "{" then Some TBeginObject
  else if Ascii.eqb c "}" then Some TEndObject
  else if Ascii.eqb c ":" then Some TName
  else if Ascii.eqb c "," then Some TComma
  else None.

Inductive lexes : string -> tok -> string -> Prop :=
| lex_blank c s t r : is_blank (code c) = true -> lexes s t r -> lexes (String c s) t r
| lex_structural c t r : structural c = Some t -> lexes (String c r) t r
| lex_true r : lexes ("true" +:+ r) TTrue r
| lex_false r : lexes ("false" +:+ r) TFalse r
| lex_null r : lexes ("null" +:+ r) TNull r
| lex_string c s v r : code c = 34 -> string_text s v r -> lexes (String c s) (TString v) r
| lex_number c s w ty r :
    Ascii.eqb c "-" || is_digit c = true ->
    run_label (first_label c) token_type.value_unsigned s = Some (w, ty, r) ->
    lexes (String c s) (number_tok (String c w) ty) r
| lex_end : lexes EmptyString TEnd EmptyString
| lex_null_byte c r : code c = 0 -> lexes (String c r) TEnd r.

(** ** Values *)

Definition scalar (t : tok) : option json :=
  match t with
  | TTrue => Some (JBool true)
  | TFalse => Some (JBool false)
  | TNull => Some JNull
  | TString s => Some (JString s)
  | TUnsigned n => Some (JUnsigned n)
  | TInteger n => Some (JInteger n)
  | TFloat (S754_zero s) => Some (JFloat (S754_zero s))
  | TFloat (S754_finite s m e) => Some (JFloat (S754_finite s m e))
  | _ => None
  end.

(** The object with the members read, in the order they were read. *)
Definition object_of (m : list (string * json)) : list (string * json) :=
  fold_left (fun m kv => obj_set kv.1 kv.2 m) m [].

Inductive reads : string -> json -> string -> Prop :=
| read_scalar s t v r : lexes s t r -> scalar t = Some v -> reads s v r
| read_empty_array s r r' : lexes s TBeginArray r -> lexes r TEndArray r' -> reads s (JArray []) r'
| read_array s r l r' : lexes s TBeginArray r -> reads_elements r l r' -> reads s (JArray l) r'
| read_empty_object s r r' :
    lexes s TBeginObject r -> lexes r TEndObject r' -> reads s (JObject []) r'
| read_object s r m r' :
    lexes s TBeginObject r -> reads_members r m r' -> reads s (JObject (object_of m)) r'
with reads_elements : string -> list json -> string -> Prop :=
| read_last s v r r' : reads s v r -> lexes r TEndArray r' -> reads_elements s [v] r'
| read_more s v r r' l r'' :
    reads s v r -> lexes r TComma r' -> reads_elements r' l r'' -> reads_elements s (v :: l) r''
with reads_members : string -> list (string * json) -> string -> Prop :=
| read_last_member s k r r' v r'' r''' :
    lexes s (TString k) r -> lexes r TName r' -> reads r' v r'' -> lexes r'' TEndObject r''' ->
    reads_members s [(k, v)] r'''
| read_more_members s k r r' v r'' r''' m r4 :
    lexes s (TString k) r -> lexes r TName r' -> reads r' v r'' -> lexes r'' TComma r''' ->
    reads_members r''' m r4 -> reads_members s ((k, v) :: m) r4.

Scheme reads_mind := Minimality for reads Sort Prop
with elements_mind := Minimality for reads_elements Sort Prop
with members_mind := Minimality for reads_members Sort Prop.
Combined Scheme reads_mutind from reads_mind, elements_mind, members_mind.

(** The byte order mark, which may come first; [None] when it is cut. *)
Definition after_bom (s : string) : option string :=
  match s with
  | String c s' =>
      if code c =? 0xEF then
        match s' with
        | String c1 (String c2 s') =>
            if (code c1 =? 0xBB) && (code c2 =? 0xBF) then Some s' else None
        | _ => None
        end
      else Some s
  | EmptyString => Some s
  end.

(** The text of one value, and of a value followed by anything. *)
Definition json_text (s : string) (v : json) : Prop :=
  exists s' r r', after_bom s = Some s' /\ reads s' v r /\ lexes r TEnd r'.
Definition json_prefix (s : string) (v : json) : Prop :=
  exists s' r, after_bom s = Some s' /\ reads s' v r.
