(* ===== verification/JsonLexerFacts.v ===== *)
(** * JsonLexerFacts: the scanner accepts exactly the tokens of the grammar

    [reading l s b]: after a [get], [s] is the text from the byte just read on and
    [b] the token buffer. The lemmas follow the scanner function by function: on
    any state, [scan] returns the token the grammar reads from that text and
    leaves the grammar's rest, and fails when there is none. *)

From S2P Require Import Prelude Json Strtod JsonLexer JsonGrammar.
From Stdlib Require Import SpecFloat.
#[local] Open Scope Z_scope.

(** ** The text that is left *)

(** The last byte read and what follows it: [s] is that text from the byte on. *)
Definition at_byte (l : lexer) (s : string) : Prop :=
  match s with
  | EmptyString => current l = eof /\ ia l = EmptyString
  | String c s => current l = code c /\ ia l = s
  end.

(** After a [get]: the text from the byte just read on, and the token buffer. *)
Definition reading (l : lexer) (s b : string) : Prop :=
  next_unget l = false /\ token_buffer l = b /\ at_byte l s.

(** Before a [get]: the text that is left. *)
Definition ready (l : lexer) (s b : string) : Prop :=
  token_buffer l = b /\ if next_unget l then at_byte l s else ia l = s.

Lemma code_not_eof c : code c =? eof = false.
Proof. pose proof (code_range c). unfold in_u, eof in *. lia. Qed.

Lemma ready_new s : ready (newLexer s) s EmptyString.
Proof. done. Qed.

Lemma reading_get l s b : ready l s b -> reading (get l) s b.
Proof.
  unfold ready, reading, get, next_char, at_byte. intros [Hb H].
  destruct (next_unget l); [by destruct s; cbn; intuition|].
  rewrite H. by destruct s; cbn; intuition.
Qed.

Lemma ready_next l c s b : reading l (String c s) b -> ready l s b.
Proof. unfold reading, ready. intros (-> & Hb & _ & Hi). done. Qed.

Lemma ready_end l b : reading l EmptyString b -> ready l EmptyString b.
Proof. unfold reading, ready. intros (-> & Hb & _ & Hi). done. Qed.

Lemma ready_unget l s b : reading l s b -> ready (unget l) s b.
Proof. unfold reading, ready, unget. intros (Hn & Hb & H). done. Qed.

Lemma reading_add l s b c : reading l s b -> reading (add c l) s (push_back b (chr c)).
Proof. unfold reading, add. intros (Hn & Hb & H). cbn. by rewrite Hb. Qed.

Lemma reading_add_current l c s b :
  reading l (String c s) b -> reading (add (current l) l) (String c s) (b +:+ String c EmptyString).
Proof.
  intros H. pose proof H as (_ & _ & Hc & _). rewrite Hc.
  apply reading_add with (c := code c) in H. by rewrite chr_code in H.
Qed.

Lemma reading_reset l s b : reading l s b -> reading (reset l) s EmptyString.
Proof. by intros (Hn & Hb & H). Qed.

Lemma reading_current l c s b : reading l (String c s) b -> current l = code c.
Proof. by intros (_ & _ & H & _). Qed.

Lemma reading_eof l b : reading l EmptyString b -> current l = eof.
Proof. by intros (_ & _ & H & _). Qed.

Lemma reading_length l s b : reading l s b -> (String.length s <= S (String.length (ia l)))%nat.
Proof. intros (_ & _ & H). destruct s; simpl in *; [lia|]. destruct H as [_ ->]. lia. Qed.

(** Tests on the current byte. *)
Lemma at_char_spec l c d s b : reading l (String c s) b -> at_char l d = Ascii.eqb c d.
Proof.
  intros H. unfold at_char. rewrite (reading_current _ _ _ _ H).
  destruct (Ascii.eqb_spec c d) as [->|Hne]; [apply Z.eqb_refl|].
  apply Z.eqb_neq. intros He. apply Hne. rewrite <- (chr_code c), <- (chr_code d). congruence.
Qed.

Lemma at_char_eof l d b : reading l EmptyString b -> at_char l d = false.
Proof.
  intros H. unfold at_char. rewrite (reading_eof _ _ H), Z.eqb_sym. apply code_not_eof.
Qed.

Lemma current_in_eof l lo hi b : reading l EmptyString b -> 0 <= lo -> current_in l lo hi = false.
Proof. intros H ?. unfold current_in. rewrite (reading_eof _ _ H). unfold eof. lia. Qed.

Lemma current_in_spec l c s b lo hi : reading l (String c s) b -> current_in l lo hi = in_range c (lo, hi).
Proof. intros H. unfold current_in. by rewrite (reading_current _ _ _ _ H). Qed.

Lemma push_back_app b v c : push_back (b +:+ v) c = b +:+ push_back v c.
Proof. unfold push_back. by rewrite str_app_assoc. Qed.

(** ** Strings *)

(** A step of the scanner that reads part of a string agrees with a partial
    function on texts: it succeeds when the function does, adds the bytes and
    leaves the rest. *)
Definition agrees (r : bool * lexer) (b : string) (o : option (string * string)) : Prop :=
  match o with
  | Some (v, s) => r.1 = true /\ ready r.2 s (b +:+ v)
  | None => r.1 = false
  end.

Lemma next_bytes_agrees ranges l s b :
  Forall (fun r => 0 <= r.1) ranges ->
  ready l s b -> agrees (next_bytes ranges l) b (take_ranges ranges s).
Proof.
  intros Hr. revert l s b. induction Hr as [|[lo hi] ranges Hlo _ IH]; intros l s b H; cbn [next_bytes take_ranges].
  - cbn. by rewrite str_app_nil_r.
  - apply reading_get in H. destruct s as [|c s].
    + by rewrite (current_in_eof _ _ _ _ H).
    + rewrite (current_in_spec _ _ _ _ _ _ H). destruct (in_range c (lo, hi)); [|done].
      apply reading_add_current, ready_next in H. specialize (IH _ _ _ H).
      destruct (take_ranges ranges s) as [[v s']|]; [|done].
      cbn in *. by rewrite str_app_assoc in IH.
Qed.

Lemma next_byte_in_range_agrees ranges l c s b :
  Forall (fun r => 0 <= r.1) ranges -> reading l (String c s) b ->
  agrees (next_byte_in_range ranges l) b
    ('(v, s) ← take_ranges ranges s; Some (String c v, s)).
Proof.
  intros Hr H. apply reading_add_current, ready_next in H. unfold next_byte_in_range.
  pose proof (next_bytes_agrees _ _ _ _ Hr H) as A.
  destruct (take_ranges ranges s) as [[v s']|]; [|done]. cbn in *. by rewrite str_app_assoc in A.
Qed.

Lemma hex_digit_at_spec l c s b : reading l (String c s) b -> hex_digit_at l = hex_val c.
Proof.
  intros H. unfold hex_digit_at. rewrite !(current_in_spec _ _ _ _ _ _ H), (reading_current _ _ _ _ H).
  unfold in_range, hex_val. cbn.
  destruct ((48 <=? code c) && (code c <=? 57)); [done|].
  destruct ((65 <=? code c) && (code c <=? 70)) eqn:E1, ((97 <=? code c) && (code c <=? 102)) eqn:E2;
    try done. lia.
Qed.

Lemma hex_digit_at_eof l b : reading l EmptyString b -> hex_digit_at l = None.
Proof. intros H. unfold hex_digit_at. by rewrite !(current_in_eof _ _ _ _ H). Qed.

(** The digits read so far are at [factor] and above. *)
Lemma codepoint_digits_agrees n factors acc l s b :
  factors = map (fun i => 4 * Z.of_nat i) (rev (seq 0 n)) ->
  ready l s b ->
  match take_hex n acc s with
  | Some (z, s') => exists l', codepoint_digits factors (acc * 16 ^ Z.of_nat n) l = (Some z, l') /\ ready l' s' b
  | None => (codepoint_digits factors (acc * 16 ^ Z.of_nat n) l).1 = None
  end.
Proof.
  intros ->. revert acc l s. induction n as [|n IH]; intros acc l s H.
  - cbn. rewrite Z.mul_1_r. by eexists.
  - rewrite seq_S, rev_app_distr. cbn [rev app map codepoint_digits take_hex].
    apply reading_get in H. destruct s as [|c s].
    + by rewrite (hex_digit_at_eof _ _ H).
    + rewrite (hex_digit_at_spec _ _ _ _ H). apply ready_next in H.
      destruct (hex_val c) as [d|]; [|done]. cbn [mbind option_bind].
      specialize (IH (16 * acc + d) _ _ H).
      assert ((16 * acc + d) * 16 ^ Z.of_nat n
              = acc * 16 ^ Z.of_nat (S n) + Z.shiftl d (4 * Z.of_nat (0 + n))) as <-; [|done].
      rewrite Z.shiftl_mul_pow2 by lia. rewrite Z.pow_mul_r by lia. change (2 ^ 4) with 16.
      rewrite Nat2Z.inj_succ, Z.pow_succ_r by lia. cbn [Nat.add]. ring.
Qed.

Lemma get_codepoint_agrees l s b :
  ready l s b ->
  match take_hex 4 0 s with
  | Some (z, s') => exists l', get_codepoint l = (Some z, l') /\ ready l' s' b
  | None => (get_codepoint l).1 = None
  end.
Proof. apply (codepoint_digits_agrees 4 [12; 8; 4; 0] 0). done. Qed.

Lemma hex_val_range c d : hex_val c = Some d -> 0 <= d < 16.
Proof.
  unfold hex_val. intros H.
  destruct ((48 <=? code c) && (code c <=? 57)) eqn:E1; [injection H as <-; lia|].
  destruct ((97 <=? code c) && (code c <=? 102)) eqn:E2; [injection H as <-; lia|].
  destruct ((65 <=? code c) && (code c <=? 70)) eqn:E3; [injection H as <-; lia|done].
Qed.

Lemma take_hex_range n acc s z s' :
  0 <= acc -> take_hex n acc s = Some (z, s') -> 0 <= z < (acc + 1) * 16 ^ Z.of_nat n.
Proof.
  revert acc s. induction n as [|n IH]; intros acc s Ha H; cbn [take_hex] in H.
  - injection H as <- <-. cbn. lia.
  - destruct s as [|c s]; [done|]. destruct (hex_val c) as [d|] eqn:Ed; [|done].
    pose proof (hex_val_range _ _ Ed). cbn in H. apply IH in H; [|lia].
    rewrite Nat2Z.inj_succ, Z.pow_succ_r by lia.
    assert (0 < 16 ^ Z.of_nat n) by (apply Z.pow_pos_nonneg; lia). nia.
Qed.

Lemma add_codepoint_ready z l s b : ready l s b -> ready (add_codepoint z l) s (b +:+ utf8_text z).
Proof.
  unfold add_codepoint, utf8_text. generalize (utf8_bytes z) as bs. intros bs. revert l b.
  induction bs as [|x bs IH]; intros l b H; cbn; [by rewrite str_app_nil_r|].
  assert (Hx : ready (add x l) s (push_back b (chr x))).
  { destruct H as [Hb H]. split; [cbn; by rewrite Hb|done]. }
  apply IH in Hx. unfold push_back in Hx. by rewrite str_app_assoc in Hx.
Qed.

Lemma take_char_agrees c l s b :
  ready l s b ->
  match take_char c s with
  | Some s' => at_char (get l) c = true /\ ready (get l) s' b
  | None => at_char (get l) c = false
  end.
Proof.
  intros H. apply reading_get in H. destruct s as [|d s]; cbn [take_char].
  - by rewrite (at_char_eof _ _ _ H).
  - rewrite (at_char_spec _ _ _ _ _ H). apply ready_next in H. by destruct (Ascii.eqb d c).
Qed.

Lemma scan_unicode_agrees l s b : ready l s b -> agrees (scan_unicode l) b (lex_unicode s).
Proof.
  intros H. unfold scan_unicode, lex_unicode. fold (is_high 0) (is_low 0).
  pose proof (get_codepoint_agrees _ _ _ H) as H1.
  destruct (take_hex 4 0 s) as [[c1 s1]|] eqn:E1; cbn [mbind option_bind].
  2: { destruct (get_codepoint l) as [o l1]. cbn in H1. by subst o. }
  destruct H1 as (l1 & -> & H1). fold (is_high c1) (is_low c1). apply take_hex_range in E1; [|lia].
  destruct (is_high c1) eqn:Eh; [|destruct (is_low c1); [done|by split; [|apply add_codepoint_ready]]].
  pose proof (take_char_agrees "\" _ _ _ H1) as H2.
  destruct (take_char "\" s1) as [s2|]; cbn [mbind option_bind]; [|by rewrite H2].
  destruct H2 as [-> H2]. cbn [negb]. pose proof (take_char_agrees "u" _ _ _ H2) as H3.
  destruct (take_char "u" s2) as [s3|]; cbn [mbind option_bind]; [|by rewrite H3].
  destruct H3 as [-> H3]. cbn [negb]. pose proof (get_codepoint_agrees _ _ _ H3) as H4.
  destruct (take_hex 4 0 s3) as [[c2 s4]|] eqn:E2; cbn [mbind option_bind].
  2: { destruct (get_codepoint (get (get l1))) as [o l4]. cbn in H4. by subst o. }
  destruct H4 as (l4 & -> & H4). fold (is_low c2). apply take_hex_range in E2; [|lia].
  destruct (is_low c2) eqn:El; [|done]. cbn [agrees]. split; [done|].
  unfold is_high, is_low in *. bool_to_prop.
  rewrite Z.shiftl_mul_pow2, wrapu_small by (unfold in_u; lia).
  replace (c1 * 2 ^ 10 + c2 - 56613888) with (65536 + (c1 - 55296) * 1024 + (c2 - 56320)) by lia.
  by apply add_codepoint_ready.
Qed.

(** The switch after a backslash. *)
Lemma scan_escape_agrees l s b :
  ready l s b ->
  agrees (scan_escape l) b
    match s with
    | EmptyString => None
    | String d s =>
        match escape_of d with
        | Some c => Some (String c EmptyString, s)
        | None => if Ascii.eqb d "u" then lex_unicode s else None
        end
    end.
Proof.
  intros H. apply reading_get in H. unfold scan_escape. cbv zeta. destruct s as [|d s].
  { rewrite !(at_char_eof _ _ _ H), (reading_eof _ _ H). done. }
  rewrite !(at_char_spec _ _ _ _ _ H), (reading_current _ _ _ _ H). unfold escape_of.
  assert (Hadd : forall z, agrees (true, add z (get l)) b (Some (String (chr z) EmptyString, s))).
  { intros z. split; [done|]. apply (reading_add _ _ _ z), ready_next in H. done. }
  destruct (Z.eqb_spec (code d) 34) as [E|_].
  { rewrite <- (chr_code d), E. apply Hadd. }
  destruct (Ascii.eqb_spec d "\") as [->|_]; [apply (Hadd (code "\"))|].
  destruct (Ascii.eqb_spec d "/") as [->|_]; [apply (Hadd (code "/"))|].
  destruct (Ascii.eqb d "b"); [apply Hadd|].
  destruct (Ascii.eqb d "f"); [apply Hadd|].
  destruct (Ascii.eqb d "n"); [apply Hadd|].
  destruct (Ascii.eqb d "r"); [apply Hadd|].
  destruct (Ascii.eqb d "t"); [apply Hadd|].
  destruct (Ascii.eqb d "u"); [|done]. apply ready_next in H. by apply scan_unicode_agrees.
Qed.

(** The ranges of the switch on a first byte are those of the standard. *)
Lemma scan_char_agrees l c s b :
  reading l (String c s) b -> code c <> 34 -> agrees (scan_char l) b (lex_char (String c s)).
Proof.
  intros H Hq. unfold scan_char, lex_char. rewrite (at_char_spec _ _ _ _ _ H).
  destruct (Z.eqb_spec (code c) 34); [done|].
  destruct (Ascii.eqb c "\"); [by apply ready_next, scan_escape_agrees in H|].
  rewrite !(current_in_spec _ _ _ _ _ _ H). unfold in_range. cbn [fst snd].
  pose proof (code_range c) as Hc. unfold in_u in Hc. unfold lead_ranges.
  assert (Hn : forall ranges, Forall (fun r => 0 <= r.1) ranges ->
    agrees (next_byte_in_range ranges l) b ('(v, s) ← take_ranges ranges s; Some (String c v, s)))
    by (intros; by apply next_byte_in_range_agrees).
  destruct (Z.ltb_spec (code c) 32).
  { by replace ((0 <=? code c) && (code c <=? 31)) with true by lia. }
  replace ((0 <=? code c) && (code c <=? 31)) with false by lia.
  destruct (Z.ltb_spec (code c) 128).
  { replace ((32 <=? code c) && (code c <=? 127)) with true by lia. cbn. split; [done|].
    by apply reading_add_current, ready_next in H. }
  replace ((32 <=? code c) && (code c <=? 127)) with false by lia.
  destruct (Z.ltb_spec (code c) 194).
  { repeat match goal with |- context [(?a <=? code c) && ?x] =>
      replace ((a <=? code c) && x) with false by lia end. done. }
  destruct (Z.ltb_spec (code c) 224).
  { replace ((194 <=? code c) && (code c <=? 223)) with true by lia. apply Hn. repeat constructor; done. }
  replace ((194 <=? code c) && (code c <=? 223)) with false by lia.
  destruct (Z.eqb_spec (code c) 224) as [->|]; [apply Hn; repeat constructor; done|].
  replace ((224 <=? code c) && (code c <=? 224)) with false by lia.
  destruct (Z.eqb_spec (code c) 237) as [->|]; [apply Hn; repeat constructor; done|].
  destruct (Z.ltb_spec (code c) 240).
  { replace ((225 <=? code c) && (code c <=? 236) || (238 <=? code c) && (code c <=? 239)) with true by lia.
    apply Hn. repeat constructor; done. }
  replace ((225 <=? code c) && (code c <=? 236) || (238 <=? code c) && (code c <=? 239)) with false by lia.
  replace ((237 <=? code c) && (code c <=? 237)) with false by lia.
  destruct (Z.eqb_spec (code c) 240) as [->|]; [apply Hn; repeat constructor; done|].
  replace ((240 <=? code c) && (code c <=? 240)) with false by lia.
  destruct (Z.ltb_spec (code c) 244).
  { replace ((241 <=? code c) && (code c <=? 243)) with true by lia. apply Hn. repeat constructor; done. }
  replace ((241 <=? code c) && (code c <=? 243)) with false by lia.
  destruct (Z.eqb_spec (code c) 244) as [->|]; [apply Hn; repeat constructor; done|].
  by replace ((244 <=? code c) && (code c <=? 244)) with false by lia.
Qed.

(** *** Lengths *)

Lemma take_ranges_length ranges s v s' :
  take_ranges ranges s = Some (v, s') -> (String.length s' <= String.length s)%nat.
Proof.
  revert s v. induction ranges as [|r ranges IH]; intros s v H; cbn in H; [by injection H as <- <-|].
  destruct s as [|c s]; [done|]. destruct (in_range c r); [|done].
  destruct (take_ranges ranges s) as [[v' s'']|] eqn:E; [|done]. injection H as <- <-.
  apply IH in E. simpl. lia.
Qed.

Lemma take_hex_length n acc s z s' :
  take_hex n acc s = Some (z, s') -> (String.length s' <= String.length s)%nat.
Proof.
  revert acc s. induction n as [|n IH]; intros acc s H; cbn in H; [by injection H as <- <-|].
  destruct s as [|c s]; [done|]. destruct (hex_val c); [|done]. apply IH in H. simpl. lia.
Qed.

Lemma take_char_length c s s' : take_char c s = Some s' -> (String.length s' <= String.length s)%nat.
Proof. destruct s as [|d s]; cbn; [done|]. destruct (Ascii.eqb d c); [|done]. intros [= <-]. lia. Qed.

(** Take apart the options a function on texts is made of. *)
Ltac opt_case H :=
  lazymatch type of H with
  | (?o ≫= _) = Some _ =>
      let E := fresh "E" in destruct o as [?|] eqn:E; cbn [mbind option_bind] in H; [|discriminate H];
      try match type of E with _ = Some ?p => match type of p with (_ * _)%type => destruct p end end
  | (if ?b then _ else _) = Some _ =>
      let E := fresh "E" in destruct b eqn:E; try discriminate H
  | (match ?o with _ => _ end) = Some _ =>
      let E := fresh "E" in destruct o eqn:E; try discriminate H
  end.

Lemma lex_unicode_length s v s' : lex_unicode s = Some (v, s') -> (String.length s' <= String.length s)%nat.
Proof.
  unfold lex_unicode. intros H. repeat opt_case H; injection H as <- <-;
    repeat match goal with
    | E : take_hex _ _ _ = Some _ |- _ => apply take_hex_length in E
    | E : take_char _ _ = Some _ |- _ => apply take_char_length in E
    end; lia.
Qed.

Lemma lex_char_length s v s' : lex_char s = Some (v, s') -> (String.length s' < String.length s)%nat.
Proof.
  destruct s as [|c s]; [done|]. cbn [lex_char String.length]. intros H. opt_case H.
  destruct (Ascii.eqb c "\").
  - destruct s as [|d s]; [done|]. destruct (escape_of d); [injection H as <- <-; simpl; lia|].
    destruct (Ascii.eqb d "u"); [|done]. apply lex_unicode_length in H. simpl. lia.
  - do 3 opt_case H. injection H as <- <-.
    match goal with E : take_ranges _ _ = Some _ |- _ => apply take_ranges_length in E end. lia.
Qed.

Lemma string_text_length s v r : string_text s v r -> (String.length r < String.length s)%nat.
Proof. induction 1 as [c r|s v s' w r H _ IH]; simpl; [lia|]. apply lex_char_length in H. lia. Qed.

Lemma string_text_det s v r : string_text s v r -> forall v' r', string_text s v' r' -> v' = v /\ r' = r.
Proof.
  assert (Hq : forall c s, code c = 34 -> lex_char (String c s) = None).
  { intros c0 s0 E. cbn. by rewrite E. }
  induction 1 as [c r Hc|s v s' w r H _ IH]; intros v' r' H'.
  - inversion H'; subst; [done|]. by rewrite Hq in *.
  - inversion H'; subst; [by rewrite Hq in *|].
    match goal with E : lex_char s = Some _ |- _ => rewrite H in E; injection E as -> -> end.
    match goal with E : string_text _ _ _ |- _ => by apply IH in E as [-> ->] end.
Qed.

(** The result of a scan function that reads a token. *)
Definition scans_string (r : token * lexer) (b s : string) : Prop :=
  (r.1 = token_type.value_string /\ exists v s', string_text s v s' /\ ready r.2 s' (b +:+ v)) \/
  (r.1 = token_type.parse_error /\ forall v s', ~ string_text s v s').

Lemma scan_string_fuel fuel l s b :
  (String.length s < fuel)%nat -> ready l s b -> scans_string (scan_string_loop fuel l) b s.
Proof.
  revert l s b. induction fuel as [|fuel IH]; intros l s b Hf H; [lia|].
  apply reading_get in H. cbn [scan_string_loop]. cbv zeta. destruct s as [|c s].
  { rewrite (reading_eof _ _ H). right. split; [done|]. intros v s' Ht. by inversion Ht. }
  rewrite (reading_current _ _ _ _ H), code_not_eof. destruct (Z.eqb_spec (code c) 34) as [Hq|Hq].
  { left. split; [done|]. exists EmptyString, s. rewrite str_app_nil_r. apply ready_next in H.
    split; [by constructor|done]. }
  pose proof (scan_char_agrees _ _ _ _ H Hq) as A. destruct (scan_char (get l)) as [ok l'].
  destruct (lex_char (String c s)) as [[v s']|] eqn:E; cbn in A.
  - destruct A as [-> A]. pose proof (lex_char_length _ _ _ E) as Hl. simpl in Hl, Hf.
    destruct (IH l' s' (b +:+ v) ltac:(lia) A) as [(Ht & w & r & Hw & Hr)|(Ht & Hw)].
    + left. split; [done|]. exists (v +:+ w), r. rewrite <- str_app_assoc. split; [by econstructor|done].
    + right. split; [done|]. intros u r Hu. inversion Hu; subst; [done|].
      match goal with E' : lex_char _ = Some _ |- _ => rewrite E in E'; injection E' as -> -> end. by eapply Hw.
  - subst ok. right. split; [done|]. intros u r Hu. inversion Hu; subst; [done|]. congruence.
Qed.

(** ** Numbers *)

Definition scans_number (r : token * lexer) (b : string) (o : option (string * token * string)) : Prop :=
  match o with
  | Some (w, ty, s') =>
      ready r.2 s' (b +:+ w) /\
      match number_tok (b +:+ w) ty with
      | TUnsigned n => r.1 = token_type.value_unsigned /\ value_unsigned (value_ r.2) = n
      | TInteger n => r.1 = token_type.value_integer /\ value_integer (value_ r.2) = n
      | TFloat x => r.1 = token_type.value_float /\ value_float (value_ r.2) = x
      | _ => False
      end
  | None => r.1 = token_type.parse_error
  end.

Lemma scan_number_done_scans ty l s b :
  reading l s b -> scans_number (scan_number_done ty l) b (Some (EmptyString, ty, s)).
Proof.
  intros H. apply ready_unget in H. unfold scans_number, scan_number_done, number_tok.
  rewrite str_app_nil_r. pose proof H as [Hb _]. rewrite Hb.
  destruct ty; try by (split; [exact H|]).
  - destruct (strtoull b) as [x []]; (split; [exact H|done]).
  - destruct (strtoll b) as [x []]; (split; [exact H|done]).
Qed.

Lemma scan_number_scans fuel l st ty s b :
  (String.length s < fuel)%nat -> ready l s b ->
  scans_number (scan_number_from fuel st ty l) b (run_label st ty s).
Proof.
  revert l st ty s b. induction fuel as [|fuel IH]; intros l st ty s b Hf H; [lia|].
  apply reading_get in H. cbn [scan_number_from]. cbv zeta. destruct s as [|c s]; cbn [run_label].
  - rewrite (reading_eof _ _ H). destruct (branch_of st eof) as [st'| |m] eqn:Eb.
    + by destruct st.
    + by apply scan_number_done_scans.
    + done.
  - rewrite (reading_current _ _ _ _ H).
    destruct (branch_of st (code c)) as [st'| |m]; [|by apply scan_number_done_scans|done].
    pose proof (reading_current _ _ _ _ H) as Hc.
    apply reading_add_current, ready_next in H. rewrite Hc in H.
    specialize (IH _ st' (type_at st ty) s _ ltac:(simpl in Hf; lia) H).
    destruct (run_label st' (type_at st ty) s) as [[[w ty'] r]|]; [|done].
    cbn [mbind option_bind] in *. unfold scans_number in *. by rewrite str_app_assoc in IH.
Qed.

Lemma run_label_length st ty s w ty' r :
  run_label st ty s = Some (w, ty', r) -> s = w +:+ r.
Proof.
  revert st ty w. induction s as [|c s IH]; intros st ty w H; cbn in H.
  - destruct (branch_of st eof); try done. injection H as <- _ <-. done.
  - destruct (branch_of st (code c)) as [st'| |m]; [|by injection H as <- _ <-|done].
    destruct (run_label st' (type_at st ty) s) as [[[w' ty''] r']|] eqn:E; [|done].
    injection H as <- -> <-. simpl. f_equal. by eapply IH.
Qed.

(** ** Tokens *)

(** The token read, with its value. *)
Definition tok_of (t : token) (l : lexer) : option tok :=
  match t with
  | token_type.literal_true => Some TTrue
  | token_type.literal_false => Some TFalse
  | token_type.literal_null => Some TNull
  | token_type.value_string => Some (TString (token_buffer l))
  | token_type.value_unsigned => Some (TUnsigned (value_unsigned (value_ l)))
  | token_type.value_integer => Some (TInteger (value_integer (value_ l)))
  | token_type.value_float => Some (TFloat (value_float (value_ l)))
  | token_type.begin_array => Some TBeginArray
  | token_type.begin_object => Some TBeginObject
  | token_type.end_array => Some TEndArray
  | token_type.end_object => Some TEndObject
  | token_type.name_separator => Some TName
  | token_type.value_separator => Some TComma
  | token_type.end_of_input => Some TEnd
  | _ => None
  end.

(** [r] is the token the grammar reads from [s], or a failure when there is none. *)
Definition scans (r : token * lexer) (s : string) : Prop :=
  (exists t s' b, tok_of r.1 r.2 = Some t /\ lexes s t s' /\ ready r.2 s' b) \/
  (r.1 = token_type.parse_error /\ forall t s', ~ lexes s t s').

Lemma blank_plain c :
  is_blank (code c) = true -> structural c = None /\ Ascii.eqb c "-" || is_digit c = false.
Proof.
  intros Hb. split.
  - destruct (structural c) eqn:E; [|done]. unfold structural in E.
    repeat case_if_in E; try done;
      match goal with X : Ascii.eqb _ _ = true |- _ => apply Ascii.eqb_eq in X; subst; done end.
  - destruct (Ascii.eqb_spec c "-") as [->|]; [done|]. unfold is_blank, is_digit in *. lia.
Qed.

Lemma lexes_blank_inv c s t r : is_blank (code c) = true -> lexes (String c s) t r -> lexes s t r.
Proof.
  intros Hb H. destruct (blank_plain c Hb) as [Hs Hn]. inversion H; subst; try done; try congruence;
    match goal with E : code c = _ |- _ => by rewrite E in Hb end.
Qed.

Lemma skip_whitespace_reads fuel l s b :
  (String.length s < fuel)%nat -> ready l s b ->
  exists s', reading (skip_whitespace_loop fuel l) s' b /\
    (forall t r, lexes s t r <-> lexes s' t r) /\
    (s' = EmptyString \/ exists c s'', s' = String c s'' /\ is_blank (code c) = false).
Proof.
  revert l s. induction fuel as [|fuel IH]; intros l s Hf H; [lia|].
  apply reading_get in H. cbn [skip_whitespace_loop]. cbv zeta. destruct s as [|c s].
  - rewrite (reading_eof _ _ H). exists EmptyString. cbn. auto.
  - rewrite (reading_current _ _ _ _ H). destruct (is_blank (code c)) eqn:Eb.
    + apply ready_next in H. destruct (IH _ s ltac:(simpl in Hf; lia) H) as (s' & H1 & H2 & H3).
      exists s'. split_and!; [done| |done]. intros t r. rewrite <- H2.
      split; [by apply lexes_blank_inv|by constructor].
    + exists (String c s). split_and!; [done|done|eauto].
Qed.

(** Literals: the rest of the word. *)
Fixpoint take_word (w s : string) : option string :=
  match w, s with
  | EmptyString, _ => Some s
  | String c w, String d s => if Ascii.eqb d c then take_word w s else None
  | _, EmptyString => None
  end.

Lemma take_word_spec w s r : take_word w s = Some r <-> s = w +:+ r.
Proof.
  revert s. induction w as [|c w IH]; intros s; simpl; [naive_solver|].
  destruct s as [|d s]; [done|]. destruct (Ascii.eqb_spec d c) as [->|]; [rewrite IH; naive_solver|naive_solver].
Qed.

Lemma scan_literal_scans w ty l s b :
  ready l s b ->
  match take_word w s with
  | Some r => (scan_literal w ty l).1 = ty /\ ready (scan_literal w ty l).2 r b
  | None => (scan_literal w ty l).1 = token_type.parse_error
  end.
Proof.
  revert l s. induction w as [|c w IH]; intros l s H; cbn [scan_literal take_word]; [done|].
  cbv zeta. apply reading_get in H. destruct s as [|d s].
  - by rewrite (at_char_eof _ _ _ H).
  - rewrite (at_char_spec _ _ _ _ _ H). apply ready_next in H. destruct (Ascii.eqb d c); [by apply IH|done].
Qed.

(** The grammar as a case analysis on the first byte. *)
Definition lexes_case (c : ascii) (s : string) (t : tok) (r : string) : Prop :=
  match structural c with
  | Some t' => t = t' /\ r = s
  | None =>
      if Ascii.eqb c "t" then take_word "rue" s = Some r /\ t = TTrue
      else if Ascii.eqb c "f" then take_word "alse" s = Some r /\ t = TFalse
      else if Ascii.eqb c "n" then take_word "ull" s = Some r /\ t = TNull
      else if code c =? 34 then exists v, t = TString v /\ string_text s v r
      else if Ascii.eqb c "-" || is_digit c then
        exists w ty, run_label (first_label c) token_type.value_unsigned s = Some (w, ty, r) /\
          t = number_tok (String c w) ty
      else code c = 0 /\ t = TEnd /\ r = s
  end.

Lemma number_plain c :
  Ascii.eqb c "-" || is_digit c = true ->
  structural c = None /\ Ascii.eqb c "t" = false /\ Ascii.eqb c "f" = false /\
  Ascii.eqb c "n" = false /\ code c =? 34 = false.
Proof.
  revert c. intros [[] [] [] [] [] [] [] []] Hn; try discriminate Hn; done.
Qed.

Lemma lexes_spec c s t r : is_blank (code c) = false -> lexes (String c s) t r <-> lexes_case c s t r.
Proof.
  intros Hb. split.
  - unfold lexes_case.
    inversion 1 as [? ? ? ? Hbl|? ? ? Hs|r0 E|r0 E|r0 E|? ? ? ? Hq Ht|? ? ? ? ? Hn Hr| |? ? Hz]; subst.
    + congruence.
    + by rewrite Hs.
    + by cbn.
    + by cbn.
    + by cbn.
    + assert (c = "034"%char) as -> by (by rewrite <- (chr_code c), Hq). by exists v.
    + match goal with |- context [structural ?d] =>
        destruct (number_plain d Hn) as (-> & -> & -> & -> & ->) end.
      rewrite Hn. eauto.
    + assert (c = "000"%char) as -> by (by rewrite <- (chr_code c), Hz). by cbn.
  - unfold lexes_case. intros H. destruct (structural c) as [t'|] eqn:Es.
    { destruct H as [-> ->]. by constructor. }
    destruct (Ascii.eqb_spec c "t") as [->|].
    { destruct H as [->%take_word_spec ->]. apply (lex_true r). }
    destruct (Ascii.eqb_spec c "f") as [->|].
    { destruct H as [->%take_word_spec ->]. apply (lex_false r). }
    destruct (Ascii.eqb_spec c "n") as [->|].
    { destruct H as [->%take_word_spec ->]. apply (lex_null r). }
    destruct (Z.eqb_spec (code c) 34); [destruct H as (v & -> & Hv); by constructor|].
    destruct (Ascii.eqb c "-" || is_digit c) eqn:En.
    { destruct H as (w & ty & Hr & ->). by constructor. }
    destruct H as (Hz & -> & ->). by constructor.
Qed.

Lemma scans_fail text l s : (forall t r, ~ lexes s t r) -> scans (fail_scan text l) s.
Proof. right. by split. Qed.

Lemma scan_token_scans l s b :
  reading l s b -> (s = EmptyString \/ exists c s', s = String c s' /\ is_blank (code c) = false) ->
  scans (scan_token l) s.
Proof.
  intros H [->|(c & s' & -> & Hb)].
  { unfold scan_token. rewrite !(at_char_eof _ _ _ H), !(current_in_eof _ _ _ _ H), (reading_eof _ _ H) by done.
    left. exists TEnd, EmptyString, b. split_and!; [done|constructor|by apply ready_end]. }
  assert (Hone : forall t ty, tok_of ty l = Some t -> lexes (String c s') t s' -> scans (ty, l) (String c s')).
  { intros t ty Ht Hl. left. exists t, s', b. split_and!; [done..|by eapply ready_next]. }
  assert (Hspec := fun t r => lexes_spec c s' t r Hb). unfold lexes_case in Hspec.
  unfold scan_token. rewrite !(at_char_spec _ _ _ _ _ H), (current_in_spec _ _ _ _ _ _ H), (reading_current _ _ _ _ H).
  unfold structural in Hspec.
  do 6 (match goal with
  | |- context [if Ascii.eqb c ?d then _ else _] => destruct (Ascii.eqb c d) eqn:?
  end; [eapply Hone; [reflexivity|by apply Hspec]|]).
  assert (Hword : forall d w ty t, tok_of ty = (fun _ => Some t) ->
    (forall t' r, lexes (String c s') t' r <-> take_word w s' = Some r /\ t' = t) ->
    d = c -> scans (scan_literal w ty l) (String c s')).
  { intros d w ty t Ht Hl ->. pose proof (scan_literal_scans w ty l s' b (ready_next _ _ _ _ H)) as A.
    destruct (take_word w s') as [r|] eqn:E.
    - destruct A as [A1 A2]. left. exists t, r, b. rewrite A1, Ht. split_and!; [done|by apply Hl|done].
    - right. split; [done|]. intros t' r Hc. by apply Hl in Hc as [? _]. }
  destruct (Ascii.eqb_spec c "t") as [->|]; [by eapply (Hword "t"%char)|].
  destruct (Ascii.eqb_spec c "f") as [->|]; [by eapply (Hword "f"%char)|].
  destruct (Ascii.eqb_spec c "n") as [->|]; [by eapply (Hword "n"%char)|].
  destruct (Z.eqb_spec (code c) 34).
  { unfold scan_string. pose proof (reading_reset _ _ _ H) as Hr.
    pose proof (reading_length _ _ _ Hr) as Hlen. apply ready_next in Hr.
    destruct (scan_string_fuel (fuel_for (reset l)) _ s' _ ltac:(unfold fuel_for; simpl in *; lia) Hr)
      as [(Ht & v & r & Hv & Hr')|(Ht & Hv)].
    - left. exists (TString v), r, v. rewrite Ht. cbn [tok_of]. split_and!; [|apply Hspec; eauto|exact Hr'].
      destruct Hr' as [-> _]. done.
    - right. split; [done|]. intros t r Hl. apply Hspec in Hl as (v & _ & Hl). by eapply Hv. }
  change (in_range c (48, 57)) with (is_digit c).
  destruct (Ascii.eqb c "-" || is_digit c) eqn:En.
  { unfold scan_number. cbv zeta. pose proof (reading_reset _ _ _ H) as Hr.
    rewrite !(at_char_spec _ _ _ _ _ Hr). pose proof (reading_length _ _ _ Hr) as Hlen.
    apply reading_add_current, ready_next in Hr. cbn [String.append] in Hr.
    pose proof (scan_number_scans (fuel_for (reset l)) _ (first_label c) token_type.value_unsigned s' _
      ltac:(unfold fuel_for; simpl in *; lia) Hr) as A. fold (first_label c).
    destruct (run_label (first_label c) token_type.value_unsigned s') as [[[w ty] r]|] eqn:Er; cbn [scans_number] in A.
    - destruct A as [A1 A2]. left. exists (number_tok (String c w) ty), r, (String c w).
      split_and!; [|apply Hspec; eauto|done]. cbn [String.append] in A2.
      destruct (number_tok (String c w) ty); try done; destruct A2 as [-> <-]; done.
    - right. split; [done|]. intros t r Hl. apply Hspec in Hl as (w & ty & Hl & _). congruence. }
  rewrite code_not_eof, orb_false_r. destruct (Z.eqb_spec (code c) 0).
  - eapply Hone; [reflexivity|by apply Hspec].
  - apply scans_fail. intros t r Hl. apply Hspec in Hl as [? _]. done.
Qed.

Definition bom_done (l : lexer) : Prop := chars_read_total (position l) <> 0.

(** The scanner after the first bytes, which a byte order mark may be. *)
Theorem scan_later l s b : bom_done l -> ready l s b -> scans (scan l) s.
Proof.
  unfold bom_done, scan. intros Hb H. destruct (Z.eqb_spec (chars_read_total (position l)) 0); [done|].
  unfold skip_whitespace. 
  assert (Hlen : (String.length s < fuel_for l)%nat).
  { destruct H as [_ H]. unfold fuel_for. destruct (next_unget l); [|subst; lia].
    destruct s; simpl in *; [lia|]. destruct H as [_ ->]. lia. }
  destruct (skip_whitespace_reads _ _ _ _ Hlen H) as (s' & H1 & H2 & H3).
  destruct (scan_token_scans _ _ _ H1 H3) as [(t & r & b' & Ht & Hl & Hr)|(Ht & Hl)].
  - left. exists t, r, b'. split_and!; [done|by apply H2|done].
  - right. split; [done|]. intros t r Hc. apply H2 in Hc. by eapply Hl.
Qed.

Lemma skip_bom_spec s :
  match after_bom s with
  | Some s' => (skip_bom (newLexer s)).1 = true /\ ready (skip_bom (newLexer s)).2 s' EmptyString
  | None => (skip_bom (newLexer s)).1 = false
  end.
Proof.
  pose proof (reading_get _ _ _ (ready_new s)) as H. unfold skip_bom. cbv zeta.
  destruct s as [|c s]; cbn [after_bom].
  - rewrite (reading_eof _ _ H). cbn. split; [done|by apply ready_unget].
  - rewrite (reading_current _ _ _ _ H). destruct (code c =? 239).
    + apply ready_next, reading_get in H. destruct s as [|c1 s].
      { by rewrite (reading_eof _ _ H). }
      rewrite (reading_current _ _ _ _ H). apply ready_next, reading_get in H.
      destruct s as [|c2 s].
      { rewrite (reading_eof _ _ H). by destruct (code c1 =? 187). }
      rewrite (reading_current _ _ _ _ H). apply ready_next in H.
      destruct (code c1 =? 187); cbn; [|done]. destruct (code c2 =? 191); done.
    + split; [done|by apply ready_unget].
Qed.

(** ** Invariants of the scanner

    What reading a byte, putting one back, changing the buffer and reporting an
    error keep, every scan function keeps. *)

Class ScanInvariant (P : lexer -> Prop) : Prop := {
  inv_get l : P l -> P (get l);
  inv_unget l : P l -> P (unget (get l));
  inv_add c l : P l -> P (add c l);
  inv_error text l : is_ascii text = true -> P l -> P (error text l);
  inv_reset l : 0 <= current l -> P l -> P (reset l);
  inv_value v l : P l -> P (with_value v l)
}.

Section scan_invariants.
Context (P : lexer -> Prop) {SI : ScanInvariant P}.

#[local] Hint Extern 2 (P (get _)) => apply inv_get : scan.
#[local] Hint Extern 1 (P (unget (get _))) => apply inv_unget : scan.
#[local] Hint Extern 1 (P (add _ _)) => apply inv_add : scan.
#[local] Hint Extern 1 (P (reset _)) => apply inv_reset; [assumption|] : scan.
#[local] Hint Extern 1 (P (with_value _ _)) => apply inv_value : scan.
#[local] Hint Extern 1 (P (error _ _)) => apply inv_error; [first [reflexivity|assumption]|] : scan.

Ltac scan_inv :=
  repeat match goal with
  | |- P (_, _).2 => cbn [snd]
  | |- P (if ?b then _ else _).2 => destruct b
  | |- P (fail_scan _ _).2 => unfold fail_scan
  | |- P (match ?o with _ => _ end).2 => destruct o
  end; auto 10 with scan.

Lemma inv_codepoint_digits factors z l : P l -> P (codepoint_digits factors z l).2.
Proof. revert z l. induction factors as [|n factors IH]; intros z l H; cbn; scan_inv. Qed.
#[local] Hint Extern 1 (P (codepoint_digits _ _ _).2) => apply inv_codepoint_digits : scan.

Lemma inv_next_bytes ranges l : P l -> P (next_bytes ranges l).2.
Proof. revert l. induction ranges as [|[lo hi] ranges IH]; intros l H; cbn; scan_inv. Qed.
#[local] Hint Extern 1 (P (next_bytes _ _).2) => apply inv_next_bytes : scan.

Lemma inv_add_codepoint z l : P l -> P (add_codepoint z l).
Proof.
  unfold add_codepoint. generalize (utf8_bytes z). intros bs. revert l.
  induction bs as [|x bs IH]; intros l H; cbn; auto with scan.
Qed.
#[local] Hint Extern 1 (P (add_codepoint _ _)) => apply inv_add_codepoint : scan.

Lemma inv_scan_unicode l : P l -> P (scan_unicode l).2.
Proof.
  intros H. unfold scan_unicode, get_codepoint.
  pose proof (inv_codepoint_digits [12; 8; 4; 0] 0 l H) as H1.
  destruct (codepoint_digits _ _ l) as [[c1|] l1]; cbn [snd] in H1; [|scan_inv].
  destruct (_ && _); [|scan_inv]. cbv zeta. destruct (negb _); [scan_inv|].
  destruct (negb _); [scan_inv|].
  pose proof (inv_codepoint_digits [12; 8; 4; 0] 0 (get (get l1)) ltac:(auto with scan)) as H2.
  destruct (codepoint_digits _ _ (get (get l1))) as [[c2|] l2]; cbn [snd] in H2; scan_inv.
Qed.
#[local] Hint Extern 1 (P (scan_unicode _).2) => apply inv_scan_unicode : scan.

Lemma control_message_ascii c : is_ascii (control_message c) = true.
Proof.
  unfold control_message. destruct (control_names !! Z.to_nat c) as [[[n w] d]|] eqn:E; [|done].
  apply list_elem_of_lookup_2 in E. revert E. generalize n w d. clear.
  assert (H : forallb (fun '(n, w, d) => is_ascii ("invalid string: control character U+" +:+ n +:+ " (" +:+ w +:+
      ") must be escaped to \u" +:+ n +:+ d)) control_names = true) by (vm_compute; reflexivity).
  rewrite forallb_forall in H. intros n w d E. apply (H (n, w, d)). by apply list_elem_of_In.
Qed.

Lemma inv_scan_escape l : P l -> P (scan_escape l).2.
Proof. intros H. unfold scan_escape. cbv zeta. scan_inv. Qed.

Lemma inv_scan_char l : P l -> P (scan_char l).2.
Proof.
  intros H. unfold scan_char, next_byte_in_range. pose proof (control_message_ascii (current l)).
  pose proof inv_scan_escape. scan_inv.
Qed.

Lemma inv_scan_string l : 0 <= current l -> P l -> P (scan_string l).2.
Proof.
  intros Hc H. unfold scan_string. apply inv_reset in H; [|done]. clear Hc. cbv zeta. revert H. generalize (fuel_for (reset l)).
  generalize (reset l). clear l. intros l fuel. revert l.
  induction fuel as [|fuel IH]; intros l H; cbn [scan_string_loop]; [scan_inv|]. cbv zeta.
  do 2 (case_if; [scan_inv|]). pose proof (inv_scan_char (get l) ltac:(auto with scan)) as Hc.
  destruct (scan_char (get l)) as [[] l']; cbn [snd] in *; auto.
Qed.

Lemma inv_scan_number l : 0 <= current l -> P l -> P (scan_number l).2.
Proof.
  intros Hc H. unfold scan_number. cbv zeta.
  assert (H' : P (add (current (reset l)) (reset l))) by auto with scan. revert H'.
  generalize (add (current (reset l)) (reset l)). generalize (fuel_for (reset l)).
  generalize token_type.value_unsigned.
  generalize (if at_char (reset l) "-" then scan_number_minus
    else if at_char (reset l) "0" then scan_number_zero else scan_number_any1).
  clear Hc H l. intros st ty fuel. revert st ty. induction fuel as [|fuel IH]; intros st ty l H; cbn [scan_number_from]; [scan_inv|].
  cbv zeta. destruct (branch_of st (current (get l))) as [st'| |m] eqn:E.
  - apply IH. auto with scan.
  - unfold scan_number_done. apply inv_unget in H. cbv zeta.
    destruct (type_at st ty); repeat match goal with |- context [let '(_, _) := ?x in _] => destruct x end; scan_inv.
  - assert (is_ascii m = true); [|scan_inv].
    destruct st; cbn in E; repeat case_if_in E; try discriminate E; injection E as <-; reflexivity.
Qed.

Lemma inv_scan_literal w ty l : P l -> P (scan_literal w ty l).2.
Proof. revert l. induction w as [|c w IH]; intros l H; cbn; scan_inv. Qed.

Lemma inv_scan_token l : P l -> P (scan_token l).2.
Proof.
  intros H. pose proof inv_scan_literal. unfold scan_token.
  destruct (Z.eqb_spec (current l) 34) as [E|_].
  { pose proof (inv_scan_string l ltac:(lia) H). scan_inv. }
  destruct (at_char l "-" || current_in l 48 57) eqn:E; [|scan_inv].
  assert (Hc : 0 <= current l).
  { unfold at_char, current_in in E. change (code "-") with 45 in E.
    apply orb_true_iff in E as [E%Z.eqb_eq|[E%Z.leb_le _]%andb_prop]; lia. }
  pose proof (inv_scan_number l Hc H). scan_inv.
Qed.

Lemma inv_skip_whitespace l : P (get l) -> P (skip_whitespace l).
Proof.
  unfold skip_whitespace, fuel_for. generalize (S (String.length (ia l))). intros fuel. revert l.
  induction fuel as [|fuel IH]; intros l H; cbn [skip_whitespace_loop] in *; cbv zeta; case_if; auto.
  apply IH. auto with scan.
Qed.

End scan_invariants.

(** The first byte was read. *)
Definition total_read (n : Z) (l : lexer) : Prop := n <= chars_read_total (position l).

Lemma total_get l : chars_read_total (position (get l)) = chars_read_total (position l) + 1.
Proof. unfold get. destruct (next_char l) as [c s]. cbn. unfold advance. by destruct (c =? 10). Qed.

Lemma total_unget l : chars_read_total (position (unget l)) = chars_read_total (position l) - 1.
Proof. unfold unget, retreat. cbn. by destruct (_ =? 0). Qed.

#[export] Instance total_read_inv n : ScanInvariant (total_read n).
Proof.
  split; intros; unfold total_read in *; rewrite ?total_unget, ?total_get; cbn; try done; lia.
Qed.

Lemma skip_bom_total l :
  total_read 0 l -> total_read (if (skip_bom l).1 then 0 else 1) (skip_bom l).2.
Proof.
  intros H. unfold skip_bom. cbv zeta. unfold total_read in *.
  destruct (current (get l) =? 239); [destruct (current (get (get l)) =? 187)|];
    cbn [fst snd]; rewrite ?total_unget, ?total_get; [destruct (_ =? 191)| |]; lia.
Qed.

Lemma scan_total l : total_read 0 l -> total_read 1 (scan l).2.
Proof.
  intros H. unfold scan.
  assert (Hb : forall r, r = (if chars_read_total (position l) =? 0 then skip_bom l else (true, l)) ->
    total_read (if r.1 then 0 else 1) r.2).
  { intros r ->. destruct (_ =? 0); [by apply skip_bom_total|done]. }
  destruct (if chars_read_total (position l) =? 0 then skip_bom l else (true, l)) as [ok l'].
  specialize (Hb _ eq_refl). destruct ok; cbn [fst snd] in Hb; [|exact Hb].
  apply inv_scan_token; [apply _|]. apply inv_skip_whitespace; [apply _|].
  unfold total_read in *. rewrite total_get. lia.
Qed.

(** The first token of a text. *)
Theorem scan_first s :
  match after_bom s with
  | Some s' => scans (scan (newLexer s)) s'
  | None => (scan (newLexer s)).1 = token_type.parse_error
  end.
Proof.
  unfold scan. cbn [newLexer position chars_read_total]. change (0 =? 0) with true. cbv iota.
  pose proof (skip_bom_spec s) as H. destruct (after_bom s) as [s'|].
  - destruct H as [H1 H2]. destruct (skip_bom (newLexer s)) as [ok l]. cbn [fst snd] in *. subst ok.
    unfold skip_whitespace.
    assert (Hlen : (String.length s' < fuel_for l)%nat).
    { destruct H2 as [_ H]. unfold fuel_for. destruct (next_unget l); [|subst; lia].
      destruct s'; simpl in *; [lia|]. destruct H as [_ ->]. lia. }
    destruct (skip_whitespace_reads _ _ _ _ Hlen H2) as (s2 & H1 & H3 & H4).
    destruct (scan_token_scans _ _ _ H1 H4) as [(t & r & b' & Ht & Hl & Hr)|(Ht & Hl)].
    + left. exists t, r, b'. split_and!; [done|by apply H3|done].
    + right. split; [done|]. intros t r Hc. apply H3 in Hc. by eapply Hl.
  - destruct (skip_bom (newLexer s)) as [ok l]. cbn [fst] in H. by subst ok.
Qed.
