(* ===== verification/JsonParser.v ===== *)
(** * JsonParser: the parser of nlohmann::json (src/include/utils/json.hpp)

    [class json_sax_dom_parser] builds the value in place: its stack holds
    pointers into the value under construction, and [object_element] points to
    the member that the next value fills. Here the value under construction is
    one tree and a pointer is the path to a node of it, so that the aliasing of
    the code is kept. [class parser]: the loop of [sax_parse_internal] with its
    stack of states, one [sax_step] per turn. A handler of the SAX interface
    always returns true here, and an error is thrown ([allow_exceptions] is
    true). *)

From S2P Require Import Prelude Json Strtod JsonLexer.
From Stdlib Require Import SpecFloat.
#[local] Open Scope Z_scope.

(** ** json_sax_dom_parser *)

(** A pointer to a node of the value: array indices and object keys, from the
    root. *)
Inductive edge : Type := at_index (i : nat) | at_key (k : string).
Abbreviation path := (list edge).

(** Writing through a pointer. *)
Fixpoint obj_alter (f : json -> json) (k : string) (m : list (string * json))
    : list (string * json) :=
  match m with
  | [] => []
  | (k', v) :: m => if String.eqb k k' then (k', f v) :: m else (k', v) :: obj_alter f k m
  end.

Fixpoint write_at (p : path) (f : json -> json) (j : json) : json :=
  match p with
  | [] => f j
  | at_index i :: p =>
      match j with JArray l => JArray (alter (write_at p f) i l) | _ => j end
  | at_key k :: p =>
      match j with JObject m => JObject (obj_alter (write_at p f) k m) | _ => j end
  end.

(** Reading through a pointer. *)
Fixpoint read_at (p : path) (j : json) : option json :=
  match p with
  | [] => Some j
  | at_index i :: p =>
      match j with JArray l => l !! i ≫= read_at p | _ => None end
  | at_key k :: p =>
      match j with JObject m => obj_find k m ≫= read_at p | _ => None end
  end.

Record sax := mkSax {
  root : json;
  ref_stack : list path;  (* the back of the vector first *)
  object_element : path
}.

Definition newSax : sax := mkSax JNull [] [].

(** [handle_value]: the value is stored, and the result points to it. *)
Definition handle_value (v : json) (s : sax) : path * sax :=
  match ref_stack s with
  | [] => ([], mkSax v [] (object_element s))
  | back :: _ =>
      match read_at back (root s) with
      | Some (JArray l) =>
          (back ++ [at_index (length l)],
           mkSax (write_at back (fun _ => JArray (l ++ [v])) (root s)) (ref_stack s) (object_element s))
      | _ =>
          (object_element s,
           mkSax (write_at (object_element s) (fun _ => v) (root s)) (ref_stack s) (object_element s))
      end
  end.

(** The events of values: [null], [boolean], [number_integer],
    [number_unsigned], [number_float] and [string]. *)
Definition sax_value (v : json) (s : sax) : sax := (handle_value v s).2.

Definition start_structured (v : json) (s : sax) : sax :=
  let '(p, s) := handle_value v s in mkSax (root s) (p :: ref_stack s) (object_element s).
Definition start_object : sax -> sax := start_structured (JObject []).
Definition start_array : sax -> sax := start_structured (JArray []).

(** [object->operator[](val)]: a null is added when the key is new. *)
Definition obj_touch (k : string) (m : list (string * json)) : list (string * json) :=
  match obj_find k m with Some _ => m | None => obj_set k JNull m end.

Definition sax_key (k : string) (s : sax) : sax :=
  match ref_stack s with
  | [] => s
  | back :: _ =>
      mkSax (write_at back (fun j => match j with JObject m => JObject (obj_touch k m) | _ => j end)
               (root s))
        (ref_stack s) (back ++ [at_key k])
  end.

(** [end_object] and [end_array]. *)
Definition end_structured (s : sax) : sax := mkSax (root s) (tl (ref_stack s)) (object_element s).

(** ** parser *)

Record parser := mkParser {
  last_token : token;
  m_lexer : lexer;
  the_sax : sax;
  states : list bool;  (* true is an array; the back of the vector first *)
  skip_to_state_evaluation : bool
}.

Definition with_sax (s : sax) (p : parser) : parser :=
  mkParser (last_token p) (m_lexer p) s (states p) (skip_to_state_evaluation p).
Definition with_states (l : list bool) (p : parser) : parser :=
  mkParser (last_token p) (m_lexer p) (the_sax p) l (skip_to_state_evaluation p).
Definition with_skip (b : bool) (p : parser) : parser :=
  mkParser (last_token p) (m_lexer p) (the_sax p) (states p) b.

Definition get_token (p : parser) : parser :=
  let '(t, l) := scan (m_lexer p) in
  mkParser t l (the_sax p) (states p) (skip_to_state_evaluation p).

(** The constructor reads the first token. *)
Definition newParser (input : string) : parser :=
  get_token (mkParser token_type.uninitialized (newLexer input) newSax [] false).

Definition exception_message (expected : token) (context : string) (p : parser) : string :=
  "syntax error " +:+
  (if str_empty context then "" else "while parsing " +:+ context +:+ " ") +:+ "- " +:+
  (match last_token p with
   | token_type.parse_error =>
       error_message (m_lexer p) +:+ "; last read: '" +:+ get_token_string (m_lexer p) +:+ "'"
   | t => "unexpected " +:+ token_type_name t
   end) +:+
  (match expected with
   | token_type.uninitialized => ""
   | t => "; expected " +:+ token_type_name t
   end).

Definition position_string (pos : position_t) : string :=
  " at line " +:+ to_string (lines_read pos + 1) +:+
  ", column " +:+ to_string (chars_read_current_line pos).

(** [parse_error::create(101, ...)] *)
Definition parse_error_101 (what_arg : string) (p : parser) : exn :=
  json_parse_error (exception_name "parse_error" 101 +:+ "parse error" +:+
    position_string (position (m_lexer p)) +:+ ": " +:+ what_arg).

Definition unexpected (expected : token) (context : string) (p : parser) : exn :=
  parse_error_101 (exception_message expected context p) p.

(** [std::isfinite] *)
Definition isfinite (f : spec_float) : bool :=
  match f with S754_zero _ | S754_finite _ _ _ => true | _ => false end.

(** What a turn of the loop ends with. *)
Inductive turn : Type :=
| continue (p : parser)
| complete (p : parser)   (* the hierarchy is read: return true *)
| throw (e : exn).

(** A key, the separator, and the first token of the member's value. *)
Definition parse_member (k : parser -> turn) (p : parser) : turn :=
  match last_token p with
  | token_type.value_string =>
      let p := get_token (with_sax (sax_key (token_buffer (m_lexer p)) (the_sax p)) p) in
      match last_token p with
      | token_type.name_separator => k p
      | _ => throw (unexpected token_type.name_separator "object separator" p)
      end
  | _ => throw (unexpected token_type.value_string "object key" p)
  end.

(** The evaluation of the state after a value. *)
Definition after_value (p : parser) : turn :=
  match states p with
  | [] => complete p
  | true :: rest =>
      let p := get_token p in
      match last_token p with
      | token_type.value_separator => continue (get_token p)
      | token_type.end_array =>
          continue (with_skip true (with_states rest (with_sax (end_structured (the_sax p)) p)))
      | _ => throw (unexpected token_type.end_array "array" p)
      end
  | false :: rest =>
      let p := get_token p in
      match last_token p with
      | token_type.value_separator => parse_member (fun p => continue (get_token p)) (get_token p)
      | token_type.end_object =>
          continue (with_skip true (with_states rest (with_sax (end_structured (the_sax p)) p)))
      | _ => throw (unexpected token_type.end_object "object" p)
      end
  end.

Definition event_value (v : json) (p : parser) : parser := with_sax (sax_value v (the_sax p)) p.

(** The switch on the last token. *)
Definition parse_value (p : parser) : turn :=
  let l := m_lexer p in
  match last_token p with
  | token_type.begin_object =>
      let p := get_token (with_sax (start_object (the_sax p)) p) in
      match last_token p with
      | token_type.end_object => after_value (with_sax (end_structured (the_sax p)) p)
      | _ => parse_member (fun p => continue (get_token (with_states (false :: states p) p))) p
      end
  | token_type.begin_array =>
      let p := get_token (with_sax (start_array (the_sax p)) p) in
      match last_token p with
      | token_type.end_array => after_value (with_sax (end_structured (the_sax p)) p)
      | _ => continue (with_states (true :: states p) p)
      end
  | token_type.value_float =>
      if isfinite (value_float (value_ l))
      then after_value (event_value (JFloat (value_float (value_ l))) p)
      else throw (json_range_error (exception_name "out_of_range" 406 +:+
             "number overflow parsing '" +:+ get_token_string l +:+ "'"))
  | token_type.literal_false => after_value (event_value (JBool false) p)
  | token_type.literal_null => after_value (event_value JNull p)
  | token_type.literal_true => after_value (event_value (JBool true) p)
  | token_type.value_integer => after_value (event_value (JInteger (value_integer (value_ l))) p)
  | token_type.value_string => after_value (event_value (JString (token_buffer l)) p)
  | token_type.value_unsigned => after_value (event_value (JUnsigned (value_unsigned (value_ l))) p)
  | token_type.parse_error => throw (unexpected token_type.uninitialized "value" p)
  | token_type.end_of_input =>
      throw (if chars_read_total (position l) =? 1
             then parse_error_101 "attempting to parse an empty input; check that your input string or stream contains the expected JSON" p
             else unexpected token_type.literal_or_value "value" p)
  | _ => throw (unexpected token_type.literal_or_value "value" p)
  end.

Definition sax_step (p : parser) : turn :=
  if skip_to_state_evaluation p then after_value (with_skip false p) else parse_value p.

(** [None] when the fuel is used up. *)
Fixpoint sax_parse_internal (fuel : nat) (p : parser) : option (result parser) :=
  match fuel with
  | O => None
  | S fuel =>
      match sax_step p with
      | continue p => sax_parse_internal fuel p
      | complete p => Some (Ok p)
      | throw e => Some (Throw e)
      end
  end.

(** Turns enough for any input: each but the last reads a token
    ([parser_terminates]). *)
Definition parse_fuel (input : string) : nat := S (S (S (String.length input))).

Definition parser_parse (strict : bool) (input : string) : option (result json) :=
  match sax_parse_internal (parse_fuel input) (newParser input) with
  | None => None
  | Some (Throw e) => Some (Throw e)
  | Some (Ok p) =>
      if strict then
        let p := get_token p in
        match last_token p with
        | token_type.end_of_input => Some (Ok (root (the_sax p)))
        | _ => Some (Throw (unexpected token_type.end_of_input "value" p))
        end
      else Some (Ok (root (the_sax p)))
  end.

(** [json::parse(text)] and [stream >> j]. *)
Definition run_out : result json := Throw (json_parse_error "").
Definition nlohmann_parse (input : string) : result json := default run_out (parser_parse true input).
Definition nlohmann_stream (input : string) : result json := default run_out (parser_parse false input).
