(* ===== verification/JsonParserFacts.v ===== *)
(** * JsonParserFacts: the parser computes the grammar

    The parser builds the value in place, with a stack of pointers and a stack of
    states, one token ahead. [parse_exact]: it returns a value exactly when the
    grammar reads the text as that value, and raises an exception otherwise; it
    always returns ([parser_terminates]). *)

From S2P Require Import Prelude Json Strtod JsonLexer JsonGrammar JsonLexerFacts JsonParser.
From Stdlib Require Import SpecFloat.
#[local] Open Scope Z_scope.

(** ** Texts and their tokens *)

Lemma lexes_end_inv t r : lexes EmptyString t r -> t = TEnd /\ r = EmptyString.
Proof. inversion 1; done. Qed.

Lemma lexes_case_det c s t r t' r' : lexes_case c s t r -> lexes_case c s t' r' -> t = t' /\ r = r'.
Proof.
  unfold lexes_case. destruct (structural c); [naive_solver|].
  repeat case_if; try naive_solver.
  intros (v & -> & H) (v' & -> & H'). by destruct (string_text_det _ _ _ H _ _ H') as [-> ->].
Qed.

Lemma lexes_det s t r t' r' : lexes s t r -> lexes s t' r' -> t = t' /\ r = r'.
Proof.
  revert t r t' r'. induction s as [|c s IH]; intros t r t' r' H H'.
  - by destruct (lexes_end_inv _ _ H) as [-> ->], (lexes_end_inv _ _ H') as [-> ->].
  - destruct (is_blank (code c)) eqn:Hb.
    + eapply IH; by eapply lexes_blank_inv.
    + apply lexes_spec in H; [|done]. apply lexes_spec in H'; [|done]. by eapply lexes_case_det.
Qed.

Lemma number_tok_not_end w ty : number_tok w ty <> TEnd.
Proof. unfold number_tok. destruct ty; try done; [destruct (strtoull w) as [? []]|destruct (strtoll w) as [? []]]; done. Qed.

Lemma lexes_length s t r :
  lexes s t r -> (String.length r <= String.length s)%nat /\ (t <> TEnd -> (String.length r < String.length s)%nat).
Proof.
  induction 1 as [c s t r _ _ [IH1 IH2]|c t r _|r|r|r|c s v r _ Hs|c s w ty r _ Hr| |c r _]; simpl.
  - split; [lia|]. intros Ht. apply IH2 in Ht. lia.
  - lia.
  - lia.
  - lia.
  - lia.
  - apply string_text_length in Hs. lia.
  - apply run_label_length in Hr as ->. rewrite str_length_app. lia.
  - split; [lia|done].
  - split; [lia|done].
Qed.

Lemma scalar_not_end t v : scalar t = Some v -> t <> TEnd.
Proof. by intros H ->. Qed.

Lemma reads_length :
  (forall s v r, reads s v r -> (String.length r < String.length s)%nat) /\
  (forall s l r, reads_elements s l r -> (String.length r < String.length s)%nat) /\
  (forall s m r, reads_members s m r -> (String.length r < String.length s)%nat).
Proof.
  apply reads_mutind; intros;
    repeat match goal with
    | H : lexes _ _ _ |- _ => apply lexes_length in H as [? ?]
    | H : scalar _ = Some _ |- _ => apply scalar_not_end in H
    end;
    repeat match goal with
    | H : ?t <> TEnd -> _ |- _ => specialize (H ltac:(done))
    end; lia.
Qed.

(** ** The value under construction *)

(** A pointer [q] to the hole of [F]: what is read and written through it. *)
Definition cursor (q : path) (F : json -> json) : Prop :=
  (forall j, read_at q (F j) = Some j) /\ (forall f j, write_at q f (F j) = F (f j)).

(** The next value goes to the hole of [F]. *)
Definition target (s : sax) (q : path) (F : json -> json) : Prop :=
  cursor q F /\
  forall v, handle_value v s = (q, mkSax (F v) (ref_stack s) (object_element s)).

Lemma read_at_app p q j : read_at (p ++ q) j = read_at p j ≫= read_at q.
Proof.
  revert j. induction p as [|[i|k] p IH]; intros j; simpl; [done|..].
  - destruct j; try done. destruct (l !! i); simpl; [apply IH|done].
  - destruct j; try done. destruct (obj_find k m); simpl; [apply IH|done].
Qed.

Lemma obj_alter_ext f g k m : (forall j, f j = g j) -> obj_alter f k m = obj_alter g k m.
Proof. intros H. induction m as [|[k' v] m IH]; simpl; [done|]. rewrite H, IH. done. Qed.

Lemma write_at_app p q f j : write_at (p ++ q) f j = write_at p (write_at q f) j.
Proof.
  revert j. induction p as [|[i|k] p IH]; intros j; simpl; [done|..].
  - destruct j; try done. f_equal. by apply list_alter_ext.
  - destruct j; try done. f_equal. by apply obj_alter_ext.
Qed.

Lemma cursor_app q F e G :
  cursor q F -> cursor [e] G -> cursor (q ++ [e]) (fun v => F (G v)).
Proof.
  intros [R1 W1] [R2 W2]. split.
  - intros j. rewrite read_at_app, R1. apply R2.
  - intros f j. rewrite write_at_app, W1. by rewrite W2.
Qed.

Lemma cursor_index l : cursor [at_index (length l)] (fun v => JArray (l ++ [v])).
Proof.
  split; intros; simpl.
  - by rewrite list_lookup_middle.
  - f_equal. rewrite alter_app_r_alt by lia. by rewrite Nat.sub_diag.
Qed.

Lemma obj_alter_set f k v m : obj_alter f k (obj_set k v m) = obj_set k (f v) m.
Proof.
  induction m as [|[k' v'] m IH]; simpl.
  - by rewrite String.eqb_refl.
  - destruct (String.eqb k k') eqn:E; simpl; [by rewrite String.eqb_refl|].
    destruct (str_lt k k'); simpl; [by rewrite String.eqb_refl|]. by rewrite E, IH.
Qed.

Lemma cursor_key k m : cursor [at_key k] (fun v => JObject (obj_set k v m)).
Proof.
  split; intros; simpl.
  - by rewrite obj_find_set_eq.
  - by rewrite obj_alter_set.
Qed.

Lemma target_root oe : target (mkSax JNull [] oe) [] id.
Proof. by repeat split. Qed.

Lemma target_element q F l rs oe :
  cursor q F ->
  target (mkSax (F (JArray l)) (q :: rs) oe) (q ++ [at_index (length l)])
    (fun v => F (JArray (l ++ [v]))).
Proof.
  intros HF. split; [apply (cursor_app q F _ (fun v => JArray (l ++ [v])) HF), cursor_index|].
  intros v. destruct HF as [R W]. unfold handle_value. cbn [ref_stack root].
  by rewrite R, W.
Qed.

(** The member is there, so that writing it is setting it. *)
Lemma obj_alter_touch k v m :
  sorted_strict (map fst m) = true -> obj_alter (fun _ => v) k (obj_touch k m) = obj_set k v m.
Proof.
  intros Hs. unfold obj_touch. destruct (obj_find k m) as [w|] eqn:Hf; [|apply obj_alter_set].
  revert Hs w Hf. induction m as [|[k' v'] m IH]; [done|]. cbn [map fst obj_find obj_alter obj_set].
  rewrite sorted_strict_cons. intros [H1 H2] w Hf. destruct (String.eqb_spec k k') as [->|Hne]; [done|].
  assert (Hk : k ∈ map fst m).
  { clear -Hf. induction m as [|[k0 v0] m IH]; [done|]. simpl in *.
    destruct (String.eqb_spec k k0) as [->|]; set_solver. }
  rewrite Forall_forall in H2. rewrite (str_lt_asym k' k) by by apply H2.
  f_equal. by eapply IH.
Qed.

Lemma target_member q F k m rs :
  cursor q F -> sorted_strict (map fst m) = true ->
  target (mkSax (F (JObject (obj_touch k m))) (q :: rs) (q ++ [at_key k])) (q ++ [at_key k])
    (fun v => F (JObject (obj_set k v m))).
Proof.
  intros HF Hs. split; [apply (cursor_app q F _ (fun v => JObject (obj_set k v m)) HF), cursor_key|].
  intros v. destruct HF as [R W]. unfold handle_value. cbn [ref_stack root object_element].
  rewrite R, write_at_app, W. cbn [write_at]. by rewrite obj_alter_touch.
Qed.

Lemma sax_key_spec q F k m rs oe :
  cursor q F ->
  sax_key k (mkSax (F (JObject m)) (q :: rs) oe)
    = mkSax (F (JObject (obj_touch k m))) (q :: rs) (q ++ [at_key k]).
Proof. intros [R W]. unfold sax_key. cbn [ref_stack root]. by rewrite W. Qed.

Lemma target_value s q F v :
  target s q F -> sax_value v s = mkSax (F v) (ref_stack s) (object_element s).
Proof. intros [_ H]. unfold sax_value. by rewrite H. Qed.

Lemma target_structured s q F v :
  target s q F -> start_structured v s = mkSax (F v) (q :: ref_stack s) (object_element s).
Proof. intros [_ H]. unfold start_structured. by rewrite H. Qed.

Lemma object_of_sorted m m0 :
  sorted_strict (map fst m0) = true ->
  sorted_strict (map fst (fold_left (fun m kv => obj_set kv.1 kv.2 m) m m0)) = true.
Proof. revert m0. induction m as [|kv m IH]; intros m0 H; simpl; [done|]. by apply IH, obj_set_sorted. Qed.

(** ** Runs of the loop *)

Definition turn_step (t t' : turn) : Prop := exists p, t = continue p /\ t' = sax_step p.
Abbreviation turns := (rtc turn_step).

Lemma turns_continue p t : turns (sax_step p) t -> turns (continue p) t.
Proof. intros H. eapply rtc_l; [|exact H]. by exists p. Qed.

(** The text the parser has not consumed. *)
Definition at_text (p : parser) (s : string) : Prop :=
  (exists b, ready (m_lexer p) s b) /\ total_read 1 (m_lexer p).

(** The parser holds the token [t]; [r] follows. *)
Definition at_tok (p : parser) (t : tok) (r : string) : Prop :=
  tok_of (last_token p) (m_lexer p) = Some t /\ at_text p r.

(** The parser has read the first token of [s], if there is one. *)
Definition on (p : parser) (s : string) : Prop :=
  (exists t r, lexes s t r /\ at_tok p t r) \/
  (last_token p = token_type.parse_error /\ forall t r, ~ lexes s t r).

(** The parser [p'] is [p] but for the scanner. *)
Definition same_work (p p' : parser) : Prop :=
  the_sax p' = the_sax p /\ states p' = states p /\
  skip_to_state_evaluation p' = skip_to_state_evaluation p.

Lemma get_token_on p s : at_text p s -> on (get_token p) s /\ same_work p (get_token p).
Proof.
  intros [[b H] Ht]. unfold get_token, on, at_tok, at_text.
  assert (Hd : bom_done (m_lexer p)) by (unfold bom_done, total_read in *; lia).
  pose proof (scan_later _ _ _ Hd H) as A.
  pose proof (scan_total (m_lexer p) ltac:(unfold total_read in *; lia)) as B.
  destruct (scan (m_lexer p)) as [t l]. cbn [fst snd] in *. split; [|done].
  destruct A as [(t' & r & b' & H1 & H2 & H3)|[H1 H2]]; [left|right]; cbn; eauto 10.
Qed.

Lemma on_tok p s t r : on p s -> lexes s t r -> at_tok p t r.
Proof.
  intros [(t' & r' & H1 & H2)|[_ H]] Hl; [|by apply H in Hl].
  by destruct (lexes_det _ _ _ _ _ Hl H1) as [-> ->].
Qed.

Lemma get_token_tok p s t r :
  at_text p s -> lexes s t r -> at_tok (get_token p) t r /\ same_work p (get_token p).
Proof. intros H Hl. destruct (get_token_on _ _ H) as [H1 H2]. split; [by eapply on_tok|done]. Qed.

(** The type of the token held. *)
Lemma tok_last p t r :
  at_tok p t r ->
  match t with
  | TTrue => last_token p = token_type.literal_true
  | TFalse => last_token p = token_type.literal_false
  | TNull => last_token p = token_type.literal_null
  | TString s => last_token p = token_type.value_string /\ token_buffer (m_lexer p) = s
  | TUnsigned n => last_token p = token_type.value_unsigned /\ value_unsigned (value_ (m_lexer p)) = n
  | TInteger n => last_token p = token_type.value_integer /\ value_integer (value_ (m_lexer p)) = n
  | TFloat x => last_token p = token_type.value_float /\ value_float (value_ (m_lexer p)) = x
  | TBeginArray => last_token p = token_type.begin_array
  | TBeginObject => last_token p = token_type.begin_object
  | TEndArray => last_token p = token_type.end_array
  | TEndObject => last_token p = token_type.end_object
  | TName => last_token p = token_type.name_separator
  | TComma => last_token p = token_type.value_separator
  | TEnd => last_token p = token_type.end_of_input
  end.
Proof. intros [H _]. destruct (last_token p); cbn in H; by simplify_eq. Qed.

Lemma tok_same p p' t r :
  last_token p' = last_token p -> m_lexer p' = m_lexer p -> at_tok p t r -> at_tok p' t r.
Proof. unfold at_tok, at_text. by intros -> ->. Qed.

Lemma after_scalar p t v r :
  at_tok p t r -> scalar t = Some v -> parse_value p = after_value (event_value v p).
Proof.
  intros H Hs. pose proof (tok_last _ _ _ H) as Ht. unfold parse_value.
  destruct t as [| | |x|x|x|[x|x| |x m ex]| | | | | | |]; simplify_eq/=;
    first [by rewrite Ht|by destruct Ht as [-> ->]].
Qed.

(** ** Texts of the grammar are parsed *)

(** A run from [t] reaches the end of a value, whose value is in place. *)
Definition value_done (t : turn) (sx : sax) (F : json -> json) (v : json) (st : list bool) (r : string) : Prop :=
  exists p' oe, turns t (after_value p') /\ the_sax p' = mkSax (F v) (ref_stack sx) oe /\
    states p' = st /\ skip_to_state_evaluation p' = false /\ at_text p' r.

Lemma same_state_done p sx F v st r :
  the_sax p = mkSax (F v) (ref_stack sx) (object_element (the_sax p)) -> states p = st ->
  skip_to_state_evaluation p = false -> at_text p r -> value_done (after_value p) sx F v st r.
Proof. intros. exists p, (object_element (the_sax p)). split_and!; try done. Qed.

(** The parser inside an array or an object. *)
Definition inside (p : parser) (v : json) (q : path) (F : json -> json) (rs : list path) (st : list bool) : Prop :=
  cursor q F /\ (exists oe, the_sax p = mkSax (F v) (q :: rs) oe) /\ states p = st /\
  skip_to_state_evaluation p = false.

Lemma value_starts p s q F v :
  target (the_sax p) q F -> skip_to_state_evaluation p = false -> at_text p s ->
  let p' := get_token (with_sax (start_structured v (the_sax p)) p) in
  on p' s /\ inside p' v q F (ref_stack (the_sax p)) (states p).
Proof.
  intros Ht Hs Ha p'. pose proof (get_token_on (with_sax (start_structured v (the_sax p)) p) s Ha) as [H1 (H2 & H3 & H4)].
  fold p' in H1, H2, H3, H4. split; [done|]. destruct (Ht) as [Hc _].
  split_and!; [done| |by rewrite H3|by rewrite H4].
  exists (object_element (the_sax p)). rewrite H2. by apply target_structured.
Qed.

Lemma value_ends p v q F rs st t r sx :
  inside p v q F rs st -> at_tok p t r -> ref_stack sx = rs ->
  value_done (after_value (with_sax (end_structured (the_sax p)) p)) sx F v st r.
Proof.
  intros (_ & (oe & Hs) & Hst & Hk) [_ Ha] <-. eapply same_state_done; [|done..].
  cbn. by rewrite Hs.
Qed.

(** The opening of an array or an object. *)
Lemma opens_array p s r q F :
  on p s -> lexes s TBeginArray r -> target (the_sax p) q F -> skip_to_state_evaluation p = false ->
  exists p1, on p1 r /\ inside p1 (JArray []) q F (ref_stack (the_sax p)) (states p) /\
    parse_value p = match last_token p1 with
      | token_type.end_array => after_value (with_sax (end_structured (the_sax p1)) p1)
      | _ => continue (with_states (true :: states p1) p1)
      end.
Proof.
  intros Hon Hl Ht Hk. pose proof (on_tok _ _ _ _ Hon Hl) as Htok.
  pose proof (tok_last _ _ _ Htok) as Hty. destruct Htok as [_ Ha].
  destruct (value_starts p r q F (JArray []) Ht Hk Ha) as [H1 Hin].
  eexists. split_and!; [exact H1|exact Hin|]. unfold parse_value. by rewrite Hty.
Qed.

Lemma opens_object p s r q F :
  on p s -> lexes s TBeginObject r -> target (the_sax p) q F -> skip_to_state_evaluation p = false ->
  exists p1, on p1 r /\ inside p1 (JObject []) q F (ref_stack (the_sax p)) (states p) /\
    parse_value p = match last_token p1 with
      | token_type.end_object => after_value (with_sax (end_structured (the_sax p1)) p1)
      | _ => parse_member (fun p => continue (get_token (with_states (false :: states p) p))) p1
      end.
Proof.
  intros Hon Hl Ht Hk. pose proof (on_tok _ _ _ _ Hon Hl) as Htok.
  pose proof (tok_last _ _ _ Htok) as Hty. destruct Htok as [_ Ha].
  destruct (value_starts p r q F (JObject []) Ht Hk Ha) as [H1 Hin].
  eexists. split_and!; [exact H1|exact Hin|]. unfold parse_value. by rewrite Hty.
Qed.

(** The token held tells the first token of the text. *)
Lemma held_end_array p s : on p s -> last_token p = token_type.end_array -> exists r, lexes s TEndArray r.
Proof.
  intros [(t' & r & Hl & Ht & _)|[E _]] H; [|congruence].
  exists r. rewrite H in Ht. cbn in Ht. by simplify_eq.
Qed.

Lemma held_end_object p s : on p s -> last_token p = token_type.end_object -> exists r, lexes s TEndObject r.
Proof.
  intros [(t' & r & Hl & Ht & _)|[E _]] H; [|congruence].
  exists r. rewrite H in Ht. cbn in Ht. by simplify_eq.
Qed.

(** A value in an array or object has been read: what the next token does. *)
Lemma next_in_array p s t r st :
  states p = true :: st -> at_text p s -> lexes s t r ->
  at_tok (get_token p) t r /\ same_work p (get_token p) /\
  match t with
  | TComma => after_value p = continue (get_token (get_token p))
  | TEndArray => after_value p = continue (with_skip true (with_states st
                   (with_sax (end_structured (the_sax p)) (get_token p))))
  | _ => exists e, after_value p = throw e
  end.
Proof.
  intros Hst Ha Hl. destruct (get_token_tok _ _ _ _ Ha Hl) as [Ht Hw]. split_and!; [done..|].
  unfold after_value. rewrite Hst. pose proof (tok_last _ _ _ Ht) as Hk.
  destruct Hw as (-> & _).
  destruct t; cbv zeta;
    first [rewrite Hk|destruct Hk as [-> _]]; first [done|by eexists].
Qed.

Lemma next_in_object p s t r st :
  states p = false :: st -> at_text p s -> lexes s t r ->
  at_tok (get_token p) t r /\ same_work p (get_token p) /\
  match t with
  | TComma => after_value p = parse_member (fun p => continue (get_token p)) (get_token (get_token p))
  | TEndObject => after_value p = continue (with_skip true (with_states st
                   (with_sax (end_structured (the_sax p)) (get_token p))))
  | _ => exists e, after_value p = throw e
  end.
Proof.
  intros Hst Ha Hl. destruct (get_token_tok _ _ _ _ Ha Hl) as [Ht Hw]. split_and!; [done..|].
  unfold after_value. rewrite Hst. pose proof (tok_last _ _ _ Ht) as Hk.
  destruct Hw as (-> & _).
  destruct t; cbv zeta;
    first [rewrite Hk|destruct Hk as [-> _]]; first [done|by eexists].
Qed.

(** The continuation of [parse_member] enters the value of a member in an object
    whose state is on top of [st]. *)
Definition enters (K : parser -> turn) (sts st : list bool) : Prop :=
  forall p, states p = sts -> K p = continue (get_token (with_states (false :: st) p)).

Lemma enters_first st : enters (fun p => continue (get_token (with_states (false :: states p) p))) st st.
Proof. by intros p <-. Qed.

Lemma enters_next st : enters (fun p => continue (get_token p)) (false :: st) st.
Proof. intros p Hp. unfold with_states. rewrite <- Hp. by destruct p. Qed.

(** A key and its separator: the value of the member is next. *)
Lemma member_starts K p s k r r' m q F rs st sts :
  inside p (JObject m) q F rs sts -> sorted_strict (map fst m) = true ->
  enters K sts st -> on p s -> lexes s (TString k) r -> lexes r TName r' ->
  exists p', parse_member K p = continue p' /\ on p' r' /\
    target (the_sax p') (q ++ [at_key k]) (fun v => F (JObject (obj_set k v m))) /\
    ref_stack (the_sax p') = q :: rs /\ states p' = false :: st /\ skip_to_state_evaluation p' = false.
Proof.
  intros (Hc & (oe & Hs) & Hst & Hk) Hm HK Hon Hl Hl'.
  pose proof (on_tok _ _ _ _ Hon Hl) as Htok. pose proof (tok_last _ _ _ Htok) as [Hty Hb].
  destruct Htok as [_ Ha]. unfold parse_member. rewrite Hty, Hb, Hs, (sax_key_spec q F) by done.
  set (p0 := with_sax _ p). destruct (get_token_tok p0 r TName r' Ha Hl') as [Ht1 (H1 & H2 & H3)].
  pose proof (tok_last _ _ _ Ht1) as Hn. cbv zeta. rewrite Hn.
  rewrite (HK (get_token p0)) by (by rewrite H2). eexists. split; [done|].
  set (p1 := with_states (false :: st) (get_token p0)).
  destruct (get_token_on p1 r') as [H4 (H5 & H6 & H7)]; [by destruct Ht1|].
  split; [done|]. rewrite H5, H6, H7. cbn. rewrite H1, H3. split_and!; try done.
  by apply target_member.
Qed.

Definition value_parsed (s : string) (v : json) (r : string) : Prop :=
  forall p q F, on p s -> target (the_sax p) q F -> skip_to_state_evaluation p = false ->
    value_done (parse_value p) (the_sax p) F v (states p) r.

Definition elements_parsed (s : string) (l : list json) (r : string) : Prop :=
  forall p q F l0 rs st sx, on p s -> inside p (JArray l0) q F rs (true :: st) -> ref_stack sx = rs ->
    value_done (parse_value p) sx F (JArray (l0 ++ l)) st r.

Definition members_parsed (s : string) (m : list (string * json)) (r : string) : Prop :=
  forall K p q F m0 rs st sts sx, on p s -> inside p (JObject m0) q F rs sts ->
    sorted_strict (map fst m0) = true -> enters K sts st -> ref_stack sx = rs ->
    value_done (parse_member K p) sx F (JObject (fold_left (fun m kv => obj_set kv.1 kv.2 m) m m0)) st r.

Lemma value_done_steps t t' sx F v st r :
  turns t t' -> value_done t' sx F v st r -> value_done t sx F v st r.
Proof.
  intros H (p' & oe & H1 & H2). exists p', oe. split; [by etransitivity|done].
Qed.

Lemma value_done_continue p sx F v st r :
  skip_to_state_evaluation p = false -> value_done (parse_value p) sx F v st r ->
  value_done (continue p) sx F v st r.
Proof.
  intros Hk. apply value_done_steps. apply turns_continue. unfold sax_step. rewrite Hk. apply rtc_refl.
Qed.

(** A closing bracket pops the state and goes on after the value. *)
Lemma value_done_pop p p' v q F rs st sts r sx :
  inside p v q F rs sts -> same_work p p' -> at_text p' r -> ref_stack sx = rs ->
  value_done (continue (with_skip true (with_states st (with_sax (end_structured (the_sax p)) p')))) sx F v st r.
Proof.
  intros (_ & (oe & Hs) & _) _ Ha <-. eapply value_done_steps.
  { apply turns_continue. apply rtc_refl. }
  eapply same_state_done; [|done..]. cbn. by rewrite Hs.
Qed.

Lemma read_scalar_parsed s t v r : lexes s t r -> scalar t = Some v -> value_parsed s v r.
Proof.
  intros Hl Hv p q F Hon Ht Hk. pose proof (on_tok _ _ _ _ Hon Hl) as Htok.
  rewrite (after_scalar _ _ _ _ Htok Hv). eapply same_state_done; [|done|done|by destruct Htok].
  cbn. by erewrite target_value.
Qed.

Lemma elements_no_end r l r' : reads_elements r l r' -> forall r0, ~ lexes r TEndArray r0.
Proof.
  intros Hr r0 Hr0. assert (Hno : forall v r1, ~ reads r v r1).
  { intros v r1 H. inversion H; subst;
      match goal with X : lexes r _ _ |- _ => destruct (lexes_det _ _ _ _ _ Hr0 X); by simplify_eq/= end. }
  inversion Hr; subst; by eapply Hno.
Qed.

Lemma read_array_parsed s r l r' :
  lexes s TBeginArray r -> reads_elements r l r' -> elements_parsed r l r' -> value_parsed s (JArray l) r'.
Proof.
  intros Hl Hr IH p q F Hon Ht Hk.
  destruct (opens_array _ _ _ _ _ Hon Hl Ht Hk) as (p1 & H1 & (Hc & Hsx & Hst & Hsk) & ->).
  destruct (decide (last_token p1 = token_type.end_array)) as [E|E].
  { destruct (held_end_array _ _ H1 E) as [r0 Hr0]. by apply elements_no_end with (r0 := r0) in Hr. }
  assert (Hgo : value_done (continue (with_states (true :: states p1) p1)) (the_sax p) F (JArray l) (states p) r').
  { apply value_done_continue; [done|].
    eapply (IH (with_states (true :: states p1) p1) q F [] (ref_stack (the_sax p)) (states p)); [exact H1| |done].
    rewrite Hst. by split_and!. }
  by destruct (last_token p1).
Qed.

Lemma read_object_parsed s r m r' :
  lexes s TBeginObject r -> reads_members r m r' -> members_parsed r m r' ->
  value_parsed s (JObject (object_of m)) r'.
Proof.
  intros Hl Hr IH p q F Hon Ht Hk.
  destruct (opens_object _ _ _ _ _ Hon Hl Ht Hk) as (p1 & H1 & Hin & ->).
  assert (exists k r0, lexes r (TString k) r0) as (k & r0 & Hkey) by (inversion Hr; subst; eauto).
  pose proof (tok_last _ _ _ (on_tok _ _ _ _ H1 Hkey)) as [E1 _]. rewrite E1.
  eapply IH; [exact H1|exact Hin|done|apply enters_first|done].
Qed.

Lemma read_empty_array_parsed s r r' :
  lexes s TBeginArray r -> lexes r TEndArray r' -> value_parsed s (JArray []) r'.
Proof.
  intros Hl Hl' p q F Hon Ht Hk.
  destruct (opens_array _ _ _ _ _ Hon Hl Ht Hk) as (p1 & H1 & Hin & ->).
  pose proof (on_tok _ _ _ _ H1 Hl') as Ht1. pose proof (tok_last _ _ _ Ht1) as Hty. cbn in Hty.
  rewrite Hty. by eapply value_ends.
Qed.

Lemma read_empty_object_parsed s r r' :
  lexes s TBeginObject r -> lexes r TEndObject r' -> value_parsed s (JObject []) r'.
Proof.
  intros Hl Hl' p q F Hon Ht Hk.
  destruct (opens_object _ _ _ _ _ Hon Hl Ht Hk) as (p1 & H1 & Hin & ->).
  pose proof (on_tok _ _ _ _ H1 Hl') as Ht1. pose proof (tok_last _ _ _ Ht1) as Hty. cbn in Hty.
  rewrite Hty. by eapply value_ends.
Qed.

(** The last element, and the last member: the bracket closes the value. *)
Lemma close_array p r r' v q F rs st sx :
  cursor q F -> (exists oe, the_sax p = mkSax (F v) (q :: rs) oe) -> states p = true :: st ->
  skip_to_state_evaluation p = false -> at_text p r -> lexes r TEndArray r' -> ref_stack sx = rs ->
  value_done (after_value p) sx F v st r'.
Proof.
  intros Hc Hs Hst Hk Ha Hl Hrs.
  destruct (next_in_array p r _ _ st Hst Ha Hl) as (B1 & B2 & ->).
  eapply (value_done_pop p _ v q F rs _ (true :: st)); [|done|by destruct B1|done]. by split_and!.
Qed.

Lemma close_object p r r' v q F rs st sx :
  cursor q F -> (exists oe, the_sax p = mkSax (F v) (q :: rs) oe) -> states p = false :: st ->
  skip_to_state_evaluation p = false -> at_text p r -> lexes r TEndObject r' -> ref_stack sx = rs ->
  value_done (after_value p) sx F v st r'.
Proof.
  intros Hc Hs Hst Hk Ha Hl Hrs.
  destruct (next_in_object p r _ _ st Hst Ha Hl) as (B1 & B2 & ->).
  eapply (value_done_pop p _ v q F rs _ (false :: st)); [|done|by destruct B1|done]. by split_and!.
Qed.

(** A comma: the parser is on the next element, or on the next key. *)
Lemma comma_array p r r' v q F rs st :
  cursor q F -> (exists oe, the_sax p = mkSax (F v) (q :: rs) oe) -> states p = true :: st ->
  skip_to_state_evaluation p = false -> at_text p r -> lexes r TComma r' ->
  exists p', after_value p = continue p' /\ on p' r' /\ inside p' v q F rs (true :: st).
Proof.
  intros Hc (oe & Hs) Hst Hk Ha Hl.
  destruct (next_in_array p r _ _ st Hst Ha Hl) as (B1 & (W1 & W2 & W3) & ->).
  destruct (get_token_on (get_token p) r' ltac:(by destruct B1)) as [B3 (W4 & W5 & W6)].
  eexists. split_and!; [done|exact B3|]. split_and!; [done| |congruence|congruence].
  exists oe. by rewrite W4, W1.
Qed.

Lemma comma_object p r r' v q F rs st :
  cursor q F -> (exists oe, the_sax p = mkSax (F v) (q :: rs) oe) -> states p = false :: st ->
  skip_to_state_evaluation p = false -> at_text p r -> lexes r TComma r' ->
  exists p', after_value p = parse_member (fun p => continue (get_token p)) p' /\ on p' r' /\
    inside p' v q F rs (false :: st).
Proof.
  intros Hc (oe & Hs) Hst Hk Ha Hl.
  destruct (next_in_object p r _ _ st Hst Ha Hl) as (B1 & (W1 & W2 & W3) & ->).
  destruct (get_token_on (get_token p) r' ltac:(by destruct B1)) as [B3 (W4 & W5 & W6)].
  eexists. split_and!; [done|exact B3|]. split_and!; [done| |congruence|congruence].
  exists oe. by rewrite W4, W1.
Qed.

(** An element, and a member: the value is in its place in the array or object. *)
Lemma element_parsed p s v r q F l0 rs st :
  value_parsed s v r -> on p s -> inside p (JArray l0) q F rs (true :: st) ->
  exists p1, turns (parse_value p) (after_value p1) /\
    (exists oe, the_sax p1 = mkSax (F (JArray (l0 ++ [v]))) (q :: rs) oe) /\
    states p1 = true :: st /\ skip_to_state_evaluation p1 = false /\ at_text p1 r.
Proof.
  intros IH Hon (Hc & (oe & Hs) & Hst & Hk).
  destruct (IH p _ _ Hon ltac:(rewrite Hs; by apply target_element) Hk) as (p1 & oe1 & T1 & S1 & St1 & K1 & A1).
  exists p1. split_and!; [done| |congruence|done|done]. exists oe1. by rewrite S1, Hs.
Qed.

Lemma member_parsed K p s k r r' v r'' q F m0 rs st sts :
  value_parsed r' v r'' -> on p s -> inside p (JObject m0) q F rs sts ->
  sorted_strict (map fst m0) = true -> enters K sts st -> lexes s (TString k) r -> lexes r TName r' ->
  exists p1, turns (parse_member K p) (after_value p1) /\
    (exists oe, the_sax p1 = mkSax (F (JObject (obj_set k v m0))) (q :: rs) oe) /\
    states p1 = false :: st /\ skip_to_state_evaluation p1 = false /\ at_text p1 r''.
Proof.
  intros IH Hon Hin Hm HK Hk Hn.
  destruct (member_starts _ _ _ _ _ _ _ _ _ _ _ _ Hin Hm HK Hon Hk Hn) as (p0 & -> & O0 & T0 & R0 & St0 & K0).
  destruct (IH p0 _ _ O0 T0 K0) as (p1 & oe1 & T1 & S1 & St1 & K1 & A1).
  exists p1. split_and!; [|by exists oe1; rewrite S1, R0|congruence|done|done].
  apply turns_continue. unfold sax_step. by rewrite K0.
Qed.

Theorem reads_parsed :
  (forall s v r, reads s v r -> value_parsed s v r) /\
  (forall s l r, reads_elements s l r -> elements_parsed s l r) /\
  (forall s m r, reads_members s m r -> members_parsed s m r).
Proof.
  apply reads_mutind.
  - intros. by eapply read_scalar_parsed.
  - intros. by eapply read_empty_array_parsed.
  - intros. by eapply read_array_parsed.
  - intros. by eapply read_empty_object_parsed.
  - intros. by eapply read_object_parsed.
  - intros s v r r' _ IH Hl p q F l0 rs st sx Hon Hin Hrs.
    destruct (element_parsed _ _ _ _ _ _ _ _ _ IH Hon Hin) as (p1 & T1 & S1 & St1 & K1 & A1).
    eapply value_done_steps; [exact T1|]. destruct Hin as [Hc _]. by eapply close_array.
  - intros s v r r' l r'' _ IH Hl _ IHl p q F l0 rs st sx Hon Hin Hrs.
    destruct (element_parsed _ _ _ _ _ _ _ _ _ IH Hon Hin) as (p1 & T1 & S1 & St1 & K1 & A1).
    eapply value_done_steps; [exact T1|]. destruct Hin as [Hc _].
    destruct (comma_array _ _ _ _ _ _ _ _ Hc S1 St1 K1 A1 Hl) as (p2 & -> & O2 & I2).
    rewrite (cons_middle v l0 l), app_assoc.
    apply value_done_continue; [by destruct I2 as (_ & _ & _ & ?)|by eapply IHl].
  - intros s k r r' v r2 r3 Hk Hn _ IH Hl K p q F m0 rs st sts sx Hon Hin Hm HK Hrs.
    destruct (member_parsed _ _ _ _ _ _ _ _ _ _ _ _ _ _ IH Hon Hin Hm HK Hk Hn) as (p1 & T1 & S1 & St1 & K1 & A1).
    eapply value_done_steps; [exact T1|]. destruct Hin as [Hc _]. by eapply close_object.
  - intros s k r r' v r2 r3 m r4 Hk Hn _ IH Hl _ IHm K p q F m0 rs st sts sx Hon Hin Hm HK Hrs.
    destruct (member_parsed _ _ _ _ _ _ _ _ _ _ _ _ _ _ IH Hon Hin Hm HK Hk Hn) as (p1 & T1 & S1 & St1 & K1 & A1).
    eapply value_done_steps; [exact T1|]. destruct Hin as [Hc _].
    destruct (comma_object _ _ _ _ _ _ _ _ Hc S1 St1 K1 A1 Hl) as (p2 & -> & O2 & I2).
    cbn [fold_left fst snd]. eapply IHm; [exact O2|exact I2|by apply obj_set_sorted|apply enters_next|exact Hrs].
Qed.

(** ** Other texts raise an exception *)

Definition throws (t : turn) : Prop := exists e, turns t (throw e).

Lemma throws_steps t t' : turns t t' -> throws t' -> throws t.
Proof. intros H (e & He). exists e. by etransitivity. Qed.

Lemma throws_now e : throws (throw e).
Proof. exists e. apply rtc_refl. Qed.

Lemma throws_continue p : skip_to_state_evaluation p = false -> throws (parse_value p) -> throws (continue p).
Proof.
  intros Hk. apply throws_steps, turns_continue. unfold sax_step. rewrite Hk. apply rtc_refl.
Qed.

(** Either the grammar reads a value from [s], or its parse raises. *)
Definition value_decided (s : string) : Prop :=
  (exists v r, reads s v r) \/
  forall p q F, on p s -> target (the_sax p) q F -> skip_to_state_evaluation p = false ->
    throws (parse_value p).

Definition elements_decided (s : string) : Prop :=
  (exists l r, reads_elements s l r) \/
  forall p q F l0 rs st, on p s -> inside p (JArray l0) q F rs (true :: st) -> throws (parse_value p).

Definition members_decided (s : string) : Prop :=
  (exists m r, reads_members s m r) \/
  forall K p q F m0 rs st sts, on p s -> inside p (JObject m0) q F rs sts ->
    sorted_strict (map fst m0) = true -> enters K sts st -> throws (parse_member K p).

(** A text has a first token or none. *)
Lemma on_cases p s :
  on p s -> last_token p = token_type.parse_error \/ exists t r, lexes s t r /\ at_tok p t r.
Proof. intros [H|[H _]]; auto. Qed.

Lemma unread_throws p s :
  on p s -> (forall t r, ~ lexes s t r) -> last_token p = token_type.parse_error.
Proof. intros [(t & r & H & _)|[H _]] Hn; [by apply Hn in H|done]. Qed.

Lemma lex_dec s : (exists t r, lexes s t r) \/ forall t r, ~ lexes s t r.
Proof.
  set (p := mkParser token_type.uninitialized
    (mkLexer s eof false (mkPosition 1 0 0) "" "" "" (mkNumbers 0 0 (S754_zero false))) newSax [] false).
  assert (Ha : at_text p s) by (split; [by exists ""|done]).
  destruct (get_token_on p s Ha) as [[(t & r & H & _)|[_ H]] _]; [left|right]; eauto.
Qed.

Lemma array_decided s r : lexes s TBeginArray r -> elements_decided r -> value_decided s.
Proof.
  intros Hl Hr. destruct (lex_dec r) as [(t & r' & Hl')|Hn].
  - destruct (decide (t = TEndArray)) as [->|N]; [left; exists (JArray []), r'; by econstructor|].
    destruct Hr as [(l & r2 & Hr)|Hthrow]; [left; exists (JArray l), r2; by econstructor|].
    right. intros p q F Hon Ht Hk.
    destruct (opens_array _ _ _ _ _ Hon Hl Ht Hk) as (p1 & H1 & (Hc & Hsx & Hst & Hsk) & ->).
    destruct (decide (last_token p1 = token_type.end_array)) as [E|E].
    { destruct (held_end_array _ _ H1 E) as [r0 Hr0]. by destruct (lexes_det _ _ _ _ _ Hl' Hr0). }
    assert (Hgo : throws (continue (with_states (true :: states p1) p1))).
    { apply throws_continue; [done|].
      apply (Hthrow (with_states (true :: states p1) p1) q F [] (ref_stack (the_sax p)) (states p)); [exact H1|].
      rewrite Hst. by split_and!. }
    by destruct (last_token p1).
  - right. intros p q F Hon Ht Hk.
    destruct (opens_array _ _ _ _ _ Hon Hl Ht Hk) as (p1 & H1 & (_ & _ & _ & Hsk) & ->).
    pose proof (unread_throws _ _ H1 Hn) as E. rewrite E.
    apply throws_continue; [done|]. unfold parse_value. cbn [last_token with_states].
    rewrite E. apply throws_now.
Qed.

Lemma object_decided s r : lexes s TBeginObject r -> members_decided r -> value_decided s.
Proof.
  intros Hl Hr. destruct (lex_dec r) as [(t & r' & Hl')|Hn].
  - destruct (decide (t = TEndObject)) as [->|N]; [left; exists (JObject []), r'; by econstructor|].
    destruct Hr as [(m & r2 & Hr)|Hthrow]; [left; exists (JObject (object_of m)), r2; by econstructor|].
    right. intros p q F Hon Ht Hk.
    destruct (opens_object _ _ _ _ _ Hon Hl Ht Hk) as (p1 & H1 & Hin & ->).
    destruct (decide (last_token p1 = token_type.end_object)) as [E|E].
    { destruct (held_end_object _ _ H1 E) as [r0 Hr0]. by destruct (lexes_det _ _ _ _ _ Hl' Hr0). }
    pose proof (Hthrow _ _ _ _ _ _ _ _ H1 Hin eq_refl (enters_first (states p))) as Hgo.
    by destruct (last_token p1).
  - right. intros p q F Hon Ht Hk.
    destruct (opens_object _ _ _ _ _ Hon Hl Ht Hk) as (p1 & H1 & Hin & ->).
    pose proof (unread_throws _ _ H1 Hn) as E. rewrite E. unfold parse_member. rewrite E. apply throws_now.
Qed.

Lemma step_decided_value s :
  (forall s', (String.length s' < String.length s)%nat -> elements_decided s' /\ members_decided s') ->
  value_decided s.
Proof.
  intros IH. destruct (lex_dec s) as [(t & r & Hl)|Hn].
  2: { right. intros p q F Hon _ _. unfold parse_value. rewrite (unread_throws _ _ Hon Hn). apply throws_now. }
  destruct (scalar t) as [v|] eqn:Ev; [left; exists v, r; by econstructor|].
  pose proof (lexes_length _ _ _ Hl) as [_ Hlen].
  destruct (decide (t = TBeginArray)) as [->|N1]; [by apply (array_decided _ _ Hl), IH, Hlen|].
  destruct (decide (t = TBeginObject)) as [->|N2]; [by apply (object_decided _ _ Hl), IH, Hlen|].
  right. intros p q F Hon _ _. pose proof (tok_last _ _ _ (on_tok _ _ _ _ Hon Hl)) as Ht. unfold parse_value.
  destruct t as [| | |x|x|x|[x|x| |x m ex]| | | | | | |]; try discriminate Ev; try done;
    first [rewrite Ht|destruct Ht as [-> ->]]; apply throws_now.
Qed.

(** After an element or a member: a comma, the closing bracket, or an exception. *)
Lemma array_turns p s st :
  states p = true :: st -> at_text p s ->
  (exists t r, lexes s t r /\ (t = TComma \/ t = TEndArray)) \/ throws (after_value p).
Proof.
  intros Hst Ha. destruct (lex_dec s) as [(t & r & Hl)|Hn].
  - destruct (next_in_array p s t r st Hst Ha Hl) as (_ & _ & H).
    destruct t; eauto 6; right; destruct H as [e ->]; apply throws_now.
  - right. destruct (get_token_on p s Ha) as [Hon _]. unfold after_value. rewrite Hst.
    cbv zeta. rewrite (unread_throws _ _ Hon Hn). apply throws_now.
Qed.

Lemma object_turns p s st :
  states p = false :: st -> at_text p s ->
  (exists t r, lexes s t r /\ (t = TComma \/ t = TEndObject)) \/ throws (after_value p).
Proof.
  intros Hst Ha. destruct (lex_dec s) as [(t & r & Hl)|Hn].
  - destruct (next_in_object p s t r st Hst Ha Hl) as (_ & _ & H).
    destruct t; eauto 6; right; destruct H as [e ->]; apply throws_now.
  - right. destruct (get_token_on p s Ha) as [Hon _]. unfold after_value. rewrite Hst.
    cbv zeta. rewrite (unread_throws _ _ Hon Hn). apply throws_now.
Qed.

(** What follows a value decides. *)
Lemma ends_dec s t1 t2 :
  (exists r, lexes s t1 r) \/ (exists r, lexes s t2 r) \/ forall r, ~ lexes s t1 r /\ ~ lexes s t2 r.
Proof.
  destruct (lex_dec s) as [(t & r & Hl)|Hn]; [|by right; right; split; intros ?%Hn].
  destruct (decide (t = t1)) as [->|N1]; [by left; exists r|].
  destruct (decide (t = t2)) as [->|N2]; [by right; left; exists r|].
  right. right. intros r'. split; intros H; by destruct (lexes_det _ _ _ _ _ Hl H).
Qed.

Lemma step_decided_elements s :
  (forall s', (String.length s' < String.length s)%nat -> elements_decided s') ->
  value_decided s -> elements_decided s.
Proof.
  intros IH [(v & r & Hr)|Hthrow].
  2: { right. intros p q F l0 rs st Hon (Hc & (oe & Hs) & Hst & Hk).
       by eapply Hthrow; [|rewrite Hs; apply target_element|]. }
  pose proof (proj1 reads_length _ _ _ Hr) as Hlen.
  destruct (ends_dec r TEndArray TComma) as [[r' Hl]|[[r' Hl]|Hn]].
  - left. exists [v], r'. by econstructor.
  - pose proof (lexes_length _ _ _ Hl) as [Hlen' _].
    destruct (IH r' ltac:(lia)) as [(l & r2 & Hl2)|Hthrow]; [left; exists (v :: l), r2; by econstructor|].
    right. intros p q F l0 rs st Hon Hin.
    destruct (element_parsed _ _ _ _ _ _ _ _ _ (proj1 reads_parsed _ _ _ Hr) Hon Hin) as (p1 & T1 & S1 & St1 & K1 & A1).
    eapply throws_steps; [exact T1|]. destruct Hin as [Hc _].
    destruct (comma_array _ _ _ _ _ _ _ _ Hc S1 St1 K1 A1 Hl) as (p2 & -> & O2 & I2).
    apply throws_continue; [by destruct I2 as (_ & _ & _ & ?)|by eapply Hthrow].
  - right. intros p q F l0 rs st Hon Hin.
    destruct (element_parsed _ _ _ _ _ _ _ _ _ (proj1 reads_parsed _ _ _ Hr) Hon Hin) as (p1 & T1 & _ & St1 & _ & A1).
    eapply throws_steps; [exact T1|].
    destruct (array_turns _ _ _ St1 A1) as [(t & r0 & Hl & [->| ->])|H]; [by apply Hn in Hl..|done].
Qed.

(** Without a key and a separator, there is no member. *)
Lemma member_head_dec s :
  (exists k r r', lexes s (TString k) r /\ lexes r TName r') \/
  forall K p, on p s -> throws (parse_member K p).
Proof.
  destruct (lex_dec s) as [(t & r & Hl)|Hn].
  2: { right. intros K p Hon. unfold parse_member. rewrite (unread_throws _ _ Hon Hn). apply throws_now. }
  assert ((exists k, t = TString k) \/ forall k, t <> TString k) as [[k ->]|Nk]
    by (destruct t; try (by right); left; eauto).
  2: { right. intros K p Hon. pose proof (tok_last _ _ _ (on_tok _ _ _ _ Hon Hl)) as Ht. unfold parse_member.
       destruct t; try (by destruct (Nk s0)); first [rewrite Ht|destruct Ht as [-> _]]; apply throws_now. }
  assert (Hgo : forall p, on p s -> exists p0, at_text p0 r /\ forall K, parse_member K p =
    match last_token (get_token p0) with
    | token_type.name_separator => K (get_token p0)
    | _ => throw (unexpected token_type.name_separator "object separator" (get_token p0))
    end).
  { intros p Hon. pose proof (on_tok _ _ _ _ Hon Hl) as Htok. pose proof (tok_last _ _ _ Htok) as [Ht _].
    eexists. split; [|intros K; unfold parse_member; rewrite Ht; reflexivity]. by destruct Htok as [_ Ha]. }
  destruct (lex_dec r) as [(t & r' & Hl')|Hn].
  2: { right. intros K p Hon. destruct (Hgo p Hon) as (p0 & Ha & ->).
       destruct (get_token_on p0 r Ha) as [Hon' _]. rewrite (unread_throws _ _ Hon' Hn). apply throws_now. }
  destruct (decide (t = TName)) as [->|N]; [left; eauto 6|]. right.
  intros K p Hon. destruct (Hgo p Hon) as (p0 & Ha & ->).
  destruct (get_token_tok p0 r _ _ Ha Hl') as [Ht1 _]. pose proof (tok_last _ _ _ Ht1) as Hk.
  destruct t; try done; first [rewrite Hk|destruct Hk as [-> _]]; apply throws_now.
Qed.

Lemma step_decided_members s :
  (forall s', (String.length s' < String.length s)%nat -> value_decided s' /\ members_decided s') ->
  members_decided s.
Proof.
  intros IH. destruct (member_head_dec s) as [(k & r & r' & Hk & Hn)|H].
  2: { right. intros K p q F m0 rs st sts Hon _ _ _. by apply H. }
  pose proof (lexes_length _ _ _ Hk) as [_ L1]. pose proof (lexes_length _ _ _ Hn) as [L2 _].
  specialize (L1 ltac:(done)). destruct (IH r' ltac:(lia)) as [[(v & r2 & Hr)|Hthrow] _].
  2: { right. intros K p q F m0 rs st sts Hon Hin Hm HK.
       destruct (member_starts _ _ _ _ _ _ _ _ _ _ _ _ Hin Hm HK Hon Hk Hn) as (p0 & -> & O0 & T0 & _ & _ & K0).
       apply throws_continue; [done|by eapply Hthrow]. }
  pose proof (proj1 reads_length _ _ _ Hr) as L3. pose proof (proj1 reads_parsed _ _ _ Hr) as Hp.
  destruct (ends_dec r2 TEndObject TComma) as [[r3 Hl]|[[r3 Hl]|He]].
  - left. exists [(k, v)], r3. by econstructor.
  - pose proof (lexes_length _ _ _ Hl) as [L4 _].
    destruct (IH r3 ltac:(lia)) as [_ [(m & r4 & Hm)|Hthrow]]; [left; exists ((k, v) :: m), r4; by econstructor|].
    right. intros K p q F m0 rs st sts Hon Hin Hm HK.
    destruct (member_parsed _ _ _ _ _ _ _ _ _ _ _ _ _ _ Hp Hon Hin Hm HK Hk Hn) as (p1 & T1 & S1 & St1 & K1 & A1).
    eapply throws_steps; [exact T1|]. destruct Hin as [Hc _].
    destruct (comma_object _ _ _ _ _ _ _ _ Hc S1 St1 K1 A1 Hl) as (p2 & -> & O2 & I2).
    eapply Hthrow; [exact O2|exact I2|by apply obj_set_sorted|apply enters_next].
  - right. intros K p q F m0 rs st sts Hon Hin Hm HK.
    destruct (member_parsed _ _ _ _ _ _ _ _ _ _ _ _ _ _ Hp Hon Hin Hm HK Hk Hn) as (p1 & T1 & _ & St1 & _ & A1).
    eapply throws_steps; [exact T1|].
    destruct (object_turns _ _ _ St1 A1) as [(t & r0 & Hl & [->| ->])|H]; [by apply He in Hl..|done].
Qed.

Theorem all_decided s : value_decided s /\ elements_decided s /\ members_decided s.
Proof.
  remember (String.length s) as n eqn:Hn. revert s Hn.
  induction (lt_wf n) as [n _ IH]. intros s ->.
  assert (H : forall s', (String.length s' < String.length s)%nat ->
    value_decided s' /\ elements_decided s' /\ members_decided s') by (intros s' Hl; by eapply IH).
  assert (Hv : value_decided s) by (apply step_decided_value; intros s' Hl; by apply H).
  split_and!; [done|apply step_decided_elements; [intros s' Hl; by apply H|done]|].
  apply step_decided_members. intros s' Hl. split; by apply H.
Qed.
