(* ===== verification/JsonExact.v ===== *)
(** * JsonExact: parsing is the grammar

    The loop of the parser always ends ([parsing_ends]): each turn that continues
    consumes a byte, or the next one raises. A text parses to a value exactly when
    the grammar reads it as that value, and so does the first value of a stream
    ([parsing_is_grammar]). *)

From S2P Require Import Prelude Json Strtod JsonLexer JsonGrammar JsonLexerFacts JsonParser JsonParserFacts.
From Stdlib Require Import SpecFloat.
#[local] Open Scope Z_scope.

(** ** The loop ends *)

(** After a turn that continues, either fewer bytes are left or the next turn
    raises. *)
Definition progress (s : string) (p : parser) : Prop :=
  (exists s', at_text p s' /\ (String.length s' < String.length s)%nat) \/
  exists e, sax_step p = throw e.

Definition progresses (s : string) (t : turn) : Prop :=
  match t with continue p => progress s p | _ => True end.

(** A token is read: the end of the input, an error, or a shorter text. *)
Lemma get_token_cases p s :
  at_text p s ->
  (last_token (get_token p) = token_type.end_of_input /\
     exists s', at_text (get_token p) s' /\ (String.length s' <= String.length s)%nat) \/
  last_token (get_token p) = token_type.parse_error \/
  exists s', at_text (get_token p) s' /\ (String.length s' < String.length s)%nat.
Proof.
  intros Ha. destruct (get_token_on p s Ha) as [[(t & r & Hl & Ht)|[H _]] _]; [|auto].
  pose proof (lexes_length _ _ _ Hl) as [L1 L2]. destruct (decide (t = TEnd)) as [->|N].
  - left. split; [by apply (tok_last _ _ _ Ht)|]. exists r. split; [by destruct Ht|done].
  - right. right. exists r. split; [by destruct Ht|by apply L2].
Qed.

Lemma parse_value_stops p :
  skip_to_state_evaluation p = false ->
  last_token p = token_type.end_of_input \/ last_token p = token_type.parse_error ->
  exists e, sax_step p = throw e.
Proof. intros Hk [H|H]; unfold sax_step, parse_value; rewrite Hk, H; by eexists. Qed.

(** Reading one more token after that is progress, too. *)
Lemma progress_token p s :
  skip_to_state_evaluation p = false -> at_text p s -> progress s (get_token p).
Proof.
  intros Hk Ha. destruct (get_token_on p s Ha) as [_ (_ & _ & Hk')].
  destruct (get_token_cases p s Ha) as [[H _]|[H|H]]; [right..|by left];
    apply parse_value_stops; rewrite ?Hk'; auto.
Qed.

Lemma progress_weaken s s' p :
  (String.length s' <= String.length s)%nat -> progress s' p -> progress s p.
Proof. intros Hl [(s2 & Ha & H)|H]; [left; exists s2; split; [done|lia]|by right]. Qed.

Lemma parse_member_progress K s p :
  (forall p s', skip_to_state_evaluation p = false -> at_text p s' ->
     progresses s' (K p)) ->
  skip_to_state_evaluation p = false -> at_text p s -> progresses s (parse_member K p).
Proof.
  intros HK Hk Ha. unfold parse_member. destruct (last_token p); try done. cbv zeta.
  set (p0 := with_sax _ p). destruct (get_token_on p0 s Ha) as [_ (_ & _ & Hk')].
  destruct (get_token_cases p0 s Ha) as [[H _]|[H|(s' & Ha' & Hl)]]; [by rewrite H..|].
  destruct (last_token (get_token p0)); try done.
  specialize (HK (get_token p0) s' ltac:(by rewrite Hk') Ha').
  unfold progresses in *. destruct (K (get_token p0)); try done. eapply progress_weaken; [|exact HK]. lia.
Qed.

Lemma after_value_progress p s :
  skip_to_state_evaluation p = false -> at_text p s -> progresses s (after_value p).
Proof.
  intros Hk Ha. unfold after_value. destruct (get_token_on p s Ha) as [_ (_ & _ & Hk')].
  destruct (states p) as [|[] rest]; [done|..]; cbv zeta;
    (destruct (get_token_cases p s Ha) as [[H _]|[H|(s' & Ha' & Hl)]]; [by rewrite H..|]);
    destruct (last_token (get_token p)); try done.
  - left. by exists s'.
  - eapply progress_weaken; [|apply progress_token; [congruence|exact Ha']]. lia.
  - left. by exists s'.
  - destruct (get_token_on (get_token p) s' Ha') as [_ (_ & _ & Hk2)].
    destruct (get_token_cases (get_token p) s' Ha') as [[H _]|[H|(s2 & Ha2 & Hl2)]];
      [by unfold parse_member; rewrite H..|].
    pose proof (parse_member_progress (fun p => continue (get_token p)) s2 (get_token (get_token p))
      ltac:(intros; by apply progress_token) ltac:(congruence) Ha2) as H.
    unfold progresses in *. destruct (parse_member _ _); try done. eapply progress_weaken; [|exact H]. lia.
Qed.

Lemma parse_value_progress p s :
  skip_to_state_evaluation p = false -> at_text p s -> progresses s (parse_value p).
Proof.
  intros Hk Ha.
  assert (Hev : forall v, progresses s (after_value (event_value v p))).
  { intros v. by apply after_value_progress. }
  unfold parse_value. cbv zeta. destruct (last_token p); try done; try apply Hev.
  - destruct (isfinite _); [apply Hev|done].
  - set (p0 := with_sax _ p). destruct (get_token_on p0 s Ha) as [_ (_ & _ & Hk')].
    destruct (get_token_cases p0 s Ha) as [[H _]|[H|(s' & Ha' & Hl)]].
    + rewrite H. right. apply parse_value_stops; [by cbn; rewrite Hk'|by left].
    + rewrite H. right. apply parse_value_stops; [by cbn; rewrite Hk'|by right].
    + assert (Hc : progresses s (continue (with_states (true :: states (get_token p0)) (get_token p0))))
        by (left; by exists s').
      assert (He : progresses s (after_value (with_sax (end_structured (the_sax (get_token p0))) (get_token p0)))).
      { pose proof (after_value_progress (with_sax (end_structured (the_sax (get_token p0))) (get_token p0)) s'
          ltac:(by cbn; rewrite Hk') Ha') as H.
        unfold progresses in *. destruct (after_value _); try done. eapply progress_weaken; [|exact H]. lia. }
      destruct (last_token (get_token p0)); done.
  - set (p0 := with_sax _ p). destruct (get_token_on p0 s Ha) as [_ (_ & _ & Hk')].
    destruct (get_token_cases p0 s Ha) as [[H _]|[H|(s' & Ha' & Hl)]];
      [by rewrite H; unfold parse_member; rewrite H..|].
    assert (Hm : progresses s (parse_member
      (fun p => continue (get_token (with_states (false :: states p) p))) (get_token p0))).
    { pose proof (parse_member_progress (fun p => continue (get_token (with_states (false :: states p) p)))
        s' (get_token p0) ltac:(intros p1 s1 Hk1 Ha1; by apply progress_token) ltac:(by rewrite Hk') Ha') as H.
      unfold progresses in *. destruct (parse_member _ _); try done. eapply progress_weaken; [|exact H]. lia. }
    assert (He : progresses s (after_value (with_sax (end_structured (the_sax (get_token p0))) (get_token p0)))).
    { pose proof (after_value_progress (with_sax (end_structured (the_sax (get_token p0))) (get_token p0)) s'
        ltac:(by cbn; rewrite Hk') Ha') as H.
      unfold progresses in *. destruct (after_value _); try done. eapply progress_weaken; [|exact H]. lia. }
    destruct (last_token (get_token p0)); done.
Qed.

Lemma sax_step_progress p s : at_text p s -> progresses s (sax_step p).
Proof.
  intros Ha. unfold sax_step. destruct (skip_to_state_evaluation p) eqn:Hk.
  - by apply after_value_progress.
  - by apply parse_value_progress.
Qed.

Lemma sax_parse_ends fuel p s :
  at_text p s -> (S (String.length s) < fuel)%nat -> is_Some (sax_parse_internal fuel p).
Proof.
  revert p s. induction fuel as [|fuel IH]; intros p s Ha Hf; [lia|]. cbn [sax_parse_internal].
  pose proof (sax_step_progress p s Ha) as H. destruct (sax_step p) as [p'|p'|e]; [|by eexists..].
  destruct H as [(s' & Ha' & Hl)|[e He]]; [apply (IH p' s' Ha'); lia|].
  destruct fuel as [|fuel]; [lia|]. cbn [sax_parse_internal]. rewrite He. by eexists.
Qed.

(** ** The first token *)

Lemma newParser_on s :
  match after_bom s with
  | Some s' => on (newParser s) s'
  | None => last_token (newParser s) = token_type.parse_error
  end.
Proof.
  pose proof (scan_first s) as H. pose proof (scan_total (newLexer s) ltac:(done)) as Ht.
  unfold newParser, get_token, on, at_tok, at_text. cbn [m_lexer].
  destruct (scan (newLexer s)) as [t l]. cbn [fst snd] in *. destruct (after_bom s) as [s'|]; [|done].
  destruct H as [(t' & r & b & H1 & H2 & H3)|[H1 H2]]; [left|right]; cbn; eauto 10.
Qed.

Lemma newParser_start s :
  the_sax (newParser s) = newSax /\ states (newParser s) = [] /\
  skip_to_state_evaluation (newParser s) = false.
Proof. unfold newParser, get_token. by destruct (scan _) as [t l]. Qed.

Lemma after_bom_length s s' : after_bom s = Some s' -> (String.length s' <= String.length s)%nat.
Proof.
  destruct s as [|c s]; cbn; [by intros [= <-]|]. destruct (code c =? 239); [|by intros [= <-]].
  destruct s as [|c1 [|c2 s]]; try done. destruct (_ && _); [|done]. intros [= <-]. simpl. lia.
Qed.

Lemma sax_parse_newParser s : is_Some (sax_parse_internal (parse_fuel s) (newParser s)).
Proof.
  pose proof (newParser_on s) as H. destruct (newParser_start s) as (_ & _ & Hk).
  assert (Hstop : last_token (newParser s) = token_type.parse_error ->
    is_Some (sax_parse_internal (parse_fuel s) (newParser s))).
  { intros E. unfold parse_fuel. cbn [sax_parse_internal].
    destruct (parse_value_stops _ Hk (or_intror E)) as [e ->]. by eexists. }
  destruct (after_bom s) as [s'|] eqn:Eb; [|by apply Hstop].
  destruct H as [(t & r & Hl & _ & Ha)|[E _]]; [|by apply Hstop].
  apply (sax_parse_ends _ _ r Ha). apply lexes_length in Hl as [? _]. apply after_bom_length in Eb.
  unfold parse_fuel. lia.
Qed.

Lemma parser_terminates (strict : bool) (s : string) : is_Some (parser_parse strict s).
Proof.
  unfold parser_parse. destruct (sax_parse_newParser s) as [[p|e] ->]; [|by eexists].
  destruct strict; [|by eexists]. cbv zeta. destruct (last_token _); by eexists.
Qed.

(** ** Exactness *)

Definition final (t : turn) : option (result parser) :=
  match t with continue _ => None | complete p => Some (Ok p) | throw e => Some (Throw e) end.

Lemma run_final fuel p t r r' :
  sax_parse_internal fuel p = Some r -> turns (sax_step p) t -> final t = Some r' -> r = r'.
Proof.
  revert p. induction fuel as [|fuel IH]; intros p H Ht Hf; [done|]. cbn [sax_parse_internal] in H.
  apply rtc_inv in Ht as [<-|(t1 & (p1 & E & ->) & Ht)].
  - destruct (sax_step p); cbn in Hf; congruence.
  - rewrite E in H. by eapply IH.
Qed.

(** What the loop returns on a text of the grammar, and on any other. *)
Lemma run_reads s s' v r p :
  after_bom s = Some s' -> reads s' v r ->
  sax_parse_internal (parse_fuel s) (newParser s) = Some p ->
  exists p', p = Ok p' /\ root (the_sax p') = v /\ at_text p' r.
Proof.
  intros Hb Hr Hp. pose proof (newParser_on s) as Hon. rewrite Hb in Hon.
  destruct (newParser_start s) as (Hs & Hst & Hk).
  destruct (proj1 reads_parsed _ _ _ Hr (newParser s) [] id Hon ltac:(by rewrite Hs; apply target_root) Hk)
    as (p' & oe & T & S & St & K & A).
  exists p'. split_and!; [|by rewrite S|done].
  eapply (run_final _ _ (complete p')); [exact Hp| |reflexivity].
  unfold sax_step. rewrite Hk.
  replace (complete p') with (after_value p'); [exact T|]. unfold after_value. by rewrite St, Hst.
Qed.

Lemma run_throws s p :
  (forall v, ~ json_prefix s v) -> sax_parse_internal (parse_fuel s) (newParser s) = Some p ->
  exists e, p = Throw e.
Proof.
  intros Hn Hp. pose proof (newParser_on s) as Hon. destruct (newParser_start s) as (Hs & _ & Hk).
  assert (throws (sax_step (newParser s))) as [e He].
  { destruct (after_bom s) as [s'|] eqn:Eb.
    - unfold sax_step. rewrite Hk. destruct (all_decided s') as ([(v & r & Hr)|H] & _ & _).
      + destruct (Hn v). by exists s', r.
      + apply (H _ [] id); [done|rewrite Hs; apply target_root|done].
    - destruct (parse_value_stops _ Hk (or_intror Hon)) as [e ->]. apply throws_now. }
  exists e. by eapply (run_final _ _ (throw e)).
Qed.

Lemma json_prefix_dec s : (exists v, json_prefix s v) \/ forall v, ~ json_prefix s v.
Proof.
  destruct (sax_parse_newParser s) as [p Hp]. destruct (after_bom s) as [s'|] eqn:Eb.
  2: { right. intros v (s' & r & H & _). congruence. }
  destruct (all_decided s') as ([(v & r & Hr)|H] & _ & _); [left; exists v, s', r; done|].
  right. intros v (s2 & r & H2 & Hr). simplify_eq.
  destruct (run_reads _ _ _ _ _ Eb Hr Hp) as (p' & -> & _).
  pose proof (newParser_on s) as Hon. rewrite Eb in Hon. destruct (newParser_start s) as (Hs & _ & Hk).
  destruct (H (newParser s) [] id Hon ltac:(rewrite Hs; apply target_root) Hk) as [e He].
  assert (Ok p' = Throw e); [|done]. eapply (run_final _ _ (throw e)); [exact Hp| |reflexivity].
  unfold sax_step. by rewrite Hk.
Qed.

Lemma stream_spec s :
  match nlohmann_stream s with
  | Ok v => json_prefix s v
  | Throw _ => forall v, ~ json_prefix s v
  end.
Proof.
  unfold nlohmann_stream, parser_parse. destruct (sax_parse_newParser s) as [p Hp]. rewrite Hp.
  destruct (json_prefix_dec s) as [(v & s' & r & Hb & Hr)|Hn].
  - destruct (run_reads _ _ _ _ _ Hb Hr Hp) as (p' & -> & <- & _). by exists s', r.
  - destruct (run_throws _ _ Hn Hp) as [e ->]. done.
Qed.

(** A text has at most one value. *)
Lemma json_prefix_det s v v' : json_prefix s v -> json_prefix s v' -> v = v'.
Proof.
  intros (s' & r & Hb & Hr) (s2 & r2 & Hb2 & Hr2). simplify_eq. destruct (sax_parse_newParser s) as [p Hp].
  destruct (run_reads _ _ _ _ _ Hb Hr Hp) as (p1 & -> & <- & _).
  by destruct (run_reads _ _ _ _ _ Hb Hr2 Hp) as (p2 & [= <-] & <- & _).
Qed.

Lemma stream_exact (s : string) (v : json) : nlohmann_stream s = Ok v <-> json_prefix s v.
Proof.
  pose proof (stream_spec s) as H. split; [intros E; by rewrite E in H|].
  intros Hv. destruct (nlohmann_stream s) as [v'|e]; [|by apply H in Hv].
  f_equal. by eapply json_prefix_det.
Qed.

Lemma parse_spec s :
  match nlohmann_parse s with
  | Ok v => json_text s v
  | Throw _ => forall v, ~ json_text s v
  end.
Proof.
  unfold nlohmann_parse, parser_parse. destruct (sax_parse_newParser s) as [p Hp]. rewrite Hp.
  destruct (json_prefix_dec s) as [(v & s' & r & Hb & Hr)|Hn].
  2: { destruct (run_throws _ _ Hn Hp) as [e ->]. intros v (s' & r & _ & Hb & Hr & _). apply (Hn v). by exists s', r. }
  destruct (run_reads _ _ _ _ _ Hb Hr Hp) as (p' & -> & <- & Ha). cbv zeta.
  destruct (get_token_on p' r Ha) as [Hon (Hs & _)].
  assert (Hother : last_token (get_token p') <> token_type.end_of_input ->
    forall v, ~ json_text s v).
  { intros Ht v (s2 & r2 & r3 & Hb2 & Hr2 & He). simplify_eq.
    destruct (run_reads _ _ _ _ _ Hb Hr2 Hp) as (p2 & [= <-] & _ & Ha2).
    pose proof (get_token_tok p' r2 _ _ Ha2 He) as [Htok _]. by apply Ht, (tok_last _ _ _ Htok). }
  destruct (last_token (get_token p')) eqn:El; try exact (Hother ltac:(done)).
  cbn. rewrite Hs. exists s', r. destruct Hon as [(t & r' & Hl & Ht & _)|[E _]]; [|congruence].
  rewrite El in Ht. cbn in Ht. injection Ht as <-. by exists r'.
Qed.

Lemma parse_exact (s : string) (v : json) : nlohmann_parse s = Ok v <-> json_text s v.
Proof.
  pose proof (parse_spec s) as H. split; [intros E; by rewrite E in H|].
  intros Hv. destruct (nlohmann_parse s) as [v'|e]; [|by apply H in Hv].
  destruct H as (s1 & r1 & _ & Hb1 & Hr1 & _), Hv as (s2 & r2 & _ & Hb2 & Hr2 & _).
  f_equal. apply (json_prefix_det s); [by exists s1, r1|by exists s2, r2].
Qed.

(** More turns than enough change nothing. *)
Lemma sax_parse_more fuel fuel' p r :
  (fuel <= fuel')%nat -> sax_parse_internal fuel p = Some r -> sax_parse_internal fuel' p = Some r.
Proof.
  revert fuel' p. induction fuel as [|fuel IH]; intros fuel' p Hf H; [done|]. destruct fuel' as [|fuel']; [lia|].
  cbn [sax_parse_internal] in *. destruct (sax_step p); try done. apply IH; [lia|done].
Qed.

(** ** Properties *)

(** C27: [json::parse] returns a value exactly on the texts of that value, and
    [operator>>] exactly on what starts with one; any other text raises. *)
Theorem parsing_is_grammar (s : string) (v : json) :
  (nlohmann_parse s = Ok v <-> json_text s v) /\ (nlohmann_stream s = Ok v <-> json_prefix s v).
Proof. split; [apply parse_exact|apply stream_exact]. Qed.

(** C30: parsing ends on every input, JSON or not: the loop of the parser takes at
    most as many turns as the input has bytes, and three; a parse of a text or of
    a stream never runs out of the turns the model gives it. *)
Theorem parsing_ends (strict : bool) (s : string) (fuel : nat) :
  (parse_fuel s <= fuel)%nat ->
  is_Some (parser_parse strict s) /\ is_Some (sax_parse_internal fuel (newParser s)) /\
  sax_parse_internal fuel (newParser s) = sax_parse_internal (parse_fuel s) (newParser s).
Proof.
  intros Hf. destruct (sax_parse_newParser s) as [r Hr]. pose proof (sax_parse_more _ _ _ _ Hf Hr) as H.
  split_and!; [apply parser_terminates|by exists r|by rewrite H].
Qed.

Lemma parsing_ends_witness :
  is_Some (parser_parse true "[1,{}]") /\ is_Some (sax_parse_internal 20 (newParser "[1,{}]")).
Proof.
  refine (conj (proj1 (parsing_ends true "[1,{}]" 20 _)) (proj1 (proj2 (parsing_ends true "[1,{}]" 20 _))));
    vm_compute; lia.
Defined.
