(* ===== verification/JsonFloat.v ===== *)
(** * JsonFloat: printing floating-point numbers (src/include/utils/json.hpp)

    [namespace dtoa_impl]: the Grisu2 algorithm and the layout of its digits, and
    [to_chars]. An unsigned 64-bit integer is a [Z] wrapped where the code
    computes on it; a [char *] buffer with its length is the string of the
    characters written. The [while] loops take fuel: 64 shifts normalise any
    64-bit integer but zero, a digit is decremented less than ten times, and at
    most twenty digits are generated after the point; JsonFloatFacts shows that
    each is enough. *)

From S2P Require Import Prelude.
From Stdlib Require Import SpecFloat.
#[local] Open Scope Z_scope.

Record diyfp := mkDiyfp { f : Z; e : Z }.  (* f * 2^e *)

(** [diyfp::sub] *)
Definition diyfp_sub (x y : diyfp) : diyfp := mkDiyfp (u64 (f x - f y)) (e x).

(** [diyfp::mul]: the upper 64 bits of the product, rounded. *)
Definition diyfp_mul (x y : diyfp) : diyfp :=
  let u_lo := Z.land (f x) 0xFFFFFFFF in
  let u_hi := Z.shiftr (f x) 32 in
  let v_lo := Z.land (f y) 0xFFFFFFFF in
  let v_hi := Z.shiftr (f y) 32 in
  let p0 := u64 (u_lo * v_lo) in
  let p1 := u64 (u_lo * v_hi) in
  let p2 := u64 (u_hi * v_lo) in
  let p3 := u64 (u_hi * v_hi) in
  let p0_hi := Z.shiftr p0 32 in
  let p1_lo := Z.land p1 0xFFFFFFFF in
  let p1_hi := Z.shiftr p1 32 in
  let p2_lo := Z.land p2 0xFFFFFFFF in
  let p2_hi := Z.shiftr p2 32 in
  let Q := u64 (p0_hi + p1_lo + p2_lo) in
  let Q := u64 (Q + Z.shiftl 1 31) in
  let h := u64 (p3 + p2_hi + p1_hi + Z.shiftr Q 32) in
  mkDiyfp h (e x + e y + 64).

(** [diyfp::normalize] *)
Fixpoint normalize_loop (fuel : nat) (x : diyfp) : diyfp :=
  match fuel with
  | O => x
  | S fuel =>
      if Z.shiftr (f x) 63 =? 0
      then normalize_loop fuel (mkDiyfp (u64 (Z.shiftl (f x) 1)) (e x - 1)) else x
  end.
Definition normalize (x : diyfp) : diyfp := normalize_loop 64 x.

(** [diyfp::normalize_to] *)
Definition normalize_to (x : diyfp) (target_exponent : Z) : diyfp :=
  mkDiyfp (u64 (Z.shiftl (f x) (e x - target_exponent))) target_exponent.

Record boundaries := mkBoundaries { w : diyfp; minus : diyfp; plus : diyfp }.

(** [reinterpret_bits] of a positive double: the biased exponent and the
    fraction. *)
Definition ieee_bits (value : spec_float) : Z :=
  match value with
  | S754_finite false m e =>
      if Z.pos m <? 2 ^ 52 then Z.pos m
      else Z.lor (Z.shiftl (e + 1075) 52) (Z.pos m - 2 ^ 52)
  | _ => 0
  end.

Definition kBias : Z := 1075.
Definition kMinExp : Z := 1 - kBias.
Definition kHiddenBit : Z := 2 ^ 52.

Definition compute_boundaries (value : spec_float) : boundaries :=
  let bits := ieee_bits value in
  let E := Z.shiftr bits 52 in
  let F := Z.land bits (kHiddenBit - 1) in
  let is_denormal := E =? 0 in
  let v := if is_denormal then mkDiyfp F kMinExp else mkDiyfp (F + kHiddenBit) (E - kBias) in
  let lower_boundary_is_closer := (F =? 0) && (1 <? E) in
  let m_plus := mkDiyfp (2 * f v + 1) (e v - 1) in
  let m_minus := if lower_boundary_is_closer then mkDiyfp (4 * f v - 1) (e v - 2)
                 else mkDiyfp (2 * f v - 1) (e v - 1) in
  let w_plus := normalize m_plus in
  let w_minus := normalize_to m_minus (e w_plus) in
  mkBoundaries (normalize v) w_minus w_plus.

(** ** Cached powers of ten *)

Record cached_power := mkPower { pow_f : Z; pow_e : Z; pow_k : Z }.  (* f * 2^e ~ 10^k *)

Definition kAlpha : Z := -60.
Definition kGamma : Z := -32.
Definition kCachedPowersMinDecExp : Z := -300.
Definition kCachedPowersDecStep : Z := 8.

Definition kCachedPowers : list cached_power :=
  [mkPower 0xAB70FE17C79AC6CA (-1060) (-300); mkPower 0xFF77B1FCBEBCDC4F (-1034) (-292);
   mkPower 0xBE5691EF416BD60C (-1007) (-284); mkPower 0x8DD01FAD907FFC3C (-980) (-276);
   mkPower 0xD3515C2831559A83 (-954) (-268); mkPower 0x9D71AC8FADA6C9B5 (-927) (-260);
   mkPower 0xEA9C227723EE8BCB (-901) (-252); mkPower 0xAECC49914078536D (-874) (-244);
   mkPower 0x823C12795DB6CE57 (-847) (-236); mkPower 0xC21094364DFB5637 (-821) (-228);
   mkPower 0x9096EA6F3848984F (-794) (-220); mkPower 0xD77485CB25823AC7 (-768) (-212);
   mkPower 0xA086CFCD97BF97F4 (-741) (-204); mkPower 0xEF340A98172AACE5 (-715) (-196);
   mkPower 0xB23867FB2A35B28E (-688) (-188); mkPower 0x84C8D4DFD2C63F3B (-661) (-180);
   mkPower 0xC5DD44271AD3CDBA (-635) (-172); mkPower 0x936B9FCEBB25C996 (-608) (-164);
   mkPower 0xDBAC6C247D62A584 (-582) (-156); mkPower 0xA3AB66580D5FDAF6 (-555) (-148);
   mkPower 0xF3E2F893DEC3F126 (-529) (-140); mkPower 0xB5B5ADA8AAFF80B8 (-502) (-132);
   mkPower 0x87625F056C7C4A8B (-475) (-124); mkPower 0xC9BCFF6034C13053 (-449) (-116);
   mkPower 0x964E858C91BA2655 (-422) (-108); mkPower 0xDFF9772470297EBD (-396) (-100);
   mkPower 0xA6DFBD9FB8E5B88F (-369) (-92); mkPower 0xF8A95FCF88747D94 (-343) (-84);
   mkPower 0xB94470938FA89BCF (-316) (-76); mkPower 0x8A08F0F8BF0F156B (-289) (-68);
   mkPower 0xCDB02555653131B6 (-263) (-60); mkPower 0x993FE2C6D07B7FAC (-236) (-52);
   mkPower 0xE45C10C42A2B3B06 (-210) (-44); mkPower 0xAA242499697392D3 (-183) (-36);
   mkPower 0xFD87B5F28300CA0E (-157) (-28); mkPower 0xBCE5086492111AEB (-130) (-20);
   mkPower 0x8CBCCC096F5088CC (-103) (-12); mkPower 0xD1B71758E219652C (-77) (-4);
   mkPower 0x9C40000000000000 (-50) (4); mkPower 0xE8D4A51000000000 (-24) (12);
   mkPower 0xAD78EBC5AC620000 (3) (20); mkPower 0x813F3978F8940984 (30) (28);
   mkPower 0xC097CE7BC90715B3 (56) (36); mkPower 0x8F7E32CE7BEA5C70 (83) (44);
   mkPower 0xD5D238A4ABE98068 (109) (52); mkPower 0x9F4F2726179A2245 (136) (60);
   mkPower 0xED63A231D4C4FB27 (162) (68); mkPower 0xB0DE65388CC8ADA8 (189) (76);
   mkPower 0x83C7088E1AAB65DB (216) (84); mkPower 0xC45D1DF942711D9A (242) (92);
   mkPower 0x924D692CA61BE758 (269) (100); mkPower 0xDA01EE641A708DEA (295) (108);
   mkPower 0xA26DA3999AEF774A (322) (116); mkPower 0xF209787BB47D6B85 (348) (124);
   mkPower 0xB454E4A179DD1877 (375) (132); mkPower 0x865B86925B9BC5C2 (402) (140);
   mkPower 0xC83553C5C8965D3D (428) (148); mkPower 0x952AB45CFA97A0B3 (455) (156);
   mkPower 0xDE469FBD99A05FE3 (481) (164); mkPower 0xA59BC234DB398C25 (508) (172);
   mkPower 0xF6C69A72A3989F5C (534) (180); mkPower 0xB7DCBF5354E9BECE (561) (188);
   mkPower 0x88FCF317F22241E2 (588) (196); mkPower 0xCC20CE9BD35C78A5 (614) (204);
   mkPower 0x98165AF37B2153DF (641) (212); mkPower 0xE2A0B5DC971F303A (667) (220);
   mkPower 0xA8D9D1535CE3B396 (694) (228); mkPower 0xFB9B7CD9A4A7443C (720) (236);
   mkPower 0xBB764C4CA7A44410 (747) (244); mkPower 0x8BAB8EEFB6409C1A (774) (252);
   mkPower 0xD01FEF10A657842C (800) (260); mkPower 0x9B10A4E5E9913129 (827) (268);
   mkPower 0xE7109BFBA19C0C9D (853) (276); mkPower 0xAC2820D9623BF429 (880) (284);
   mkPower 0x80444B5E7AA7CF85 (907) (292); mkPower 0xBF21E44003ACDD2D (933) (300);
   mkPower 0x8E679C2F5E44FF8F (960) (308); mkPower 0xD433179D9C8CB841 (986) (316);
   mkPower 0x9E19DB92B4E31BA9 (1013) (324)]. 

(** The division of C++ truncates toward zero. *)
Definition cached_power_index (e : Z) : Z :=
  let f := kAlpha - e - 1 in
  let k := Z.quot (f * 78913) (Z.shiftl 1 18) + (if 0 <? f then 1 else 0) in
  Z.quot (- kCachedPowersMinDecExp + k + (kCachedPowersDecStep - 1)) kCachedPowersDecStep.

Definition get_cached_power_for_binary_exponent (e : Z) : cached_power :=
  default (mkPower 0 0 0) (kCachedPowers !! Z.to_nat (cached_power_index e)).

(** The number of digits of a 32-bit integer, and the power of ten of the first. *)
Definition find_largest_pow10 (n : Z) : nat * Z :=
  if 1000000000 <=? n then (10%nat, 1000000000)
  else if 100000000 <=? n then (9%nat, 100000000)
  else if 10000000 <=? n then (8%nat, 10000000)
  else if 1000000 <=? n then (7%nat, 1000000)
  else if 100000 <=? n then (6%nat, 100000)
  else if 10000 <=? n then (5%nat, 10000)
  else if 1000 <=? n then (4%nat, 1000)
  else if 100 <=? n then (3%nat, 100)
  else if 10 <=? n then (2%nat, 10)
  else (1%nat, 1).

(** ** Digit generation *)

(** [buffer[length++] = static_cast<char>('0' + d)] *)
Definition put_digit (buffer : string) (d : Z) : string := buffer +:+ String (chr (48 + d)) EmptyString.

(** [buf[len - 1]--] *)
Fixpoint decrement_last (buf : string) : string :=
  match buf with
  | EmptyString => EmptyString
  | String c EmptyString => String (chr (code c - 1)) EmptyString
  | String c buf => String c (decrement_last buf)
  end.

Fixpoint round_loop (fuel : nat) (buf : string) (dist delta rest ten_k : Z) : string :=
  match fuel with
  | O => buf
  | S fuel =>
      if (rest <? dist) && (ten_k <=? u64 (delta - rest)) &&
         ((u64 (rest + ten_k) <? dist) || (u64 (rest + ten_k - dist) <? u64 (dist - rest)))
      then round_loop fuel (decrement_last buf) dist delta (u64 (rest + ten_k)) ten_k
      else buf
  end.

Definition grisu2_round (buf : string) (dist delta rest ten_k : Z) : string :=
  round_loop 10 buf dist delta rest ten_k.

(** The digits of the integral part, [n] of them left: either the digits and
    the exponent are final, or the digits are followed by those of the
    fraction. *)
Fixpoint integral_digits (n : nat) (buffer : string) (p1 p2 pow10 delta dist shift : Z)
    : (string * Z) + string :=
  match n with
  | O => inr buffer
  | S n =>
      let d := p1 / pow10 in
      let r := p1 mod pow10 in
      let buffer := put_digit buffer d in
      let rest := u64 (u64 (Z.shiftl r shift) + p2) in
      if rest <=? delta
      then inl (grisu2_round buffer dist delta rest (u64 (Z.shiftl pow10 shift)), Z.of_nat n)
      else integral_digits n buffer r p2 (pow10 / 10) delta dist shift
  end.

(** The digits of the fraction; [m] of them were generated. [None] when the fuel
    is used up. *)
Fixpoint fraction_digits (fuel : nat) (m : Z) (buffer : string) (p2 delta dist shift : Z)
    : option (string * Z) :=
  match fuel with
  | O => None
  | S fuel =>
      let p2 := u64 (p2 * 10) in
      let d := Z.shiftr p2 shift in
      let r := Z.land p2 (Z.shiftl 1 shift - 1) in
      let buffer := put_digit buffer d in
      let m := m + 1 in
      let delta := u64 (delta * 10) in
      let dist := u64 (dist * 10) in
      if r <=? delta
      then Some (grisu2_round buffer dist delta r (Z.shiftl 1 shift), - m)
      else fraction_digits fuel m buffer r delta dist shift
  end.

Definition grisu2_digit_gen (decimal_exponent : Z) (M_minus w M_plus : diyfp)
    : option (string * Z) :=
  let delta := f (diyfp_sub M_plus M_minus) in
  let dist := f (diyfp_sub M_plus w) in
  let shift := - e M_plus in
  let p1 := u32 (Z.shiftr (f M_plus) shift) in
  let p2 := Z.land (f M_plus) (Z.shiftl 1 shift - 1) in
  let '(k, pow10) := find_largest_pow10 p1 in
  match integral_digits k EmptyString p1 p2 pow10 delta dist shift with
  | inl (buffer, n) => Some (buffer, decimal_exponent + n)
  | inr buffer =>
      '(buffer, n) ← fraction_digits 20 0 buffer p2 delta dist shift;
      Some (buffer, decimal_exponent + n)
  end.

(** [grisu2] on the boundaries, and on a number. *)
Definition grisu2_scaled (m_minus v m_plus : diyfp) : option (string * Z) :=
  let cached := get_cached_power_for_binary_exponent (e m_plus) in
  let c_minus_k := mkDiyfp (pow_f cached) (pow_e cached) in
  let w := diyfp_mul v c_minus_k in
  let w_minus := diyfp_mul m_minus c_minus_k in
  let w_plus := diyfp_mul m_plus c_minus_k in
  let M_minus := mkDiyfp (u64 (f w_minus + 1)) (e w_minus) in
  let M_plus := mkDiyfp (u64 (f w_plus - 1)) (e w_plus) in
  grisu2_digit_gen (- pow_k cached) M_minus w M_plus.

Definition grisu2 (value : spec_float) : option (string * Z) :=
  let b := compute_boundaries value in grisu2_scaled (minus b) (w b) (plus b).

(** ** Layout *)

Definition append_exponent (e : Z) : string :=
  let '(sign, k) := if e <? 0 then ("-"%char, - e) else ("+"%char, e) in
  String sign
    (if k <? 10 then String "0" (String (chr (48 + k)) EmptyString)
     else if k <? 100 then String (chr (48 + k / 10)) (String (chr (48 + k mod 10)) EmptyString)
     else String (chr (48 + k / 100))
            (String (chr (48 + k mod 100 / 10)) (String (chr (48 + k mod 100 mod 10)) EmptyString))).

Definition zeros (n : Z) : string := str_repeat (Z.to_nat n) "0".

Definition format_buffer (buf : string) (decimal_exponent min_exp max_exp : Z) : string :=
  let k := Z.of_nat (String.length buf) in
  let n := k + decimal_exponent in
  if (k <=? n) && (n <=? max_exp) then buf +:+ zeros (n - k) +:+ ".0"
  else if (0 <? n) && (n <=? max_exp)
  then str_take (Z.to_nat n) buf +:+ "." +:+ str_drop (Z.to_nat n) buf
  else if (min_exp <? n) && (n <=? 0) then "0." +:+ zeros (- n) +:+ buf
  else if k =? 1 then buf +:+ "e" +:+ append_exponent (n - 1)
  else str_take 1 buf +:+ "." +:+ str_drop 1 buf +:+ "e" +:+ append_exponent (n - 1).

(** [to_chars] of a finite number; [None] when the digits do not end. *)
Definition to_chars (value : spec_float) : option string :=
  match value with
  | S754_zero s => Some (if s then "-0.0" else "0.0")
  | S754_finite s m e =>
      '(buf, decimal_exponent) ← grisu2 (S754_finite false m e);
      let text := format_buffer buf decimal_exponent (-4) 15 in
      Some (if s then String "-" text else text)
  | _ => None
  end.
