(* ===== verification/JsonFloatFacts.v ===== *)
(** * JsonFloatFacts: the digits Grisu2 generates identify their double

    The number that [grisu2] returns as digits and an exponent lies strictly
    between the midpoints around the double it was given: [grisu2_near]. The steps
    are those of the paper: the products are rounded to the nearest integer, the
    cached powers are within half a unit of the powers of ten, so the scaled
    boundaries moved inwards by one are inside the true ones; the generated digits
    and what remains add up to the upper one, and rounding stops before the
    remainder passes the difference of the two. *)

From Stdlib Require Import SpecFloat.
From S2P Require Import Prelude Strtod StrtodFacts JsonFloat.
#[local] Open Scope Z_scope.

(** ** Products *)

Lemma diyfp_mul_spec x y :
  in_u 64 (f x) -> in_u 64 (f y) ->
  diyfp_mul x y = mkDiyfp ((f x * f y + 2 ^ 63) / 2 ^ 64) (e x + e y + 64).
Proof.
  unfold in_u. intros Hx Hy. unfold diyfp_mul. change 0xFFFFFFFF with (Z.shiftl 1 32 - 1).
  rewrite !land_low, !Z.shiftr_div_pow2 by lia. change (Z.shiftl 1 31) with (2 ^ 31).
  set (a := f x) in *. set (b := f y) in *. clearbody a b.
  assert (Hsplit : forall n, 0 <= n < 2 ^ 64 ->
    n = 2 ^ 32 * (n / 2 ^ 32) + n mod 2 ^ 32 /\ 0 <= n / 2 ^ 32 < 2 ^ 32 /\ 0 <= n mod 2 ^ 32 < 2 ^ 32).
  { intros n Hn. split_and!; [by apply Z.div_mod|apply Z.div_pos; lia|apply Z.div_lt_upper_bound; lia|..];
      by apply Z.mod_pos_bound. }
  destruct (Hsplit a Hx) as (Ea & Hah & Hal). destruct (Hsplit b Hy) as (Eb & Hbh & Hbl).
  set (ah := a / 2 ^ 32) in *. set (al := a mod 2 ^ 32) in *. set (bh := b / 2 ^ 32) in *. set (bl := b mod 2 ^ 32) in *.
  clearbody ah al bh bl. change (2 ^ 32) with 4294967296 in *. change (2 ^ 64) with 18446744073709551616 in *.
  assert (Hp : forall u v, 0 <= u < 4294967296 -> 0 <= v < 4294967296 -> 0 <= u * v < 18446744073709551616) by (intros; nia).
  rewrite !(wrapu_small 64 (_ * _)) by (unfold in_u; by apply Hp).
  destruct (Hsplit (al * bl)) as (E0 & H0h & H0l); [by apply Hp|].
  destruct (Hsplit (al * bh)) as (E1 & H1h & H1l); [by apply Hp|].
  destruct (Hsplit (ah * bl)) as (E2 & H2h & H2l); [by apply Hp|].
  set (p0h := al * bl / 4294967296) in *. set (p0l := (al * bl) mod 4294967296) in *.
  set (p1h := al * bh / 4294967296) in *. set (p1l := (al * bh) mod 4294967296) in *.
  set (p2h := ah * bl / 4294967296) in *. set (p2l := (ah * bl) mod 4294967296) in *.
  rewrite (wrapu_small 64 (p0h + p1l + p2l)) by (unfold in_u; lia).
  rewrite (wrapu_small 64 (p0h + p1l + p2l + 2 ^ 31)) by (unfold in_u; lia).
  set (Q := p0h + p1l + p2l + 2 ^ 31). set (qh := Q / 4294967296).
  assert (HQ : Q = 4294967296 * qh + Q mod 4294967296) by (by apply Z.div_mod).
  pose proof (Z.mod_pos_bound Q 4294967296 ltac:(lia)) as Hql. set (ql := Q mod 4294967296) in *.
  assert (Eab : a * b + 2 ^ 63 = 18446744073709551616 * (ah * bh + p2h + p1h + qh) + (4294967296 * ql + p0l)).
  { replace (a * b) with (18446744073709551616 * (ah * bh) + 4294967296 * (ah * bl + al * bh) + al * bl) by (rewrite Ea, Eb; ring).
    rewrite E0, E1, E2. subst Q. change (2 ^ 63) with (4294967296 * 2 ^ 31). lia. }
  assert (Eh : (a * b + 2 ^ 63) / 18446744073709551616 = ah * bh + p2h + p1h + qh).
  { symmetry. apply (Z.div_unique _ _ _ (4294967296 * ql + p0l)); [left; lia|exact Eab]. }
  rewrite Eh, wrapu_small; [done|]. rewrite <- Eh. unfold in_u. split; [apply Z.div_pos; nia|].
  apply Z.div_lt_upper_bound; [lia|]. change (2 ^ 64) with 18446744073709551616. nia.
Qed.

(** ** Boundaries *)

Lemma normalize_spec fuel x :
  0 < f x < 2 ^ 64 -> 2 ^ 63 <= f x * 2 ^ Z.of_nat fuel ->
  exists s, 0 <= s <= Z.of_nat fuel /\ normalize_loop fuel x = mkDiyfp (f x * 2 ^ s) (e x - s) /\
    2 ^ 63 <= f x * 2 ^ s < 2 ^ 64.
Proof.
  revert x. induction fuel as [|fuel IH]; intros [m k] H1 H2; cbn [f e] in *.
  - exists 0. change (2 ^ Z.of_nat 0) with 1 in H2. rewrite Z.mul_1_r, Z.sub_0_r. split_and!; [lia..|done|lia|lia].
  - cbn [normalize_loop f e]. rewrite Z.shiftr_div_pow2 by lia. destruct (Z.eqb_spec (m / 2 ^ 63) 0) as [E|E].
    + apply Z.div_small_iff in E; [|lia]. destruct E as [E|E]; [|lia].
      rewrite Z.shiftl_mul_pow2 by lia. rewrite wrapu_small by (unfold in_u; lia).
      rewrite Nat2Z.inj_succ, Z.pow_succ_r in H2 by lia.
      destruct (IH (mkDiyfp (m * 2 ^ 1) (k - 1))) as (s & Hs & -> & Hr); change (2 ^ 1) with 2 in *; cbn [f e] in *; [lia..|].
      exists (s + 1). rewrite Z.add_1_r, Z.pow_succ_r by lia.
      split_and!; [lia..| |lia|lia]. f_equal; [ring|lia].
    + exists 0. rewrite Z.mul_1_r, Z.sub_0_r. split_and!; [lia..|done| |lia].
      apply Z.le_ngt. intros Hlt. apply E. apply Z.div_small. lia.
Qed.

(** The biased exponent and the fraction of a double. *)
Lemma ieee_bits_spec m e0 :
  binary64 (S754_finite false m e0) = true ->
  let bits := ieee_bits (S754_finite false m e0) in
  if Z.pos m <? 2 ^ 52 then Z.shiftr bits 52 = 0 /\ Z.land bits (kHiddenBit - 1) = Z.pos m /\ e0 = emin
  else Z.shiftr bits 52 = e0 + 1075 /\ Z.land bits (kHiddenBit - 1) = Z.pos m - 2 ^ 52.
Proof.
  intros (Hm & [He1 He2] & Hn)%binary64_spec. unfold ieee_bits, kHiddenBit.
  change (2 ^ 52 - 1) with (Z.shiftl 1 52 - 1). rewrite land_low, Z.shiftr_div_pow2 by lia.
  destruct (Z.ltb_spec (Z.pos m) (2 ^ 52)).
  - rewrite Z.div_small, Z.mod_small by lia. lia.
  - rewrite Z.lor_comm, Z.shiftl_mul_pow2, lor_low by lia.
    rewrite Z.div_add, Z_mod_plus_full, Z.div_small, Z.mod_small by lia. lia.
Qed.

(** The scaled boundaries of a double, in quarters of its last place shifted to
    64 bits: [minus] and [plus] are the midpoints around it. *)
Lemma compute_boundaries_spec m e0 :
  binary64 (S754_finite false m e0) = true ->
  let b := compute_boundaries (S754_finite false m e0) in
  exists s, 9 <= s <= 61 /\
    plus b = mkDiyfp ((4 * Z.pos m + 2) * 2 ^ s) (e0 - 2 - s) /\
    minus b = mkDiyfp (lower_quarters (Z.pos m) e0 * 2 ^ s) (e0 - 2 - s) /\
    in_u 64 (f (w b)) /\ 2 ^ 63 <= (4 * Z.pos m + 2) * 2 ^ s < 2 ^ 64.
Proof.
  intros Hb. pose proof (ieee_bits_spec m e0 Hb) as Hbits. apply binary64_spec in Hb as (Hm & [He1 He2] & Hn).
  unfold compute_boundaries, kMinExp, kBias. cbv zeta in *. set (bits := ieee_bits _) in *.
  set (v := if _ =? 0 then _ else _). set (closer := (_ =? 0) && _).
  assert (Hv : v = mkDiyfp (Z.pos m) e0 /\ closer = (Z.pos m =? 2 ^ 52) && (emin <? e0)).
  { subst v closer. unfold emin in *. destruct (Z.ltb_spec (Z.pos m) (2 ^ 52)).
    - destruct Hbits as (-> & -> & ->). split; [done|]. destruct (Z.eqb_spec (Z.pos m) 0), (Z.eqb_spec (Z.pos m) (2 ^ 52)); try lia.
    - destruct Hbits as (-> & ->). unfold kHiddenBit. destruct (Z.eqb_spec (e0 + 1075) 0); [lia|]. split; [f_equal; lia|].
      f_equal; [|destruct (Z.ltb_spec 1 (e0 + 1075)), (Z.ltb_spec (-1074) e0); lia].
      destruct (Z.eqb_spec (Z.pos m - 2 ^ 52) 0), (Z.eqb_spec (Z.pos m) (2 ^ 52)); lia. }
  destruct Hv as [-> Hc]. clearbody closer. cbn [f e]. unfold normalize.
  destruct (normalize_spec 64 (mkDiyfp (2 * Z.pos m + 1) (e0 - 1))) as (s & Hs & -> & Hr); cbn [f e] in *.
  { change (2 ^ 53) with 9007199254740992 in Hm. change (2 ^ 64) with 18446744073709551616. lia. }
  { change (Z.of_nat 64) with 64. lia. }
  destruct (normalize_spec 64 (mkDiyfp (Z.pos m) e0)) as (s' & Hs' & -> & Hr'); cbn [f e] in *.
  { change (2 ^ 53) with 9007199254740992 in Hm. change (2 ^ 64) with 18446744073709551616. lia. }
  { change (Z.of_nat 64) with 64. lia. }
  assert (Hlow : 10 <= s).
  { apply Z.le_ngt. intros Hlt. assert (2 ^ s <= 2 ^ 9) by (apply Z.pow_le_mono_r; lia).
    change (2 ^ 63) with 9223372036854775808 in Hr. change (2 ^ 53) with 9007199254740992 in Hm.
    change (2 ^ 9) with 512 in *. nia. }
  assert (Hhigh : s <= 62).
  { apply Z.le_ngt. intros Hlt. assert (2 ^ 63 <= 2 ^ s) by (apply Z.pow_le_mono_r; lia).
    change (2 ^ 64) with (2 * 2 ^ 63) in Hr. nia. }
  assert (H2 : 2 ^ s = 2 * 2 ^ (s - 1)) by (rewrite <- units_double by lia; f_equal; lia).
  exists (s - 1). split; [lia|]. cbn [plus minus w f]. split_and!.
  - f_equal; lia.
  - unfold lower_quarters. rewrite <- Hc. unfold normalize_to.
    assert (Hfit : forall a, 0 <= a <= 4 * Z.pos m + 2 -> in_u 64 (a * 2 ^ (s - 1))) by (unfold in_u; intros; nia).
    destruct closer; cbn [f e].
    + replace (e0 - 2 - (e0 - 1 - s)) with (s - 1) by lia. rewrite Z.shiftl_mul_pow2, wrapu_small by (lia || apply Hfit; lia).
      f_equal; lia.
    + replace (e0 - 1 - (e0 - 1 - s)) with s by lia. rewrite Z.shiftl_mul_pow2, H2 by lia.
      replace ((2 * Z.pos m - 1) * (2 * 2 ^ (s - 1))) with ((4 * Z.pos m - 2) * 2 ^ (s - 1)) by lia.
      rewrite wrapu_small by (apply Hfit; lia). f_equal; lia.
  - unfold in_u. lia.
  - nia.
  - nia.
Qed.

(** ** Cached powers *)

(** [f * 2^e] is within half a unit of [10^k]. *)
Definition power_ok (c : cached_power) : bool :=
  (2 ^ 63 <=? pow_f c) && (pow_f c <? 2 ^ 64) && (-1060 <=? pow_e c) && (pow_e c <=? 1013) &&
  (-300 <=? pow_k c) && (pow_k c <=? 324) &&
  (let u := 2 ^ Z.max 0 (pow_e c) * 10 ^ Z.max 0 (- pow_k c) in
   2 * Z.abs (pow_f c * u - 10 ^ Z.max 0 (pow_k c) * 2 ^ Z.max 0 (- pow_e c)) <=? u).

Lemma cached_powers_ok : forallb power_ok kCachedPowers = true.
Proof. vm_compute. reflexivity. Qed.

(** The same in units of [2^-1200 * 10^-400]. *)
Definition U2 : Z := 2 ^ 1200.
Definition U10 : Z := 10 ^ 400.

Lemma power_units c :
  power_ok c = true ->
  2 ^ 63 <= pow_f c < 2 ^ 64 /\ -1060 <= pow_e c <= 1013 /\ -300 <= pow_k c <= 324 /\
  (let u := 2 ^ (pow_e c + 1200) * U10 in let v := 10 ^ (pow_k c + 400) * U2 in
   (2 * pow_f c - 1) * u <= 2 * v <= (2 * pow_f c + 1) * u).
Proof.
  unfold power_ok. set (x := pow_e c). set (k := pow_k c). set (n := pow_f c). clearbody x k n.
  intros [[[[[[? ?]%andb_prop ?]%andb_prop ?]%andb_prop ?]%andb_prop ?]%andb_prop Hle%Z.leb_le]%andb_prop.
  split_and!; [lia..| |]; cbv zeta in *; set (u := 2 ^ Z.max 0 x * 10 ^ Z.max 0 (- k)) in *;
    set (v := 10 ^ Z.max 0 k * 2 ^ Z.max 0 (- x)) in *;
    set (c' := 2 ^ (1200 - Z.max 0 (- x)) * 10 ^ (400 - Z.max 0 (- k)));
    assert (0 < c') by (apply Z.mul_pos_pos; apply Z.pow_pos_nonneg; lia);
    assert (Eu : 2 ^ (x + 1200) * U10 = u * c') by (subst u c'; unfold U10;
      transitivity (2 ^ Z.max 0 x * 2 ^ (1200 - Z.max 0 (- x)) * (10 ^ Z.max 0 (- k) * 10 ^ (400 - Z.max 0 (- k)))); [|ring];
      rewrite <- !Z.pow_add_r by lia; do 2 f_equal; lia);
    assert (Ev : 10 ^ (k + 400) * U2 = v * c') by (subst v c'; unfold U2;
      transitivity (10 ^ Z.max 0 k * 10 ^ (400 - Z.max 0 (- k)) * (2 ^ Z.max 0 (- x) * 2 ^ (1200 - Z.max 0 (- x)))); [|ring];
      rewrite <- !Z.pow_add_r by lia; do 2 f_equal; lia);
    rewrite Eu, Ev; clearbody u v c'; nia.
Qed.

(** The power chosen brings the exponent of the product into [kAlpha, kGamma]. *)
Definition choice_ok (e0 : Z) : bool :=
  match kCachedPowers !! Z.to_nat (cached_power_index e0) with
  | Some c => (kAlpha <=? e0 + pow_e c + 64) && (e0 + pow_e c + 64 <=? kGamma)
  | None => false
  end.

Lemma choices_ok : forallb choice_ok (seqZ (-1137) 2100) = true.
Proof. vm_compute. reflexivity. Qed.

Lemma cached_power_spec e0 :
  -1137 <= e0 <= 960 ->
  let c := get_cached_power_for_binary_exponent e0 in
  kAlpha <= e0 + pow_e c + 64 <= kGamma /\ power_ok c = true.
Proof.
  intros He. pose proof choices_ok as Hc. rewrite forallb_forall in Hc.
  specialize (Hc e0 ltac:(apply list_elem_of_In, elem_of_seqZ; lia)). unfold choice_ok in Hc.
  unfold get_cached_power_for_binary_exponent. destruct (_ !! _) as [c|] eqn:E; [|done].
  cbn [default from_option id]. split; [lia|]. pose proof cached_powers_ok as Hp. rewrite forallb_forall in Hp.
  apply Hp, list_elem_of_In. by eapply list_elem_of_lookup_2.
Qed.

(** ** Buffers of digits *)

(** The value of a text of digits, after the digits of [acc]. *)
Fixpoint dval (acc : Z) (s : string) : Z :=
  match s with EmptyString => acc | String c s => dval (10 * acc + (code c - 48)) s end.

(** A number without leading zeros. *)
Definition number_text (s : string) : Prop :=
  str_forallb is_digit s = true /\ match s with String c _ => c <> "0"%char | EmptyString => False end.

Lemma dval_lower acc s : 0 <= acc -> str_forallb is_digit s = true -> acc <= dval acc s.
Proof.
  revert acc. induction s as [|c s IH]; intros acc Ha H; [done|]. cbn [str_forallb dval] in *.
  apply andb_prop in H as [Hc H]. unfold is_digit in Hc.
  specialize (IH (10 * acc + (code c - 48)) ltac:(lia) H). lia.
Qed.

Lemma number_text_pos s : number_text s -> 0 < dval 0 s.
Proof.
  intros [H Hc]. destruct s as [|c s]; [done|]. cbn [str_forallb dval] in *. apply andb_prop in H as [Hd H].
  assert (code c <> 48).
  { intros E. apply Hc. rewrite <- (chr_code c), E. done. }
  unfold is_digit in Hd. pose proof (dval_lower (10 * 0 + (code c - 48)) s ltac:(lia) H). lia.
Qed.

Lemma code_digit d : 0 <= d <= 9 -> code (chr (48 + d)) = 48 + d.
Proof. intros H. apply code_chr. unfold in_u. lia. Qed.

Lemma is_digit_chr d : 0 <= d <= 9 -> is_digit (chr (48 + d)) = true.
Proof. intros H. unfold is_digit. rewrite code_digit by done. lia. Qed.

Lemma dval_app acc a b : dval acc (a +:+ b) = dval (dval acc a) b.
Proof. revert acc. induction a as [|c a IH]; intros acc; [done|]. apply IH. Qed.

Lemma dval_put acc b d : 0 <= d <= 9 -> dval acc (put_digit b d) = 10 * dval acc b + d.
Proof. intros H. unfold put_digit. rewrite dval_app. cbn [dval]. rewrite code_digit by done. lia. Qed.

Lemma put_digit_length b d : String.length (put_digit b d) = S (String.length b).
Proof. unfold put_digit. rewrite str_length_app. cbn. lia. Qed.

Lemma put_digit_text b d :
  0 <= d <= 9 -> number_text b \/ b = EmptyString /\ 1 <= d -> number_text (put_digit b d).
Proof.
  intros H [[Hb Hc]|[-> Hd]]; unfold number_text, put_digit.
  - rewrite str_forallb_app, Hb. cbn [str_forallb]. rewrite is_digit_chr by done. split; [done|].
    destruct b; [done|exact Hc].
  - cbn [String.append str_forallb]. rewrite is_digit_chr by done. split; [done|].
    intros E. apply (f_equal code) in E. rewrite code_digit in E by done. change (code "0") with 48 in E. lia.
Qed.

Lemma decrement_put b d : 1 <= d <= 9 -> decrement_last (put_digit b d) = put_digit b (d - 1).
Proof.
  intros H. unfold put_digit. induction b as [|c b IH]; cbn [String.append decrement_last].
  - rewrite code_digit by lia. by replace (48 + d - 1) with (48 + (d - 1)) by lia.
  - rewrite IH. by destruct b.
Qed.

(** Rounding moves the last digit down, not to zero, while what remains stays
    within [delta]. *)
Lemma round_loop_spec fuel b d dist delta rest ten_k :
  0 <= d <= 9 -> 0 <= rest <= delta -> delta < 2 ^ 64 -> 0 < ten_k -> delta < rest + d * ten_k ->
  exists d', 1 <= d' <= d /\ round_loop fuel (put_digit b d) dist delta rest ten_k = put_digit b d' /\
    rest + (d - d') * ten_k <= delta.
Proof.
  revert d rest. induction fuel as [|fuel IH]; intros d rest Hd Hr Hdelta Hk Hprev.
  - exists d. split_and!; [nia|lia|done|lia].
  - cbn [round_loop]. destruct (_ && _) eqn:E; [|exists d; split_and!; [nia|lia|done|lia]].
    apply andb_prop in E as [[_ E%Z.leb_le]%andb_prop _]. rewrite wrapu_small in E by (unfold in_u; lia).
    assert (2 <= d) by nia. rewrite decrement_put, wrapu_small by (unfold in_u; lia).
    destruct (IH (d - 1) (rest + ten_k)) as (d' & H1 & H2 & H3); [lia..|].
    exists d'. split_and!; [lia|lia|done|lia].
Qed.

(** The digit is used up before the fuel is. *)
Lemma round_loop_more fuel n b d dist delta rest ten_k :
  0 <= d <= 9 -> d <= Z.of_nat fuel -> 0 <= rest <= delta -> delta < 2 ^ 64 -> 0 < ten_k ->
  delta < rest + d * ten_k ->
  round_loop (fuel + n) (put_digit b d) dist delta rest ten_k = round_loop fuel (put_digit b d) dist delta rest ten_k.
Proof.
  revert d rest. induction fuel as [|fuel IH]; intros d rest Hd Hf Hr Hdelta Hk Hprev; [nia|].
  cbn [Nat.add round_loop]. destruct (_ && _) eqn:E; [|done].
  apply andb_prop in E as [[_ E%Z.leb_le]%andb_prop _]. rewrite wrapu_small in E by (unfold in_u; lia).
  assert (2 <= d) by nia. rewrite decrement_put, wrapu_small by (unfold in_u; lia). apply IH; lia.
Qed.

(** ** Digit generation *)

(** What a round of generation leaves: the digits and what remains add up. *)
Definition generated (buf : string) (unit rest delta total : Z) : Prop :=
  number_text buf /\ 0 <= rest <= delta /\ dval 0 buf * unit + rest = total.

Lemma grisu2_round_spec b d dist delta rest ten_k :
  number_text b \/ b = EmptyString ->
  0 <= d <= 9 -> 0 <= rest <= delta -> delta < 2 ^ 64 -> 0 < ten_k -> delta < rest + d * ten_k ->
  exists rest' buf, grisu2_round (put_digit b d) dist delta rest ten_k = buf /\
    String.length buf = S (String.length b) /\
    generated buf ten_k rest' delta (dval 0 b * 10 * ten_k + (d * ten_k + rest)).
Proof.
  intros Hb Hd Hr Hdelta Hk Hprev. unfold grisu2_round.
  destruct (round_loop_spec 10 b d dist delta rest ten_k) as (d' & H1 & -> & H3); [done..|].
  exists (rest + (d - d') * ten_k), (put_digit b d'). split_and!; [done|apply put_digit_length|].
  split_and!; [apply put_digit_text; [lia|]; destruct Hb as [|]; [by left|right; split; [done|lia]]|nia|lia|].
  rewrite dval_put by lia. lia.
Qed.

Section digit_gen.
Context (delta shift p2 : Z).
Hypothesis Hdelta : 0 < delta < 2 ^ 64.
Hypothesis Hshift : 32 <= shift <= 60.
Hypothesis Hp2 : 0 <= p2 < 2 ^ shift.

Lemma shift_pos : 0 < 2 ^ shift.
Proof. apply Z.pow_pos_nonneg; lia. Qed.

Lemma pow10_div n : 10 ^ Z.of_nat n / 10 = 10 ^ (Z.of_nat n - 1).
Proof.
  destruct n as [|n]; [done|]. rewrite Nat2Z.inj_succ, Z.pow_succ_r, Z.mul_comm, Z.div_mul by lia. f_equal. lia.
Qed.

(** The digits of the integral part: they are final when what remains is within
    [delta], and are all generated otherwise. *)
Lemma integral_digits_spec n b p1 dist :
  number_text b \/ b = EmptyString /\ 10 ^ (Z.of_nat n - 1) <= p1 ->
  0 <= p1 < 10 ^ Z.of_nat n -> dval 0 b * 10 ^ Z.of_nat n * 2 ^ shift + (p1 * 2 ^ shift + p2) < 2 ^ 64 ->
  delta < p1 * 2 ^ shift + p2 ->
  match integral_digits n b p1 p2 (10 ^ (Z.of_nat n - 1)) delta dist shift with
  | inl (buf, k) => 0 <= k < Z.of_nat n /\ (String.length buf <= String.length b + n)%nat /\
      exists rest, generated buf (10 ^ k * 2 ^ shift) rest delta
        (dval 0 b * 10 ^ Z.of_nat n * 2 ^ shift + (p1 * 2 ^ shift + p2))
  | inr buf => (number_text buf \/ n = O /\ buf = b) /\ String.length buf = (String.length b + n)%nat /\
      dval 0 buf = dval 0 b * 10 ^ Z.of_nat n + p1 /\ delta < p2
  end.
Proof.
  pose proof shift_pos as H2. set (u := 2 ^ shift) in *.
  revert b p1. induction n as [|n IH]; intros b p1 Hb Hp1 Hmax Hprev.
  { cbn [integral_digits]. change (10 ^ Z.of_nat 0) with 1 in *. assert (p1 = 0) as -> by lia.
    split_and!; [by right|lia|lia|lia]. }
  cbn [integral_digits]. replace (Z.of_nat (S n) - 1) with (Z.of_nat n) in * by lia.
  assert (Hpow : 10 ^ Z.of_nat (S n) = 10 * 10 ^ Z.of_nat n) by (rewrite Nat2Z.inj_succ; by apply Z.pow_succ_r; lia).
  rewrite Hpow in *. pose proof (pow10_div n) as Hdiv.
  assert (Ht : 0 < 10 ^ Z.of_nat n) by (apply Z.pow_pos_nonneg; lia). set (t := 10 ^ Z.of_nat n) in *.
  pose proof (Z.div_mod p1 t ltac:(lia)) as Ep. pose proof (Z.mod_pos_bound p1 t Ht) as Hr.
  set (d := p1 / t) in *. set (r := p1 mod t) in *. assert (Hd : 0 <= d <= 9) by nia.
  assert (Hb' : number_text b \/ b = EmptyString /\ 1 <= d) by (destruct Hb as [|[? ?]]; [by left|right; split; [done|nia]]).
  rewrite !Z.shiftl_mul_pow2 by lia. fold u.
  assert (Hru : r * u <= p1 * u) by nia.
  assert (Htu : 0 <= t * u < 2 ^ 64 /\ 0 <= dval 0 b * (10 * t) * u).
  { destruct Hb as [Hb%number_text_pos|[-> Hb]]; [|cbn [dval] in *]; nia. }
  rewrite (wrapu_small 64 (r * u)) by (unfold in_u; nia). rewrite wrapu_small by (unfold in_u; nia).
  rewrite wrapu_small by (unfold in_u; lia).
  destruct (Z.leb_spec (r * u + p2) delta).
  - destruct (grisu2_round_spec b d dist delta (r * u + p2) (t * u)) as (rest & buf & -> & Hl & Hg);
      [destruct Hb' as [|[? _]]; [by left|by right]|done|nia|lia|nia|nia|].
    split_and!; [lia|lia|lia|]. exists rest.
    replace (dval 0 b * (10 * t) * u + (p1 * u + p2)) with (dval 0 b * 10 * (t * u) + (d * (t * u) + (r * u + p2)))
      by (rewrite Ep; ring). exact Hg.
  - rewrite Hdiv. specialize (IH (put_digit b d) r). rewrite put_digit_length, dval_put in IH by done.
    replace ((10 * dval 0 b + d) * t * u + (r * u + p2)) with (dval 0 b * (10 * t) * u + (p1 * u + p2)) in IH
      by (rewrite Ep; ring).
    specialize (IH (or_introl (put_digit_text b d Hd Hb')) Hr Hmax ltac:(lia)).
    destruct (integral_digits _ _ _ _ _ _ _ _) as [[buf k]|buf].
    + destruct IH as (H3 & H4 & H5). split_and!; [lia..|exact H5].
    + destruct IH as (H3 & H4 & H5 & H6). split_and!; [|lia|lia|done]. left.
      destruct H3 as [|[_ ->]]; [done|]. by apply put_digit_text.
Qed.

(** The digits of the fraction: [delta] grows tenfold with each, and passes the
    unit before the fuel is used up. *)
Lemma fraction_digits_spec fuel m b q del dist :
  number_text b -> 0 < del < q -> q < 2 ^ shift -> 2 ^ shift <= del * 10 ^ Z.of_nat fuel ->
  exists buf k, fraction_digits fuel m b q del dist shift = Some (buf, - (m + k)) /\ 1 <= k <= Z.of_nat fuel /\
    (String.length buf <= String.length b + fuel)%nat /\
    exists rest, generated buf (2 ^ shift) rest (del * 10 ^ k) ((dval 0 b * 2 ^ shift + q) * 10 ^ k).
Proof.
  pose proof shift_pos as H2. assert (Hu : 2 ^ shift <= 2 ^ 60) by (apply Z.pow_le_mono_r; lia). set (u := 2 ^ shift) in *.
  change (2 ^ 60) with 1152921504606846976 in Hu.
  revert m b q del dist. induction fuel as [|fuel IH]; intros m b q del dist Hb Hdel Hq Hf.
  { change (10 ^ Z.of_nat 0) with 1 in Hf. lia. }
  cbn [fraction_digits]. rewrite (wrapu_small 64 (q * 10)), (wrapu_small 64 (del * 10)) by (unfold in_u; lia).
  rewrite land_low, Z.shiftr_div_pow2 by lia. fold u. rewrite Z.shiftl_1_l. fold u.
  pose proof (Z.div_mod (q * 10) u ltac:(lia)) as Ep. pose proof (Z.mod_pos_bound (q * 10) u H2) as Hr.
  set (d := q * 10 / u) in *. set (r := (q * 10) mod u) in *. assert (Hd : 0 <= d <= 9) by nia.
  destruct (Z.leb_spec r (del * 10)).
  - destruct (grisu2_round_spec b d (u64 (dist * 10)) (del * 10) r u) as (rest & buf & -> & Hl & Hg);
      [by left|done|lia|lia|lia|lia|].
    exists buf, 1. split_and!; [done|lia|lia|lia|]. exists rest. rewrite Z.pow_1_r.
    replace ((dval 0 b * u + q) * 10) with (dval 0 b * 10 * u + (d * u + r)) by lia. exact Hg.
  - destruct (IH (m + 1) (put_digit b d) r (del * 10) (u64 (dist * 10))) as (buf & k & -> & H3 & H4 & rest & H5);
      [by apply put_digit_text; [|left]|lia|lia|rewrite Nat2Z.inj_succ, Z.pow_succ_r in Hf by lia; lia|].
    exists buf, (k + 1). rewrite put_digit_length, dval_put in * by done. split_and!; [do 2 f_equal; lia|lia|lia|lia|].
    exists rest. rewrite Z.pow_add_r by lia. change (10 ^ 1) with 10.
    replace (del * (10 ^ k * 10)) with (del * 10 * 10 ^ k) by ring.
    replace ((dval 0 b * u + q) * (10 ^ k * 10)) with (((10 * dval 0 b + d) * u + r) * 10 ^ k); [exact H5|].
    replace (dval 0 b * u + q) with (dval 0 b * u + q * 1) by ring.
    replace (((10 * dval 0 b + d) * u + r) * 10 ^ k) with ((10 * (dval 0 b * u) + (u * d + r)) * 10 ^ k) by ring.
    rewrite <- Ep. ring.
Qed.

End digit_gen.

Lemma find_largest_pow10_spec n :
  1 <= n < 2 ^ 32 ->
  exists k, find_largest_pow10 n = (k, 10 ^ (Z.of_nat k - 1)) /\ (1 <= k <= 10)%nat /\
    10 ^ (Z.of_nat k - 1) <= n < 10 ^ Z.of_nat k.
Proof.
  change (2 ^ 32) with 4294967296. intros H. unfold find_largest_pow10. repeat case_if;
    match goal with |- exists k, (?n, _) = _ /\ _ => exists n end; (split; [reflexivity|]); (split; [lia|]);
    match goal with |- 10 ^ (Z.of_nat ?k - 1) <= _ < 10 ^ Z.of_nat ?k =>
      let a := eval vm_compute in (10 ^ (Z.of_nat k - 1)) in let b := eval vm_compute in (10 ^ Z.of_nat k) in
      change (10 ^ (Z.of_nat k - 1)) with a; change (10 ^ Z.of_nat k) with b end; lia.
Qed.

(** The digits are those of a number between the two boundaries; powers of ten in
    units of [10^-20]. *)
Lemma digit_gen_spec dec Mm v Mp shift :
  0 < f Mm < f Mp -> 2 ^ shift <= f Mp < 2 ^ 64 -> 32 <= shift <= 60 -> e Mp = - shift ->
  exists buf t, grisu2_digit_gen dec Mm v Mp = Some (buf, dec + t) /\
    number_text buf /\ (String.length buf <= 30)%nat /\ -20 <= t <= 9 /\
    f Mm * 10 ^ 20 <= dval 0 buf * 10 ^ (t + 20) * 2 ^ shift <= f Mp * 10 ^ 20.
Proof.
  intros Hm Hp Hs He. unfold grisu2_digit_gen, diyfp_sub. cbn [f]. rewrite He, Z.opp_involutive.
  rewrite (wrapu_small 64 (f Mp - f Mm)) by (unfold in_u; lia).
  rewrite land_low, Z.shiftr_div_pow2 by lia. assert (H2 : 0 < 2 ^ shift) by (apply Z.pow_pos_nonneg; lia).
  pose proof (Z.div_mod (f Mp) (2 ^ shift) ltac:(lia)) as Ep. pose proof (Z.mod_pos_bound (f Mp) (2 ^ shift) H2) as Hr.
  assert (H32 : 2 ^ 32 <= 2 ^ shift <= 2 ^ 60) by (split; apply Z.pow_le_mono_r; lia).
  set (p1 := f Mp / 2 ^ shift) in *. set (p2 := f Mp mod 2 ^ shift) in *. set (u := 2 ^ shift) in *.
  change (2 ^ 64) with (2 ^ 32 * 2 ^ 32) in Hp.
  assert (Hp1 : 1 <= p1 < 2 ^ 32) by (change (2 ^ 32) with 4294967296 in *; nia).
  rewrite (wrapu_small 32 p1) by (unfold in_u; lia).
  destruct (find_largest_pow10_spec p1 Hp1) as (k & -> & Hk & Hpow). set (delta := f Mp - f Mm) in *.
  set (dist := u64 (f Mp - f v)).
  pose proof (integral_digits_spec delta shift p2 ltac:(change (2 ^ 64) with (2 ^ 32 * 2 ^ 32); lia) Hs Hr k EmptyString p1 dist) as Hi.
  fold u in Hi. cbn [dval String.length] in Hi. rewrite Z.mul_0_l, Z.add_0_l in Hi.
  specialize (Hi ltac:(by right; split; [|lia]) ltac:(lia) ltac:(change (2 ^ 64) with (2 ^ 32 * 2 ^ 32); lia) ltac:(lia)).
  replace (p1 * u + p2) with (f Mp) in Hi by lia.
  destruct (integral_digits _ _ _ _ _ _ _ _) as [[buf n]|buf].
  - destruct Hi as (Hn & Hl & rest & Ht & Hrest & Hsum). exists buf, n. split_and!; [done|apply Ht..|lia|lia|lia| |].
    all: rewrite Z.pow_add_r by lia; set (x := 10 ^ 20) in *; assert (0 < x) by done; nia.
  - destruct Hi as ([Ht|[-> _]] & Hl & Hval & Hd); [|lia].
    destruct (fraction_digits_spec shift Hs 20 0 buf p2 delta dist) as (buf' & n & -> & Hn & Hl' & rest & Ht' & Hrest & Hsum);
      [done|lia|lia| |].
    { change (10 ^ Z.of_nat 20) with 100000000000000000000. change (2 ^ 60) with 1152921504606846976 in H32. fold u. lia. }
    fold u in Hsum. exists buf', (- n). cbn [mbind option_bind]. replace (0 + n) with n by lia.
    split_and!; [done|apply Ht'..|lia|lia|lia| |];
      replace (10 ^ 20) with (10 ^ (- n + 20) * 10 ^ n) by (rewrite <- Z.pow_add_r by lia; f_equal; lia);
      set (x := 10 ^ (- n + 20)) in *; assert (0 < x) by (apply Z.pow_pos_nonneg; lia); nia.
Qed.

(** ** The scaled boundaries are inside the true ones *)

Section inside.
Context (a F G H : Z).
Hypothesis Ha : 0 <= a < 2 ^ 64.
Hypothesis HG : 0 < G.

Lemma scaled_plus : (2 * F - 1) * G <= 2 * H -> ((a * F + 2 ^ 63) / 2 ^ 64 - 1) * G * 2 ^ 64 < a * H.
Proof.
  intros HF. pose proof (Z.mul_div_le (a * F + 2 ^ 63) (2 ^ 64) ltac:(lia)) as Hw. set (W := _ / _) in *.
  change (2 ^ 64) with (2 * 2 ^ 63) in *. set (h := 2 ^ 63) in *. assert (0 < h) by done. clearbody h W.
  assert (2 * (W - 1) * (2 * h) < a * (2 * F - 1)) by lia.
  assert ((W - 1) * G * (2 * h) * 2 < a * (2 * F - 1) * G) by nia. nia.
Qed.

Lemma scaled_minus : 2 * H <= (2 * F + 1) * G -> a * H < ((a * F + 2 ^ 63) / 2 ^ 64 + 1) * G * 2 ^ 64.
Proof.
  intros HF. pose proof (Z.mul_succ_div_gt (a * F + 2 ^ 63) (2 ^ 64) ltac:(lia)) as Hw. set (W := _ / _) in *.
  change (2 ^ 64) with (2 * 2 ^ 63) in *. set (h := 2 ^ 63) in *. assert (0 < h) by done. clearbody h W.
  assert (a * (2 * F + 1) < 2 * (W + 1) * (2 * h)) by lia.
  assert (a * (2 * F + 1) * G < (W + 1) * G * (2 * h) * 2) by nia. nia.
Qed.
End inside.

(** ** The digits of a double *)

(** Strictly between the midpoints around the double: [buf * 10^t], in units of
    [2^-1200 * 10^-400]. *)
Definition near (m e0 : Z) (buf : string) (t : Z) : Prop :=
  lower_quarters m e0 * 2 ^ (e0 - 2 + 1200) * U10 < dval 0 buf * 10 ^ (t + 400) * U2 /\
  dval 0 buf * 10 ^ (t + 400) * U2 < (4 * m + 2) * 2 ^ (e0 - 2 + 1200) * U10.

(** From the scaled boundary [M] back to the true one. *)
Lemma scaled_units_lt (D a s E X k t shift M : Z) :
  let G := 2 ^ (X + 1200) * U10 in let H := 10 ^ (k + 400) * U2 in
  -1200 <= E -> -1200 <= X -> -400 <= k -> 0 <= s -> shift = - (E + X + 64) -> 0 <= shift ->
  -20 <= t -> 0 <= t - k + 400 -> 0 < M ->
  (D * 10 ^ (t + 20) * 2 ^ shift <= M * 10 ^ 20 -> M * G * 2 ^ 64 < a * 2 ^ s * H ->
    D * 10 ^ (t - k + 400) * U2 < a * 2 ^ (E + s + 1200) * U10) /\
  (M * 10 ^ 20 <= D * 10 ^ (t + 20) * 2 ^ shift -> a * 2 ^ s * H < M * G * 2 ^ 64 ->
    a * 2 ^ (E + s + 1200) * U10 < D * 10 ^ (t - k + 400) * U2).
Proof.
  intros G H HE HX Hk Hs Hshift Hpos Ht Htk HM.
  set (R := 2 ^ (E + 1200) * 2 ^ shift). assert (HR : 0 < R) by (apply Z.mul_pos_pos; apply Z.pow_pos_nonneg; lia).
  assert (HRG : R * (G * 2 ^ 64) = U2 * U2 * U10).
  { subst R G. unfold U2. transitivity (2 ^ (E + 1200) * 2 ^ shift * 2 ^ (X + 1200) * 2 ^ 64 * U10); [ring|].
    rewrite <- !Z.pow_add_r by lia. do 2 f_equal. lia. }
  assert (HU10 : 0 < U10) by (by apply Z.pow_pos_nonneg). assert (HU2 : 0 < U2) by (by apply Z.pow_pos_nonneg).
  assert (Hsh : 0 < 2 ^ shift) by (by apply Z.pow_pos_nonneg).
  assert (HK : 0 < 10 ^ (k + 400)) by (apply Z.pow_pos_nonneg; lia).
  set (c := 10 ^ (k + 400) * U2 * 10 ^ 20 * 2 ^ shift).
  assert (Hc : 0 < c) by (apply Z.mul_pos_pos; [apply Z.mul_pos_pos; [apply Z.mul_pos_pos|]|]; done).
  assert (EL : D * 10 ^ (t - k + 400) * U2 * c = D * 10 ^ (t + 20) * 2 ^ shift * (R * (G * 2 ^ 64) * U10)).
  { assert (E10 : 10 ^ (t - k + 400) * 10 ^ (k + 400) * 10 ^ 20 = 10 ^ (t + 20) * U10 * U10).
    { unfold U10. rewrite <- !Z.pow_add_r by lia. f_equal. lia. }
    rewrite HRG. subst c. transitivity (D * (10 ^ (t - k + 400) * 10 ^ (k + 400) * 10 ^ 20) * U2 * U2 * 2 ^ shift); [ring|].
    rewrite E10. ring. }
  assert (ER : a * 2 ^ (E + s + 1200) * U10 * c = a * 2 ^ s * H * (R * 10 ^ 20 * U10)).
  { replace (E + s + 1200) with (s + (E + 1200)) by lia. rewrite Z.pow_add_r by lia. subst c H R. ring. }
  set (x := D * 10 ^ (t + 20) * 2 ^ shift) in *. set (y := a * 2 ^ s * H) in *. clearbody x y.
  set (g := M * G * 2 ^ 64). assert (Eg : M * 10 ^ 20 * (R * (G * 2 ^ 64) * U10) = g * (R * 10 ^ 20 * U10)) by (subst g; ring).
  assert (HRU : 0 < R * 10 ^ 20 * U10) by (clear -HR HU10; clearbody R; apply Z.mul_pos_pos; [apply Z.mul_pos_pos|]; done).
  assert (HGU : 0 < R * (G * 2 ^ 64) * U10) by (rewrite HRG; clear -HU2 HU10; apply Z.mul_pos_pos; [apply Z.mul_pos_pos|]; done).
  split; intros H1 H2; apply (Z.mul_lt_mono_pos_r c); try done; rewrite EL, ER.
  - eapply Z.le_lt_trans; [apply Z.mul_le_mono_nonneg_r; [lia|exact H1]|]. rewrite Eg. by apply Z.mul_lt_mono_pos_r.
  - eapply Z.lt_le_trans; [apply Z.mul_lt_mono_pos_r; [done|exact H2]|]. fold g. rewrite <- Eg.
    apply Z.mul_le_mono_nonneg_r; [lia|done].
Qed.

(** The boundaries moved inwards fit 64 bits and stay apart. *)
Lemma moved_boundaries a b F :
  2 ^ 63 <= a < 2 ^ 64 -> 0 < b -> b + 3 * 2 ^ 9 <= a -> 2 ^ 63 <= F < 2 ^ 64 ->
  let Wm := (b * F + 2 ^ 63) / 2 ^ 64 in let Wp := (a * F + 2 ^ 63) / 2 ^ 64 in
  u64 (Wm + 1) = Wm + 1 /\ u64 (Wp - 1) = Wp - 1 /\ 0 < Wm + 1 < Wp - 1 /\ 2 ^ 60 <= Wp - 1 < 2 ^ 64.
Proof.
  intros Ha Hb Hab HF Wm Wp. change (2 ^ 9) with 512 in Hab.
  pose proof (Z.mul_div_le (b * F + 2 ^ 63) (2 ^ 64) ltac:(lia)) as Hm1.
  pose proof (Z.mul_succ_div_gt (a * F + 2 ^ 63) (2 ^ 64) ltac:(lia)) as Hp1.
  pose proof (Z.mul_div_le (a * F + 2 ^ 63) (2 ^ 64) ltac:(lia)) as Hp2.
  assert (Hm0 : 0 <= Wm) by (apply Z.div_pos; nia). fold Wm in Hm1. fold Wp in Hp1, Hp2. clearbody Wm Wp.
  change (2 ^ 64) with 18446744073709551616 in *. change (2 ^ 63) with 9223372036854775808 in *.
  change (2 ^ 60) with 1152921504606846976.
  assert (H : Wm + 3 < Wp) by nia. assert (Hl : 2305843009213693952 < Wp) by nia.
  assert (Hu : Wp <= 18446744073709551616) by nia.
  rewrite !wrapu_small by (unfold in_u; change (2 ^ 64) with 18446744073709551616; lia). lia.
Qed.

(** Grisu2 returns the digits of a number that is nearer to the double than to any
    other. *)
Lemma grisu2_near m e0 :
  binary64 (S754_finite false m e0) = true ->
  exists buf t, grisu2 (S754_finite false m e0) = Some (buf, t) /\
    number_text buf /\ (String.length buf <= 30)%nat /\ -344 <= t <= 309 /\ near (Z.pos m) e0 buf t.
Proof.
  intros Hb. pose proof (compute_boundaries_spec m e0 Hb) as (s & Hs & Ep & Em & Hw & Hr).
  apply binary64_spec in Hb as (Hm & [He1 He2] & _).
  unfold grisu2, grisu2_scaled. set (b := compute_boundaries _) in *. rewrite Ep, Em. cbn [f e].
  set (E := e0 - 2 - s) in *. destruct (cached_power_spec E) as [HE Hok]; [unfold emin, emax in *; lia|].
  set (c := get_cached_power_for_binary_exponent E) in *. unfold kAlpha, kGamma in HE.
  destruct (power_units c Hok) as (HF12 & HX & Hk & HF). cbv zeta in HF.
  set (F := pow_f c) in *. set (X := pow_e c) in *. set (k := pow_k c) in *.
  set (G := 2 ^ (X + 1200) * U10) in *. set (H0 := 10 ^ (k + 400) * U2) in *.
  assert (HG : 0 < G) by (apply Z.mul_pos_pos; apply Z.pow_pos_nonneg; lia).
  set (q := lower_quarters (Z.pos m) e0) in *.
  assert (Hq : 4 * Z.pos m - 2 <= q <= 4 * Z.pos m - 1).
  { subst q. pose proof (lower_quarters_cases (Z.pos m) e0). lia. }
  assert (Hs2 : 2 ^ 9 <= 2 ^ s) by (apply Z.pow_le_mono_r; lia).
  destruct (moved_boundaries ((4 * Z.pos m + 2) * 2 ^ s) (q * 2 ^ s) F) as (Eum & Eup & HM & HP); [done|nia|nia|done|].
  rewrite (diyfp_mul_spec (mkDiyfp ((4 * Z.pos m + 2) * 2 ^ s) E) (mkDiyfp F X)),
    (diyfp_mul_spec (mkDiyfp (q * 2 ^ s) E) (mkDiyfp F X));
    cbn [f e]; [|unfold in_u; nia..]. rewrite Eum, Eup.
  set (shift := - (E + X + 64)). set (v := diyfp_mul _ _).
  set (Wm := (q * 2 ^ s * F + 2 ^ 63) / 2 ^ 64) in *. set (Wp := ((4 * Z.pos m + 2) * 2 ^ s * F + 2 ^ 63) / 2 ^ 64) in *.
  assert (H60 : 2 ^ shift <= 2 ^ 60) by (apply Z.pow_le_mono_r; lia).
  destruct (digit_gen_spec (- k) (mkDiyfp (Wm + 1) (E + X + 64)) v (mkDiyfp (Wp - 1) (E + X + 64)) shift)
    as (buf & t & Ht & Hbuf & Hl & Htr & Hlo & Hhi); cbn [f e] in *; [lia|lia|lia|lia|].
  exists buf, (- k + t). split_and!; [done|done|done|lia|lia|]. unfold near. fold q.
  replace (- k + t + 400) with (t - k + 400) by lia. replace (e0 - 2 + 1200) with (E + s + 1200) by lia. split.
  - destruct (scaled_units_lt (dval 0 buf) q s E X k t shift (Wm + 1)) as [_ H]; try (unfold emin in *; lia).
    apply H; [exact Hlo|]. apply scaled_minus; [nia|done|apply HF].
  - destruct (scaled_units_lt (dval 0 buf) (4 * Z.pos m + 2) s E X k t shift (Wp - 1)) as [H _]; try (unfold emin in *; lia).
    apply H; [exact Hhi|]. apply scaled_plus; [nia|done|apply HF].
Qed.

(** ** The length of the text *)

Lemma append_exponent_length x : (String.length (append_exponent x) <= 4)%nat.
Proof. unfold append_exponent. destruct (x <? 0); repeat case_if; cbn; lia. Qed.

Lemma format_buffer_length buf t :
  (0 < String.length buf <= 30)%nat -> (String.length (format_buffer buf t (-4) 15) <= 36)%nat.
Proof.
  intros Hb. pose proof (append_exponent_length (Z.of_nat (String.length buf) + t - 1)) as He. unfold format_buffer, zeros.
  set (k := Z.of_nat (String.length buf)) in *. set (n := k + t) in *.
  pose proof (f_equal String.length (str_take_drop (Z.to_nat n) buf)) as Hn.
  pose proof (f_equal String.length (str_take_drop 1 buf)) as H1. rewrite str_length_app in Hn, H1.
  destruct (Z.leb_spec k n), (Z.leb_spec n 15), (Z.ltb_spec 0 n), (Z.ltb_spec (-4) n), (Z.leb_spec n 0); cbn [andb];
    try destruct (k =? 1); rewrite ?str_length_app, ?str_length_repeat; cbn [String.length]; lia.
Qed.

(** The text of a double has at most 37 bytes. *)
Lemma to_chars_length x : binary64 x = true -> (String.length (default EmptyString (to_chars x)) <= 37)%nat.
Proof.
  intros Hb. destruct x as [[]|s| |s m e0]; try (cbn; lia). unfold to_chars.
  destruct (grisu2_near m e0 Hb) as (buf & t & -> & [_ Hne] & Hl & _). cbn [mbind option_bind].
  assert (H : (0 < String.length buf <= 30)%nat) by (destruct buf; [done|cbn in *; lia]).
  apply (format_buffer_length buf t) in H. cbn [default from_option id]. destruct s; cbn [String.length]; lia.
Qed.
