(* ===== verification/JsonPrinter.v ===== *)
(** * JsonPrinter: the printer of nlohmann::json (src/include/utils/json.hpp)

    [class serializer]: [dump] and what it calls, with the members of the class
    that it changes. Writing past [string_buffer] or [number_buffer] and reading
    past [indent_string] would be undefined behaviour: the model sets [overrun]
    when it happens, in [dump_integer] as in [dump_float], and JsonPrinterFacts shows
    that it never does for values of the C++ types. The program prints with the
    defaults: no escapes for non-ASCII characters, an exception on invalid UTF-8,
    and blanks for the indentation. *)

From S2P Require Import Prelude Json JsonFloat.
From Stdlib Require Import SpecFloat.
#[local] Open Scope Z_scope.

(** ** State *)

Record serializer := mkSerializer {
  o : string;  (* the output *)
  indent_string : string;
  overrun : bool
}.

Definition newSerializer : serializer := mkSerializer "" (str_repeat 512 " ") false.

(** [o->write_characters], [o->write_character] *)
Definition write (text : string) (s : serializer) : serializer :=
  mkSerializer (o s +:+ text) (indent_string s) (overrun s).

(** [o->write_characters(indent_string.c_str(), n)] *)
Definition write_indent (n : Z) (s : serializer) : serializer :=
  mkSerializer (o s +:+ str_take (Z.to_nat n) (indent_string s)) (indent_string s)
    (overrun s || (Z.of_nat (String.length (indent_string s)) <? n)).

(** The indentation doubles when it is too short for the next level. *)
Definition grow_indent (new_indent : Z) (s : serializer) : serializer :=
  let size := String.length (indent_string s) in
  if Z.of_nat size <? new_indent
  then mkSerializer (o s) (indent_string s +:+ str_repeat size " ") (overrun s) else s.

(** ** UTF-8 *)

Definition UTF8_ACCEPT : Z := 0.
Definition UTF8_REJECT : Z := 1.

Definition utf8d : list Z :=
  [0; 0; 0; 0; 0; 0; 0; 0; 0; 0; 0; 0; 0; 0; 0; 0; 0; 0; 0; 0; 0; 0; 0; 0; 0; 0; 0; 0; 0; 0; 0; 0;
   0; 0; 0; 0; 0; 0; 0; 0; 0; 0; 0; 0; 0; 0; 0; 0; 0; 0; 0; 0; 0; 0; 0; 0; 0; 0; 0; 0; 0; 0; 0; 0;
   0; 0; 0; 0; 0; 0; 0; 0; 0; 0; 0; 0; 0; 0; 0; 0; 0; 0; 0; 0; 0; 0; 0; 0; 0; 0; 0; 0; 0; 0; 0; 0;
   0; 0; 0; 0; 0; 0; 0; 0; 0; 0; 0; 0; 0; 0; 0; 0; 0; 0; 0; 0; 0; 0; 0; 0; 0; 0; 0; 0; 0; 0; 0; 0;
   1; 1; 1; 1; 1; 1; 1; 1; 1; 1; 1; 1; 1; 1; 1; 1; 9; 9; 9; 9; 9; 9; 9; 9; 9; 9; 9; 9; 9; 9; 9; 9;
   7; 7; 7; 7; 7; 7; 7; 7; 7; 7; 7; 7; 7; 7; 7; 7; 7; 7; 7; 7; 7; 7; 7; 7; 7; 7; 7; 7; 7; 7; 7; 7;
   8; 8; 2; 2; 2; 2; 2; 2; 2; 2; 2; 2; 2; 2; 2; 2; 2; 2; 2; 2; 2; 2; 2; 2; 2; 2; 2; 2; 2; 2; 2; 2;
   10; 3; 3; 3; 3; 3; 3; 3; 3; 3; 3; 3; 3; 4; 3; 3; 11; 6; 6; 6; 5; 8; 8; 8; 8; 8; 8; 8; 8; 8; 8; 8;
   0; 1; 2; 3; 5; 8; 7; 1; 1; 1; 4; 6; 1; 1; 1; 1; 1; 1; 1; 1; 1; 1; 1; 1; 1; 1; 1; 1; 1; 1; 1; 1;
   1; 0; 1; 1; 1; 1; 1; 0; 1; 0; 1; 1; 1; 1; 1; 1; 1; 2; 1; 1; 1; 1; 1; 2; 1; 2; 1; 1; 1; 1; 1; 1;
   1; 1; 1; 1; 1; 1; 1; 2; 1; 1; 1; 1; 1; 1; 1; 1; 1; 2; 1; 1; 1; 1; 1; 1; 1; 2; 1; 1; 1; 1; 1; 1;
   1; 1; 1; 1; 1; 1; 1; 3; 1; 3; 1; 1; 1; 1; 1; 1; 1; 3; 1; 1; 1; 1; 1; 3; 1; 3; 1; 1; 1; 1; 1; 1;
   1; 3; 1; 1; 1; 1; 1; 1; 1; 1; 1; 1; 1; 1; 1; 1].

(** The next state and code point. *)
Definition decode (state codep byte : Z) : Z * Z :=
  let type := default 0 (utf8d !! Z.to_nat byte) in
  let codep := if negb (state =? UTF8_ACCEPT)
               then Z.lor (Z.land byte 0x3f) (u32 (Z.shiftl codep 6))
               else Z.land (Z.shiftr 0xFF type) byte in
  (default 0 (utf8d !! Z.to_nat (256 + state * 16 + type)), codep).

(** ** Strings *)

(** [string_buffer]: the bytes written since it was last flushed. *)
Record escaper := mkEscaper {
  esc_state : Z; esc_codepoint : Z; string_buffer : string; flushed : string; esc_overrun : bool
}.

Definition buffer_size : Z := 512.

(** [text] is stored from [bytes] on, and [extra] bytes after it are touched. *)
Definition put (text : string) (extra : Z) (s : escaper) : escaper :=
  let buffer := string_buffer s +:+ text in
  mkEscaper (esc_state s) (esc_codepoint s) buffer (flushed s)
    (esc_overrun s || (buffer_size <? Z.of_nat (String.length buffer) + extra)).

(** After a code point: at least 13 bytes stay free. *)
Definition flush_full (s : escaper) : escaper :=
  if buffer_size - Z.of_nat (String.length (string_buffer s)) <? 13
  then mkEscaper (esc_state s) (esc_codepoint s) EmptyString (flushed s +:+ string_buffer s)
         (esc_overrun s)
  else s.

Definition hex_lower (d : Z) : ascii := if d <? 10 then chr (48 + d) else chr (87 + d).

(** "\u%04x" of a code point below 2^8. *)
Definition u_escape (codepoint : Z) : string :=
  "\u00" +:+ String (hex_lower (codepoint / 16)) (String (hex_lower (codepoint mod 16)) EmptyString).

(** The switch on an accepted code point, whose last byte is [c]. *)
Definition put_codepoint (c : ascii) (s : escaper) : escaper :=
  let cp := esc_codepoint s in
  if cp =? 0x08 then put "\b" 0 s
  else if cp =? 0x09 then put "\t" 0 s
  else if cp =? 0x0A then put "\n" 0 s
  else if cp =? 0x0C then put "\f" 0 s
  else if cp =? 0x0D then put "\r" 0 s
  else if cp =? 0x22 then put (String "\" (String (chr 0x22) EmptyString)) 0 s
  else if cp =? 0x5C then put "\\" 0 s
  else if cp <=? 0x1F then put (u_escape cp) 1 s  (* snprintf ends with a null byte *)
  else put (String c EmptyString) 0 s.

Definition hex_upper (d : Z) : ascii := if d <? 10 then chr (48 + d) else chr (55 + d).
Definition hex_bytes (byte : Z) : string :=
  String (hex_upper (byte / 16)) (String (hex_upper (byte mod 16)) EmptyString).

Fixpoint escape_loop (i : Z) (last : Z) (str : string) (s : escaper) : result escaper :=
  match str with
  | EmptyString =>
      if esc_state s =? UTF8_ACCEPT then Ok s
      else type_error 316 ("incomplete UTF-8 string; last byte: 0x" +:+ hex_bytes last)
  | String c str =>
      let byte := code c in
      let '(state, codepoint) := decode (esc_state s) (esc_codepoint s) byte in
      let s := mkEscaper state codepoint (string_buffer s) (flushed s) (esc_overrun s) in
      if state =? UTF8_ACCEPT then escape_loop (i + 1) byte str (flush_full (put_codepoint c s))
      else if state =? UTF8_REJECT
      then type_error 316 ("invalid UTF-8 byte at index " +:+ to_string i +:+ ": 0x" +:+ hex_bytes byte)
      else escape_loop (i + 1) byte str (put (String c EmptyString) 0 s)
  end.

Definition dump_escaped (str : string) (s : serializer) : result serializer :=
  let! e := escape_loop 0 0 str (mkEscaper UTF8_ACCEPT 0 EmptyString EmptyString false) in
  Ok (mkSerializer (o s +:+ flushed e +:+ string_buffer e) (indent_string s)
        (overrun s || esc_overrun e)).

(** ** Integers *)

(** A 64-bit integer has at most twenty digits: five turns. *)
Fixpoint count_digits_loop (fuel : nat) (n_digits x : Z) : Z :=
  match fuel with
  | O => n_digits
  | S fuel =>
      if x <? 10 then n_digits
      else if x <? 100 then n_digits + 1
      else if x <? 1000 then n_digits + 2
      else if x <? 10000 then n_digits + 3
      else count_digits_loop fuel (n_digits + 4) (x / 10000)
  end.
Definition count_digits (x : Z) : Z := count_digits_loop 5 1 x.

(** [number_buffer] *)
Record digits := mkDigits { number_buffer : list ascii; buffer_ptr : Z; digits_overrun : bool }.

Definition newNumberBuffer : list ascii := replicate 64 (chr 0).

(** [*(--buffer_ptr) = c] *)
Definition put_before (c : ascii) (b : digits) : digits :=
  let p := buffer_ptr b - 1 in
  mkDigits (<[Z.to_nat p := c]> (number_buffer b)) p
    (digits_overrun b || (p <? 0) || (Z.of_nat (length (number_buffer b)) <=? p)).

(** [digits_to_99[i][j]] *)
Definition digits_to_99 (i : Z) (j : bool) : ascii := chr (48 + (if j then i mod 10 else i / 10)).

Definition put_pair (i : Z) (b : digits) : digits :=
  put_before (digits_to_99 i false) (put_before (digits_to_99 i true) b).

Fixpoint digits_loop (fuel : nat) (abs_value : Z) (b : digits) : Z * digits :=
  match fuel with
  | O => (abs_value, b)
  | S fuel =>
      if 100 <=? abs_value
      then digits_loop fuel (abs_value / 100) (put_pair (abs_value mod 100) b)
      else (abs_value, b)
  end.

(** [remove_sign]: the absolute value of a negative 64-bit integer. *)
Definition remove_sign (x : Z) : Z := u64 (u64 (- (x + 1)) + 1).

Definition dump_integer (x : Z) (s : serializer) : serializer :=
  if x =? 0 then write "0" s
  else
    let negative := x <? 0 in
    let abs_value := if negative then remove_sign x else u64 x in
    let buffer := if negative then <[0%nat := "-"%char]> newNumberBuffer else newNumberBuffer in
    let n_chars := (if negative then 1 else 0) + count_digits abs_value in
    let '(abs_value, b) := digits_loop 10 abs_value (mkDigits buffer n_chars false) in
    let b := if 10 <=? abs_value then put_pair abs_value b else put_before (chr (48 + abs_value)) b in
    mkSerializer (o s +:+ String.string_of_list_ascii (take (Z.to_nat n_chars) (number_buffer b)))
      (indent_string s) (overrun s || digits_overrun b).

(** ** Values *)

(** [dump_float]: [to_chars] stores the text of a finite double from the start of
    [number_buffer] on, and it is then written. The bytes it moves on the way lie
    within the text it returns. The digits end (JsonFloatFacts). *)
Definition dump_float (x : spec_float) (s : serializer) : serializer :=
  match x with
  | S754_zero _ | S754_finite _ _ _ =>
      let text := default EmptyString (to_chars x) in
      mkSerializer (o s +:+ text) (indent_string s)
        (overrun s || (Z.of_nat (length newNumberBuffer) <? Z.of_nat (String.length text)))
  | _ => write "null" s
  end.

Definition dump_key (key : string) (colon : string) (s : serializer) : result serializer :=
  let! s := dump_escaped key (write (String (chr 0x22) EmptyString) s) in
  Ok (write (String (chr 0x22) colon) s).

(** [dump(val, pretty_print, false, indent_step, current_indent)] *)
Fixpoint dump (pretty_print : bool) (indent_step current_indent : Z) (val : json) (s : serializer)
    : result serializer :=
  let new_indent := u32 (current_indent + indent_step) in
  match val with
  | JObject [] => Ok (write "{}" s)
  | JObject m =>
      if pretty_print then
        let! s := (fix members (m : list (string * json)) s :=
            match m with
            | [] => Ok s
            | (k, v) :: m' =>
                let! s := dump_key k ": " (write_indent new_indent s) in
                let! s := dump true indent_step new_indent v s in
                match m' with [] => Ok s | _ => members m' (write ("," +:+ newline) s) end
            end) m (grow_indent new_indent (write ("{" +:+ newline) s)) in
        Ok (write "}" (write_indent current_indent (write newline s)))
      else
        let! s := (fix members (m : list (string * json)) s :=
            match m with
            | [] => Ok s
            | (k, v) :: m' =>
                let! s := dump_key k ":" s in
                let! s := dump false indent_step current_indent v s in
                match m' with [] => Ok s | _ => members m' (write "," s) end
            end) m (write "{" s) in
        Ok (write "}" s)
  | JArray [] => Ok (write "[]" s)
  | JArray l =>
      if pretty_print then
        let! s := (fix elements (l : list json) s :=
            match l with
            | [] => Ok s
            | v :: l' =>
                let! s := dump true indent_step new_indent v (write_indent new_indent s) in
                match l' with [] => Ok s | _ => elements l' (write ("," +:+ newline) s) end
            end) l (grow_indent new_indent (write ("[" +:+ newline) s)) in
        Ok (write "]" (write_indent current_indent (write newline s)))
      else
        let! s := (fix elements (l : list json) s :=
            match l with
            | [] => Ok s
            | v :: l' =>
                let! s := dump false indent_step current_indent v s in
                match l' with [] => Ok s | _ => elements l' (write "," s) end
            end) l (write "[" s) in
        Ok (write "]" s)
  | JString str =>
      let! s := dump_escaped str (write (String (chr 0x22) EmptyString) s) in
      Ok (write (String (chr 0x22) EmptyString) s)
  | JBool b => Ok (write (if b then "true" else "false") s)
  | JInteger n | JUnsigned n => Ok (dump_integer n s)
  | JFloat x => Ok (dump_float x s)
  | JNull => Ok (write "null" s)
  end.

(** [j.dump(indent)]; without an indentation, which is -1, the text is on one
    line. *)
Definition dump_serializer (indent : option Z) (j : json) : result serializer :=
  match indent with
  | Some n => if 0 <=? n then dump true n 0 j newSerializer else dump false 0 0 j newSerializer
  | None => dump false 0 0 j newSerializer
  end.

Definition nlohmann_dump (indent : option Z) (j : json) : result string :=
  let! s := dump_serializer indent j in Ok (o s).
