(* ===== verification/JsonPrinterFacts.v ===== *)
(** * JsonPrinterFacts: what the printer writes

    [dump_integer] writes the decimal digits of every 64-bit integer, and
    [dump_float] the text of every double, within [number_buffer];
    [dump_escaped] writes the escaped text of a string that is well-formed UTF-8
    and raises type_error 316 on any other; [dump] writes the text [json_show]
    gives, and no buffer overruns on the way. *)

From S2P Require Import Prelude Json Strtod StrtodFacts JsonLexer JsonGrammar JsonLexerFacts JsonFloat JsonFloatFacts.
From S2P Require Import JsonPrinter.
From Stdlib Require Import SpecFloat.
#[local] Open Scope Z_scope.

(** ** Integers *)

(** The digits of a positive integer. *)
Definition digits_of (v : Z) : list ascii := String.list_ascii_of_string (to_string v).

Lemma pretty_N_go_app n s : pretty_N_go n s = pretty_N_go n EmptyString +:+ s.
Proof.
  revert s. induction (N.lt_wf_0 n) as [n _ IH]; intros s.
  destruct (decide (n = 0)%N) as [->|]; [done|].
  rewrite (pretty_N_go_step n s), (pretty_N_go_step n "") by lia.
  assert (n `div` 10 < n)%N by (apply N.div_lt; lia).
  rewrite (IH (n `div` 10)%N), (IH (n `div` 10)%N) with (s := String _ "") by done.
  by rewrite str_app_assoc.
Qed.

Lemma to_string_pos v : 0 < v -> to_string v = pretty_N_go (Z.to_N v) EmptyString.
Proof. destruct v; try done. Qed.

Lemma pretty_char v : 0 <= v < 10 -> pretty_N_char (Z.to_N v) = chr (48 + v).
Proof.
  intros. rewrite <- (chr_code (pretty_N_char _)), pretty_N_char_code by lia. f_equal. lia.
Qed.

Lemma list_ascii_app a b :
  String.list_ascii_of_string (a +:+ b) = String.list_ascii_of_string a ++ String.list_ascii_of_string b.
Proof. induction a as [|c a IH]; simpl; [done|]. by rewrite IH. Qed.

Lemma digits_of_small v : 0 < v < 10 -> digits_of v = [chr (48 + v)].
Proof.
  intros. unfold digits_of. rewrite to_string_pos, pretty_N_go_step by lia.
  rewrite N.mod_small, N.div_small, pretty_N_go_0 by lia. by rewrite pretty_char by lia.
Qed.

Lemma digits_of_step v : 10 <= v -> digits_of v = digits_of (v / 10) ++ [chr (48 + v mod 10)].
Proof.
  intros. assert (0 < v / 10) by (apply Z.div_str_pos; lia). pose proof (Z.mod_pos_bound v 10 ltac:(lia)).
  unfold digits_of. rewrite !to_string_pos, (pretty_N_go_step (Z.to_N v)) by lia.
  rewrite pretty_N_go_app, list_ascii_app, Z2N.inj_div by lia. f_equal. cbn [String.list_ascii_of_string].
  change 10%N with (Z.to_N 10). rewrite <- Z2N.inj_mod by lia. by rewrite pretty_char by lia.
Qed.

Lemma digits_of_step2 v :
  100 <= v -> digits_of v = digits_of (v / 100) ++ [chr (48 + v mod 100 / 10); chr (48 + v mod 100 mod 10)].
Proof.
  intros. rewrite digits_of_step by lia. rewrite (digits_of_step (v / 10)) by (apply Z.div_le_lower_bound; lia).
  rewrite Z.div_div by lia. change (10 * 10) with 100. rewrite <- app_assoc. cbn [app].
  do 4 f_equal; f_equal; Z.to_euclidean_division_equations; lia.
Qed.

Lemma digits_of_length_step v : 10 <= v -> length (digits_of v) = S (length (digits_of (v / 10))).
Proof. intros. rewrite digits_of_step, length_app by done. simpl. lia. Qed.

Lemma digits_of_length_small v : 0 < v < 10 -> length (digits_of v) = 1%nat.
Proof. intros. by rewrite digits_of_small. Qed.

Lemma count_digits_loop_spec fuel n v :
  0 < v < 10000 ^ Z.of_nat fuel ->
  count_digits_loop fuel n v = n + Z.of_nat (length (digits_of v)) - 1.
Proof.
  revert n v. induction fuel as [|fuel IH]; intros n v Hv; [cbn in Hv; lia|]. cbn [count_digits_loop].
  rewrite Nat2Z.inj_succ, Z.pow_succ_r in Hv by lia.
  destruct (Z.ltb_spec v 10); [rewrite digits_of_length_small by lia; lia|].
  rewrite digits_of_length_step by lia. assert (1 <= v / 10) by (apply Z.div_le_lower_bound; lia).
  destruct (Z.ltb_spec v 100).
  { rewrite digits_of_length_small by (split; [lia|apply Z.div_lt_upper_bound; lia]). lia. }
  rewrite digits_of_length_step by (apply Z.div_le_lower_bound; lia). rewrite Z.div_div by lia.
  change (10 * 10) with 100. assert (1 <= v / 100) by (apply Z.div_le_lower_bound; lia).
  destruct (Z.ltb_spec v 1000).
  { rewrite digits_of_length_small by (split; [lia|apply Z.div_lt_upper_bound; lia]). lia. }
  rewrite digits_of_length_step by (apply Z.div_le_lower_bound; lia). rewrite Z.div_div by lia.
  change (100 * 10) with 1000. assert (1 <= v / 1000) by (apply Z.div_le_lower_bound; lia).
  destruct (Z.ltb_spec v 10000).
  { rewrite digits_of_length_small by (split; [lia|apply Z.div_lt_upper_bound; lia]). lia. }
  rewrite digits_of_length_step by (apply Z.div_le_lower_bound; lia). rewrite Z.div_div by lia.
  change (1000 * 10) with 10000. rewrite IH; [lia|].
  split; [apply Z.div_str_pos; lia|apply Z.div_lt_upper_bound; lia].
Qed.

Lemma count_digits_spec v : 0 < v < 2 ^ 64 -> count_digits v = Z.of_nat (length (digits_of v)).
Proof. intros. unfold count_digits. rewrite count_digits_loop_spec; lia. Qed.

Lemma digits_of_bound v : 0 < v < 2 ^ 64 -> (length (digits_of v) <= 20)%nat.
Proof.
  intros Hv. assert (H : forall k w, 0 < w < 10 ^ Z.of_nat (S k) -> (length (digits_of w) <= S k)%nat).
  { induction k as [|k IH]; intros w Hw; [rewrite digits_of_length_small by lia; lia|].
    rewrite (Nat2Z.inj_succ (S k)), Z.pow_succ_r in Hw by lia.
    destruct (Z.ltb_spec w 10); [rewrite digits_of_length_small by lia; lia|].
    rewrite digits_of_length_step by lia. apply le_n_S, IH.
    split; [apply Z.div_str_pos; lia|apply Z.div_lt_upper_bound; lia]. }
  apply (H 19%nat). lia.
Qed.

(** The buffer is [left], which the pointer is behind, what was written, and
    [tail]. *)
Definition holds (b : digits) (left written tail : list ascii) (ov : bool) : Prop :=
  number_buffer b = left ++ written ++ tail /\ buffer_ptr b = Z.of_nat (length left) /\
  digits_overrun b = ov.

Lemma put_before_holds c b left x written tail ov :
  holds b (left ++ [x]) written tail ov -> holds (put_before c b) left (c :: written) tail ov.
Proof.
  intros (Hb & Hp & Ho). unfold put_before. rewrite Hp, length_app. cbn [length].
  replace (Z.of_nat (length left + 1) - 1) with (Z.of_nat (length left)) by lia.
  split_and!; cbn [number_buffer buffer_ptr digits_overrun]; [|done|].
  - rewrite Hb, Nat2Z.id, <- app_assoc. cbn [app].
    by rewrite insert_app_r_alt, Nat.sub_diag by lia.
  - rewrite Hb, Ho, !length_app. cbn [length]. destruct ov; [done|]. cbn [orb].
    apply orb_false_iff. split; [apply Z.ltb_ge|apply Z.leb_gt]; lia.
Qed.

Lemma snoc_inv {A} (l : list A) n : length l = S n -> exists l' x, l = l' ++ [x] /\ length l' = n.
Proof.
  destruct l as [|x l] using rev_ind; [done|]. rewrite length_app. cbn. intros. exists l, x. split; [done|lia].
Qed.

Lemma put_pair_holds i b left m written tail ov :
  length m = 2%nat -> holds b (left ++ m) written tail ov ->
  holds (put_pair i b) left (chr (48 + i / 10) :: chr (48 + i mod 10) :: written) tail ov.
Proof.
  intros Hm H. destruct m as [|x [|y [|]]]; try done. unfold put_pair.
  apply (put_before_holds _ _ _ x). apply (put_before_holds _ _ _ y). by rewrite <- app_assoc.
Qed.

(** The pairs of digits, then the last one or two. *)
Definition write_digits (fuel : nat) (v : Z) (b : digits) : digits :=
  let '(v, b) := digits_loop fuel v b in
  if 10 <=? v then put_pair v b else put_before (chr (48 + v)) b.

Lemma write_digits_holds fuel v b left m written tail ov :
  0 < v < 100 * 100 ^ Z.of_nat fuel -> length m = length (digits_of v) ->
  holds b (left ++ m) written tail ov ->
  holds (write_digits fuel v b) left (digits_of v ++ written) tail ov.
Proof.
  unfold write_digits. revert v b m written. induction fuel as [|fuel IH]; intros v b m written Hv Hm H.
  - cbn [digits_loop]. change (100 * 100 ^ Z.of_nat 0) with 100 in Hv. destruct (Z.leb_spec 10 v).
    + assert (1 <= v / 10 < 10) by (split; [apply Z.div_le_lower_bound|apply Z.div_lt_upper_bound]; lia).
      rewrite digits_of_step, digits_of_small in Hm |- * by lia. by eapply put_pair_holds.
    + rewrite digits_of_small in Hm |- * by lia. destruct m as [|x [|]]; try done. by eapply put_before_holds.
  - cbn [digits_loop]. rewrite Nat2Z.inj_succ, Z.pow_succ_r in Hv by lia. destruct (Z.leb_spec 100 v) as [H1|H1].
    + rewrite digits_of_step2, length_app in Hm by done. cbn [length] in Hm.
      rewrite digits_of_step2, <- app_assoc by done. cbn [app].
      pose proof (take_drop (length (digits_of (v / 100))) m) as Etd.
      apply (IH (v / 100) _ (take (length (digits_of (v / 100))) m)).
      * split; [apply Z.div_str_pos; lia|apply Z.div_lt_upper_bound; lia].
      * rewrite length_take. lia.
      * eapply (put_pair_holds _ _ _ (drop (length (digits_of (v / 100))) m)); [rewrite length_drop; lia|].
        by rewrite <- app_assoc, Etd.
    + specialize (IH v b m written). revert IH.
      destruct fuel as [|fuel]; cbn [digits_loop].
      * intros IH. apply IH; [change (100 * 100 ^ Z.of_nat 0) with 100; lia|done..].
      * destruct (Z.leb_spec 100 v); [lia|]. intros IH. apply IH; [|done..]. split; [lia|].
        assert (1 <= 100 ^ Z.of_nat (S fuel)) by (apply Z.lt_pred_le, Z.pow_pos_nonneg; lia). lia.
Qed.

Lemma string_of_list_of s : String.string_of_list_ascii (String.list_ascii_of_string s) = s.
Proof. apply String.string_of_list_ascii_of_string. Qed.

(** The absolute value is that of the integer, in both types. *)
Lemma remove_sign_spec x : - 2 ^ 63 <= x < 0 -> remove_sign x = - x.
Proof.
  intros. unfold remove_sign. rewrite (wrapu_small 64 (- (x + 1))) by (unfold in_u; lia).
  rewrite wrapu_small by (unfold in_u; lia). lia.
Qed.

Theorem dump_integer_spec (x : Z) (s : serializer) :
  - 2 ^ 63 <= x < 2 ^ 64 -> dump_integer x s = write (to_string x) s.
Proof.
  intros Hx. unfold dump_integer. destruct (Z.eqb_spec x 0) as [->|Hz]; [done|]. cbv zeta.
  set (abs_value := if x <? 0 then remove_sign x else u64 x).
  assert (Ha : abs_value = Z.abs x).
  { subst abs_value. destruct (Z.ltb_spec x 0); [rewrite remove_sign_spec by lia; lia|].
    rewrite wrapu_small by (unfold in_u; lia). lia. }
  rewrite Ha. clear abs_value Ha. set (v := Z.abs x). assert (Hv : 0 < v < 2 ^ 64) by lia.
  rewrite count_digits_spec by done. pose proof (digits_of_bound v Hv) as Hlen.
  set (sign := if x <? 0 then ["-"%char] else []).
  set (neg := if x <? 0 then 1 else 0).
  assert (Hneg : neg = Z.of_nat (length sign)) by (subst neg sign; by destruct (x <? 0)). rewrite Hneg.
  set (buffer := if x <? 0 then <[0%nat := "-"%char]> newNumberBuffer else newNumberBuffer).
  set (n := (length sign + length (digits_of v))%nat).
  replace (Z.of_nat (length sign) + Z.of_nat (length (digits_of v))) with (Z.of_nat n) by lia.
  assert (Hb : exists m tail, buffer = sign ++ m ++ tail /\ length m = length (digits_of v)).
  { exists (replicate (length (digits_of v)) (chr 0)), (replicate (64 - n) (chr 0)).
    rewrite length_replicate. split; [|done]. rewrite <- replicate_add. subst buffer sign n.
    destruct (x <? 0); cbn [app length Nat.add Nat.sub]; unfold newNumberBuffer.
    - change (replicate 64 (chr 0)) with (chr 0 :: replicate 63 (chr 0)). cbn [insert list_insert]. do 2 f_equal. lia.
    - f_equal. lia. }
  destruct Hb as (m & tail & -> & Hm).
  pose proof (write_digits_holds 10 v (mkDigits (sign ++ m ++ tail) (Z.of_nat n) false) sign m [] tail false) as H.
  unfold write_digits in H. destruct (digits_loop 10 v _) as [v' b'].
  destruct H as (H1 & _ & H2); [cbn; lia|done| |].
  { split_and!; cbn; [by rewrite app_assoc|rewrite length_app; lia|done]. }
  rewrite app_nil_r in H1. rewrite H1, H2, orb_false_r, Nat2Z.id, app_assoc, take_app_length'
    by (rewrite length_app; lia).
  unfold write. f_equal. f_equal. unfold to_string, digits_of, sign, v.
  destruct x as [|p|p]; [done|..]; cbn [Z.ltb Z.compare Z.abs app].
  - apply string_of_list_of.
  - cbn [String.string_of_list_ascii]. by rewrite string_of_list_of.
Qed.

(** ** Strings *)

(** The escape of a byte; bytes of longer sequences are copied. *)
Definition escape_char (c : ascii) : string :=
  let cp := code c in
  if cp =? 0x08 then "\b"
  else if cp =? 0x09 then "\t"
  else if cp =? 0x0A then "\n"
  else if cp =? 0x0C then "\f"
  else if cp =? 0x0D then "\r"
  else if cp =? 0x22 then String "\" (String (chr 0x22) EmptyString)
  else if cp =? 0x5C then "\\"
  else if cp <=? 0x1F then u_escape cp
  else String c EmptyString.

Fixpoint escape_text (s : string) : string :=
  match s with EmptyString => EmptyString | String c s => escape_char c +:+ escape_text s end.

(** The states of the automaton: the bytes that are still expected, and the range
    of the code point read so far. *)
Definition utf8_states : list (Z * list (Z * Z) * Z) :=
  [(0, [], 0);
   (2, [(0x80, 0xBF)], 2);
   (3, [(0x80, 0xBF); (0x80, 0xBF)], 1);
   (4, [(0xA0, 0xBF); (0x80, 0xBF)], 0);
   (5, [(0x80, 0x9F); (0x80, 0xBF)], 1);
   (6, [(0x90, 0xBF); (0x80, 0xBF); (0x80, 0xBF)], 0);
   (7, [(0x80, 0xBF); (0x80, 0xBF); (0x80, 0xBF)], 1);
   (8, [(0x80, 0x8F); (0x80, 0xBF); (0x80, 0xBF)], 1)].

(** [codep] needs room for six bits per byte that follows. *)
Definition expects (state codep : Z) (pending : list (Z * Z)) : Prop :=
  exists lo, (state, pending, lo) ∈ utf8_states /\
    (pending <> [] -> lo <= codep < 2 ^ (26 - 6 * Z.of_nat (length pending))).

Lemma expects_initial : expects UTF8_ACCEPT 0 [].
Proof. exists 0. split; [constructor|done]. Qed.

(** The next state, whatever the code point. *)
Definition next_state (state byte : Z) : Z :=
  default 0 (utf8d !! Z.to_nat (256 + state * 16 + default 0 (utf8d !! Z.to_nat byte))).

Lemma decode_state state codep byte : (decode state codep byte).1 = next_state state byte.
Proof. done. Qed.

(** What the tables hold: from the start, the first bytes of sequences; inside of
    one, the bytes expected. *)
Definition lead_ok (b : Z) : bool :=
  let state := next_state 0 b in
  let cp := Z.land (Z.shiftr 0xFF (default 0 (utf8d !! Z.to_nat b))) b in
  match lead_ranges b with
  | Some pending =>
      existsb (fun '(st, p, lo) =>
        (state =? st) && bool_decide (p = pending) && (lo <=? cp) && (cp <? 2 ^ 8)) utf8_states
      && (bool_decide (pending <> []) || (cp =? b))
  | None => state =? UTF8_REJECT
  end.

Definition follow_ok (state : Z) (pending : list (Z * Z)) (lo b : Z) : bool :=
  let state' := next_state state b in
  match pending with
  | (l, h) :: pending =>
      if (l <=? b) && (b <=? h)
      then existsb (fun '(st, p, lo') =>
             (state' =? st) && bool_decide (p = pending) && (lo' <=? 64 * lo + Z.land b 0x3F)) utf8_states
      else state' =? UTF8_REJECT
  | [] => true
  end.

Lemma bytes_check (f : Z -> bool) :
  forallb f (map Z.of_nat (seq 0 256)) = true -> forall b, 0 <= b < 256 -> f b = true.
Proof.
  rewrite forallb_forall. intros H b Hb. apply H. apply in_map_iff. exists (Z.to_nat b).
  split; [lia|]. apply in_seq. lia.
Qed.

Lemma lead_table b : 0 <= b < 256 -> lead_ok b = true.
Proof. revert b. apply bytes_check. vm_compute. reflexivity. Qed.

Lemma follow_table state pending lo b :
  (state, pending, lo) ∈ utf8_states -> 0 <= b < 256 -> follow_ok state pending lo b = true.
Proof.
  intros Hs. revert b. apply bytes_check.
  assert (H : forallb (fun '(state, pending, lo) => forallb (follow_ok state pending lo) (map Z.of_nat (seq 0 256)))
    utf8_states = true) by (vm_compute; reflexivity).
  rewrite forallb_forall in H. apply (H (state, pending, lo)). by apply list_elem_of_In.
Qed.

Lemma state_accepts state pending lo :
  (state, pending, lo) ∈ utf8_states -> (state = UTF8_ACCEPT <-> pending = []) /\ state <> UTF8_REJECT.
Proof.
  intros H. assert (Hc : forallb (fun '(state, pending, _) =>
    Bool.eqb (state =? UTF8_ACCEPT) (bool_decide (pending = @nil (Z * Z))) && negb (state =? UTF8_REJECT))
    utf8_states = true) by (vm_compute; reflexivity).
  rewrite forallb_forall in Hc. specialize (Hc _ (proj1 (list_elem_of_In _ _) H)).
  apply andb_prop in Hc as [H1%Bool.eqb_prop H2]. destruct (Z.eqb_spec state UTF8_ACCEPT), (Z.eqb_spec state UTF8_REJECT);
    try done; destruct (bool_decide_reflect (pending = [])); done.
Qed.

Lemma state_bounds state pending lo :
  (state, pending, lo) ∈ utf8_states ->
  (length pending <= 3)%nat /\ 0 <= lo /\ (length pending = 1%nat -> lo = 2) /\
  Forall (fun r => 0x80 <= r.1) pending.
Proof.
  intros H. assert (Hc : forallb (fun '(_, pending, lo) => (length pending <=? 3)%nat && (0 <=? lo) &&
    (negb (length pending =? 1)%nat || (lo =? 2)) && forallb (fun r => 0x80 <=? r.1) pending) utf8_states = true) by (vm_compute; reflexivity).
  rewrite forallb_forall in Hc. specialize (Hc _ (proj1 (list_elem_of_In _ _) H)). cbn beta iota in Hc.
  apply andb_prop in Hc as [[[H1%Nat.leb_le H2%Z.leb_le]%andb_prop H3]%andb_prop H4]. split_and!; [done..| |].
  - intros E. rewrite E in H3. by apply Z.eqb_eq.
  - rewrite forallb_forall in H4. apply Forall_forall. intros r Hr. apply Z.leb_le, H4. by apply list_elem_of_In.
Qed.

Lemma existsb_states f :
  existsb f utf8_states = true -> exists st p lo, (st, p, lo) ∈ utf8_states /\ f (st, p, lo) = true.
Proof. intros ([[st p] lo] & H1 & H2)%existsb_exists. exists st, p, lo. by rewrite list_elem_of_In. Qed.

(** One byte from the start of a sequence. *)
Lemma decode_lead b codep state' codep' :
  0 <= b < 256 -> decode UTF8_ACCEPT codep b = (state', codep') ->
  match lead_ranges b with
  | Some pending => expects state' codep' pending /\ (pending = [] -> codep' = b)
  | None => state' = UTF8_REJECT
  end.
Proof.
  intros Hb Hd. pose proof (lead_table b Hb) as H. unfold lead_ok in H.
  assert (Hs : state' = next_state UTF8_ACCEPT b) by (by rewrite <- (decode_state UTF8_ACCEPT codep b), Hd).
  change (next_state UTF8_ACCEPT b) with (next_state 0 b) in Hs.
  assert (Hc : codep' = Z.land (Z.shiftr 0xFF (default 0 (utf8d !! Z.to_nat b))) b)
    by (unfold decode in Hd; by injection Hd).
  rewrite <- Hs, <- Hc in H. destruct (lead_ranges b) as [pending|]; [|lia].
  apply andb_prop in H as [H1 H2]. apply existsb_states in H1 as (st & p & lo & Hin & H1). bool_to_prop.
  subst st p. split.
  - exists lo. split; [done|]. intros Hne. split; [done|]. eapply Z.lt_le_trans; [done|].
    apply Z.pow_le_mono_r; [done|].
    destruct (state_bounds _ _ _ Hin). lia.
  - intros E. rewrite E in H2. by apply Z.eqb_eq.
Qed.

(** One byte inside of a sequence. *)
Lemma decode_follow state codep r pending b state' codep' :
  expects state codep (r :: pending) -> 0 <= b < 256 -> decode state codep b = (state', codep') ->
  if (r.1 <=? b) && (b <=? r.2)
  then expects state' codep' pending /\ (pending = [] -> 0x80 <= codep')
  else state' = UTF8_REJECT.
Proof.
  intros (lo & Hin & Hlo) Hb Hd. specialize (Hlo ltac:(done)). cbn [length] in Hlo.
  pose proof (follow_table _ _ _ b Hin Hb) as H. destruct (state_accepts _ _ _ Hin) as [Hacc _].
  destruct (state_bounds _ _ _ Hin) as (Hlen & Hlo0 & Hlo2 & _). cbn [length] in Hlen.
  unfold follow_ok in H. destruct r as [l h]. cbn [fst snd].
  assert (Hs : state' = next_state state b) by (by rewrite <- (decode_state state codep b), Hd).
  rewrite <- Hs in H. destruct ((l <=? b) && (b <=? h)); [|lia].
  apply existsb_states in H as (st & p & lo' & Hin' & H). bool_to_prop. subst st p.
  assert (Hcp : codep' = 64 * codep + Z.land b 0x3F).
  { unfold decode in Hd. destruct (Z.eqb_spec state UTF8_ACCEPT) as [E|_]; [by apply Hacc in E|]. cbn [negb] in Hd.
    injection Hd as _ <-. rewrite Z.shiftl_mul_pow2 by lia. rewrite wrapu_small. 2: {
      assert (2 ^ (26 - 6 * Z.of_nat (S (length pending))) <= 2 ^ 20) by (apply Z.pow_le_mono_r; lia).
      unfold in_u. lia. }
    rewrite lor_low; [lia|lia|]. change 0x3F with (Z.ones 6). rewrite Z.land_ones by lia.
    apply Z.mod_pos_bound. lia. }
  assert (Hm : 0 <= Z.land b 0x3F < 64).
  { change 0x3F with (Z.ones 6). rewrite Z.land_ones by lia. apply Z.mod_pos_bound. lia. }
  split.
  - exists lo'. split; [done|]. intros _. split; [lia|].
    replace (26 - 6 * Z.of_nat (length pending))
      with (6 + (26 - 6 * Z.of_nat (S (length pending)))) by lia.
    rewrite Z.pow_add_r by lia. lia.
  - intros ->. rewrite (Hlo2 eq_refl) in Hlo. lia.
Qed.

(** *** Texts of errors *)

Lemma hex_upper_ascii d : 0 <= d < 16 -> is_ascii_char (hex_upper d) = true.
Proof.
  intros. unfold hex_upper, is_ascii_char. destruct (d <? 10) eqn:E; rewrite code_chr by (unfold in_u; lia); lia.
Qed.

Lemma hex_bytes_ascii c : is_ascii (hex_bytes (code c)) = true.
Proof.
  pose proof (code_range c) as H. unfold in_u in H. unfold is_ascii, hex_bytes. simpl.
  rewrite !hex_upper_ascii; [done|..]; Z.to_euclidean_division_equations; lia.
Qed.

(** *** The loop *)

Lemma escape_char_high c : 0x80 <= code c -> escape_char c = String c EmptyString.
Proof.
  intros H. unfold escape_char. cbv zeta.
  repeat match goal with |- context [?a =? ?b] => destruct (Z.eqb_spec a b); [lia|] end.
  by destruct (Z.leb_spec (code c) 31); [lia|].
Qed.

Lemma escape_char_length c : (String.length (escape_char c) <= 6)%nat.
Proof. unfold escape_char, u_escape. cbv zeta. repeat case_if; cbn; lia. Qed.

(** The bytes of a sequence wait in the buffer until it is complete. *)
Definition room (pending : list (Z * Z)) : nat :=
  match pending with [] => 499 | _ => 499 + (4 - length pending) end.

Definition escaping (s : escaper) (pending : list (Z * Z)) (text : string) : Prop :=
  expects (esc_state s) (esc_codepoint s) pending /\ esc_overrun s = false /\
  flushed s +:+ string_buffer s = text /\ (String.length (string_buffer s) <= room pending)%nat.

(** [put_codepoint] stores the escape of the byte: of the last byte of a longer
    sequence, the byte. *)
Lemma put_codepoint_spec c s :
  (esc_codepoint s = code c \/ 0x80 <= esc_codepoint s /\ 0x80 <= code c) ->
  exists extra, 0 <= extra <= 1 /\ put_codepoint c s = put (escape_char c) extra s.
Proof.
  intros [E|[E1 E2]]; unfold put_codepoint; cbv zeta.
  - rewrite E. unfold escape_char. cbv zeta.
    repeat match goal with |- context [if ?b then _ else _] => destruct b end;
      first [by exists 0; split; [lia|]|by exists 1; split; [lia|]].
  - rewrite escape_char_high by done. exists 0. split; [lia|].
    repeat match goal with |- context [?a =? ?b] => destruct (Z.eqb_spec a b); [lia|] end.
    destruct (Z.leb_spec (esc_codepoint s) 31); [lia|done].
Qed.

(** A sequence is complete: the escape is stored, and the buffer flushed when it
    is nearly full. *)
Lemma flush_put s c extra text :
  esc_overrun s = false -> esc_state s = UTF8_ACCEPT -> 0 <= extra <= 1 ->
  flushed s +:+ string_buffer s = text -> (String.length (string_buffer s) <= 502)%nat ->
  escaping (flush_full (put (escape_char c) extra s)) [] (text +:+ escape_char c).
Proof.
  intros Ho Hst He Ht Hl. pose proof (escape_char_length c). unfold flush_full, put, escaping, buffer_size.
  cbn [string_buffer flushed esc_overrun esc_state esc_codepoint].
  assert (Hex : expects (esc_state s) (esc_codepoint s) []) by (rewrite Hst; exists 0; by split; [constructor|]).
  rewrite str_length_app, Ho. destruct (Z.ltb_spec (512 - Z.of_nat (String.length (string_buffer s) + String.length (escape_char c))) 13);
    cbn [string_buffer flushed esc_overrun esc_state esc_codepoint orb]; (split_and!; [done| | |]).
  - apply Z.ltb_ge. lia.
  - by rewrite str_app_nil_r, <- Ht, str_app_assoc.
  - simpl. lia.
  - apply Z.ltb_ge. lia.
  - by rewrite <- Ht, str_app_assoc.
  - rewrite str_length_app. simpl. lia.
Qed.

(** A byte inside of a sequence. *)
Lemma put_byte s c pending text :
  esc_overrun s = false -> expects (esc_state s) (esc_codepoint s) pending ->
  flushed s +:+ string_buffer s = text ->
  (String.length (string_buffer s) < room pending)%nat -> pending <> [] ->
  escaping (put (String c EmptyString) 0 s) pending (text +:+ String c EmptyString).
Proof.
  intros Ho Hex Ht Hl Hne. unfold put, escaping, buffer_size.
  cbn [string_buffer flushed esc_overrun esc_state esc_codepoint]. rewrite str_length_app, Ho. cbn [String.length orb].
  split_and!; [done| | |].
  - unfold room in Hl. destruct pending; [done|]. apply Z.ltb_ge. lia.
  - by rewrite <- Ht, str_app_assoc.
  - lia.
Qed.

(** What the loop ends with, once [text] and the escapes of the rest are stored. *)
Definition escapes (r : result escaper) (ok : bool) (text : string) : Prop :=
  if ok then exists s, r = Ok s /\ esc_overrun s = false /\ flushed s +:+ string_buffer s = text
  else raises_316 r.

(** The turn of the loop on a byte that was decoded. *)
Definition escape_turn (i : Z) (c : ascii) (str : string) (s : escaper) : result escaper :=
  if esc_state s =? UTF8_ACCEPT then escape_loop (i + 1) (code c) str (flush_full (put_codepoint c s))
  else if esc_state s =? UTF8_REJECT
  then type_error 316 ("invalid UTF-8 byte at index " +:+ to_string i +:+ ": 0x" +:+ hex_bytes (code c))
  else escape_loop (i + 1) (code c) str (put (String c EmptyString) 0 s).

Lemma escape_turn_rejects i c str s : esc_state s = UTF8_REJECT -> raises_316 (escape_turn i c str s).
Proof.
  intros E. unfold escape_turn. rewrite E. change (UTF8_REJECT =? UTF8_ACCEPT) with false.
  change (UTF8_REJECT =? UTF8_REJECT) with true. cbv iota. apply type_error_316.
  by rewrite !is_ascii_app, to_string_ascii, hex_bytes_ascii.
Qed.

Section escape_turn_accepts.
Context (i : Z) (c : ascii) (str : string).
Hypothesis IH : forall s pending text, escaping s pending text ->
  escapes (escape_loop (i + 1) (code c) str s) (utf8_from pending str) (text +:+ escape_text str).

Lemma escape_turn_accepts s pending text :
  expects (esc_state s) (esc_codepoint s) pending -> esc_overrun s = false ->
  flushed s +:+ string_buffer s = text ->
  match pending with
  | [] => (String.length (string_buffer s) <= 502)%nat /\
      (esc_codepoint s = code c \/ 0x80 <= esc_codepoint s /\ 0x80 <= code c)
  | _ => (String.length (string_buffer s) < room pending)%nat /\ 0x80 <= code c
  end ->
  escapes (escape_turn i c str s) (utf8_from pending str) (text +:+ escape_text (String c str)).
Proof.
  intros Hex Ho Ht H. unfold escape_turn. pose proof Hex as (lo & Hin & _).
  destruct (state_accepts _ _ _ Hin) as [Hacc Hrej]. cbn [escape_text]. rewrite <- (str_app_assoc text).
  destruct pending as [|r pending].
  - rewrite (proj2 Hacc eq_refl). change (UTF8_ACCEPT =? UTF8_ACCEPT) with true. destruct H as [Hl Hcp].
    destruct (put_codepoint_spec c s Hcp) as (extra & He & ->).
    apply IH, flush_put; [done| |done..]. by apply Hacc.
  - destruct (Z.eqb_spec (esc_state s) UTF8_ACCEPT) as [E|_]; [by apply Hacc in E|].
    destruct (Z.eqb_spec (esc_state s) UTF8_REJECT) as [E|_]; [done|]. destruct H as [Hl Hc].
    rewrite escape_char_high by done. by apply IH, put_byte.
Qed.

End escape_turn_accepts.

Theorem escape_loop_spec str : forall i last s pending text,
  escaping s pending text ->
  escapes (escape_loop i (code last) str s) (utf8_from pending str) (text +:+ escape_text str).
Proof.
  induction str as [|c str IH]; intros i last s pending text (Hex & Ho & Ht & Hl).
  - cbn [escape_loop utf8_from]. destruct Hex as (lo & Hin & _). destruct (state_accepts _ _ _ Hin) as [Hacc _].
    destruct pending as [|r pending].
    + rewrite (proj2 Hacc eq_refl). change (UTF8_ACCEPT =? UTF8_ACCEPT) with true. exists s.
      by rewrite str_app_nil_r.
    + destruct (Z.eqb_spec (esc_state s) UTF8_ACCEPT) as [E|_]; [by apply Hacc in E|].
      apply type_error_316. by rewrite is_ascii_app, hex_bytes_ascii.
  - cbn [escape_loop]. cbv zeta. pose proof (code_range c) as Hc. unfold in_u in Hc.
    change (2 ^ 8) with 256 in Hc.
    destruct (decode (esc_state s) (esc_codepoint s) (code c)) as [state codep] eqn:Ed.
    set (s1 := mkEscaper state codep (string_buffer s) (flushed s) (esc_overrun s)).
    change (escapes (escape_turn i c str s1) (utf8_from pending (String c str)) (text +:+ escape_text (String c str))).
    destruct pending as [|r pending]; cbn [utf8_from].
    + assert (Hst : esc_state s = UTF8_ACCEPT)
        by (destruct Hex as (lo & Hin & _); by apply (state_accepts _ _ _ Hin)).
      rewrite Hst in Ed. pose proof (decode_lead _ _ _ _ Hc Ed) as H. cbn [room] in Hl.
      destruct (lead_ranges (code c)) as [pending|] eqn:El; [|by apply escape_turn_rejects].
      destruct H as [Hex' Hcp].
      assert (length pending <= 3)%nat by (destruct Hex' as (lo & Hin & _); by apply (state_bounds _ _ _ Hin)).
      apply escape_turn_accepts; [by eauto|done..|].
      destruct pending as [|r pending]; [cbn; split; [lia|by left; apply Hcp]|].
      split; [cbn [string_buffer s1 room length] in *; lia|]. unfold lead_ranges in El.
      destruct (Z.ltb_spec (code c) 128); [done|lia].
    + pose proof (decode_follow _ _ _ _ _ _ _ Hex Hc Ed) as H. unfold in_range.
      destruct ((r.1 <=? code c) && (code c <=? r.2)) eqn:Er; [|by apply escape_turn_rejects].
      destruct H as [Hex' Hcp]. cbn [andb]. bool_to_prop.
      assert (Hhigh : 0x80 <= code c /\ (length (r :: pending) <= 3)%nat).
      { destruct Hex as (lo & Hin & _). destruct (state_bounds _ _ _ Hin) as (Hlen & _ & _ & Hr).
        apply Forall_cons in Hr as [Hr _]. split; [lia|done]. }
      destruct Hhigh as [Hhigh Hlen]. cbn [length] in Hlen. cbn [room length] in Hl.
      apply escape_turn_accepts; [by eauto|done..|].
      destruct pending as [|r' pending]; [cbn [string_buffer esc_codepoint s1]; split; [lia|by right; auto]|].
      cbn [string_buffer s1 room length] in *. split; [lia|done].
Qed.

(** What [dump_escaped] writes. *)
Theorem dump_escaped_spec (str : string) (s : serializer) :
  if utf8 str then dump_escaped str s = Ok (write (escape_text str) s)
  else raises_316 (dump_escaped str s).
Proof.
  assert (He : escaping (mkEscaper UTF8_ACCEPT 0 EmptyString EmptyString false) [] EmptyString).
  { split_and!; [apply expects_initial|done|done|cbn; lia]. }
  pose proof (escape_loop_spec str 0 (chr 0) _ _ _ He) as H. unfold dump_escaped, utf8.
  change (code (chr 0)) with 0 in H. destruct (utf8_from [] str).
  - destruct H as (e & -> & Ho & Ht). cbn [rbind]. rewrite Ho, orb_false_r, Ht. done.
  - by apply bind_316.
Qed.

(** ** Values *)

Definition blanks (n : Z) : string := str_repeat (Z.to_nat n) " ".

(** A line break and the indentation, when the text is indented. *)
Definition line (pretty : bool) (n : Z) : string := if pretty then newline +:+ blanks n else EmptyString.

Definition quote (s : string) : string :=
  String (chr 0x22) (escape_text s +:+ String (chr 0x22) EmptyString).

Definition float_text (x : spec_float) : string :=
  match x with
  | S754_zero _ | S754_finite _ _ _ => default EmptyString (to_chars x)
  | _ => "null"
  end.

(** Texts separated by commas. *)
Fixpoint commas (l : list string) : string :=
  match l with
  | [] => EmptyString
  | [t] => t
  | t :: l => t +:+ "," +:+ commas l
  end.

(** The text of a value. *)
Fixpoint json_show (pretty : bool) (step cur : Z) (j : json) : string :=
  let next := u32 (cur + step) in
  let inner := if pretty then next else cur in
  match j with
  | JNull => "null"
  | JBool b => if b then "true" else "false"
  | JUnsigned n | JInteger n => to_string n
  | JFloat x => float_text x
  | JString s => quote s
  | JArray [] => "[]"
  | JArray l =>
      "[" +:+ commas (map (fun v => line pretty next +:+ json_show pretty step inner v) l)
      +:+ line pretty cur +:+ "]"
  | JObject [] => "{}"
  | JObject m =>
      "{" +:+ commas (map (fun '(k, v) => line pretty next +:+ quote k +:+
                             (if pretty then ": " else ":") +:+ json_show pretty step inner v) m)
      +:+ line pretty cur +:+ "}"
  end.

(** Values whose integers and doubles have their types. *)
Fixpoint json_sized (j : json) : bool :=
  match j with
  | JUnsigned n => (0 <=? n) && (n <? 2 ^ 64)
  | JInteger n => (- 2 ^ 63 <=? n) && (n <? 2 ^ 63)
  | JFloat x => binary64 x
  | JArray l => forallb json_sized l
  | JObject m => forallb (fun kv => json_sized kv.2) m
  | _ => true
  end.

(** The indentation is blanks, at least 512 of them; nothing was overrun. *)
Definition steady (s : serializer) : Prop :=
  overrun s = false /\ (512 <= String.length (indent_string s))%nat /\
  indent_string s = str_repeat (String.length (indent_string s)) " ".

Definition indent_length (s : serializer) : Z := Z.of_nat (String.length (indent_string s)).

(** From [s], [text] is written, or type_error 316 raised. *)
Definition writes (s : serializer) (r : result serializer) (ok : bool) (text : string) : Prop :=
  if ok then exists s', r = Ok s' /\ o s' = o s +:+ text /\ steady s' /\ indent_length s <= indent_length s'
  else raises_316 r.

Lemma writes_write s text : steady s -> writes s (Ok (write text s)) true text.
Proof. intros H. exists (write text s). split_and!; try done. Qed.

Lemma writes_bind s r f ok1 ok2 t1 t2 :
  writes s r ok1 t1 ->
  (forall s', o s' = o s +:+ t1 -> steady s' -> indent_length s <= indent_length s' ->
     writes s' (f s') ok2 t2) ->
  writes s (rbind r f) (ok1 && ok2) (t1 +:+ t2).
Proof.
  destruct ok1; cbn [andb writes].
  - intros (s1 & -> & H1 & H2 & H3) Hf. specialize (Hf s1 H1 H2 H3). cbn [rbind]. unfold writes in *.
    destruct ok2; [|done]. destruct Hf as (s2 & -> & H4 & H5 & H6). exists s2.
    split_and!; [done| |done|lia]. by rewrite H4, H1, str_app_assoc.
  - intros H _. by apply bind_316.
Qed.

Lemma writes_after s s1 r ok t1 t2 :
  o s1 = o s +:+ t1 -> indent_length s <= indent_length s1 -> writes s1 r ok t2 -> writes s r ok (t1 +:+ t2).
Proof.
  intros H1 H2. unfold writes. destruct ok; [|done]. intros (s2 & -> & H3 & H4 & H5). exists s2.
  split_and!; [done| |done|lia]. by rewrite H3, H1, str_app_assoc.
Qed.

Lemma writes_dump_escaped str s : steady s -> writes s (dump_escaped str s) (utf8 str) (escape_text str).
Proof.
  intros H. pose proof (dump_escaped_spec str s) as E. unfold writes. destruct (utf8 str); [|done].
  rewrite E. by apply writes_write.
Qed.

Lemma writes_quote str s :
  steady s ->
  writes s (let! s := dump_escaped str (write (String (chr 0x22) EmptyString) s) in
            Ok (write (String (chr 0x22) EmptyString) s)) (utf8 str) (quote str).
Proof.
  intros H. replace (utf8 str) with (utf8 str && true) by apply andb_true_r.
  apply (writes_after s (write (String (chr 0x22) EmptyString) s) _ _ (String (chr 0x22) EmptyString)); [done|done|].
  apply writes_bind; [by apply writes_dump_escaped|]. intros s' _ Hs' _. by apply writes_write.
Qed.

Lemma writes_key k colon s :
  steady s -> writes s (dump_key k colon s) (utf8 k) (quote k +:+ colon).
Proof.
  intros H. unfold dump_key, quote. replace (utf8 k) with (utf8 k && true) by apply andb_true_r.
  apply (writes_after s (write (String (chr 0x22) EmptyString) s) _ _ (String (chr 0x22) EmptyString)); [done|done|].
  rewrite str_app_assoc. apply writes_bind; [by apply writes_dump_escaped|].
  intros s' _ Hs' _. apply (writes_write s' (String (chr 0x22) colon) Hs').
Qed.

Lemma str_take_repeat n m : (n <= m)%nat -> str_take n (str_repeat m " ") = str_repeat n " ".
Proof. revert m. induction n as [|n IH]; intros [|m] H; simpl; try done; [lia|]. f_equal. apply IH. lia. Qed.

Lemma str_repeat_app n m c : str_repeat n c +:+ str_repeat m c = str_repeat (n + m) c.
Proof. induction n as [|n IH]; simpl; [done|]. by rewrite IH. Qed.

(** The indentation of a line never exceeds the blanks there are. *)
Lemma write_indent_steady n s :
  steady s -> n <= indent_length s ->
  steady (write_indent n s) /\ o (write_indent n s) = o s +:+ blanks n /\
  indent_length (write_indent n s) = indent_length s.
Proof.
  intros (H1 & H2 & H3) Hn. unfold indent_length in *. split_and!.
  - split_and!; [|done..]. cbn. rewrite H1. apply Z.ltb_ge. lia.
  - cbn. rewrite H3, str_take_repeat by lia. done.
  - done.
Qed.

Lemma grow_indent_steady n s :
  steady s -> n <= 2 * indent_length s ->
  steady (grow_indent n s) /\ o (grow_indent n s) = o s /\
  n <= indent_length (grow_indent n s) /\ indent_length s <= indent_length (grow_indent n s).
Proof.
  intros (H1 & H2 & H3) Hn. unfold grow_indent, indent_length in *. cbv zeta.
  destruct (Z.ltb_spec (Z.of_nat (String.length (indent_string s))) n); [|done].
  unfold steady. cbn [o indent_string overrun]. rewrite str_length_app, str_length_repeat.
  split_and!; [done|lia| |done|lia|lia]. rewrite H3 at 1. apply str_repeat_app.
Qed.

(** *** The loops over elements and members *)

Fixpoint joined (sep : string) (l : list string) : string :=
  match l with
  | [] => EmptyString
  | [t] => t
  | t :: l => t +:+ sep +:+ joined sep l
  end.

Lemma joined_commas nl l :
  l <> [] -> commas (map (fun t => nl +:+ t) l) = nl +:+ joined ("," +:+ nl) l.
Proof.
  intros Hl. induction l as [|t l IH]; [done|]. destruct l as [|t' l]; [done|].
  change (joined ("," +:+ nl) (t :: t' :: l))
    with (t +:+ ("," +:+ nl) +:+ joined ("," +:+ nl) (t' :: l)).
  change (commas (map (fun t => nl +:+ t) (t :: t' :: l)))
    with ((nl +:+ t) +:+ "," +:+ commas (map (fun t => nl +:+ t) (t' :: l))).
  rewrite IH by done. by rewrite !str_app_assoc.
Qed.

Section loops.
Context (pre : serializer -> serializer) (sep ind : string) (bound : Z).
Hypothesis pre_spec : forall s, steady s -> bound <= indent_length s ->
  steady (pre s) /\ o (pre s) = o s +:+ ind /\ indent_length (pre s) = indent_length s.

Section items.
Context {A : Type} (item : A -> serializer -> result serializer) (ok : A -> bool) (text : A -> string).

Definition items_loop := fix go (l : list A) (s : serializer) : result serializer :=
  match l with
  | [] => Ok s
  | v :: l' =>
      let! s := item v (pre s) in
      match l' with [] => Ok s | _ => go l' (write sep s) end
  end.

Lemma items_loop_writes l s :
  Forall (fun v => forall s, steady s -> bound <= indent_length s -> writes s (item v s) (ok v) (text v)) l ->
  l <> [] -> steady s -> bound <= indent_length s ->
  writes s (items_loop l s) (forallb ok l) (joined sep (map (fun v => ind +:+ text v) l)).
Proof.
  intros Hl. revert s. induction Hl as [|v l Hv _ IH]; [done|]. intros s _ Hs Hb.
  destruct (pre_spec s Hs Hb) as (Hp & Ho & Hi). cbn [items_loop forallb map].
  assert (H1 : writes s (item v (pre s)) (ok v) (ind +:+ text v)).
  { eapply writes_after; [exact Ho|lia|]. apply Hv; [done|lia]. }
  destruct l as [|v' l].
  - cbn [map joined forallb]. rewrite <- (str_app_nil_r (ind +:+ text v)). apply writes_bind; [done|].
    intros s' Ho' Hs' _. exists s'. by rewrite str_app_nil_r.
  - cbn [joined]. apply writes_bind; [done|]. intros s' _ Hs' Hi'.
    apply (writes_after s' (write sep s')); [done|done|]. apply IH; [done|done|]. change (indent_length (write sep s')) with (indent_length s'). lia.
Qed.

End items.
End loops.

(** A member: its key, and its value. *)
Definition dump_member (colon : string) (d : json -> serializer -> result serializer)
    (kv : string * json) (s : serializer) : result serializer :=
  let '(k, v) := kv in let! s := dump_key k colon s in d v s.

Lemma dump_array v l p step cur s :
  dump p step cur (JArray (v :: l)) s =
  (let next := u32 (cur + step) in
   if p then
     let! s := items_loop (write_indent next) ("," +:+ newline) (dump true step next) (v :: l)
       (grow_indent next (write ("[" +:+ newline) s)) in
     Ok (write "]" (write_indent cur (write newline s)))
   else
     let! s := items_loop (fun s => s) "," (dump false step cur) (v :: l) (write "[" s) in
     Ok (write "]" s)).
Proof. reflexivity. Qed.

Lemma rbind_assoc {A B C} (r : result A) (f : A -> result B) (g : B -> result C) :
  rbind (rbind r f) g = rbind r (fun x => rbind (f x) g).
Proof. by destruct r. Qed.

Lemma members_loop_eq pre sep colon d m s :
  (fix members (m : list (string * json)) s :=
     match m with
     | [] => Ok s
     | (k, v) :: m' =>
         let! s := dump_key k colon (pre s) in
         let! s := d v s in
         match m' with [] => Ok s | _ => members m' (write sep s) end
     end) m s = items_loop pre sep (dump_member colon d) m s.
Proof.
  revert s. induction m as [|[k v] m IH]; intros s; [done|]. cbn [items_loop dump_member].
  rewrite rbind_assoc. destruct (dump_key k colon (pre s)) as [s1|e]; [cbn [rbind]|done].
  destruct (d v s1) as [s2|e]; [cbn [rbind]|done]. destruct m; [done|]. apply IH.
Qed.

Lemma dump_object kv m p step cur s :
  dump p step cur (JObject (kv :: m)) s =
  (let next := u32 (cur + step) in
   if p then
     let! s := items_loop (write_indent next) ("," +:+ newline) (dump_member ": " (dump true step next)) (kv :: m)
       (grow_indent next (write ("{" +:+ newline) s)) in
     Ok (write "}" (write_indent cur (write newline s)))
   else
     let! s := items_loop (fun s => s) "," (dump_member ":" (dump false step cur)) (kv :: m) (write "{" s) in
     Ok (write "}" s)).
Proof.
  cbv zeta. destruct p.
  - rewrite <- (members_loop_eq (write_indent (u32 (cur + step))) ("," +:+ newline) ": ").
    by destruct kv.
  - rewrite <- (members_loop_eq (fun s => s) "," ":"). by destruct kv.
Qed.

(** An array or an object that is not empty, between its brackets. *)
Lemma bracket_writes {A} (p : bool) (step cur : Z) (item : A -> serializer -> result serializer) ok text l open close s :
  let next := u32 (cur + step) in
  let inner := if p then next else cur in
  Forall (fun v => forall s, steady s -> inner <= indent_length s -> writes s (item v s) (ok v) (text v)) l ->
  l <> [] -> steady s -> 0 <= cur <= indent_length s -> 0 <= step <= 512 ->
  writes s
    (if p then
       let! s := items_loop (write_indent next) ("," +:+ newline) item l
         (grow_indent next (write (open +:+ newline) s)) in
       Ok (write close (write_indent cur (write newline s)))
     else
       let! s := items_loop (fun s => s) "," item l (write open s) in
       Ok (write close s))
    (forallb ok l)
    (open +:+ commas (map (fun v => line p next +:+ text v) l) +:+ line p cur +:+ close).
Proof.
  intros next inner Hl Hne Hs Hcur Hstep. replace (forallb ok l) with (forallb ok l && true) by apply andb_true_r.
  assert (Hmap : commas (map (fun v => line p next +:+ text v) l)
    = (if p then newline else "") +:+
      joined ("," +:+ if p then newline else "") (map (fun v => (if p then blanks next else "") +:+ text v) l)).
  { rewrite <- joined_commas by (by destruct l). rewrite map_map. f_equal. apply map_ext. intros v.
    rewrite <- str_app_assoc. by destruct p. }
  rewrite Hmap. destruct p.
  - assert (Hnext : next <= 2 * indent_length (write (open +:+ newline) s)).
    { change (indent_length (write (open +:+ newline) s)) with (indent_length s).
      assert (512 <= indent_length s) by (destruct Hs as (_ & ? & _); unfold indent_length; lia).
      assert (next <= cur + step) by (apply Z.mod_le; lia). lia. }
    destruct (grow_indent_steady next _ (ltac:(exact Hs) : steady (write (open +:+ newline) s)) Hnext) as (H1 & H2 & H3 & H4).
    change (indent_length (write (open +:+ newline) s)) with (indent_length s) in H4.
    set (s1 := grow_indent next (write (open +:+ newline) s)) in *.
    replace (open +:+ (newline +:+ joined ("," +:+ newline) (map (fun v => blanks next +:+ text v) l)) +:+
      line true cur +:+ close) with ((open +:+ newline) +:+
        (joined ("," +:+ newline) (map (fun v => blanks next +:+ text v) l) +:+ (line true cur +:+ close)))
      by (by rewrite !str_app_assoc).
    eapply writes_after; [exact H2|exact H4|]. apply writes_bind.
    + eapply items_loop_writes; [|exact Hl|done..]. intros s2 Hs2 Hb. apply write_indent_steady; done.
    + intros s2 _ Hs2 Hi2. exists (write close (write_indent cur (write newline s2))).
      destruct (write_indent_steady cur (write newline s2) Hs2) as (H5 & H6 & H7).
      { change (indent_length (write newline s2)) with (indent_length s2). lia. }
      split_and!; [done| |done|].
      * change (o (write close (write_indent cur (write newline s2))))
          with (o (write_indent cur (write newline s2)) +:+ close).
        rewrite H6. change (o (write newline s2)) with (o s2 +:+ newline).
        unfold line. by rewrite !str_app_assoc.
      * change (indent_length (write close (write_indent cur (write newline s2))))
          with (indent_length (write_indent cur (write newline s2))).
        rewrite H7. change (indent_length (write newline s2)) with (indent_length s2). lia.
  - apply (writes_after s (write open s)); [done|done|]. change ("" +:+ joined ("," +:+ "") (map (fun v => "" +:+ text v) l))
      with (joined "," (map (fun v => "" +:+ text v) l)). apply writes_bind.
    + eapply (items_loop_writes (fun s => s) "," "" cur); [|exact Hl|done|exact Hs|].
      * intros s2 Hs2 _. by rewrite str_app_nil_r.
      * change (indent_length (write open s)) with (indent_length s). lia.
    + intros s2 _ Hs2 _. by apply writes_write.
Qed.

Lemma dump_float_spec x s : binary64 x = true -> dump_float x s = write (float_text x) s.
Proof.
  intros Hx%to_chars_length.
  assert (H : forall text, (String.length text <= 37)%nat ->
    (Z.of_nat (length newNumberBuffer) <? Z.of_nat (String.length text)) = false).
  { intros text Ht. apply Z.ltb_ge. change (length newNumberBuffer) with 64%nat. lia. }
  unfold dump_float, float_text, write. destruct x; try done; by rewrite H, orb_false_r.
Qed.

(** What [dump] writes. *)
Theorem dump_writes p step (Hstep : 0 <= step <= 512) j : forall cur s,
  json_sized j = true -> steady s -> 0 <= cur <= indent_length s ->
  writes s (dump p step cur j s) (json_utf8 j) (json_show p step cur j).
Proof.
  induction j as [|b|n|n|x|str|l IH|m IH] using json_nested_ind; intros cur s Hz Hs Hcur.
  - by apply writes_write.
  - by apply writes_write.
  - cbn [dump]. cbn in Hz. bool_to_prop. rewrite dump_integer_spec by lia. by apply writes_write.
  - cbn [dump]. cbn in Hz. bool_to_prop. rewrite dump_integer_spec by lia. by apply writes_write.
  - change (dump p step cur (JFloat x) s) with (Ok (dump_float x s)). rewrite dump_float_spec by done.
    by apply writes_write.
  - by apply writes_quote.
  - destruct l as [|v l]; [by apply writes_write|]. rewrite dump_array.
    set (inner := if p then u32 (cur + step) else cur).
    pose proof (bracket_writes p step cur (dump p step inner) json_utf8 (json_show p step inner) (v :: l) "[" "]" s) as H.
    assert (Ht : json_show p step cur (JArray (v :: l)) =
      "[" +:+ commas (map (fun v => line p (u32 (cur + step)) +:+ json_show p step inner v) (v :: l))
      +:+ line p cur +:+ "]") by done.
    rewrite Ht. clear Ht. cbv zeta in H. fold inner in H. destruct p; (apply H; [|done..]).
    all: cbn [json_sized] in Hz; rewrite forallb_forall in Hz; rewrite Forall_forall in IH |- *; intros w Hw s2 Hs2 Hi2.
    all: apply IH; [done|by apply Hz, list_elem_of_In|done|]; split; [|exact Hi2].
    all: unfold inner; first [lia|apply Z.mod_pos_bound; lia].
  - destruct m as [|kv m]; [by apply writes_write|]. rewrite dump_object.
    set (inner := if p then u32 (cur + step) else cur).
    set (colon := if p then ": " else ":").
    assert (Ht : json_show p step cur (JObject (kv :: m)) =
      "{" +:+ commas (map (fun kv => line p (u32 (cur + step)) +:+ (quote kv.1 +:+ colon +:+ json_show p step inner kv.2)) (kv :: m))
      +:+ line p cur +:+ "}").
    { cbn [json_show]. do 3 f_equal. apply map_ext. by intros [k v]. }
    rewrite Ht. replace (json_utf8 (JObject (kv :: m))) with (forallb (fun kv => utf8 kv.1 && json_utf8 kv.2) (kv :: m)) by done.
    pose proof (bracket_writes p step cur (dump_member colon (dump p step inner)) (fun kv => utf8 kv.1 && json_utf8 kv.2)
      (fun kv => quote kv.1 +:+ colon +:+ json_show p step inner kv.2) (kv :: m) "{" "}" s) as H.
    cbv zeta in H. fold inner in H. unfold colon in *. destruct p; (apply H; [|done..]).
    all: cbn [json_sized] in Hz; rewrite forallb_forall in Hz; rewrite Forall_forall in IH |- *; intros [k v] Hw s2 Hs2 Hi2.
    all: cbn [dump_member fst snd]; rewrite <- (str_app_assoc (quote k)).
    all: apply writes_bind; [by apply writes_key|]; intros s3 _ Hs3 Hi3.
    all: apply (IH (k, v) Hw); [by apply (Hz (k, v)), list_elem_of_In|done|]; split; [|lia].
    all: unfold inner; first [lia|apply Z.mod_pos_bound; lia].
Qed.

(** *** The text of [j.dump(indent)] *)

Definition show_text (indent : option Z) (j : json) : string :=
  match indent with
  | Some n => if 0 <=? n then json_show true n 0 j else json_show false 0 0 j
  | None => json_show false 0 0 j
  end.

Lemma steady_new : steady newSerializer.
Proof. by split_and!; [|cbn; lia|]. Qed.

Lemma dump_serializer_writes indent j :
  indent_ok indent = true -> json_sized j = true ->
  writes newSerializer (dump_serializer indent j) (json_utf8 j) (show_text indent j).
Proof.
  intros Hi Hz. pose proof steady_new as Hs.
  assert (Hcur : 0 <= 0 <= indent_length newSerializer) by (split; by apply Z.leb_le).
  unfold dump_serializer, show_text, indent_ok in *.
  destruct indent as [n|]; [apply Z.leb_le in Hi; destruct (Z.leb_spec 0 n)|];
    (apply dump_writes; [lia|done..]).
Qed.

Lemma dump_exact (indent : option Z) (j : json) :
  indent_ok indent = true -> json_sized j = true ->
  if json_utf8 j
  then nlohmann_dump indent j = Ok (show_text indent j) /\
       exists s, dump_serializer indent j = Ok s /\ overrun s = false
  else raises_316 (nlohmann_dump indent j).
Proof.
  intros Hi Hz. pose proof (dump_serializer_writes indent j Hi Hz) as H. unfold writes, nlohmann_dump in *.
  destruct (json_utf8 j); [|by apply bind_316]. destruct H as (s & -> & Ho & (Hov & _) & _).
  cbn [rbind]. rewrite Ho. split; [done|by exists s].
Qed.

(** ** Properties *)

(** C29: a value whose strings are UTF-8, whose integers are 64-bit and whose floats
    are doubles is printed as its text, for indentations up to the 512 blanks the
    printer starts with. No write goes past string_buffer or, for integers and
    doubles, past the 64 bytes of number_buffer, and no read past indent_string. The
    text of a finite double is the one Grisu2 and format_buffer give (that it reads
    back as the same double is json_roundtrip). A value with a string that is not
    UTF-8 raises type_error 316, with an ASCII text. *)
Theorem printing_exact (indent : option Z) (j : json) :
  indent_ok indent = true -> json_sized j = true ->
  if json_utf8 j
  then nlohmann_dump indent j = Ok (show_text indent j) /\
       exists s, dump_serializer indent j = Ok s /\ overrun s = false
  else raises_316 (nlohmann_dump indent j).
Proof. apply dump_exact. Qed.

(** The witness prints -2.2250738585072014e-308, whose 24 bytes are the most the
    buffer has to hold. *)
Lemma printing_exact_witness :
  nlohmann_dump (Some 2) (JArray [JInteger (-7); JFloat (S754_finite true 4503599627370496 (-1074)); JNull]) =
  Ok (show_text (Some 2) (JArray [JInteger (-7); JFloat (S754_finite true 4503599627370496 (-1074)); JNull])).
Proof.
  refine (proj1 (printing_exact (Some 2)
    (JArray [JInteger (-7); JFloat (S754_finite true 4503599627370496 (-1074)); JNull]) _ _)); reflexivity.
Defined.
