(* ===== verification/JsonFloatText.v ===== *)
(** * JsonFloatText: the text of a double reads back as the double

    [layout] is what [format_buffer] can write: a whole part, a fraction and an
    exponent. Such a text is a number of the grammar, and strtod reads its digits
    and exponent; with [grisu2_near] and [round_ratio_near] the double that was
    printed is the one that is read: [float_reads]. *)

From Stdlib Require Import SpecFloat.
From S2P Require Import Prelude Json Strtod StrtodFacts JsonLexer JsonGrammar JsonParser JsonFloat JsonFloatFacts JsonPrinter.
From S2P Require Import JsonPrinterFacts.
#[local] Open Scope Z_scope.

(** ** Layouts *)

Record layout := mkLayout { whole : string; frac : string; expo : option (bool * string) }.

Definition frac_text (w : string) : string := match w with EmptyString => EmptyString | _ => "." +:+ w end.
Definition expo_text (x : option (bool * string)) : string :=
  match x with None => EmptyString | Some (neg, w) => "e" +:+ (if neg then "-" else "+") +:+ w end.
Definition layout_text (l : layout) : string := whole l +:+ frac_text (frac l) +:+ expo_text (expo l).

Definition expo_value (x : option (bool * string)) : Z :=
  match x with None => 0 | Some (neg, w) => if neg then - dval 0 w else dval 0 w end.

(** A layout with a point or an exponent, which makes the number a float. *)
Definition layout_ok (l : layout) : Prop :=
  (whole l = "0" \/ number_text (whole l)) /\ str_forallb is_digit (frac l) = true /\
  match expo l with
  | None => frac l <> EmptyString
  | Some (_, w) => str_forallb is_digit w = true /\ w <> EmptyString
  end.

Definition sign_text (neg : bool) : string := if neg then "-" else EmptyString.

(** ** Scanning *)

Definition between (st : label) : Prop :=
  match st with scan_number_zero | scan_number_any1 | scan_number_decimal2 | scan_number_any2 => True | _ => False end.

Lemma run_stop st ty r : between st -> stops r = true -> run_label st ty r = Some (EmptyString, ty, r).
Proof.
  intros Hst Hr. destruct r as [|c r]; [by destruct st|]. cbn in Hr.
  apply andb_prop in Hr as [[H1%negb_true_iff H2%negb_true_iff]%andb_prop H3%negb_true_iff].
  assert (H4 : (code c =? code ".") = false).
  { apply Z.eqb_neq. intros E. apply (f_equal chr) in E. rewrite !chr_code in E. by subst c. }
  change (digit_in (code c) 48 57 = false) in H1.
  destruct st; try done; cbn [run_label branch_of type_at]; by rewrite ?H1, ?H3, ?H4.
Qed.

(** A byte that is added. *)
Lemma run_goto st st' ty c s :
  branch_of st (code c) = goto st' ->
  run_label st ty (String c s) = '(w, ty, r) ← run_label st' (type_at st ty) s; Some (String c w, ty, r).
Proof. intros H. cbn [run_label]. by rewrite H. Qed.

Lemma run_digits st ty w r :
  st = scan_number_any1 \/ st = scan_number_decimal2 \/ st = scan_number_any2 -> str_forallb is_digit w = true ->
  run_label st ty (w +:+ r) = '(w', ty', r') ← run_label st ty r; Some (w +:+ w', ty', r').
Proof.
  intros Hst. induction w as [|c w IH]; intros Hw.
  { cbn [String.append]. by destruct (run_label st ty r) as [[[? ?] ?]|]. }
  cbn [str_forallb] in Hw. apply andb_prop in Hw as [Hc Hw]. change (digit_in (code c) 48 57 = true) in Hc.
  specialize (IH Hw). cbn [String.append run_label].
  assert (branch_of st (code c) = goto st) as ->.
  { destruct Hst as [->|[->| ->]]; cbn [branch_of]; by rewrite Hc. }
  assert (type_at st ty = ty) as -> by (by destruct Hst as [->|[->| ->]]).
  rewrite IH. by destruct (run_label st ty r) as [[[? ?] ?]|].
Qed.

(** The first digit of a run enters its label. *)
Lemma run_first st st' ty c w r :
  st' = scan_number_decimal2 \/ st' = scan_number_any2 -> type_at st ty = token_type.value_float ->
  branch_of st (code c) = goto st' -> str_forallb is_digit (String c w) = true ->
  run_label st ty (String c w +:+ r) =
    '(w', ty', r') ← run_label st' token_type.value_float r; Some (String c w +:+ w', ty', r').
Proof.
  intros Hst Hty Hb Hw. cbn [str_forallb] in Hw. apply andb_prop in Hw as [_ Hw].
  cbn [String.append run_label]. rewrite Hty, Hb, run_digits; [|tauto|done].
  by destruct (run_label st' _ r) as [[[? ?] ?]|].
Qed.

Definition final_type (w : string) (x : option (bool * string)) (ty : token) : token :=
  match w, x with EmptyString, None => ty | _, _ => token_type.value_float end.

Lemma run_expo st ty x r :
  between st -> st <> scan_number_any2 -> stops r = true ->
  match x with None => True | Some (_, w) => str_forallb is_digit w = true /\ w <> EmptyString end ->
  run_label st ty (expo_text x +:+ r) = Some (expo_text x, final_type EmptyString x ty, r).
Proof.
  intros Hst Hne Hr Hx. destruct x as [[neg w]|]; [|by apply run_stop]. destruct Hx as [Hw Hw0].
  destruct w as [|d w]; [done|]. assert (Hd : digit_in (code d) 48 57 = true) by (cbn in Hw; by apply andb_prop in Hw as [? _]).
  assert (He : branch_of st (code "e") = goto scan_number_exponent) by (by destruct st).
  assert (Hrun : run_label scan_number_sign token_type.value_float (String d w +:+ r) =
    Some (String d w, token_type.value_float, r)).
  { rewrite (run_first _ scan_number_any2); [|tauto|done|by cbn [branch_of]; rewrite Hd|done].
    rewrite run_stop by done. cbn [mbind option_bind]. by rewrite str_app_nil_r. }
  change (expo_text (Some (neg, String d w)) +:+ r) with (String "e" (((if neg then "-" else "+") +:+ String d w) +:+ r)).
  rewrite (run_goto _ scan_number_exponent), str_app_assoc by done.
  assert (Hsign : run_label scan_number_exponent (type_at st ty) ((if neg then "-" else "+") +:+ String d w +:+ r) =
    Some ((if neg then "-" else "+") +:+ String d w, token_type.value_float, r)); [|by rewrite Hsign].
  destruct neg; cbn [String.append] in *; rewrite (run_goto _ scan_number_sign) by done; cbn [type_at]; by rewrite Hrun.
Qed.

Lemma run_frac st ty w x r :
  st = scan_number_zero \/ st = scan_number_any1 -> str_forallb is_digit w = true -> stops r = true ->
  match x with None => True | Some (_, w) => str_forallb is_digit w = true /\ w <> EmptyString end ->
  run_label st ty (frac_text w +:+ expo_text x +:+ r) = Some (frac_text w +:+ expo_text x, final_type w x ty, r).
Proof.
  intros Hst Hw Hr Hx. destruct w as [|d w].
  { cbn [frac_text String.append]. apply run_expo; [by destruct Hst as [-> | ->]|by destruct Hst as [-> | ->]|done|done]. }
  change ((frac_text (String d w) +:+ expo_text x +:+ r)) with (String "." (String d w +:+ expo_text x +:+ r)).
  rewrite (run_goto _ scan_number_decimal1) by (by destruct Hst as [-> | ->]).
  assert (Hd : digit_in (code d) 48 57 = true) by (cbn in Hw; by apply andb_prop in Hw as [? _]).
  rewrite (run_first _ scan_number_decimal2) by (tauto || done || by cbn [branch_of]; rewrite Hd).
  rewrite run_expo by done. cbn [mbind option_bind]. by destruct x as [[[] ?]|].
Qed.

Lemma number_text_first w :
  number_text w -> exists c s, w = String c s /\ is_digit c = true /\ c <> "0"%char /\ str_forallb is_digit s = true.
Proof.
  intros [Hw Hc]. destruct w as [|c s]; [done|]. cbn [str_forallb] in Hw. apply andb_prop in Hw as [Hd Hs].
  by exists c, s.
Qed.

Lemma run_layout l ty r :
  layout_ok l -> stops r = true ->
  exists c s, layout_text l = String c s /\ is_digit c = true /\
    run_label (if Ascii.eqb c "0" then scan_number_zero else scan_number_any1) ty (s +:+ r) =
      Some (s, token_type.value_float, r).
Proof.
  intros (Hw & Hf & Hx) Hr. destruct l as [w fr x]. unfold layout_text. cbn [whole frac expo] in *.
  assert (Hx' : match x with None => True | Some (_, w) => str_forallb is_digit w = true /\ w <> EmptyString end)
    by (by destruct x as [[? ?]|]).
  assert (Hty : final_type fr x ty = token_type.value_float) by (by destruct fr, x as [[? ?]|]).
  destruct Hw as [->|(c & s & -> & Hc & Hc0 & Hs)%number_text_first].
  - exists "0"%char, (frac_text fr +:+ expo_text x). split_and!; [done|done|]. rewrite str_app_assoc.
    change (Ascii.eqb "0" "0") with true. cbv iota. rewrite run_frac by (tauto || done). by rewrite Hty.
  - exists c, (s +:+ frac_text fr +:+ expo_text x). split_and!; [done|done|]. rewrite !str_app_assoc.
    destruct (Ascii.eqb_spec c "0"); [done|]. rewrite run_digits by tauto. rewrite run_frac by (tauto || done).
    by rewrite Hty.
Qed.

(** A layout is a number of the grammar. *)
Lemma layout_lexes neg l r :
  layout_ok l -> stops r = true ->
  lexes ((sign_text neg +:+ layout_text l) +:+ r) (TFloat (strtod (sign_text neg +:+ layout_text l))) r.
Proof.
  intros Hl Hr. destruct neg; cbn [sign_text].
  - destruct (run_layout l token_type.value_integer r Hl Hr) as (c & s & -> & Hc & Hrun).
    change (TFloat (strtod _)) with (number_tok (String "-" (String c s)) token_type.value_float).
    cbn [String.append]. apply lex_number; [done|]. change (first_label "-") with scan_number_minus.
    rewrite (run_goto _ (if Ascii.eqb c "0" then scan_number_zero else scan_number_any1)); [cbn [type_at]; by rewrite Hrun|].
    cbn [branch_of]. destruct (Ascii.eqb_spec c "0") as [->|Hc0]; [done|].
    destruct (Z.eqb_spec (code c) (code "0")) as [E|E].
    { apply (f_equal chr) in E. by rewrite !chr_code in E. }
    change (code "0") with 48 in E. unfold is_digit, digit_in in *.
    by destruct (Z.leb_spec 49 (code c)), (Z.leb_spec (code c) 57); cbn [andb]; try lia.
  - destruct (run_layout l token_type.value_unsigned r Hl Hr) as (c & s & -> & Hc & Hrun).
    change (TFloat (strtod _)) with (number_tok (String c s) token_type.value_float).
    cbn [String.append]. apply lex_number; [by rewrite Hc, orb_true_r|].
    unfold first_label. destruct (Ascii.eqb_spec c "-") as [->|_]; [done|exact Hrun].
Qed.

(** ** Reading *)

Lemma digit_run_all acc n w r :
  str_forallb is_digit w = true -> match r with String c _ => is_digit c = false | EmptyString => True end ->
  digit_run acc n (w +:+ r) = (dval acc w, n + Z.of_nat (String.length w), r).
Proof.
  revert acc n. induction w as [|c w IH]; intros acc n Hw Hr.
  - cbn. rewrite Z.add_0_r. destruct r as [|c r]; [done|]. cbn [digit_run]. by rewrite Hr.
  - cbn [str_forallb] in Hw. apply andb_prop in Hw as [Hc Hw]. cbn [String.append digit_run dval String.length].
    rewrite Hc, IH by done. f_equal. f_equal. lia.
Qed.

Lemma exponent_layout x :
  match x with None => True | Some (_, w) => str_forallb is_digit w = true /\ w <> EmptyString end ->
  exponent (expo_text x) = expo_value x.
Proof.
  destruct x as [[neg w]|]; [|done]. intros [Hw _]. cbn [expo_text expo_value].
  change (exponent ("e" +:+ (if neg then "-" else "+") +:+ w)) with
    (let '(neg, s') := strip_sign ((if neg then "-" else "+") +:+ w) in
     let '(e, _, _) := digit_run 0 0 s' in if (neg : bool) then - e else e).
  assert (strip_sign ((if neg then "-" else "+") +:+ w) = (neg, w)) as -> by (by destruct neg).
  rewrite <- (str_app_nil_r w), digit_run_all, str_app_nil_r by done. by destruct neg.
Qed.

Lemma read_layout neg l :
  layout_ok l ->
  read_decimal (sign_text neg +:+ layout_text l) =
    mkDecimal neg (dval 0 (whole l +:+ frac l)) (expo_value (expo l) - Z.of_nat (String.length (frac l))).
Proof.
  intros (Hw & Hf & Hx). destruct l as [w fr x]. cbn [whole frac expo] in *.
  assert (Hx' : match x with None => True | Some (_, w) => str_forallb is_digit w = true /\ w <> EmptyString end)
    by (by destruct x as [[? ?]|]).
  assert (Hall : str_forallb is_digit w = true) by (destruct Hw as [->|[? _]]; done).
  assert (Hstrip : strip_sign (skip_spaces (sign_text neg +:+ layout_text (mkLayout w fr x))) =
    (neg, w +:+ frac_text fr +:+ expo_text x)).
  { destruct neg; [done|]. unfold layout_text. cbn [sign_text String.append whole frac expo].
    destruct w as [|c w]; [by destruct Hw as [|[_ ?]]|]. cbn [str_forallb] in Hall. apply andb_prop in Hall as [Hc _].
    assert (Hs : is_space c = false) by (unfold is_space, is_digit in *; lia).
    cbn [String.append skip_spaces]. rewrite Hs. cbn [strip_sign].
    destruct (Ascii.eqb_spec c "-") as [->|_]; [done|]. by destruct (Ascii.eqb_spec c "+") as [->|_]. }
  unfold read_decimal. rewrite Hstrip, digit_run_all; [|done|by destruct fr as [|d fr], x as [[? ?]|]].
  destruct fr as [|d fr].
  - cbn [frac_text String.append]. rewrite str_app_nil_r.
    assert (fraction (dval 0 w) (expo_text x) = (dval 0 w, 0, expo_text x)) as -> by (by destruct x as [[? ?]|]).
    by rewrite exponent_layout.
  - change (fraction (dval 0 w) (frac_text (String d fr) +:+ expo_text x)) with
      (digit_run (dval 0 w) 0 (String d fr +:+ expo_text x)).
    rewrite digit_run_all by (done || by destruct x as [[? ?]|]). by rewrite exponent_layout, dval_app.
Qed.

(** ** Writing *)

Lemma zeros_digits n : str_forallb is_digit (zeros n) = true.
Proof. unfold zeros. by induction (Z.to_nat n). Qed.

Lemma dval_zeros acc n : 0 <= n -> dval acc (zeros n) = acc * 10 ^ n.
Proof.
  intros Hn. rewrite <- (Z2Nat.id n) at 2 by done. unfold zeros. generalize (Z.to_nat n). clear. intros n.
  revert acc. induction n as [|n IH]; intros acc; cbn [str_repeat dval]; [lia|].
  rewrite IH, Nat2Z.inj_succ, Z.pow_succ_r by lia. change (code "0") with 48. ring.
Qed.

Lemma append_exponent_spec x :
  Z.abs x < 1000 ->
  exists w, append_exponent x = (if x <? 0 then "-" else "+") +:+ w /\ str_forallb is_digit w = true /\
    w <> EmptyString /\ dval 0 w = Z.abs x.
Proof.
  intros Hx. unfold append_exponent.
  set (k := if x <? 0 then - x else x). assert (Ek : k = Z.abs x) by (subst k; case_if; lia).
  set (w := if k <? 10 then String "0" (String (chr (48 + k)) EmptyString)
    else if k <? 100 then String (chr (48 + k / 10)) (String (chr (48 + k mod 10)) EmptyString)
    else String (chr (48 + k / 100)) (String (chr (48 + k mod 100 / 10)) (String (chr (48 + k mod 100 mod 10)) EmptyString))).
  exists w. split; [subst w k; by destruct (x <? 0)|]. rewrite <- Ek in *. clearbody k. subst w.
  destruct (Z.ltb_spec k 10); [|destruct (Z.ltb_spec k 100)]; cbn [str_forallb dval];
    rewrite ?is_digit_chr, ?code_digit by (Z.to_euclidean_division_equations; lia);
    (split_and!; [done|done|change (code "0") with 48; Z.to_euclidean_division_equations; lia]).
Qed.

Lemma append_exponent_layout x :
  Z.abs x < 1000 ->
  exists y, "e" +:+ append_exponent x = expo_text (Some y) /\ expo_value (Some y) = x /\
    str_forallb is_digit y.2 = true /\ y.2 <> EmptyString.
Proof.
  intros Hx. destruct (append_exponent_spec x Hx) as (w & -> & H1 & H2 & H3). exists (x <? 0, w).
  split_and!; [done| |done|done]. cbn [expo_value]. rewrite H3. destruct (Z.ltb_spec x 0); lia.
Qed.

(** The layout of the digits [buf] with the exponent [t]: its value is that of the
    digits, with a zero more when the point comes after them. *)
Lemma format_layout buf t :
  number_text buf -> (String.length buf <= 30)%nat -> -344 <= t <= 309 ->
  exists l, layout_ok l /\ format_buffer buf t (-4) 15 = layout_text l /\
    let digits := dval 0 (whole l +:+ frac l) in
    let x := expo_value (expo l) - Z.of_nat (String.length (frac l)) in
    (digits = dval 0 buf /\ x = t) \/ (0 <= t /\ digits = dval 0 buf * 10 ^ (t + 1) /\ x = -1).
Proof.
  intros Hb Hl Ht. pose proof Hb as (c & s & Es & Hc & Hc0 & Hs)%number_text_first.
  assert (Hall : str_forallb is_digit buf = true) by (by destruct Hb).
  unfold format_buffer. set (k := Z.of_nat (String.length buf)).
  assert (Hk : 1 <= k <= 30) by (subst k buf; cbn in *; lia).
  destruct ((k <=? k + t) && (k + t <=? 15)) eqn:E1; [|destruct ((0 <? k + t) && (k + t <=? 15)) eqn:E2;
    [|destruct ((-4 <? k + t) && (k + t <=? 0)) eqn:E3; [|destruct (append_exponent_layout (k + t - 1)) as
      ([neg w] & Hw & Hx & Hd & Hd0); [lia|]; cbn [snd] in *; destruct (k =? 1) eqn:E4]]].
  - exists (mkLayout (buf +:+ zeros t) "0" None). unfold layout_ok; cbn [whole frac expo]. replace (k + t - k) with t by lia. split; [|split].
    + split_and!; [right|done|done]. split; [by rewrite str_forallb_app, Hall, zeros_digits|by subst buf].
    + unfold layout_text. cbn [whole frac expo]. by rewrite str_app_assoc.
    + right. rewrite !dval_app, dval_zeros, Z.pow_add_r by lia. split_and!; [lia| |done].
      cbn [dval]. change (code "0") with 48. lia.
  - exists (mkLayout (str_take (Z.to_nat (k + t)) buf) (str_drop (Z.to_nat (k + t)) buf) None).
    unfold layout_ok; cbn [whole frac expo]. rewrite str_take_drop.
    assert (Hlen : Z.of_nat (String.length (str_drop (Z.to_nat (k + t)) buf)) = - t).
    { pose proof (f_equal String.length (str_take_drop (Z.to_nat (k + t)) buf)) as H.
      rewrite str_length_app, str_length_take in H. lia. }
    assert (Hsplit := Hall). rewrite <- (str_take_drop (Z.to_nat (k + t)) buf), str_forallb_app in Hsplit.
    apply andb_prop in Hsplit as [Ha Hb']. split; [|split].
    + split_and!; [right|done|intros E; rewrite E in Hlen; cbn in Hlen; lia].
      split; [done|]. subst buf. destruct (Z.to_nat (k + t)) eqn:En; [lia|done].
    + unfold layout_text. cbn [whole frac expo expo_text]. rewrite str_app_nil_r.
      destruct (str_drop (Z.to_nat (k + t)) buf) eqn:Ed; [cbn in Hlen; lia|done].
    + left. rewrite Hlen. cbn [expo_value]. lia.
  - exists (mkLayout "0" (zeros (- (k + t)) +:+ buf) None). unfold layout_ok; cbn [whole frac expo]. split; [|split].
    + split_and!; [by left|by rewrite str_forallb_app, Hall, zeros_digits|].
      intros E. apply (f_equal String.length) in E. rewrite str_length_app in E. cbn in E. lia.
    + unfold layout_text. cbn [whole frac expo expo_text]. rewrite str_app_nil_r.
      destruct (zeros (- (k + t)) +:+ buf) eqn:Ed; [|done].
      apply (f_equal String.length) in Ed. rewrite str_length_app in Ed. cbn in Ed. lia.
    + left. rewrite str_length_app. unfold zeros at 2. rewrite str_length_repeat. cbn [expo_value]. split; [|lia].
      rewrite !dval_app, dval_zeros by lia. cbn [dval]. change (code "0") with 48. done.
  - exists (mkLayout buf EmptyString (Some (neg, w))). unfold layout_ok; cbn [whole frac expo]. split; [|split].
    + split_and!; [by right|done|done|done].
    + unfold layout_text. cbn [whole frac expo frac_text]. by rewrite Hw.
    + left. rewrite str_app_nil_r. split; [done|]. rewrite Hx. cbn. lia.
  - exists (mkLayout (str_take 1 buf) (str_drop 1 buf) (Some (neg, w))). unfold layout_ok; cbn [whole frac expo]. subst buf.
    assert (Hs0 : s <> EmptyString) by (intros ->; cbn in k; lia). split; [|split].
    + split_and!; [right|done|done|done]. split; [|done]. cbn [str_take str_forallb]. by rewrite Hc.
    + unfold layout_text. cbn [whole frac expo]. rewrite <- Hw. by destruct s.
    + left. rewrite str_take_drop. split; [done|]. rewrite Hx. subst k. cbn [str_drop String.length]. lia.
Qed.

(** ** The double that is read *)

Lemma ratio_near s m e0 V p q :
  binary64 (S754_finite s m e0) = true -> 0 < p -> 0 < q -> V * q = p * U10 ->
  lower_quarters (Z.pos m) e0 * 2 ^ (e0 - 2 + 1200) * U10 < V * U2 ->
  V * U2 < (4 * Z.pos m + 2) * 2 ^ (e0 - 2 + 1200) * U10 ->
  round_ratio s p q = S754_finite s m e0.
Proof.
  intros Hb Hp Hq HV H1 H2. assert (HU : 0 < U10) by (by apply Z.pow_pos_nonneg).
  assert (E : V * U2 * q = p * U2 * U10) by (transitivity (V * q * U2); [ring|rewrite HV; ring]).
  apply (round_ratio_near 1200); [done..| |]; fold U2; set (u := 2 ^ (e0 - 2 + 1200)) in *; clearbody u;
    apply (Z.mul_lt_mono_pos_r U10); try done; rewrite <- E.
  - apply (Z.mul_lt_mono_pos_r q) in H1; [|done]. lia.
  - apply (Z.mul_lt_mono_pos_r q) in H2; [|done]. lia.
Qed.

Lemma strtod_near s m e0 buf t str D x :
  binary64 (S754_finite s m e0) = true -> number_text buf -> -344 <= t <= 309 -> near (Z.pos m) e0 buf t ->
  read_decimal str = mkDecimal s D x ->
  (D = dval 0 buf /\ x = t) \/ (0 <= t /\ D = dval 0 buf * 10 ^ (t + 1) /\ x = -1) ->
  strtod str = S754_finite s m e0.
Proof.
  intros Hb Hbuf%number_text_pos Ht [H1 H2] Hr Hdx. unfold strtod. rewrite Hr. cbn [dec_digits dec_exp dec_sign].
  assert (HV : D * 10 ^ (x + 400) = dval 0 buf * 10 ^ (t + 400)).
  { destruct Hdx as [[-> ->]|(Ht0 & -> & ->)]; [done|]. rewrite <- Z.mul_assoc, <- Z.pow_add_r by lia. do 2 f_equal. lia. }
  assert (HD : 0 < D) by (destruct Hdx as [[-> _]|(? & -> & _)]; [done|apply Z.mul_pos_pos; [done|apply Z.pow_pos_nonneg; lia]]).
  assert (Hx : -344 <= x <= 309) by (destruct Hdx as [[_ ->]|(? & _ & ->)]; lia). clear Hdx. rewrite <- HV in H1, H2.
  pose proof (Z.log2_nonneg D).
  destruct (Z.eqb_spec D 0); [lia|]. destruct (Z.ltb_spec 400 x); [lia|]. destruct (Z.ltb_spec (x + Z.log2 D) (-400)); [lia|].
  assert (Hpow : forall n, 0 <= n -> 0 < 10 ^ n) by (intros; by apply Z.pow_pos_nonneg).
  destruct (Z.leb_spec 0 x); eapply (ratio_near s m e0 (D * 10 ^ (x + 400))); try done.
  - apply Z.mul_pos_pos; [done|by apply Hpow].
  - rewrite Z.pow_add_r by lia. unfold U10. lia.
  - apply Hpow. lia.
  - rewrite <- Z.mul_assoc, <- Z.pow_add_r by lia. do 2 f_equal. lia.
Qed.

Definition finite_double (x : spec_float) : bool := isfinite x && binary64 x.

(** The text of a double is that of a layout. *)
Lemma float_layout x :
  finite_double x = true ->
  exists neg l, layout_ok l /\ float_text x = sign_text neg +:+ layout_text l /\
    strtod (sign_text neg +:+ layout_text l) = x.
Proof.
  unfold finite_double. intros [Hf Hb]%andb_prop. destruct x as [s|s| |s m e0]; try done.
  - exists s, (mkLayout "0" "0" None). split_and!; [by split_and!; [left|..]|by destruct s|].
    unfold strtod. rewrite read_layout by (by split_and!; [left|..]). done.
  - destruct (grisu2_near m e0 Hb) as (buf & t & Hg & Hbuf & Hl & Ht & Hnear).
    destruct (format_layout buf t Hbuf Hl Ht) as (l & Hok & Htext & Hval). exists s, l. split_and!; [done| |].
    + unfold float_text, to_chars. rewrite Hg. cbn [mbind option_bind]. rewrite Htext. by destruct s.
    + eapply strtod_near; [done..|by apply read_layout|exact Hval].
Qed.

(** The text of a finite double is a float of the grammar, with the double's value. *)
Lemma float_reads x r :
  finite_double x = true -> stops r = true ->
  lexes (float_text x +:+ r) (TFloat x) r /\ scalar (TFloat x) = Some (JFloat x).
Proof.
  intros Hx Hr. split.
  - destruct (float_layout x Hx) as (neg & l & Hok & -> & <-). by apply layout_lexes.
  - unfold finite_double in Hx. apply andb_prop in Hx as [Hf _]. by destruct x.
Qed.
