(* ===== verification/JsonRoundtrip.v ===== *)
(** * JsonRoundtrip: the text of a value reads back as the value

    [show_reads]: what the printer writes, followed by anything that does not go
    on with a number, is a text of [json_norm j], the value up to the type of its
    integers. With the exactness of the parser and of the printer this is the
    round trip of [json::dump] and [json::parse]. *)

From S2P Require Import Prelude Json Strtod JsonLexer JsonGrammar JsonLexerFacts JsonFloat JsonPrinter.
From S2P Require Import JsonPrinterFacts JsonFloatText.
From Stdlib Require Import SpecFloat.
#[local] Open Scope Z_scope.

(** ** Numbers *)

Lemma digits_of_head v :
  0 < v -> exists c l, digits_of v = c :: l /\ is_digit c = true /\ c <> "0"%char /\
    Forall (fun c => is_digit c = true) l.
Proof.
  intros Hv. assert (H : forall n v, 0 < v < 10 ^ Z.of_nat (S n) -> exists c l, digits_of v = c :: l /\ is_digit c = true /\
    c <> "0"%char /\ Forall (fun c => is_digit c = true) l).
  { clear. induction n as [|n IH]; intros v Hv.
    - exists (chr (48 + v)), []. rewrite digits_of_small by lia. split_and!; [done| | |done].
      + unfold is_digit. rewrite code_chr by (unfold in_u; lia). lia.
      + intros E. apply (f_equal code) in E. rewrite code_chr in E by (unfold in_u; lia).
        change (code "0") with 48 in E. lia.
    - rewrite (Nat2Z.inj_succ (S n)), Z.pow_succ_r in Hv by lia.
      destruct (Z.ltb_spec v 10); [apply IH; split; [lia|]; eapply Z.lt_le_trans; [done|];
        rewrite Nat2Z.inj_succ, Z.pow_succ_r by lia; nia|].
      destruct (IH (v / 10)) as (c & l & E & H1 & H2 & H3).
      { split; [apply Z.div_str_pos; lia|apply Z.div_lt_upper_bound; lia]. }
      exists c, (l ++ [chr (48 + v mod 10)]). rewrite digits_of_step, E by done. split_and!; [done..|].
      apply Forall_app. split; [done|]. constructor; [|done].
      pose proof (Z.mod_pos_bound v 10 ltac:(lia)). unfold is_digit. rewrite code_chr by (unfold in_u; lia). lia. }
  apply (H (Z.to_nat v)). split; [done|]. rewrite Nat2Z.inj_succ, Z2Nat.id by lia.
  eapply Z.lt_le_trans; [apply (Z.pow_gt_lin_r 10); lia|]. apply Z.pow_le_mono_r; lia.
Qed.

Lemma to_string_head_pos v :
  0 < v -> exists c w, to_string v = String c w /\ is_digit c = true /\ c <> "0"%char /\
    str_forallb is_digit w = true.
Proof.
  intros Hv. destruct (digits_of_head v Hv) as (c & l & E & H1 & H2 & H3).
  exists c, (String.string_of_list_ascii l). split_and!; [|done..|].
  - rewrite <- (string_of_list_of (to_string v)). unfold digits_of in E. by rewrite E.
  - clear -H3. induction H3 as [|d l Hd _ IH]; [done|]. simpl. by rewrite Hd.
Qed.

(** A run of digits is read whole. *)
Lemma run_any1 w ty r :
  ty <> token_type.value_float ->
  str_forallb is_digit w = true -> stops r = true ->
  run_label scan_number_any1 ty (w +:+ r) = Some (w, ty, r).
Proof.
  intros Hty. induction w as [|c w IH]; intros Hw Hr.
  - cbn [String.append]. destruct r as [|c r]; [done|]. cbn [run_label branch_of type_at]. cbn in Hr.
    unfold digit_in, is_digit in *. apply andb_prop in Hr as [[H1%negb_true_iff H2%negb_true_iff]%andb_prop H3%negb_true_iff].
    rewrite H1, H3. destruct (Z.eqb_spec (code c) (code ".")) as [E|_]; [|done].
    apply (f_equal chr) in E. rewrite !chr_code in E. by subst c.
  - cbn [str_forallb] in Hw. apply andb_prop in Hw as [H1 H2]. cbn [String.append run_label branch_of type_at].
    change (digit_in (code c) 48 57) with (is_digit c). rewrite H1, IH by done. done.
Qed.

Lemma unsigned_reads n r :
  0 <= n < 2 ^ 64 -> stops r = true -> lexes (to_string n +:+ r) (TUnsigned n) r.
Proof.
  intros Hn Hr.
  assert (Htok : number_tok (to_string n) token_type.value_unsigned = TUnsigned n).
  { unfold number_tok, strtoull. rewrite read_int_to_string by lia. cbn [default from_option id].
    unfold ULLONG_MAX. destruct (Z.ltb_spec (2 ^ 64 - 1) (Z.abs n)); [lia|]. by rewrite wrapu_small by (unfold in_u; lia). }
  rewrite <- Htok. destruct (Z.eqb_spec n 0) as [->|].
  - change (to_string 0) with (String "0" EmptyString). cbn [String.append]. apply lex_number; [done|].
    change (first_label "0") with scan_number_zero. destruct r as [|c r]; [done|].
    cbn [run_label branch_of type_at]. cbn in Hr.
    apply andb_prop in Hr as [[_ H2%negb_true_iff]%andb_prop H3%negb_true_iff]. rewrite H3.
    destruct (Z.eqb_spec (code c) (code ".")) as [E|_]; [|done].
    apply (f_equal chr) in E. rewrite !chr_code in E. by subst c.
  - destruct (to_string_head_pos n) as (c & w & E & H1 & H2 & H3); [lia|]. rewrite E. cbn [String.append].
    apply lex_number; [by rewrite H1, orb_true_r|].
    assert (first_label c = scan_number_any1) as ->; [|by apply run_any1].
    unfold first_label. destruct (Ascii.eqb_spec c "-") as [->|_]; [done|]. by destruct (Ascii.eqb_spec c "0").
Qed.

Lemma negative_reads n r :
  - 2 ^ 63 <= n < 0 -> stops r = true -> lexes (to_string n +:+ r) (TInteger n) r.
Proof.
  intros Hn Hr. destruct (to_string_head_pos (- n)) as (c & w & E & H1 & H2 & H3); [lia|].
  assert (Es : to_string n = String "-" (String c w)).
  { destruct n as [|p|p]; try lia. rewrite <- E. done. }
  assert (Htok : number_tok (String "-" (String c w)) token_type.value_integer = TInteger n).
  { unfold number_tok, strtoll, read_int. cbn [skip_spaces strip_sign]. change (is_space "-") with false. cbv iota.
    cbn [strip_sign]. rewrite Ascii.eqb_refl. rewrite <- E, read_digits_to_string by lia.
    cbn. rewrite Z.opp_involutive. unfold LLONG_MIN, LLONG_MAX.
    destruct (Z.ltb_spec n (- 2 ^ 63)); [lia|]. by destruct (Z.ltb_spec (2 ^ 63 - 1) n); [lia|]. }
  rewrite Es, <- Htok. cbn [String.append]. apply lex_number; [done|].
  change (first_label "-") with scan_number_minus. cbn [run_label branch_of type_at].
  destruct (Z.eqb_spec (code c) (code "0")) as [Ec|_].
  { apply (f_equal chr) in Ec. rewrite !chr_code in Ec. by subst c. }
  assert (Hd : digit_in (code c) 49 57 = true).
  { unfold is_digit, digit_in in *. apply andb_true_iff. apply andb_prop in H1 as [?%Z.leb_le ?%Z.leb_le].
    assert (code c <> 48); [|split; apply Z.leb_le; lia]. intros E2. apply H2.
    rewrite <- (chr_code c), E2. done. }
  rewrite Hd. rewrite run_any1 by done. done.
Qed.

(** ** Strings *)

(** A sequence that is expected, and the text after it. *)
Lemma utf8_from_take pending s :
  Forall (fun r => 0x80 <= r.1) pending -> utf8_from pending s = true ->
  exists v s', s = v +:+ s' /\ utf8 s' = true /\ escape_text v = v /\
    forall rest, take_ranges pending (v +:+ rest) = Some (v, rest).
Proof.
  intros Hp. revert s. induction Hp as [|r pending Hr _ IH]; intros s Hs.
  - exists EmptyString, s. done.
  - destruct s as [|c s]; [done|]. cbn [utf8_from] in Hs. apply andb_prop in Hs as [Hc Hs].
    destruct (IH s Hs) as (v & s' & -> & Hs' & Hv & Ht). exists (String c v), s'.
    split_and!; [done|done| |].
    + cbn [escape_text]. rewrite escape_char_high, Hv; [done|]. unfold in_range in Hc.
      apply andb_prop in Hc as [?%Z.leb_le _]. lia.
    + intros rest. cbn [String.append take_ranges]. rewrite Hc, Ht. done.
Qed.

Lemma lead_ranges_high b pending : lead_ranges b = Some pending -> Forall (fun r => 0x80 <= r.1) pending.
Proof.
  unfold lead_ranges. intros H. repeat case_if_in H; try discriminate H; injection H as <-;
    repeat constructor; done.
Qed.

Lemma escape_text_app a b : escape_text (a +:+ b) = escape_text a +:+ escape_text b.
Proof. induction a as [|c a IH]; [done|]. cbn [String.append escape_text]. by rewrite IH, str_app_assoc. Qed.

(** The escape of an ASCII byte is read as that byte. *)
Lemma lex_escape_ascii c rest :
  code c < 0x80 -> lex_char (escape_char c +:+ rest) = Some (String c EmptyString, rest).
Proof.
  destruct c as [[] [] [] [] [] [] [] []]; intros H;
    first [exfalso; revert H; vm_compute; discriminate|reflexivity].
Qed.

Lemma string_reads s r c :
  code c = 34 -> utf8 s = true -> string_text (escape_text s +:+ String c r) s r.
Proof.
  intros Hc. remember (String.length s) as n eqn:Hn. revert s Hn.
  induction (lt_wf n) as [n _ IH]. intros s -> Hs. destruct s as [|d s]; [by constructor|].
  unfold utf8 in Hs. cbn [utf8_from] in Hs. destruct (lead_ranges (code d)) as [pending|] eqn:El; [|done].
  destruct (utf8_from_take pending s) as (v & s' & -> & Hs' & Hv & Ht); [by eapply lead_ranges_high|done|].
  assert (Hgo : string_text (escape_text s' +:+ String c r) s' r).
  { eapply IH; [|reflexivity|done]. simpl. rewrite str_length_app. lia. }
  change (String d (v +:+ s')) with (String d v +:+ s'). cbn [escape_text].
  change (escape_text (String d v +:+ s')) with (escape_char d +:+ escape_text (v +:+ s')).
  rewrite escape_text_app, Hv, !str_app_assoc. apply string_char with (s' := escape_text s' +:+ String c r); [|done].
  destruct (Z.ltb_spec (code d) 0x80) as [Hd|Hd].
  - assert (pending = []) as ->.
    { unfold lead_ranges in El. destruct (Z.ltb_spec (code d) 128); [by injection El as <-|lia]. }
    specialize (Ht EmptyString). cbn in Ht. injection Ht as <- _. cbn [String.append]. by apply lex_escape_ascii.
  - rewrite escape_char_high by done. cbn [String.append lex_char].
    destruct (Z.eqb_spec (code d) 34); [lia|].
    destruct (Ascii.eqb_spec d "\") as [->|_]; [by change (code "\") with 92 in Hd|].
    destruct (Z.ltb_spec (code d) 32); [lia|]. rewrite El. cbn [mbind option_bind]. by rewrite Ht.
Qed.

Lemma quote_reads s r : utf8 s = true -> lexes (quote s +:+ r) (TString s) r.
Proof.
  intros Hs. unfold quote. cbn [String.append]. apply lex_string; [done|]. rewrite str_app_assoc.
  by apply string_reads.
Qed.

(** ** Values *)

(** Blanks before a value. *)
Lemma lexes_blanks b s t r : str_forallb (fun c => is_blank (code c)) b = true -> lexes s t r -> lexes (b +:+ s) t r.
Proof.
  intros Hb H. induction b as [|c b IH]; [done|]. cbn [str_forallb] in Hb. apply andb_prop in Hb as [H1 H2].
  cbn [String.append]. constructor; auto.
Qed.

Lemma reads_from s s' v r : (forall t r', lexes s t r' -> lexes s' t r') -> reads s v r -> reads s' v r.
Proof.
  intros H Hr. inversion Hr; subst;
    [eapply read_scalar|eapply read_empty_array|eapply read_array|eapply read_empty_object|eapply read_object]; eauto.
Qed.

Lemma members_from s s' m r :
  (forall t r', lexes s t r' -> lexes s' t r') -> reads_members s m r -> reads_members s' m r.
Proof. intros H Hr. inversion Hr; subst; [eapply read_last_member|eapply read_more_members]; eauto. Qed.

Lemma line_blank p n : str_forallb (fun c => is_blank (code c)) (line p n) = true.
Proof.
  destruct p; [|done]. unfold line, newline, blanks. cbn [String.append str_forallb].
  change (is_blank (code (chr 10))) with true. cbn [andb]. by induction (Z.to_nat n).
Qed.

Lemma reads_line p n s v r : reads s v r -> reads (line p n +:+ s) v r.
Proof. apply reads_from. intros t r'. apply lexes_blanks, line_blank. Qed.

Lemma lexes_line p n s t r : lexes s t r -> lexes (line p n +:+ s) t r.
Proof. apply lexes_blanks, line_blank. Qed.

(** Objects whose keys are in order. *)
Fixpoint json_ordered (j : json) : bool :=
  match j with
  | JArray l => forallb json_ordered l
  | JObject m => sorted_strict (map fst m) && forallb (fun kv => json_ordered kv.2) m
  | _ => true
  end.

Lemma obj_set_last k v m :
  Forall (fun k' => str_lt k' k = true) (map fst m) -> obj_set k v m = m ++ [(k, v)].
Proof.
  induction m as [|[k' v'] m IH]; [done|]. cbn [map fst]. intros H. apply Forall_cons in H as [H1 H2].
  cbn [obj_set app]. destruct (String.eqb_spec k k') as [->|].
  { pose proof (str_lt_asym _ _ H1). congruence. }
  rewrite str_lt_asym by done. by rewrite IH.
Qed.

(** Members in order make the object they are the members of. *)
Lemma object_of_ordered m : sorted_strict (map fst m) = true -> object_of m = m.
Proof.
  unfold object_of. assert (H : forall m m0, sorted_strict (map fst m) = true ->
    Forall (fun k => Forall (fun k' => str_lt k' k = true) (map fst m0)) (map fst m) ->
    fold_left (fun m kv => obj_set kv.1 kv.2 m) m m0 = m0 ++ m).
  { clear. induction m as [|[k v] m IH]; intros m0 Hs Hf; [by rewrite app_nil_r|].
    cbn [map fst] in *. apply sorted_strict_cons in Hs as [Hs Hk]. apply Forall_cons in Hf as [Hf1 Hf2].
    cbn [fold_left fst snd]. rewrite obj_set_last by done. rewrite IH; [by rewrite <- app_assoc|done|].
    rewrite Forall_forall in Hf2, Hk |- *. intros k' Hk'. rewrite map_app. apply Forall_app. split; [by apply Hf2|].
    constructor; [by apply Hk|done]. }
  intros Hs. rewrite H; [done|done|]. apply Forall_forall. constructor.
Qed.

(** ** Values *)

Fixpoint json_floats (j : json) : bool :=
  match j with
  | JFloat x => finite_double x
  | JArray l => forallb json_floats l
  | JObject m => forallb (fun kv => json_floats kv.2) m
  | _ => true
  end.

(** What can be printed and read back. *)
Definition printable (j : json) : bool := json_sized j && json_utf8 j && json_ordered j && json_floats j.

Definition shows p step (j : json) : Prop :=
  forall cur r, stops r = true -> reads (json_show p step cur j +:+ r) (json_norm j) r.

Section structures.
Context (p : bool) (step inner out next : Z) (r : string).

Lemma elements_read l :
  l <> [] -> Forall (shows p step) l ->
  reads_elements (commas (map (fun v => line p next +:+ json_show p step inner v) l) +:+ line p out +:+ "]" +:+ r)
    (map json_norm l) r.
Proof.
  intros Hne H. induction H as [|v l Hv _ IH]; [done|]. destruct l as [|v' l].
  - cbn [map commas]. rewrite str_app_assoc. apply read_last with (r := line p out +:+ "]" +:+ r).
    + apply reads_line, Hv. by destruct p.
    + apply lexes_line. by apply lex_structural.
  - change (map json_norm (v :: v' :: l)) with (json_norm v :: map json_norm (v' :: l)).
    change (commas (map (fun v => line p next +:+ json_show p step inner v) (v :: v' :: l)))
      with ((line p next +:+ json_show p step inner v) +:+ "," +:+
            commas (map (fun v => line p next +:+ json_show p step inner v) (v' :: l))).
    rewrite !str_app_assoc. eapply read_more; [by apply reads_line, Hv|by apply lex_structural|by apply IH].
Qed.

(** The text of a member. *)
Definition member_text (kv : string * json) : string :=
  line p next +:+ quote kv.1 +:+ (if p then ": " else ":") +:+ json_show p step inner kv.2.

Lemma member_head k rest v r' :
  utf8 k = true -> reads rest v r' ->
  exists r1 r2, lexes (line p next +:+ quote k +:+ (if p then ": " else ":") +:+ rest) (TString k) r1 /\
    lexes r1 TName r2 /\ reads r2 v r'.
Proof.
  intros Hk Hr. exists ((if p then ": " else ":") +:+ rest), ((if p then " " else "") +:+ rest). split_and!.
  - by apply lexes_line, quote_reads.
  - destruct p; by apply lex_structural.
  - destruct p; [|exact Hr]. revert Hr. apply reads_from. intros t r0. by apply (lexes_blanks " ").
Qed.

Lemma members_read m :
  m <> [] -> Forall (fun kv => utf8 kv.1 = true /\ shows p step kv.2) m ->
  reads_members (commas (map member_text m) +:+ line p out +:+ "}" +:+ r)
    (map (fun kv => (kv.1, json_norm kv.2)) m) r.
Proof.
  intros Hne H. induction H as [|[k v] m [Hk Hv] _ IH]; [done|]. cbn [fst snd] in Hk, Hv. destruct m as [|kv' m].
  - cbn [map commas fst snd]. unfold member_text. cbn [fst snd]. rewrite !str_app_assoc.
    destruct (member_head k (json_show p step inner v +:+ line p out +:+ "}" +:+ r) (json_norm v)
      (line p out +:+ "}" +:+ r) Hk) as (r1 & r2 & H1 & H2 & H3); [apply Hv; by destruct p|].
    eapply read_last_member; [exact H1|exact H2|exact H3|]. apply lexes_line. by apply lex_structural.
  - change (map (fun kv => (kv.1, json_norm kv.2)) ((k, v) :: kv' :: m))
      with ((k, json_norm v) :: map (fun kv => (kv.1, json_norm kv.2)) (kv' :: m)).
    change (commas (map member_text ((k, v) :: kv' :: m)))
      with (member_text (k, v) +:+ "," +:+ commas (map member_text (kv' :: m))).
    unfold member_text at 1. cbn [fst snd]. rewrite !str_app_assoc.
    destruct (member_head k (json_show p step inner v +:+ "," +:+ commas (map member_text (kv' :: m)) +:+
      line p out +:+ "}" +:+ r) (json_norm v) ("," +:+ commas (map member_text (kv' :: m)) +:+
      line p out +:+ "}" +:+ r) Hk) as (r1 & r2 & H1 & H2 & H3); [by apply Hv|].
    eapply read_more_members; [exact H1|exact H2|exact H3|by apply lex_structural|by apply IH].
Qed.

End structures.

Theorem show_reads p step j : printable j = true -> shows p step j.
Proof.
  unfold printable. intros [[[Hz Hu]%andb_prop Ho]%andb_prop Hf]%andb_prop.
  induction j as [|b|n|n|x|s|l IH|m IH] using json_nested_ind; intros cur r Hr.
  - by apply (read_scalar _ TNull); [apply (lex_null r)|].
  - destruct b; [by apply (read_scalar _ TTrue); [apply (lex_true r)|]|by apply (read_scalar _ TFalse); [apply (lex_false r)|]].
  - cbn in Hz. apply andb_prop in Hz as [?%Z.leb_le ?%Z.ltb_lt].
    by apply (read_scalar _ (TUnsigned n)); [apply unsigned_reads|].
  - cbn in Hz. apply andb_prop in Hz as [?%Z.leb_le ?%Z.ltb_lt]. cbn [json_norm json_show].
    destruct (Z.leb_spec 0 n).
    + by apply (read_scalar _ (TUnsigned n)); [apply unsigned_reads; [lia|]|].
    + by apply (read_scalar _ (TInteger n)); [apply negative_reads; [lia|]|].
  - cbn [json_floats] in Hf. destruct (float_reads x r Hf Hr) as [H1 H2]. by eapply read_scalar.
  - by apply (read_scalar _ (TString s)); [apply quote_reads|].
  - destruct l as [|v l].
    + eapply read_empty_array with (r := "]" +:+ r); by apply lex_structural.
    + eapply read_array; [by apply lex_structural|].
      change (map json_norm (v :: l)) with (map json_norm (v :: l)).
      cbn [json_sized json_utf8 json_ordered json_floats] in *. rewrite forallb_forall in Hz, Hu, Ho, Hf.
      pose proof (elements_read p step (if p then u32 (cur + step) else cur) cur (u32 (cur + step)) r (v :: l)) as H.
      match goal with |- reads_elements ?a _ _ => match type of H with _ -> _ -> reads_elements ?b _ _ =>
        replace a with b by (cbn [json_show]; by rewrite !str_app_assoc) end end.
      apply H; [done|]. rewrite Forall_forall in IH |- *. intros w Hw.
      pose proof (proj1 (list_elem_of_In _ _) Hw). apply IH; auto.
  - cbn [json_sized json_utf8 json_ordered json_floats] in *. apply andb_prop in Ho as [Hs Ho].
    destruct m as [|kv m].
    + eapply read_empty_object with (r := "}" +:+ r); by apply lex_structural.
    + rewrite forallb_forall in Hz, Hu, Ho, Hf.
      assert (En : json_norm (JObject (kv :: m)) =
        JObject (object_of (map (fun kv => (kv.1, json_norm kv.2)) (kv :: m)))).
      { rewrite object_of_ordered; [done|]. rewrite map_map. exact Hs. }
      rewrite En. eapply read_object; [by apply lex_structural|].
      pose proof (members_read p step (if p then u32 (cur + step) else cur) cur (u32 (cur + step)) r (kv :: m)) as H.
      match goal with |- reads_members ?a _ _ => match type of H with _ -> _ -> reads_members ?b _ _ =>
        replace a with b end end.
      2: { cbn [json_show]. rewrite !str_app_assoc. do 2 f_equal. apply map_ext. by intros [k w]. }
      apply H; [done|]. rewrite Forall_forall in IH |- *. intros [k w] Hw.
      pose proof (proj1 (list_elem_of_In _ _) Hw) as Hw'. specialize (Hu _ Hw'). cbn [fst snd] in *.
      apply andb_prop in Hu as [Hu1 Hu2]. split; [done|].
      apply (IH (k, w) Hw); [by apply (Hz (k, w))|done|by apply (Ho (k, w))|by apply (Hf (k, w))].
Qed.
