(* ===== verification/JsonValues.v ===== *)
(** * JsonValues: the values a text can have

    Whatever the text, a value the grammar reads is well formed: its strings and
    keys are UTF-8, its integers have their types, its objects are in the order of
    their keys, its floats are finite doubles ([reads_printable]). So it can be
    printed, and is read back from what is printed. *)

From S2P Require Import Prelude Json Strtod StrtodFacts JsonLexer JsonGrammar JsonLexerFacts JsonParser JsonParserFacts.
From S2P Require Import JsonExact JsonFloat JsonPrinter JsonPrinterFacts JsonFloatText JsonRoundtrip.
From Stdlib Require Import SpecFloat.
#[local] Open Scope Z_scope.

(** ** UTF-8 *)

Lemma take_ranges_utf8 pending s v s' : take_ranges pending s = Some (v, s') -> utf8_from pending v = true.
Proof.
  revert s v. induction pending as [|r pending IH]; intros s v H; cbn [take_ranges] in H.
  - by injection H as <- _.
  - destruct s as [|c s]; [done|]. destruct (in_range c r) eqn:Er; [|done].
    destruct (take_ranges pending s) as [[w s2]|] eqn:E; [|done]. injection H as <- <-.
    cbn [utf8_from]. rewrite Er. cbn [andb]. by eapply IH.
Qed.

(** The bytes of a code point, as numbers. *)
Lemma utf8_bytes_split cp :
  0 <= cp < 0x110000 ->
  utf8_bytes cp =
    if cp <? 0x80 then [cp]
    else if cp <=? 0x7FF then [192 + cp / 64; 128 + cp mod 64]
    else if cp <=? 0xFFFF then [224 + cp / 4096; 128 + cp / 64 mod 64; 128 + cp mod 64]
    else [240 + cp / 262144; 128 + cp / 4096 mod 64; 128 + cp / 64 mod 64; 128 + cp mod 64].
Proof.
  intros H. assert (Hor : forall hi n x, 0 <= n -> 0 <= x < 2 ^ n -> Z.lor (hi * 2 ^ n) x = hi * 2 ^ n + x).
  { intros hi n x Hn Hx. rewrite Z.lor_comm, lor_low by done. lia. }
  assert (Hlow : forall x, Z.land x 0x3F = x mod 64).
  { intros x. change 0x3F with (Z.ones 6). rewrite Z.land_ones by lia. done. }
  assert (Hc : forall x, Z.lor 0x80 (x mod 64) = 128 + x mod 64).
  { intros x. apply (Hor 2 6). lia. pose proof (Z.mod_pos_bound x 64 ltac:(lia)). lia. }
  unfold utf8_bytes. rewrite !Hlow, !Hc, !Z.shiftr_div_pow2 by lia.
  change (2 ^ 6) with 64. change (2 ^ 12) with 4096. change (2 ^ 18) with 262144.
  destruct (Z.ltb_spec cp 128); [done|]. destruct (Z.leb_spec cp 2047).
  { rewrite (Hor 6 5) by (Z.to_euclidean_division_equations; lia). done. }
  destruct (Z.leb_spec cp 65535).
  - rewrite (Hor 14 4) by (Z.to_euclidean_division_equations; lia). done.
  - rewrite (Hor 30 3) by (Z.to_euclidean_division_equations; lia). done.
Qed.

Lemma utf8_bytes_range cp : 0 <= cp < 0x110000 -> Forall (fun b => 0 <= b < 256) (utf8_bytes cp).
Proof.
  intros H. rewrite utf8_bytes_split by done.
  destruct (Z.ltb_spec cp 128); [repeat constructor; lia|].
  destruct (Z.leb_spec cp 2047); [|destruct (Z.leb_spec cp 65535)];
    repeat constructor; Z.to_euclidean_division_equations; lia.
Qed.

(** A byte in its place. *)
Lemma utf8_from_bytes pending bs :
  Forall (fun b => 0 <= b < 256) bs ->
  utf8_from pending (bytes_str bs) =
    match bs, pending with
    | [], [] => true
    | [], _ => false
    | b :: bs, [] => match lead_ranges b with Some p => utf8_from p (bytes_str bs) | None => false end
    | b :: bs, r :: p => (r.1 <=? b) && (b <=? r.2) && utf8_from p (bytes_str bs)
    end.
Proof.
  intros H. destruct bs as [|b bs]; [done|]. apply Forall_cons in H as [Hb _]. cbn [bytes_str utf8_from].
  unfold in_range. by rewrite code_chr by (unfold in_u; lia).
Qed.

(** The first bytes of two, three and four. *)
Lemma lead_two b : 194 <= b < 224 -> lead_ranges b = Some [(128, 191)].
Proof.
  intros. unfold lead_ranges. rewrite (proj2 (Z.ltb_ge b 128)), (proj2 (Z.ltb_ge b 194)) by lia.
  by rewrite (proj2 (Z.ltb_lt b 224)) by lia.
Qed.

Lemma lead_three b :
  224 <= b < 240 ->
  lead_ranges b = Some (if b =? 224 then [(160, 191); (128, 191)]
    else if b =? 237 then [(128, 159); (128, 191)] else [(128, 191); (128, 191)]).
Proof.
  intros. unfold lead_ranges.
  rewrite (proj2 (Z.ltb_ge b 128)), (proj2 (Z.ltb_ge b 194)), (proj2 (Z.ltb_ge b 224)) by lia.
  destruct (Z.eqb_spec b 224); [done|]. destruct (Z.eqb_spec b 237); [done|].
  by rewrite (proj2 (Z.ltb_lt _ _)) by lia.
Qed.

Lemma lead_four b :
  240 <= b <= 244 ->
  lead_ranges b = Some (if b =? 240 then [(144, 191); (128, 191); (128, 191)]
    else if b =? 244 then [(128, 143); (128, 191); (128, 191)]
    else [(128, 191); (128, 191); (128, 191)]).
Proof.
  intros. unfold lead_ranges.
  rewrite (proj2 (Z.ltb_ge b 128)), (proj2 (Z.ltb_ge b 194)), (proj2 (Z.ltb_ge b 224)) by lia.
  destruct (Z.eqb_spec b 224); [lia|]. destruct (Z.eqb_spec b 237); [lia|].
  rewrite (proj2 (Z.ltb_ge b 240)) by lia. destruct (Z.eqb_spec b 240); [done|].
  destruct (Z.eqb_spec b 244) as [->|]; [done|]. by rewrite (proj2 (Z.ltb_lt _ _)) by lia.
Qed.

Lemma utf8_text_utf8 cp : 0 <= cp < 0x110000 -> is_high cp = false -> is_low cp = false -> utf8 (utf8_text cp) = true.
Proof.
  intros H Hh Hl. pose proof (utf8_bytes_range cp H) as Hr. unfold utf8, utf8_text.
  rewrite utf8_bytes_split in Hr |- * by done. unfold is_high, is_low in *.
  destruct (Z.ltb_spec cp 128).
  { rewrite utf8_from_bytes by done. unfold lead_ranges. by destruct (Z.ltb_spec cp 128); [|lia]. }
  assert (Hcont : forall x p (bs : list Z), Forall (fun b => 0 <= b < 256) (128 + x mod 64 :: bs) ->
    utf8_from ((128, 191) :: p) (bytes_str (128 + x mod 64 :: bs)) = utf8_from p (bytes_str bs)).
  { intros x p bs Hb. rewrite utf8_from_bytes by done. cbn [fst snd]. pose proof (Z.mod_pos_bound x 64 ltac:(lia)).
    destruct (Z.leb_spec 128 (128 + x mod 64)); [|lia]. by destruct (Z.leb_spec (128 + x mod 64) 191); [|lia]. }
  assert (Hgap : cp < 0xD800 \/ 0xE000 <= cp).
  { apply andb_false_iff in Hh as [?%Z.leb_gt|?%Z.leb_gt], Hl as [?%Z.leb_gt|?%Z.leb_gt]; lia. }
  clear Hh Hl. destruct (Z.leb_spec cp 2047); [|destruct (Z.leb_spec cp 65535)].
  - rewrite utf8_from_bytes by done. pose proof (List.Forall_inv_tail Hr) as Hr2.
    rewrite lead_two by (Z.to_euclidean_division_equations; lia). by rewrite Hcont.
  - rewrite utf8_from_bytes by done. pose proof (List.Forall_inv_tail Hr) as Hr2.
    pose proof (List.Forall_inv_tail Hr2) as Hr3.
    set (b := 224 + cp / 4096) in *. assert (Hb : 224 <= b < 240) by (subst b; Z.to_euclidean_division_equations; lia).
    rewrite lead_three by done.
    destruct (Z.eqb_spec b 224); [|destruct (Z.eqb_spec b 237); [|by rewrite !Hcont]];
      rewrite utf8_from_bytes by done; cbn [fst snd]; rewrite Hcont by done; cbn [bytes_str utf8_from];
      rewrite andb_true_r; apply andb_true_iff; split; apply Z.leb_le;
      subst b; Z.to_euclidean_division_equations; lia.
  - rewrite utf8_from_bytes by done. pose proof (List.Forall_inv_tail Hr) as Hr2.
    pose proof (List.Forall_inv_tail Hr2) as Hr3.
    pose proof (List.Forall_inv_tail Hr3) as Hr4.
    set (b := 240 + cp / 262144) in *. assert (Hb : 240 <= b <= 244) by (subst b; Z.to_euclidean_division_equations; lia).
    rewrite lead_four by done.
    destruct (Z.eqb_spec b 240); [|destruct (Z.eqb_spec b 244); [|by rewrite !Hcont]];
      rewrite utf8_from_bytes by done; cbn [fst snd]; rewrite !Hcont by done; cbn [bytes_str utf8_from];
      rewrite andb_true_r; apply andb_true_iff; split; apply Z.leb_le;
      subst b; Z.to_euclidean_division_equations; lia.
Qed.

Lemma lex_unicode_utf8 s v s' : lex_unicode s = Some (v, s') -> utf8 v = true.
Proof.
  unfold lex_unicode. intros H.
  destruct (take_hex 4 0 s) as [[c1 s1]|] eqn:E1; [cbn [mbind option_bind] in H|done].
  pose proof (take_hex_range _ _ _ _ _ (Z.le_refl 0) E1) as R1. cbn in R1.
  destruct (is_high c1) eqn:Eh.
  - destruct (take_char "\" s1) as [s2|]; [cbn [mbind option_bind] in H|done].
    destruct (take_char "u" s2) as [s3|]; [cbn [mbind option_bind] in H|done].
    destruct (take_hex 4 0 s3) as [[c2 s4]|] eqn:E2; [cbn [mbind option_bind] in H|done].
    pose proof (take_hex_range _ _ _ _ _ (Z.le_refl 0) E2) as R2. cbn in R2.
    destruct (is_low c2) eqn:El; [|done]. injection H as <- _. unfold is_high, is_low in Eh, El.
    apply andb_prop in Eh as [?%Z.leb_le ?%Z.leb_le], El as [?%Z.leb_le ?%Z.leb_le].
    apply utf8_text_utf8; [lia|unfold is_high|unfold is_low]; apply andb_false_iff; right; apply Z.leb_gt; lia.
  - destruct (is_low c1) eqn:El; [done|]. injection H as <- _. apply utf8_text_utf8; [lia|done..].
Qed.

Lemma lex_char_utf8 s v s' : lex_char s = Some (v, s') -> utf8 v = true.
Proof.
  destruct s as [|c s]; [done|]. cbn [lex_char]. intros H. destruct (code c =? 34); [done|].
  destruct (Ascii.eqb c "\").
  - destruct s as [|d s]; [done|]. destruct (escape_of d) as [b|] eqn:Ed.
    + injection H as <- _. unfold escape_of in Ed.
      assert (Hb : code b < 128).
      { repeat case_if_in Ed; try discriminate Ed; injection Ed as <-; try done;
          match goal with
          | E : (code _ =? 34) = true |- _ => apply Z.eqb_eq in E; lia
          | E : Ascii.eqb _ _ = true |- _ => apply Ascii.eqb_eq in E; subst; done
          end. }
      unfold utf8. cbn [utf8_from]. unfold lead_ranges. by rewrite (proj2 (Z.ltb_lt _ _)) by done.
    + destruct (Ascii.eqb d "u"); [by eapply lex_unicode_utf8|done].
  - destruct (code c <? 32); [done|]. destruct (lead_ranges (code c)) as [pending|] eqn:El; [|done].
    cbn [mbind option_bind] in H. destruct (take_ranges pending s) as [[w s2]|] eqn:E; [|done]. injection H as <- _.
    unfold utf8. cbn [utf8_from]. rewrite El. exact (take_ranges_utf8 _ _ _ _ E).
Qed.

Lemma string_text_utf8 s v r : string_text s v r -> utf8 v = true.
Proof.
  induction 1 as [|s v s' w r H _ IH]; [done|]. rewrite utf8_app; [done|exact (lex_char_utf8 _ _ _ H)].
Qed.

Lemma lexes_string_utf8 s k r : lexes s (TString k) r -> utf8 k = true.
Proof.
  intros H. remember (TString k) as t eqn:Et. induction H as [| | | | |c s v r _ Hs|c s w ty r _ Hr| |]; try done; auto.
  - unfold structural in *. repeat case_if_in H; congruence.
  - injection Et as ->. exact (string_text_utf8 _ _ _ Hs).
  - unfold number_tok in Et. destruct ty; try done;
      [destruct (strtoull _) as [? []]|destruct (strtoll _) as [? []]]; done.
Qed.

(** ** Values *)

(** Numbers are what the conversions return. *)
Definition tok_sized (t : tok) : bool :=
  match t with
  | TUnsigned n => (0 <=? n) && (n <? 2 ^ 64)
  | TInteger n => (- 2 ^ 63 <=? n) && (n <? 2 ^ 63)
  | TFloat x => binary64 x
  | _ => true
  end.

Lemma number_tok_sized w ty : tok_sized (number_tok w ty) = true.
Proof.
  unfold number_tok. pose proof (strtod_binary64 w) as Hd. destruct ty; try done.
  - unfold strtoull. set (z := default 0 (read_int w)). destruct (ULLONG_MAX <? Z.abs z); [exact Hd|].
    cbn [tok_sized]. pose proof (wrapu_range 64 z ltac:(lia)) as H. unfold in_u in H.
    apply andb_true_iff. split; [apply Z.leb_le|apply Z.ltb_lt]; lia.
  - unfold strtoll. set (z := default 0 (read_int w)). unfold LLONG_MIN, LLONG_MAX.
    destruct (Z.ltb_spec z (- 2 ^ 63)); [exact Hd|]. destruct (Z.ltb_spec (2 ^ 63 - 1) z); [exact Hd|]. cbn [tok_sized].
    apply andb_true_iff. split; [apply Z.leb_le|apply Z.ltb_lt]; lia.
Qed.

Lemma lexes_sized s t r : lexes s t r -> tok_sized t = true.
Proof.
  induction 1 as [|c t r H| | | | | | |]; try done.
  - unfold structural in H. repeat case_if_in H; try discriminate H; injection H as <-; done.
  - apply number_tok_sized.
Qed.

Lemma printable_array l : printable (JArray l) = forallb printable l.
Proof.
  unfold printable. cbn [json_sized json_utf8 json_ordered json_floats]. induction l as [|j l IH]; [done|]. cbn [forallb].
  rewrite <- IH. destruct (json_sized j), (json_utf8 j), (json_ordered j), (json_floats j); cbn; rewrite ?andb_false_r; try done.
Qed.

Lemma printable_object m :
  printable (JObject m) =
    sorted_strict (map fst m) && forallb (fun kv => utf8 kv.1 && printable kv.2) m.
Proof.
  unfold printable. cbn [json_sized json_utf8 json_ordered json_floats].
  destruct (sorted_strict (map fst m)); [|by rewrite !andb_false_r]. cbn [andb].
  induction m as [|[k j] m IH]; [done|]. cbn [forallb fst snd]. rewrite <- IH.
  destruct (utf8 k), (json_sized j), (json_utf8 j), (json_ordered j), (json_floats j); cbn; rewrite ?andb_false_r; try done.
Qed.

Lemma object_of_forall (P : string * json -> Prop) m :
  Forall P m -> Forall P (object_of m).
Proof.
  unfold object_of. assert (H : forall m0, Forall P m0 -> Forall P m ->
    Forall P (fold_left (fun m kv => obj_set kv.1 kv.2 m) m m0)); [|by apply H].
  induction m as [|[k v] m IH]; intros m0 H0 Hm; [done|]. apply Forall_cons in Hm as [Hk Hm].
  cbn [fold_left fst snd]. apply IH; [|done]. clear -H0 Hk.
  induction H0 as [|[k' v'] m0 Hk' H0 IH]; [by constructor|]. cbn [obj_set].
  destruct (String.eqb k k'); [by constructor|]. destruct (str_lt k k'); repeat constructor; done.
Qed.

Theorem reads_printable :
  (forall s v r, reads s v r -> printable v = true) /\
  (forall s l r, reads_elements s l r -> forallb printable l = true) /\
  (forall s m r, reads_members s m r -> Forall (fun kv => utf8 kv.1 && printable kv.2 = true) m).
Proof.
  apply reads_mutind; try done.
  - intros s t v r Hl Hs. pose proof (lexes_sized _ _ _ Hl) as Hz.
    destruct t as [| | |x|x|x|[x|x| |x m ex]| | | | | | |]; try discriminate Hs; injection Hs as <-; try done.
    + unfold printable. cbn. by rewrite (lexes_string_utf8 _ _ _ Hl).
    + unfold printable. cbn [json_sized json_utf8 json_ordered json_floats]. cbn [tok_sized] in Hz. by rewrite Hz.
    + unfold printable. cbn [json_sized json_utf8 json_ordered json_floats]. cbn [tok_sized] in Hz. by rewrite Hz.
    + unfold printable. cbn [json_sized json_utf8 json_ordered json_floats]. cbn [tok_sized] in Hz. unfold finite_double. by rewrite Hz.
  - intros s r l r' _ _ H. by rewrite printable_array.
  - intros s r m r' _ _ H. rewrite printable_object. apply andb_true_iff. split.
    + by apply object_of_sorted.
    + apply forallb_forall. intros kv Hkv. apply object_of_forall in H. rewrite Forall_forall in H.
      apply H. by apply list_elem_of_In.
  - intros s v r r' _ Hv _. cbn [forallb]. by rewrite Hv.
  - intros s v r r' l r2 _ Hv _ _ Hl. cbn [forallb]. by rewrite Hv.
  - intros s k r r' v r2 r3 Hk _ _ Hv _. constructor; [|done]. cbn [fst snd].
    by rewrite Hv, (lexes_string_utf8 _ _ _ Hk).
  - intros s k r r' v r2 r3 m r4 Hk _ _ Hv _ _ Hm. constructor; [|done]. cbn [fst snd].
    by rewrite Hv, (lexes_string_utf8 _ _ _ Hk).
Qed.

Lemma parsed_printable (s : string) (v : json) :
  nlohmann_parse s = Ok v \/ nlohmann_stream s = Ok v -> printable v = true.
Proof.
  rewrite parse_exact, stream_exact. intros [(s' & r & r' & _ & H & _)|(s' & r & _ & H)];
    by eapply reads_printable.
Qed.
