(* ===== verification/JsonErrors.v ===== *)
(** * JsonErrors: the exceptions of parsing and printing

    A parse error quotes the token it was raised at, byte for byte: for an ASCII
    text its own text is ASCII ([parse_throws]). Printing raises nothing but
    type_error 316, exactly on values with text that is not UTF-8
    ([dump_outcome]). *)

From S2P Require Import Prelude Json Strtod JsonLexer JsonGrammar JsonLexerFacts JsonParser JsonParserFacts.
From S2P Require Import JsonExact JsonFloat JsonPrinter JsonPrinterFacts JsonRoundtrip JsonValues.
From Stdlib Require Import SpecFloat.
#[local] Open Scope Z_scope.

(** ** Texts of the scanner *)

Definition ascii_lexer (l : lexer) : Prop :=
  is_ascii (ia l) = true /\ is_ascii (token_string l) = true /\ is_ascii (error_message l) = true /\
  (current l = eof \/ 0 <= current l < 128).

Lemma is_ascii_chr z : 0 <= z < 128 -> is_ascii (String (chr z) EmptyString) = true.
Proof.
  intros. unfold is_ascii. cbn. unfold is_ascii_char. rewrite code_chr by (unfold in_u; lia). lia.
Qed.

Lemma is_ascii_pop s : is_ascii s = true -> is_ascii (pop_back s) = true.
Proof.
  unfold is_ascii. induction s as [|c s IH]; [done|]. cbn [str_forallb]. intros [H1 H2]%andb_prop.
  destruct s; [done|]. cbn [pop_back str_forallb] in *. rewrite H1. by apply IH.
Qed.

#[export] Instance ascii_lexer_inv : ScanInvariant ascii_lexer.
Proof.
  assert (Hget : forall l, ascii_lexer l -> ascii_lexer (get l)).
  { intros l (H1 & H2 & H3 & H4). unfold get, next_char.
    assert (Hp : forall z, z = eof \/ 0 <= z < 128 ->
      is_ascii (if z =? eof then token_string l else push_back (token_string l) (chr z)) = true).
    { intros z Hz. destruct (Z.eqb_spec z eof); [done|]. unfold push_back. rewrite is_ascii_app, H2.
      apply is_ascii_chr. tauto. }
    destruct (next_unget l); [by split_and!; [|apply Hp| |]|].
    destruct (ia l) as [|c s]; [by split_and!; [| | |left]|].
    unfold is_ascii in H1. cbn [str_forallb] in H1. apply andb_prop in H1 as [H1 H1'].
    assert (Hc : 0 <= code c < 128).
    { pose proof (code_range c) as Hr. unfold in_u in Hr. unfold is_ascii_char in H1. lia. }
    split_and!; [done|apply Hp; by right|done|by right]. }
  split; try done.
  - intros l (H1 & H2 & H3 & H4)%Hget. split_and!; try done. unfold unget. cbn [token_string].
    destruct (current (get l) =? eof); [done|]. by apply is_ascii_pop.
  - intros text l Ht (H1 & H2 & H3 & H4). done.
  - intros l Hc (H1 & H2 & H3 & H4). split_and!; try done. apply is_ascii_chr. unfold eof in *. lia.
Qed.

Lemma inv_scan (P : lexer -> Prop) {SI : ScanInvariant P} l : P l -> P (scan l).2.
Proof.
  intros H. unfold scan.
  assert (Hb : P (if chars_read_total (position l) =? 0 then skip_bom l else (true, l)).2).
  { destruct (_ =? 0); [|done]. unfold skip_bom. cbv zeta. pose proof (inv_get l H) as H1.
    destruct (current (get l) =? 239); [|by apply inv_unget].
    pose proof (inv_get _ H1). destruct (_ =? 187); [by apply inv_get|done]. }
  destruct (if chars_read_total (position l) =? 0 then skip_bom l else (true, l)) as [[] l']; cbn [snd] in Hb.
  - apply inv_scan_token; [done|]. apply inv_skip_whitespace; [done|]. by apply inv_get.
  - by apply inv_error.
Qed.

Lemma show_string_ascii s : is_ascii s = true -> is_ascii (show_string s) = true.
Proof.
  induction s as [|c s IH]; [done|]. unfold is_ascii at 1. cbn [str_forallb show_string].
  intros [H1 H2]%andb_prop. rewrite is_ascii_app, IH by done. rewrite andb_true_r. unfold show_char.
  destruct (Z.leb_spec (code c) 31); [|unfold is_ascii; cbn; by rewrite H1].
  rewrite !is_ascii_app. pose proof (code_range c) as Hc. unfold in_u in Hc.
  assert (Hx : forall d, 0 <= d < 16 -> is_ascii_char (JsonLexer.hex_upper d) = true) by apply hex_upper_ascii.
  unfold is_ascii, hex4_upper. cbn [str_forallb]. rewrite !Hx by (Z.to_euclidean_division_equations; lia). done.
Qed.

(** ** Texts of the parser *)

(** A parse error, or a number out of range, with an ASCII text. *)
Definition plain (e : exn) : Prop := is_json_exn e = true /\ is_ascii (what e) = true.

Definition ascii_parser (p : parser) : Prop := ascii_lexer (m_lexer p).

Lemma token_type_name_ascii t : is_ascii (token_type_name t) = true.
Proof. by destruct t. Qed.

Lemma parse_error_ascii text p : is_ascii text = true -> plain (parse_error_101 text p).
Proof.
  intros H. split; [done|]. unfold parse_error_101, position_string, exception_name. cbn [what].
  by rewrite !is_ascii_app, !to_string_ascii, H.
Qed.

Lemma unexpected_ascii expected context p :
  is_ascii context = true -> ascii_parser p -> plain (unexpected expected context p).
Proof.
  intros Hc (_ & H2 & H3 & _). apply parse_error_ascii. unfold exception_message.
  rewrite !is_ascii_app. apply andb_true_iff. split; [done|]. apply andb_true_iff. split.
  { destruct (str_empty context); [done|]. by rewrite !is_ascii_app, Hc. }
  apply andb_true_iff. split; [done|]. apply andb_true_iff. split.
  - destruct (last_token p); try done. unfold get_token_string.
    by rewrite !is_ascii_app, H3, (show_string_ascii _ H2).
  - by destruct expected.
Qed.

Lemma get_token_ascii p : ascii_parser p -> ascii_parser (get_token p).
Proof.
  intros H. apply (inv_scan ascii_lexer) in H. unfold get_token, ascii_parser.
  by destruct (scan (m_lexer p)).
Qed.

(** A turn from a state whose texts are ASCII. *)
Definition ascii_turn (t : turn) : Prop :=
  match t with continue p | complete p => ascii_parser p | throw e => plain e end.

Create HintDb turns.
#[local] Hint Resolve get_token_ascii : turns.
#[local] Hint Extern 1 (ascii_turn (throw (unexpected _ _ _))) => apply unexpected_ascii; [reflexivity|] : turns.

Lemma parse_member_ascii K p :
  (forall p, ascii_parser p -> ascii_turn (K p)) -> ascii_parser p -> ascii_turn (parse_member K p).
Proof.
  intros HK Hp. unfold parse_member.
  destruct (last_token p); auto with turns. cbv zeta.
  set (p0 := with_sax _ p). assert (H0 : ascii_parser (get_token p0)) by (by apply get_token_ascii).
  destruct (last_token (get_token p0)); auto with turns.
Qed.

Lemma after_value_ascii p : ascii_parser p -> ascii_turn (after_value p).
Proof.
  intros Hp. unfold after_value. pose proof (get_token_ascii _ Hp) as H1. pose proof (get_token_ascii _ H1) as H2.
  destruct (states p) as [|[] rest]; [done|..]; cbv zeta; destruct (last_token (get_token p)); auto with turns.
  apply parse_member_ascii; [|done]. intros q Hq. by apply get_token_ascii.
Qed.

Lemma parse_value_ascii p : ascii_parser p -> ascii_turn (parse_value p).
Proof.
  intros Hp. assert (Hev : forall v, ascii_turn (after_value (event_value v p))).
  { intros v. by apply after_value_ascii. }
  unfold parse_value. cbv zeta. destruct (last_token p); auto with turns.
  - destruct (isfinite _); [apply Hev|]. split; [done|]. cbn [what]. unfold exception_name.
    destruct Hp as (_ & H2 & _). unfold get_token_string.
    by rewrite !is_ascii_app, !to_string_ascii, (show_string_ascii _ H2).
  - set (p0 := with_sax _ p). assert (H0 : ascii_parser (get_token p0)) by (by apply get_token_ascii).
    assert (He : ascii_turn (after_value (with_sax (end_structured (the_sax (get_token p0))) (get_token p0))))
      by (by apply after_value_ascii).
    by destruct (last_token (get_token p0)).
  - set (p0 := with_sax _ p). assert (H0 : ascii_parser (get_token p0)) by (by apply get_token_ascii).
    assert (He : ascii_turn (after_value (with_sax (end_structured (the_sax (get_token p0))) (get_token p0))))
      by (by apply after_value_ascii).
    assert (Hm : ascii_turn (parse_member
      (fun p => continue (get_token (with_states (false :: states p) p))) (get_token p0))).
    { apply parse_member_ascii; [|done]. intros q Hq. by apply get_token_ascii. }
    by destruct (last_token (get_token p0)).
  - destruct (_ =? 1); [by apply parse_error_ascii|by apply unexpected_ascii].
Qed.

Lemma sax_parse_ascii fuel p r :
  ascii_parser p -> sax_parse_internal fuel p = Some r ->
  match r with Ok p => ascii_parser p | Throw e => plain e end.
Proof.
  revert p. induction fuel as [|fuel IH]; intros p Hp H; [done|]. cbn [sax_parse_internal] in H.
  assert (Ht : ascii_turn (sax_step p)).
  { unfold sax_step. destruct (skip_to_state_evaluation p); [by apply after_value_ascii|by apply parse_value_ascii]. }
  destruct (sax_step p) as [p'|p'|e]; [by eapply IH|by injection H as <-..].
Qed.

(** The kind of the exceptions, whatever the text. *)
Lemma sax_parse_kind fuel p e : sax_parse_internal fuel p = Some (Throw e) -> is_json_exn e = true.
Proof.
  assert (Hm : forall K p, (forall p, match K p with throw e => is_json_exn e = true | _ => True end) ->
    match parse_member K p with throw e => is_json_exn e = true | _ => True end).
  { intros K q HK. unfold parse_member. destruct (last_token q); try done. cbv zeta.
    destruct (last_token (get_token _)); try done. apply HK. }
  assert (Ha : forall p, match after_value p with throw e => is_json_exn e = true | _ => True end).
  { intros q. unfold after_value. destruct (states q) as [|[] rest]; [done|..]; cbv zeta;
      destruct (last_token (get_token q)); try done. by apply Hm. }
  assert (Hv : forall p, match sax_step p with throw e => is_json_exn e = true | _ => True end).
  { intros q. unfold sax_step. destruct (skip_to_state_evaluation q); [apply Ha|]. unfold parse_value. cbv zeta.
    destruct (last_token q); try done; try apply Ha.
    - destruct (isfinite _); [apply Ha|done].
    - destruct (last_token (get_token _)); try done. apply Ha.
    - destruct (last_token (get_token _)); try (by apply Hm). apply Ha.
    - by destruct (_ =? 1). }
  revert p. induction fuel as [|fuel IH]; intros p H; [done|]. cbn [sax_parse_internal] in H.
  specialize (Hv p). destruct (sax_step p); [by eapply IH|done|by injection H as <-].
Qed.

Lemma newParser_ascii s : is_ascii s = true -> ascii_parser (newParser s).
Proof. intros H. apply get_token_ascii. by split_and!; [| | |left]. Qed.

Lemma parse_throws (s : string) (e : exn) :
  nlohmann_parse s = Throw e -> is_json_exn e = true /\ (is_ascii s = true -> is_ascii (what e) = true).
Proof.
  unfold nlohmann_parse, parser_parse. destruct (sax_parse_newParser s) as [p Hp]. rewrite Hp.
  destruct p as [p|e']; cbn [default from_option id].
  - cbv zeta. destruct (last_token (get_token p)) eqn:El; cbn [default from_option id]; try done;
      (intros [= <-]; split; [done|]; intros Hs;
       pose proof (sax_parse_ascii _ _ _ (newParser_ascii s Hs) Hp) as Ha;
       by apply unexpected_ascii; [|apply get_token_ascii]).
  - intros [= <-]. split; [by eapply sax_parse_kind|]. intros Hs.
    by destruct (sax_parse_ascii _ _ _ (newParser_ascii s Hs) Hp).
Qed.

(** ** Exceptions of the printer *)

(** It returns, or raises type_error 316. *)
Definition outcome {A} (r : result A) (ok : bool) : Prop :=
  if ok then exists a, r = Ok a else raises_316 r.

Lemma outcome_ok {A} (a : A) : outcome (Ok a) true.
Proof. by exists a. Qed.

Lemma outcome_bind {A B} (r : result A) (f : A -> result B) ok1 ok2 :
  outcome r ok1 -> (forall a, outcome (f a) ok2) -> outcome (rbind r f) (ok1 && ok2).
Proof.
  unfold outcome. destruct ok1; cbn [andb].
  - intros [a ->] Hf. apply Hf.
  - intros H _. by apply bind_316.
Qed.

Lemma outcome_then {A B} (r : result A) (f : A -> B) ok : outcome r ok -> outcome (let! a := r in Ok (f a)) ok.
Proof. intros H. rewrite <- (andb_true_r ok). apply outcome_bind; [done|]. intros a. by exists (f a). Qed.

Lemma outcome_escaped str s : outcome (dump_escaped str s) (utf8 str).
Proof.
  pose proof (dump_escaped_spec str s) as H. unfold outcome. destruct (utf8 str); [|done]. by eexists.
Qed.

Lemma outcome_items {A} pre sep (item : A -> serializer -> result serializer) ok l s :
  Forall (fun v => forall s, outcome (item v s) (ok v)) l ->
  outcome (items_loop pre sep item l s) (forallb ok l).
Proof.
  intros H. revert s. induction H as [|v l Hv _ IH]; intros s; [apply outcome_ok|]. cbn [items_loop forallb].
  apply outcome_bind; [apply Hv|]. intros s'. destruct l; [apply outcome_ok|apply IH].
Qed.

Theorem dump_outcome p step j : forall cur s, outcome (dump p step cur j s) (json_utf8 j).
Proof.
  induction j as [|b|n|n|x|str|l IH|m IH] using json_nested_ind; intros cur s; try apply outcome_ok.
  - apply outcome_then, outcome_escaped.
  - destruct l as [|v l]; [apply outcome_ok|]. rewrite dump_array. cbv zeta. rewrite Forall_forall in IH.
    destruct p; apply outcome_then, outcome_items, Forall_forall; intros w Hw s'; by apply IH.
  - destruct m as [|kv m]; [apply outcome_ok|]. rewrite dump_object. cbv zeta. rewrite Forall_forall in IH.
    destruct p; apply outcome_then, outcome_items, Forall_forall; intros [k w] Hw s';
      (apply outcome_bind; [apply outcome_then, outcome_escaped|]; intros s2; by apply (IH (k, w))).
Qed.

Lemma nlohmann_dump_outcome indent j : outcome (nlohmann_dump indent j) (json_utf8 j).
Proof.
  unfold nlohmann_dump, dump_serializer. apply outcome_then.
  destruct indent as [n|]; [destruct (0 <=? n)|]; apply dump_outcome.
Qed.

(** ** Properties *)

(** C31: whatever the text, what [json::parse] answers is well typed: a value whose
    strings and keys are UTF-8, whose integers and floats are of their types (64 bits,
    finite doubles) and whose objects
    are in the order of their keys, without a key twice; or an exception of the
    library, whose text is ASCII when the input is. *)
Theorem parsing_typed (s : string) :
  match nlohmann_parse s with
  | Ok v => printable v = true
  | Throw e => is_json_exn e = true /\ (is_ascii s = true -> is_ascii (what e) = true)
  end.
Proof.
  destruct (nlohmann_parse s) as [v|e] eqn:E; [|by apply parse_throws]. apply (parsed_printable s). by left.
Qed.
