(* ===== verification/JsonNlohmann.v ===== *)
(** * JsonNlohmann: nlohmann::json meets the interface the program relies on

    [nlohmann] is the printer and the parsers of JsonPrinter and JsonParser as an
    instance of [JsonText]; [nlohmann_spec] discharges [JsonTextSpec] from the
    exactness of the two and the round trip between them. *)

From S2P Require Import Prelude Json Strtod JsonLexer JsonGrammar JsonLexerFacts JsonParser JsonParserFacts.
From S2P Require Import JsonExact JsonFloat JsonPrinter JsonPrinterFacts JsonFloatText JsonRoundtrip JsonValues JsonErrors.
From Stdlib Require Import SpecFloat.
#[local] Open Scope Z_scope.

(** ** Canonical values *)

Lemma canonical_printable j : json_canonical j = true -> printable j = true.
Proof.
  unfold printable. induction j as [|b|n|n|x|s|l IH|m IH] using json_nested_ind; intros H;
    cbn [json_canonical json_sized json_utf8 json_ordered json_floats] in *; try done.
  - by rewrite H.
  - apply andb_prop in H as [H1%Z.leb_le H2%Z.ltb_lt]. rewrite !andb_true_r. apply andb_true_iff.
    split; [by apply Z.leb_le|apply Z.ltb_lt; lia].
  - by rewrite H.
  - rewrite forallb_forall in H. rewrite Forall_forall in IH.
    assert (Hall : forall f, (forall v, v ∈ l -> f v = true) -> forallb f l = true).
    { intros f Hf. apply forallb_forall. intros v Hv. apply Hf. by apply list_elem_of_In. }
    assert (Hl : forall v, v ∈ l -> json_sized v && json_utf8 v && json_ordered v && json_floats v = true).
    { intros v Hv. apply IH; [done|]. apply H. by apply list_elem_of_In. }
    rewrite !Hall; [done|intros v Hv; by apply Hl in Hv as [[[? ?]%andb_prop ?]%andb_prop ?]%andb_prop..].
  - apply andb_prop in H as [Hs H]. rewrite forallb_forall in H. rewrite Forall_forall in IH.
    assert (Hall : forall f, (forall v, v ∈ m -> f v = true) -> forallb f m = true).
    { intros f Hf. apply forallb_forall. intros v Hv. apply Hf. by apply list_elem_of_In. }
    assert (Hl : forall kv, kv ∈ m -> utf8 kv.1 = true /\ json_sized kv.2 && json_utf8 kv.2 && json_ordered kv.2 &&
      json_floats kv.2 = true).
    { intros kv Hkv. specialize (H kv (proj1 (list_elem_of_In _ _) Hkv)). apply andb_prop in H as [H1 H2].
      split; [done|]. by apply IH. }
    rewrite Hs, !Hall; [done|intros kv Hkv; apply Hl in Hkv as [? [[[? ?]%andb_prop ?]%andb_prop ?]%andb_prop]..];
      try done. by apply andb_true_iff.
Qed.

Lemma canonical_norm j : json_canonical j = true -> json_norm j = j.
Proof.
  induction j as [|b|n|n|x|s|l IH|m IH] using json_nested_ind; intros H; cbn [json_canonical json_norm] in *; try done.
  - apply andb_prop in H as [_ H%Z.ltb_lt]. by destruct (Z.leb_spec 0 n); [lia|].
  - f_equal. rewrite forallb_forall in H. rewrite Forall_forall in IH. rewrite <- (map_id l) at 2.
    apply map_ext_in. intros v Hv. apply IH; [by apply list_elem_of_In|by apply H].
  - f_equal. apply andb_prop in H as [_ H]. rewrite forallb_forall in H. rewrite Forall_forall in IH.
    rewrite <- (map_id m) at 2. apply map_ext_in. intros [k v] Hv. f_equal.
    specialize (H _ Hv). apply andb_prop in H as [_ H]. apply (IH (k, v)); [by apply list_elem_of_In|done].
Qed.

(** An integer prints the same in both types. *)
Lemma items_loop_ext {A B} pre sep (f : A -> serializer -> result serializer)
    (g : B -> serializer -> result serializer) h l s :
  (forall v s, v ∈ l -> g (h v) s = f v s) ->
  items_loop pre sep g (map h l) s = items_loop pre sep f l s.
Proof.
  revert s. induction l as [|v l IH]; intros s H; [done|]. cbn [map items_loop].
  rewrite H by constructor. destruct (f v (pre s)) as [s'|e]; [cbn [rbind]|done].
  destruct l as [|w l]; [done|]. apply IH. intros x s2 Hx. apply H. by constructor.
Qed.

Lemma dump_norm p step j : forall cur s, dump p step cur (json_norm j) s = dump p step cur j s.
Proof.
  induction j as [|b|n|n|x|str|l IH|m IH] using json_nested_ind; intros cur s; try done.
  - cbn [json_norm]. by destruct (0 <=? n).
  - destruct l as [|v l]; [done|]. rewrite Forall_forall in IH.
    change (json_norm (JArray (v :: l))) with (JArray (json_norm v :: map json_norm l)). rewrite !dump_array. cbv zeta.
    change (json_norm v :: map json_norm l) with (map json_norm (v :: l)).
    destruct p; by erewrite items_loop_ext by (intros w s' Hw; by apply IH).
  - destruct m as [|kv m]; [done|]. rewrite Forall_forall in IH.
    set (h := fun kv : string * json => (kv.1, json_norm kv.2)).
    change (json_norm (JObject (kv :: m))) with (JObject (h kv :: map h m)). rewrite !dump_object. cbv zeta.
    change (h kv :: map h m) with (map h (kv :: m)).
    destruct p; erewrite items_loop_ext; try reflexivity; intros [k w] s' Hw; unfold h, dump_member; cbn [fst snd];
      (destruct (dump_key _ _ _); [|done]); by apply (IH (k, w)).
Qed.

Lemma nlohmann_dump_norm indent j : nlohmann_dump indent (json_norm j) = nlohmann_dump indent j.
Proof.
  unfold nlohmann_dump, dump_serializer. destruct indent as [n|]; [destruct (0 <=? n)|]; by rewrite dump_norm.
Qed.

(** ** Round trip *)

(** A token starts with an ASCII byte: a text that is read has no byte order mark. *)
Lemma lexes_head c s t r : lexes (String c s) t r -> code c < 0x80.
Proof.
  intros H. destruct (is_blank (code c)) eqn:Eb.
  { unfold is_blank in Eb. lia. }
  apply lexes_spec in H; [|done]. unfold lexes_case in H.
  destruct (structural c) as [t'|] eqn:Es.
  { unfold structural in Es. repeat case_if_in Es; try discriminate Es;
      match goal with E : Ascii.eqb _ _ = true |- _ => apply Ascii.eqb_eq in E; by subst end. }
  destruct (Ascii.eqb_spec c "t") as [->|]; [done|]. destruct (Ascii.eqb_spec c "f") as [->|]; [done|].
  destruct (Ascii.eqb_spec c "n") as [->|]; [done|]. destruct (Z.eqb_spec (code c) 34); [lia|].
  destruct (Ascii.eqb_spec c "-") as [->|]; [done|]. cbn [orb] in H. unfold is_digit in H.
  destruct ((48 <=? code c) && (code c <=? 57)) eqn:Ed; [|destruct H; lia].
  apply andb_prop in Ed as [_ ?%Z.leb_le]. lia.
Qed.

Lemma reads_first s v r : reads s v r -> exists t r', lexes s t r' /\ t <> TEnd.
Proof. inversion 1; subst; eexists _, _; (split; [eassumption|]); [by eapply scalar_not_end|done..]. Qed.

Lemma reads_no_bom s v r : reads s v r -> after_bom s = Some s.
Proof.
  intros (t & r' & Hl & Ht)%reads_first. destruct s as [|c s]; [done|]. apply lexes_head in Hl. cbn [after_bom].
  by destruct (Z.eqb_spec (code c) 239); [lia|].
Qed.

Lemma reads_nonempty s v r : reads s v r -> s <> EmptyString.
Proof. intros H ->. apply (proj1 reads_length) in H. cbn in H. lia. Qed.

Definition shown (indent : option Z) (j : json) : Prop :=
  nlohmann_dump indent j = Ok (show_text indent j) /\
  forall r, stops r = true -> reads (show_text indent j +:+ r) (json_norm j) r.

Lemma printable_shown indent j : indent_ok indent = true -> printable j = true -> shown indent j.
Proof.
  intros Hi Hp. pose proof Hp as [[[Hz Hu]%andb_prop _]%andb_prop _]%andb_prop. split.
  - pose proof (dump_exact indent j Hi Hz) as H. rewrite Hu in H. by destruct H.
  - intros r Hr. unfold show_text.
    destruct indent as [n|]; [destruct (0 <=? n)|]; by apply show_reads.
Qed.

Lemma printable_parses indent j :
  indent_ok indent = true -> printable j = true ->
  exists s, nlohmann_dump indent j = Ok s /\ nlohmann_parse s = Ok (json_norm j) /\
    nlohmann_stream (s +:+ newline) = Ok (json_norm j) /\ s <> EmptyString.
Proof.
  intros Hi Hp. destruct (printable_shown indent j Hi Hp) as [Hd Hr]. exists (show_text indent j).
  pose proof (Hr EmptyString eq_refl) as H0. rewrite str_app_nil_r in H0. split_and!; [done| | |].
  - apply parse_exact. exists (show_text indent j), EmptyString, EmptyString.
    split_and!; [by eapply reads_no_bom|done|constructor].
  - apply stream_exact. pose proof (Hr newline eq_refl) as H1.
    exists (show_text indent j +:+ newline), newline. split; [by eapply reads_no_bom|done].
  - by eapply reads_nonempty.
Qed.

Lemma array_text_length indent j l :
  printable (JArray (j :: l)) = true -> (2 < String.length (show_text indent (JArray (j :: l))))%nat.
Proof.
  intros Hp. assert (Hj : printable j = true).
  { unfold printable in *. cbn [json_sized json_utf8 json_ordered json_floats forallb] in Hp.
    apply andb_prop in Hp as [[[[-> _]%andb_prop [-> _]%andb_prop]%andb_prop [-> _]%andb_prop]%andb_prop [-> _]%andb_prop].
    done. }
  assert (H : forall p step cur next, (0 < String.length (line p next +:+ json_show p step cur j))%nat).
  { intros p step cur next. rewrite str_length_app.
    pose proof (show_reads p step j Hj cur EmptyString eq_refl) as Hr.
    rewrite str_app_nil_r in Hr. apply (proj1 reads_length) in Hr. lia. }
  assert (Hshow : forall p step cur, (2 < String.length (json_show p step cur (JArray (j :: l))))%nat).
  { intros p step cur. cbn [json_show map commas]. specialize (H p step (if p then u32 (cur + step) else cur) (u32 (cur + step))).
    destruct (map _ l); rewrite !str_length_app in *; cbn [String.length]; lia. }
  unfold show_text. destruct indent as [n|]; [destruct (0 <=? n)|]; apply Hshow.
Qed.

(** ** The contract *)

Module Nlohmann.
#[export] Instance nlohmann : JsonText := {|
  json_dump := nlohmann_dump;
  json_parse := nlohmann_parse;
  json_stream := nlohmann_stream
|}.

#[export] Instance nlohmann_spec : JsonTextSpec nlohmann.
Proof.
  split; cbn [json_dump json_parse json_stream nlohmann].
  - intros indent j Hi Hc. pose proof (canonical_printable j Hc) as Hp.
    destruct (printable_parses indent j Hi Hp) as (s & H1 & H2 & _ & H3).
    exists s. by rewrite H2, canonical_norm.
  - intros indent j s Hi Hc Hs. pose proof (canonical_printable _ Hc) as Hp.
    destruct (printable_parses indent _ Hi Hp) as (s' & H1 & _ & H2 & _).
    rewrite nlohmann_dump_norm in H1. rewrite H1 in Hs. injection Hs as <-. by rewrite H2, (canonical_norm _ Hc).
  - intros indent j l s Hi Hc Hs. pose proof (canonical_printable _ Hc) as Hp.
    destruct (printable_shown indent _ Hi Hp) as [Hd _]. rewrite Hs in Hd. injection Hd as ->.
    by apply array_text_length.
  - intros indent j. apply nlohmann_dump_outcome.
  - intros s j H. pose proof (parsed_printable s j (or_introl H)) as Hw.
    by apply andb_prop in Hw as [[[_ ?]%andb_prop _]%andb_prop _].
  - apply parse_throws.
Qed.

End Nlohmann.

(** ** Properties *)

(** C28: printing and parsing are inverse: a value whose floats are finite doubles, and
    any value that was parsed, is read back from its text, as a whole text or as a
    line of a stream, as itself up to the type of its integers, which reading makes
    unsigned when they are not negative; every double is read back exactly, and
    printing again gives the same text. *)
Theorem json_roundtrip (indent : option Z) (j : json) :
  indent_ok indent = true -> printable j = true \/ (exists text, nlohmann_parse text = Ok j) ->
  exists s, nlohmann_dump indent j = Ok s /\ nlohmann_parse s = Ok (json_norm j) /\
    nlohmann_stream (s +:+ newline) = Ok (json_norm j) /\ nlohmann_dump indent (json_norm j) = Ok s.
Proof.
  intros Hi Hj. assert (Hp : printable j = true).
  { destruct Hj as [|[text Ht]]; [done|]. apply (parsed_printable text). by left. }
  destruct (printable_parses indent j Hi Hp) as (s & H1 & H2 & H3 & _).
  exists s. by rewrite nlohmann_dump_norm.
Qed.

(** A tenth, the least positive double, the greatest one, and minus zero. *)
Definition sampleFloats : json :=
  JArray [JFloat (S754_finite false 7205759403792794 (-56)); JFloat (S754_finite false 1 (-1074));
    JFloat (S754_finite true 9007199254740991 971); JFloat (S754_zero true); JInteger 5].

Lemma json_roundtrip_witness :
  exists s, nlohmann_dump (Some 4) sampleFloats = Ok s /\ nlohmann_parse s = Ok (json_norm sampleFloats).
Proof.
  destruct (json_roundtrip (Some 4) sampleFloats) as (s & H1 & H2 & _); [reflexivity|left; vm_compute; reflexivity|].
  exists s. split; [exact H1|exact H2].
Defined.
