(* ===== verification/Transaction.v ===== *)
(** * Transaction: src/src/transaction/transaction.cpp

    A transaction, its identifier, its signature check, the replay window on its
    timestamp and its JSON form. The clock is the argument [now] (nanoseconds of
    [system_clock]); randomness of signing is the argument [entropy]. *)

From S2P Require Import Prelude StdTime Json Crypto.

Record Transaction := mkTx {
  txID : string;
  senderPublicKey : string;
  receiverPublicKey : string;
  fromAddress : string;
  toAddress : string;
  amount : Z;             (* uint64_t *)
  nonce : Z;              (* uint64_t *)
  payload : string;
  timestamp : string;
  digitalSignature : string
}.

#[export] Instance Transaction_eq_dec : EqDecision Transaction.
Proof. solve_decision. Defined.

(** The default member values. *)
Definition emptyTx : Transaction := mkTx "" "" "" "" "" 0 0 "" "" "".

Definition set_txID (id : string) (tx : Transaction) : Transaction :=
  mkTx id (senderPublicKey tx) (receiverPublicKey tx) (fromAddress tx) (toAddress tx)
    (amount tx) (nonce tx) (payload tx) (timestamp tx) (digitalSignature tx).

Definition set_signature (sig : string) (tx : Transaction) : Transaction :=
  mkTx (txID tx) (senderPublicKey tx) (receiverPublicKey tx) (fromAddress tx) (toAddress tx)
    (amount tx) (nonce tx) (payload tx) (timestamp tx) sig.

(** The fixed-width fields hold 64-bit values. *)
Definition tx_wf (tx : Transaction) : Prop := in_u 64 (amount tx) /\ in_u 64 (nonce tx).

(** [buildTxCore]: the signed text, fields separated by bars. *)
Definition buildTxCore (tx : Transaction) : string :=
  senderPublicKey tx +:+ "|" +:+
  receiverPublicKey tx +:+ "|" +:+
  fromAddress tx +:+ "|" +:+
  toAddress tx +:+ "|" +:+
  to_string (amount tx) +:+ "|" +:+
  to_string (nonce tx) +:+ "|" +:+
  payload tx +:+ "|" +:+
  timestamp tx.

Definition isCoinbase (tx : Transaction) : bool := String.eqb (senderPublicKey tx) "COINBASE".

(** [isExpired(windowSeconds)] at clock [now]. The difference of the two clock
    values is a 64-bit nanosecond count. *)
Definition isExpired (now windowSeconds : Z) (tx : Transaction) : bool :=
  match get_time (timestamp tx) with
  | None => true
  | Some tm =>
      let txTime := from_time_t (timegm tm) in
      let diff := to_seconds (i64 (now - txTime)) in
      windowSeconds <? Z.abs diff
  end.

Definition currentTimestamp (now : Z) : string := iso_now now.

Section transaction.
Context `{OS : OpenSSL}.

Definition computeTxID (tx : Transaction) : Transaction :=
  set_txID (sha256 (buildTxCore tx)) tx.

(** [Transaction::sign]: computes the identifier when it is missing. *)
Definition signTx (entropy : Z) (privateKey : string) (tx : Transaction) : result Transaction :=
  let tx := if str_empty (txID tx) then computeTxID tx else tx in
  let! sig := Crypto.sign entropy (txID tx) privateKey in
  Ok (set_signature sig tx).

(** [Transaction::verify] *)
Definition verifyTx (tx : Transaction) : bool :=
  if isCoinbase tx then true
  else if amount tx =? 0 then false
  else if str_empty (txID tx) || str_empty (digitalSignature tx) || str_empty (senderPublicKey tx)
  then false
  else
    let expectedFromV2 := deriveAddressV2 (senderPublicKey tx) in
    let expectedFromLegacy := deriveAddressLegacy (senderPublicKey tx) in
    if negb (str_empty (fromAddress tx)) &&
       negb (String.eqb (fromAddress tx) expectedFromV2) &&
       negb (String.eqb (fromAddress tx) expectedFromLegacy)
    then false
    else
      let computedID := sha256 (buildTxCore tx) in
      if negb (String.eqb computedID (txID tx)) then false
      else Crypto.verify (txID tx) (digitalSignature tx) (senderPublicKey tx).

(** ** JSON *)

Definition txToJson (tx : Transaction) : json :=
  json_object [
    ("txID", JString (txID tx));
    ("senderPublicKey", JString (senderPublicKey tx));
    ("receiverPublicKey", JString (receiverPublicKey tx));
    ("fromAddress", JString (fromAddress tx));
    ("toAddress", JString (toAddress tx));
    ("amount", JUnsigned (amount tx));
    ("nonce", JUnsigned (nonce tx));
    ("payload", JString (payload tx));
    ("timestamp", JString (timestamp tx));
    ("digitalSignature", JString (digitalSignature tx))].

(** The "backward compatibility" defaults of [fromJson]. *)
Definition fillLegacy (tx : Transaction) : Transaction :=
  let from' :=
    if str_empty (fromAddress tx) && negb (str_empty (senderPublicKey tx)) &&
       negb (String.eqb (senderPublicKey tx) "COINBASE")
    then deriveAddressV2 (senderPublicKey tx) else fromAddress tx in
  let to' :=
    if str_empty (toAddress tx) && negb (str_empty (receiverPublicKey tx))
    then deriveAddressV2 (receiverPublicKey tx) else toAddress tx in
  let amount' := if (amount tx =? 0) && isCoinbase tx then 50 else amount tx in
  mkTx (txID tx) (senderPublicKey tx) (receiverPublicKey tx) from' to'
    amount' (nonce tx) (payload tx) (timestamp tx) (digitalSignature tx).

Definition txFromJson (j : json) : result Transaction :=
  let! id := value_string "txID" "" j in
  let! spk := value_string "senderPublicKey" "" j in
  let! rpk := value_string "receiverPublicKey" "" j in
  let! from := value_string "fromAddress" "" j in
  let! to := value_string "toAddress" "" j in
  let! amt := value_u64 "amount" 0 j in
  let! n := value_u64 "nonce" 0 j in
  let! pl := value_string "payload" "" j in
  let! ts := value_string "timestamp" "" j in
  let! sig := value_string "digitalSignature" "" j in
  Ok (fillLegacy (mkTx id spk rpk from to amt n pl ts sig)).
End transaction.

(** ** Lemmas *)

Section transaction_lemmas.
Context `{OS : OpenSSL}.

(** What a successful check of a user transaction guarantees. *)
Lemma verifyTx_user tx :
  isCoinbase tx = false ->
  verifyTx tx = true <->
  amount tx <> 0 /\ txID tx = sha256 (buildTxCore tx) /\ txID tx <> "" /\
  digitalSignature tx <> "" /\ senderPublicKey tx <> "" /\
  (fromAddress tx = "" \/ fromAddress tx = deriveAddressV2 (senderPublicKey tx) \/
   fromAddress tx = deriveAddressLegacy (senderPublicKey tx)) /\
  Crypto.verify (txID tx) (digitalSignature tx) (senderPublicKey tx) = true.
Proof.
  intros Hcb. unfold verifyTx. rewrite Hcb, !str_empty_spec.
  destruct (Z.eqb_spec (amount tx) 0); [naive_solver|].
  destruct (String.eqb_spec (fromAddress tx) (deriveAddressV2 (senderPublicKey tx)));
  destruct (String.eqb_spec (fromAddress tx) (deriveAddressLegacy (senderPublicKey tx)));
  destruct (String.eqb_spec (sha256 (buildTxCore tx)) (txID tx));
  repeat case_bool_decide; simpl; naive_solver.
Qed.

Lemma fillLegacy_id tx :
  (fromAddress tx <> "" \/ senderPublicKey tx = "" \/ isCoinbase tx = true) ->
  (toAddress tx <> "" \/ receiverPublicKey tx = "") ->
  (amount tx <> 0 \/ isCoinbase tx = false) ->
  fillLegacy tx = tx.
Proof.
  intros Hf Ht Ha. destruct tx as [id spk rpk from to amt n pl ts sig].
  unfold fillLegacy, isCoinbase in *. simpl in *. rewrite !str_empty_spec.
  f_equal.
  - destruct (String.eqb_spec spk "COINBASE"); repeat case_bool_decide; naive_solver.
  - repeat case_bool_decide; naive_solver.
  - destruct (Z.eqb_spec amt 0); destruct (String.eqb spk "COINBASE"); naive_solver.
Qed.

(** Reading back what [toJson] wrote is [fillLegacy]. *)
Lemma txFromJson_toJson tx :
  tx_wf tx -> txFromJson (txToJson tx) = Ok (fillLegacy tx).
Proof.
  intros [Ha Hn]. unfold txFromJson, txToJson. simpl.
  unfold value_u64, jvalue. simpl. rewrite !wrapu_small by done. by destruct tx.
Qed.

Lemma computeTxID_core tx : buildTxCore (computeTxID tx) = buildTxCore tx.
Proof. by destruct tx. Qed.

Lemma isCoinbase_computeTxID tx : isCoinbase (computeTxID tx) = isCoinbase tx.
Proof. by destruct tx. Qed.
End transaction_lemmas.

#[export] Hint Rewrite @computeTxID_core @isCoinbase_computeTxID : chain.
