(* ===== verification/Block.v ===== *)
(** * Block: src/src/block/block.cpp

    A block, its Merkle root, its hash, proof-of-work mining, validation and its
    JSON form. The mining loop [while (hash.substr(0, difficulty) != target)]
    takes fuel: [None] means the loop was still running. *)

From S2P Require Import Prelude StdTime Json Crypto Transaction.
From Equations Require Import Equations.

Record Block := mkBlock {
  index : Z;                (* uint64_t *)
  timestamp : string;
  previousHash : string;
  transactions : list Transaction;
  merkleRoot : string;
  nonce : Z;                (* uint64_t *)
  difficulty : Z;           (* uint32_t *)
  hash : string
}.

#[export] Instance Block_eq_dec : EqDecision Block.
Proof. solve_decision. Defined.

(** [Block::Block()] *)
Definition emptyBlock : Block := mkBlock 0 "" "" [] "" 0 1 "".

Definition set_merkleRoot (r : string) (b : Block) : Block :=
  mkBlock (index b) (timestamp b) (previousHash b) (transactions b) r (nonce b)
    (difficulty b) (hash b).
Definition set_nonce (n : Z) (b : Block) : Block :=
  mkBlock (index b) (timestamp b) (previousHash b) (transactions b) (merkleRoot b) n
    (difficulty b) (hash b).
Definition set_hash (h : string) (b : Block) : Block :=
  mkBlock (index b) (timestamp b) (previousHash b) (transactions b) (merkleRoot b) (nonce b)
    (difficulty b) h.
Definition set_transactions (txs : list Transaction) (b : Block) : Block :=
  mkBlock (index b) (timestamp b) (previousHash b) txs (merkleRoot b) (nonce b)
    (difficulty b) (hash b).

Definition block_wf (b : Block) : Prop :=
  in_u 64 (index b) /\ in_u 64 (nonce b) /\ in_u 32 (difficulty b) /\
  Forall tx_wf (transactions b).

(** The same test as a boolean. *)
Definition block_wfb (b : Block) : bool :=
  in_ub 64 (index b) && in_ub 64 (nonce b) && in_ub 32 (difficulty b) &&
  forallb (fun tx => in_ub 64 (amount tx) && in_ub 64 (Transaction.nonce tx)) (transactions b).

Lemma block_wfb_spec b : block_wfb b = true -> block_wf b.
Proof.
  unfold block_wfb, block_wf. intros H. bool_to_prop. split_and!; auto using in_ub_spec.
  apply Forall_forall. intros tx Hin%list_elem_of_In. rewrite forallb_forall in *.
  match goal with H : forall x, In x _ -> _ |- _ => apply H in Hin end.
  bool_to_prop. split; by apply in_ub_spec.
Qed.

Section block.
Context `{OS : OpenSSL}.

(** ** Merkle root *)

(** The leaf of a transaction: its identifier, or a hash of four fields when
    the identifier is empty. *)
Definition merkle_leaf (tx : Transaction) : string :=
  if str_empty (txID tx)
  then sha256 (senderPublicKey tx +:+ receiverPublicKey tx +:+ payload tx
               +:+ Transaction.timestamp tx)
  else txID tx.

(** One round of the loop: pairs are hashed together, an odd last element is
    hashed with itself. *)
Fixpoint merkle_level (hashes : list string) : list string :=
  match hashes with
  | [] => []
  | [h] => [sha256 (h +:+ h)]
  | h1 :: h2 :: rest => sha256 (h1 +:+ h2) :: merkle_level rest
  end.

Lemma merkle_level_length hs :
  length (merkle_level hs) = Nat.div2 (S (length hs)).
Proof.
  enough (H : forall n hs, (length hs <= n)%nat ->
    length (merkle_level hs) = Nat.div2 (S (length hs))) by (eapply H; done).
  intros n. induction n as [|n IH]; intros [|h1 [|h2 rest]] Hn; simpl in *; try done; try lia.
  f_equal. rewrite IH by lia. done.
Qed.

(** [while (hashes.size() > 1) ...; return hashes[0]] *)
Equations? merkle_reduce (hashes : list string) : string by wf (length hashes) lt :=
  merkle_reduce [] := "";
  merkle_reduce [h] := h;
  merkle_reduce (h1 :: h2 :: rest) := merkle_reduce (merkle_level (h1 :: h2 :: rest)).
Proof.
  simpl. rewrite merkle_level_length.
  pose proof (Nat.le_div2_diag_l (S (length rest))).
  assert (Nat.div2 (S (length rest)) <= length rest \/ length rest = 0)%nat as [|E]; [|lia|].
  - destruct (length rest) as [|n]; [by right|left]. simpl.
    pose proof (Nat.le_div2_diag_l n). lia.
  - rewrite E. simpl. lia.
Qed.

Definition computeMerkleRoot (b : Block) : string :=
  match transactions b with
  | [] => sha256 ""
  | txs => merkle_reduce (map merkle_leaf txs)
  end.

(** ** Hash *)

(** The text hashed: six fields streamed one after the other. *)
Definition hash_preimage (b : Block) : string :=
  to_string (index b) +:+ timestamp b +:+ merkleRoot b +:+ previousHash b
  +:+ to_string (nonce b) +:+ to_string (difficulty b).

Definition calculateHash (b : Block) : string := sha256 (hash_preimage b).

(** [hash.substr(0, difficulty) == std::string(difficulty, '0')] *)
Definition meets_target (h : string) (d : Z) : bool :=
  String.eqb (str_take (Z.to_nat d) h) (str_repeat (Z.to_nat d) "0").

(** [Block(idx, prevHash, txs, diff)] at clock [now]. *)
Definition newBlock (now idx : Z) (prevHash : string) (txs : list Transaction) (diff : Z) : Block :=
  let b := mkBlock idx (iso_now now) prevHash txs "" 0 diff "" in
  set_merkleRoot (computeMerkleRoot b) b.

(** ** Mining *)

(** The loop: test the hash; if it misses, [nonce++] and rehash. *)
Definition mine_step (b : Block) : Block :=
  let b := set_nonce (u64 (nonce b + 1)) b in
  set_hash (calculateHash b) b.

Fixpoint mine_loop (fuel : nat) (b : Block) : option Block :=
  if meets_target (hash b) (difficulty b) then Some b
  else match fuel with
       | O => None
       | S fuel => mine_loop fuel (mine_step b)
       end.

Definition mine_init (b : Block) : Block :=
  let b := set_merkleRoot (computeMerkleRoot b) b in
  let b := set_nonce 0 b in
  set_hash (calculateHash b) b.

Definition mineBlock (fuel : nat) (b : Block) : option Block := mine_loop fuel (mine_init b).

(** ** Validation *)

Definition isValid (b : Block) : bool :=
  if negb (String.eqb (hash b) (calculateHash b)) then false
  else if negb (meets_target (hash b) (difficulty b)) then false
  else if negb (String.eqb (merkleRoot b) (computeMerkleRoot b)) then false
  else true.

Definition hasValidTransactions (b : Block) : bool := forallb verifyTx (transactions b).

(** ** Genesis *)

Definition genesisCoinbase : Transaction :=
  computeTxID (mkTx "" "COINBASE" "" "COINBASE" "GENESIS" 50 0 "Genesis Block"
                 "2026-01-01T00:00:00Z" "").

Definition createGenesis (fuel : nat) (diff : Z) : option Block :=
  let genesis := mkBlock 0 "2026-01-01T00:00:00Z" (str_repeat 64 "0") [genesisCoinbase] "" 0 diff "" in
  let genesis := set_merkleRoot (computeMerkleRoot genesis) genesis in
  mineBlock fuel genesis.

(** ** JSON *)

Definition blockToJson (b : Block) : json :=
  let j := JNull in
  let j := json_set "index" (JUnsigned (index b)) j in
  let j := json_set "timestamp" (JString (timestamp b)) j in
  let j := json_set "previousHash" (JString (previousHash b)) j in
  let j := json_set "merkleRoot" (JString (merkleRoot b)) j in
  let j := json_set "nonce" (JUnsigned (nonce b)) j in
  let j := json_set "difficulty" (JUnsigned (difficulty b)) j in
  let j := json_set "hash" (JString (hash b)) j in
  json_set "transactions" (JArray (map txToJson (transactions b))) j.

Definition blockFromJson (j : json) : result Block :=
  let! idx := value_u64 "index" 0 j in
  let! ts := value_string "timestamp" "" j in
  let! prev := value_string "previousHash" "" j in
  let! root := value_string "merkleRoot" "" j in
  let! n := value_u64 "nonce" 0 j in
  let! d := value_u32 "difficulty" 1 j in
  let! h := value_string "hash" "" j in
  let! txs :=
    match j with
    | JObject m =>
        match obj_find "transactions" m with
        | Some (JArray l) => rmap txFromJson l
        | _ => Ok []
        end
    | _ => Ok []
    end in
  Ok (mkBlock idx ts prev txs root n d h).
End block.

(** ** Lemmas *)

Section block_lemmas.
Context `{OS : OpenSSL}.
Implicit Types b : Block.

(** *** Projections of the setters *)

Lemma calculateHash_set_hash h b : calculateHash (set_hash h b) = calculateHash b.
Proof. done. Qed.

Lemma computeMerkleRoot_txs b b' :
  transactions b = transactions b' -> computeMerkleRoot b = computeMerkleRoot b'.
Proof. unfold computeMerkleRoot. by intros ->. Qed.

Lemma isValid_spec b :
  isValid b = true <->
  hash b = calculateHash b /\ meets_target (hash b) (difficulty b) = true /\
  merkleRoot b = computeMerkleRoot b.
Proof.
  unfold isValid.
  destruct (String.eqb_spec (hash b) (calculateHash b)),
    (meets_target (hash b) (difficulty b)),
    (String.eqb_spec (merkleRoot b) (computeMerkleRoot b)); simpl; naive_solver.
Qed.

Lemma hasValidTransactions_spec b :
  hasValidTransactions b = true <-> Forall (fun tx => verifyTx tx = true) (transactions b).
Proof. unfold hasValidTransactions. rewrite forallb_forall, Forall_forall.
  by setoid_rewrite list_elem_of_In. Qed.

Lemma meets_target_long h d :
  (String.length h < Z.to_nat d)%nat -> meets_target h d = false.
Proof.
  intros Hd. unfold meets_target. destruct (String.eqb_spec (str_take (Z.to_nat d) h)
    (str_repeat (Z.to_nat d) "0")) as [E|]; [|done].
  apply (f_equal String.length) in E. rewrite str_length_take, str_length_repeat in E. lia.
Qed.

(** *** Mining *)

(** The block whose nonce is [n], ready to be tested. *)
Definition candidate (b : Block) (n : nat) : Block :=
  let b := set_merkleRoot (computeMerkleRoot b) b in
  let b := set_nonce (u64 (Z.of_nat n)) b in
  set_hash (calculateHash b) b.

Lemma mine_init_candidate b : mine_init b = candidate b 0.
Proof. done. Qed.

Lemma mine_step_candidate b n : mine_step (candidate b n) = candidate b (S n).
Proof.
  unfold mine_step, candidate, set_nonce, set_merkleRoot, set_hash; simpl.
  replace (u64 (u64 (Z.of_nat n) + 1)) with (u64 (Z.of_nat (S n))); [done|].
  unfold wrapu. rewrite Z.add_mod_idemp_l by lia. f_equal. lia.
Qed.

Lemma mine_loop_candidate b fuel n b' :
  mine_loop fuel (candidate b n) = Some b' <->
  exists m, (n <= m <= n + fuel)%nat /\ b' = candidate b m /\
    meets_target (hash (candidate b m)) (difficulty b) = true /\
    forall k, (n <= k < m)%nat -> meets_target (hash (candidate b k)) (difficulty b) = false.
Proof.
  revert n. induction fuel as [|fuel IH]; intros n; cbn [mine_loop].
  - change (difficulty (candidate b n)) with (difficulty b).
    destruct (meets_target _ _) eqn:E; split.
    + intros [= <-]. exists n. repeat split; [lia..|done|]. intros; lia.
    + intros (m & Hm & -> & _). do 2 f_equal. lia.
    + done.
    + intros (m & Hm & -> & Ht & _). replace m with n in Ht by lia. congruence.
  - change (difficulty (candidate b n)) with (difficulty b).
    destruct (meets_target _ _) eqn:E.
    + split.
      * intros [= <-]. exists n. repeat split; [lia..|done|]. intros; lia.
      * intros (m & Hm & -> & _ & Hlt). destruct (decide (m = n)) as [->|]; [done|].
        rewrite Hlt in E by lia. done.
    + rewrite mine_step_candidate, IH. split; intros (m & Hm & -> & Ht & Hlt).
      * exists m. repeat split; [lia..|done|]. intros k Hk.
        destruct (decide (k = n)) as [->|]; [done|]. apply Hlt. lia.
      * assert (m <> n) by (intros ->; congruence).
        exists m. repeat split; [lia..|done|]. intros k Hk. apply Hlt. lia.
Qed.

Lemma candidate_isValid b n :
  meets_target (hash (candidate b n)) (difficulty b) = true -> isValid (candidate b n) = true.
Proof. intros. apply isValid_spec. done. Qed.

Lemma mineBlock_candidate fuel b b' :
  mineBlock fuel b = Some b' ->
  exists n, b' = candidate b n /\ meets_target (hash b') (difficulty b') = true.
Proof.
  unfold mineBlock. rewrite mine_init_candidate, mine_loop_candidate.
  intros (m & _ & -> & Ht & _). eauto.
Qed.

(** The first nonce that meets the target, and what the loop does with it. *)
Lemma least_nonce b n :
  meets_target (hash (candidate b n)) (difficulty b) = true ->
  exists m, (m <= n)%nat /\ meets_target (hash (candidate b m)) (difficulty b) = true /\
    forall k, (k < m)%nat -> meets_target (hash (candidate b k)) (difficulty b) = false.
Proof.
  induction n as [n IH] using lt_wf_ind. intros Hn.
  destruct (decide (Exists (fun k => meets_target (hash (candidate b k)) (difficulty b) = true) (seq 0 n))) as [H|H].
  - apply Exists_exists in H as (k & Hk%elem_of_seq & Ht). destruct (IH k) as (m & Hm & H); [lia|done|].
    exists m. split; [lia|done].
  - exists n. split_and!; [done|done|]. intros k Hk. apply not_true_is_false. intros Ht. apply H, Exists_exists.
    exists k. split; [apply elem_of_seq; lia|done].
Qed.

Lemma mineBlock_fuel fuel b m :
  meets_target (hash (candidate b m)) (difficulty b) = true ->
  (forall k, (k < m)%nat -> meets_target (hash (candidate b k)) (difficulty b) = false) ->
  mineBlock fuel b = if Nat.leb m fuel then Some (candidate b m) else None.
Proof.
  intros Ht Hlt. unfold mineBlock. rewrite mine_init_candidate. destruct (Nat.leb_spec m fuel).
  - apply mine_loop_candidate. exists m. split_and!; [lia..|done|done|]. intros k Hk. apply Hlt. lia.
  - destruct (mine_loop fuel (candidate b 0)) as [b'|] eqn:E; [|done].
    apply mine_loop_candidate in E as (j & Hj & _ & Hj' & _). rewrite Hlt in Hj' by lia. done.
Qed.

Lemma mine_loop_mono fuel fuel' b b' :
  (fuel <= fuel')%nat -> mine_loop fuel b = Some b' -> mine_loop fuel' b = Some b'.
Proof.
  revert fuel' b. induction fuel as [|fuel IH]; intros fuel' b Hle; simpl;
    destruct fuel' as [|fuel']; simpl; destruct (meets_target _ _); try done; try lia.
  apply IH. lia.
Qed.

(** *** Merkle tree *)

(** An odd list and the same list with its last element twice have one level
    above them. *)
Lemma merkle_level_dup l x :
  Nat.Even (length l) -> merkle_level (l ++ [x; x]) = merkle_level (l ++ [x]).
Proof.
  enough (H : forall n l, (length l <= n)%nat -> Nat.Even (length l) ->
    merkle_level (l ++ [x; x]) = merkle_level (l ++ [x])) by (eapply H; done).
  intros n. induction n as [|n IH]; intros [|h1 [|h2 l']] Hn Hev; simpl in *; try done; try lia.
  - exfalso. destruct Hev as [k Hk]. lia.
  - f_equal. apply IH; [lia|]. destruct Hev as [[|k] Hk]; [lia|]. exists k. lia.
Qed.

Lemma merkle_reduce_level l : (2 <= length l)%nat -> merkle_reduce l = merkle_reduce (merkle_level l).
Proof. destruct l as [|h1 [|h2 l]]; simpl; intros; try lia. by simp merkle_reduce. Qed.

Lemma merkle_reduce_dup l x :
  Nat.Even (length l) -> l <> [] -> merkle_reduce (l ++ [x; x]) = merkle_reduce (l ++ [x]).
Proof.
  intros He Hl. assert (length l <> 0)%nat by (by destruct l).
  rewrite (merkle_reduce_level (l ++ [x; x])), (merkle_reduce_level (l ++ [x]))
    by (rewrite length_app; simpl; lia).
  by rewrite merkle_level_dup.
Qed.

Lemma computeMerkleRoot_map b txs :
  txs <> [] -> computeMerkleRoot (set_transactions txs b) = merkle_reduce (map merkle_leaf txs).
Proof. by destruct txs. Qed.

(** The root depends on the leaves only. *)
Lemma computeMerkleRoot_leaves b b' :
  map merkle_leaf (transactions b) = map merkle_leaf (transactions b') ->
  computeMerkleRoot b = computeMerkleRoot b'.
Proof.
  unfold computeMerkleRoot. destruct (transactions b), (transactions b'); try done.
  intros H. by rewrite H.
Qed.

Lemma merkle_root_dup b txs tx :
  transactions b = txs ++ [tx] -> txs <> [] -> Nat.Even (length txs) ->
  computeMerkleRoot (set_transactions (txs ++ [tx; tx]) b) = computeMerkleRoot b.
Proof.
  intros Hb Hne Hev. rewrite computeMerkleRoot_map by (by destruct txs).
  rewrite (computeMerkleRoot_txs b (set_transactions (txs ++ [tx]) b)) by done.
  rewrite computeMerkleRoot_map by (by destruct txs).
  rewrite !map_app. apply merkle_reduce_dup; [by rewrite length_map|]. by destruct txs.
Qed.

(** *** Collisions

    The texts a reduction hashes; two reductions with the same root and the
    same number of leaves differ only through a collision between them. *)

Definition collision (x y : string) : Prop := x <> y /\ sha256 x = sha256 y.

Fixpoint level_inputs (hashes : list string) : list string :=
  match hashes with
  | [] => []
  | [h] => [h +:+ h]
  | h1 :: h2 :: rest => (h1 +:+ h2) :: level_inputs rest
  end.

Lemma merkle_level_inputs l : merkle_level l = map sha256 (level_inputs l).
Proof.
  enough (H : forall n l, (length l <= n)%nat -> merkle_level l = map sha256 (level_inputs l))
    by (eapply H; done).
  intros n. induction n as [|n IH]; intros [|h1 [|h2 l']] Hn; simpl in *; try done; try lia.
  f_equal. apply IH. lia.
Qed.

Definition leaves64 (l : list string) : Prop := Forall (fun h => String.length h = 64%nat) l.

Lemma level_inputs_inj l1 l2 :
  leaves64 l1 -> leaves64 l2 -> length l1 = length l2 ->
  level_inputs l1 = level_inputs l2 -> l1 = l2.
Proof.
  enough (H : forall n l1 l2, (length l1 <= n)%nat -> leaves64 l1 -> leaves64 l2 ->
    length l1 = length l2 -> level_inputs l1 = level_inputs l2 -> l1 = l2)
    by (eapply H; done).
  clear. intros n. unfold leaves64.
  induction n as [|n IH]; intros [|a1 [|a2 l1]] [|b1 [|b2 l2]] Hn F1 F2 Hl He;
    simpl in *; try done; try lia;
    repeat match goal with F : Forall _ (_ :: _) |- _ => apply Forall_cons in F as [? F] end.
  - injection He as He. apply str_app_inj in He as [-> _]; [done|congruence].
  - injection He as He Hr. apply str_app_inj in He as [-> ->]; [|congruence].
    do 2 f_equal. apply IH; try done; lia.
Qed.

Lemma map_sha256_diff (l1 l2 : list string) :
  map sha256 l1 = map sha256 l2 -> l1 <> l2 ->
  exists x y, x ∈ l1 /\ y ∈ l2 /\ collision x y.
Proof.
  revert l2. induction l1 as [|x l1 IH]; intros [|y l2] Hm Hne; simplify_eq/=.
  destruct (decide (x = y)) as [->|Hxy].
  - destruct (IH l2) as (x' & y' & ? & ? & ?); [done|congruence|]. exists x', y'. set_solver.
  - exists x, y. split_and!; [set_solver..|]. done.
Qed.
End block_lemmas.

(** *** JSON *)

(** A block with the legacy defaults of [Transaction::fromJson] filled in. *)
Definition fillLegacyBlock `{OS : OpenSSL} (b : Block) : Block :=
  set_transactions (map fillLegacy (transactions b)) b.

Lemma blockFromJson_toJson `{OS : OpenSSL} (b : Block) :
  block_wf b -> blockFromJson (blockToJson b) = Ok (fillLegacyBlock b).
Proof.
  intros (Hi & Hn & Hd & Htx). destruct b as [idx ts prev txs root n d h]; simpl in *.
  unfold blockFromJson, blockToJson. simpl.
  unfold value_u64, value_u32, jvalue. simpl. rewrite !wrapu_small by done.
  rewrite rmap_compose. rewrite (rmap_map _ fillLegacy); [done|].
  intros tx Hin. apply txFromJson_toJson. rewrite Forall_forall in Htx. auto.
Qed.

(** A transaction the legacy defaults leave alone. *)
Definition tx_complete (tx : Transaction) : Prop :=
  (fromAddress tx <> "" \/ senderPublicKey tx = "" \/ isCoinbase tx = true) /\
  (toAddress tx <> "" \/ receiverPublicKey tx = "") /\
  (amount tx <> 0 \/ isCoinbase tx = false).

Lemma fillLegacyBlock_id `{OS : OpenSSL} (b : Block) :
  Forall tx_complete (transactions b) -> fillLegacyBlock b = b.
Proof.
  intros Hf. assert (Hm : map fillLegacy (transactions b) = transactions b).
  { induction Hf as [|tx txs (H1 & H2 & H3) _ IH]; simpl; [done|]. by rewrite fillLegacy_id, IH. }
  unfold fillLegacyBlock, set_transactions. rewrite Hm. by destruct b.
Qed.

Lemma fillLegacyChain_id `{OS : OpenSSL} chain :
  Forall (fun b => Forall tx_complete (transactions b)) chain -> map fillLegacyBlock chain = chain.
Proof. induction 1 as [|b chain Hb _ IH]; simpl; [done|]. by rewrite fillLegacyBlock_id, IH. Qed.

Lemma fillLegacyBlock_hash `{OS : OpenSSL} (b : Block) :
  calculateHash (fillLegacyBlock b) = calculateHash b.
Proof. done. Qed.

(** The defaults keep the identifiers, hence the leaves with an identifier. *)
Lemma fillLegacy_txID `{OS : OpenSSL} tx : txID (fillLegacy tx) = txID tx.
Proof. done. Qed.

Section merkle_binding.
Context `{OS : OpenSSL} {OSS : OpenSSLSpec OS}.

(** The texts hashed on the way to the root. *)
Fixpoint merkle_inputs (fuel : nat) (l : list string) : list string :=
  match fuel with
  | O => []
  | S fuel => level_inputs l ++ merkle_inputs fuel (merkle_level l)
  end.

Lemma merkle_level_leaves64 l : leaves64 (merkle_level l).
Proof.
  rewrite merkle_level_inputs. unfold leaves64. induction (level_inputs l); simpl; constructor;
    auto using sha256_length.
Qed.

Lemma merkle_reduce_binding n l1 l2 :
  (length l1 <= n)%nat -> length l1 = length l2 -> leaves64 l1 -> leaves64 l2 ->
  merkle_reduce l1 = merkle_reduce l2 ->
  l1 = l2 \/ exists x y, x ∈ merkle_inputs n l1 /\ y ∈ merkle_inputs n l2 /\ collision x y.
Proof.
  revert l1 l2. induction n as [|n IH]; intros l1 l2 Hn Hl F1 F2 Hr.
  { left. destruct l1, l2; simpl in *; (done || lia). }
  destruct (decide (length l1 <= 1)%nat) as [Hs|Hs].
  { left. destruct l1 as [|x [|]], l2 as [|y [|]]; simpl in *; try done; try lia.
    simp merkle_reduce in Hr. congruence. }
  rewrite (merkle_reduce_level l1), (merkle_reduce_level l2) in Hr by lia.
  assert (Hll : length (merkle_level l1) = length (merkle_level l2)).
  { rewrite !merkle_level_length. by rewrite Hl. }
  destruct (decide (merkle_level l1 = merkle_level l2)) as [Heq|Hne].
  - destruct (decide (level_inputs l1 = level_inputs l2)) as [Hi|Hi].
    + left. by apply level_inputs_inj.
    + right. rewrite !merkle_level_inputs in Heq.
      destruct (map_sha256_diff _ _ Heq Hi) as (x & y & ? & ? & ?).
      exists x, y. simpl. set_solver.
  - destruct (IH (merkle_level l1) (merkle_level l2)) as [?|(x & y & ? & ? & ?)];
      auto using merkle_level_leaves64; [|done|].
    + rewrite merkle_level_length. destruct (length l1) as [|[|m]]; [lia..|]. simpl.
      pose proof (Nat.le_div2_diag_l (S m)). destruct m as [|m]; simpl in *; [lia|].
      pose proof (Nat.le_div2_diag_l m). lia.
    + right. exists x, y. simpl. set_solver.
Qed.
End merkle_binding.

(** ** Decimal digits, one more *)

Lemma to_string_snoc n k :
  0 < n -> 0 <= k <= 9 -> to_string (10 * n + k) = to_string n +:+ to_string k.
Proof.
  intros Hn Hk.
  assert (Hpos : forall z, 0 < z -> to_string z = pretty_N_go (Z.to_N z) "").
  { intros [|p|p] ?; try lia. unfold to_string, pretty, pretty_Z, pretty, pretty_positive,
      pretty, pretty_N. rewrite decide_False by lia. done. }
  assert (Happ : forall m s, pretty_N_go m s = pretty_N_go m "" +:+ s).
  { intros m. induction (N.lt_wf_0 m) as [m _ IH]; intros s.
    destruct (decide (m = 0)%N) as [->|]; [done|].
    rewrite (pretty_N_go_step m s), (pretty_N_go_step m "") by lia.
    rewrite IH by (apply N.div_lt; lia).
    rewrite (IH (m `div` 10)%N) with (s := String _ "") by (apply N.div_lt; lia).
    by rewrite str_app_assoc. }
  rewrite !Hpos by lia. rewrite pretty_N_go_step by lia. rewrite Happ.
  replace (Z.to_N (10 * n + k) `div` 10)%N with (Z.to_N n)
    by (zify; rewrite ?Z2N.id by lia; Z.to_euclidean_division_equations; lia).
  replace (Z.to_N (10 * n + k) `mod` 10)%N with (Z.to_N k)
    by (zify; rewrite ?Z2N.id by lia; Z.to_euclidean_division_equations; lia).
  f_equal. assert (Hin : In k (map Z.of_nat (seq 0 10))).
  { apply in_map_iff. exists (Z.to_nat k). split; [lia|]. apply in_seq. lia. }
  simpl in Hin. repeat (destruct Hin as [<-|Hin]; [reflexivity|]). done.
Qed.

(** ** Properties *)

Section block_properties.
Context `{OS : OpenSSL}.

(** [mineBlock] returns exactly the block with the least nonce whose hash
    starts with [difficulty] zeros, and that block passes [isValid] with the
    transactions, index and links it was given. *)
Lemma mineBlock_least_nonce (fuel : nat) (b b' : Block) :
  mineBlock fuel b = Some b' <->
  exists n, (n <= fuel)%nat /\ b' = candidate b n /\ isValid b' = true /\
    forall k, (k < n)%nat -> meets_target (hash (candidate b k)) (difficulty b) = false.
Proof.
  unfold mineBlock. rewrite mine_init_candidate, mine_loop_candidate. split.
  - intros (n & Hn & -> & Ht & Hlt). exists n. split_and!; [lia|done| |intros; apply Hlt; lia].
    by apply candidate_isValid.
  - intros (n & Hn & -> & Hv & Hlt). apply isValid_spec in Hv as (_ & Ht & _).
    exists n. split_and!; [lia..|done|done|intros; apply Hlt; lia].
Qed.

(** C32: mining terminates exactly when some nonce meets the target. When the nonce
    [n] does, there is a least one [m], at most [n], and the loop returns the block
    with it, which is valid, after [m] increments: with any fuel from [m] on, and
    with none below. When no nonce does, the loop returns with no fuel. *)
Theorem mineBlock_terminates (b : Block) :
  (forall n, meets_target (hash (candidate b n)) (difficulty b) = true ->
    exists m, (m <= n)%nat /\ isValid (candidate b m) = true /\
      (forall k, (k < m)%nat -> meets_target (hash (candidate b k)) (difficulty b) = false) /\
      forall fuel, mineBlock fuel b = if Nat.leb m fuel then Some (candidate b m) else None) /\
  ((forall n, meets_target (hash (candidate b n)) (difficulty b) = false) -> forall fuel, mineBlock fuel b = None).
Proof.
  split.
  - intros n Hn. destruct (least_nonce b n Hn) as (m & Hm & Ht & Hlt). exists m.
    split_and!; [done|by apply candidate_isValid|done|]. intros fuel. by apply mineBlock_fuel.
  - intros Hno fuel. destruct (mineBlock fuel b) as [b'|] eqn:E; [|done].
    apply mineBlock_candidate in E as (n & -> & Ht). specialize (Hno n). cbn in *. congruence.
Qed.

(** A hash has 64 characters, so a difficulty above 64 makes [mineBlock]
    (and with it the creation of the genesis block at start-up) loop for ever. *)
Lemma mineBlock_diverges {OSS : OpenSSLSpec OS} (fuel : nat) (b : Block) :
  64 < difficulty b -> mineBlock fuel b = None.
Proof.
  intros Hd. destruct (mineBlock fuel b) as [b'|] eqn:E; [|done].
  apply mineBlock_candidate in E as (n & -> & Ht).
  rewrite meets_target_long in Ht; [done|].
  change (hash (candidate b n)) with (calculateHash (candidate b n)).
  unfold calculateHash. rewrite sha256_length. simpl. lia.
Qed.

(** The Merkle tree does not tell an odd list of three or more transactions
    from the same list with its last transaction repeated: the root, hence the
    block hash and [isValid], are the same for both blocks. *)
Lemma merkle_duplicate_last (b : Block) (txs : list Transaction) (tx : Transaction) :
  transactions b = txs ++ [tx] -> txs <> [] -> Nat.Even (length txs) ->
  let b' := set_transactions (txs ++ [tx; tx]) b in
  computeMerkleRoot b' = computeMerkleRoot b /\ calculateHash b' = calculateHash b /\
  isValid b' = isValid b.
Proof.
  intros Hb Hne Hev b'.
  assert (Hroot : computeMerkleRoot b' = computeMerkleRoot b) by (by eapply merkle_root_dup).
  split_and!; [done|done|]. unfold isValid. by rewrite Hroot.
Qed.

(** C33: with 64-character leaves, two equally long transaction lists with one
    Merkle root have the same leaves, or two of the texts hashed while
    computing that root collide. *)
Theorem merkle_root_binding {OSS : OpenSSLSpec OS} (b1 b2 : Block) :
  length (transactions b1) = length (transactions b2) ->
  leaves64 (map merkle_leaf (transactions b1)) ->
  leaves64 (map merkle_leaf (transactions b2)) ->
  computeMerkleRoot b1 = computeMerkleRoot b2 ->
  let n := length (transactions b1) in
  map merkle_leaf (transactions b1) = map merkle_leaf (transactions b2) \/
  exists x y, x ∈ merkle_inputs n (map merkle_leaf (transactions b1)) /\
    y ∈ merkle_inputs n (map merkle_leaf (transactions b2)) /\ collision x y.
Proof.
  intros Hl F1 F2 Hr n. unfold computeMerkleRoot in Hr.
  destruct (transactions b1) as [|t1 l1] eqn:E1, (transactions b2) as [|t2 l2] eqn:E2;
    [by left|done..|].
  apply merkle_reduce_binding; try done; rewrite ?length_map; done || lia.
Qed.

(** The hashed text puts nonce and difficulty next to each other with no
    separator, so moving a digit between them leaves the hash unchanged: a
    block of nonce [10n+k] and one-digit difficulty [d] hashes like the one of
    nonce [n] and difficulty [10k+d]. *)
Lemma calculateHash_nonce_difficulty (b : Block) (n k d : Z) :
  0 < n -> 1 <= k <= 9 -> 0 <= d <= 9 ->
  calculateHash (mkBlock (index b) (timestamp b) (previousHash b) (transactions b)
                   (merkleRoot b) (10 * n + k) d (hash b)) =
  calculateHash (mkBlock (index b) (timestamp b) (previousHash b) (transactions b)
                   (merkleRoot b) n (10 * k + d) (hash b)).
Proof.
  intros. unfold calculateHash, hash_preimage. simpl.
  rewrite !to_string_snoc by lia. by rewrite !str_app_assoc.
Qed.

(** A block written by [toJson] and read by [fromJson] comes back with every
    field equal, its transactions passed through the legacy defaults; a block
    whose transactions carry addresses and amounts comes back unchanged. *)
Lemma block_json_roundtrip (b : Block) :
  block_wf b ->
  blockFromJson (blockToJson b) = Ok (fillLegacyBlock b) /\
  (Forall tx_complete (transactions b) -> blockFromJson (blockToJson b) = Ok b).
Proof.
  intros Hwf. rewrite blockFromJson_toJson by done. split; [done|].
  intros Hf. by rewrite fillLegacyBlock_id.
Qed.
End block_properties.

(** ** Witnesses *)

Section block_witnesses.
Import ToyOpenSSL.

Definition sampleBlock : Block :=
  newBlock 1780000000000000000 1 (str_repeat 64 "a") [genesisCoinbase; genesisCoinbase; genesisCoinbase] 1.

(** The nonce 57 meets the target, and the loop stops there or before. *)
Lemma mineBlock_terminates_witness :
  exists m, (m <= 57)%nat /\
    mineBlock 57 (mkBlock 1 "" "" [] "" 0 1 "") = Some (candidate (mkBlock 1 "" "" [] "" 0 1 "") m).
Proof.
  destruct (proj1 (mineBlock_terminates (mkBlock 1 "" "" [] "" 0 1 "")) 57%nat) as (m & Hm & _ & _ & H).
  - vm_compute. reflexivity.
  - exists m. split; [exact Hm|]. rewrite (H 57%nat), (proj2 (Nat.leb_le _ _) Hm). reflexivity.
Defined.

Lemma mineBlock_diverges_witness :
  mineBlock 5 (mkBlock 1 "" "" [] "" 0 65 "") = None.
Proof. apply (mineBlock_diverges (OSS := toy_spec)). reflexivity. Defined.

Lemma merkle_duplicate_last_witness :
  computeMerkleRoot (set_transactions
    [genesisCoinbase; genesisCoinbase; genesisCoinbase; genesisCoinbase] sampleBlock)
  = computeMerkleRoot sampleBlock.
Proof.
  apply (merkle_duplicate_last sampleBlock [genesisCoinbase; genesisCoinbase] genesisCoinbase);
    [reflexivity|discriminate|exists 1%nat; reflexivity].
Defined.

Lemma merkle_root_binding_witness :
  map merkle_leaf (transactions sampleBlock) = map merkle_leaf (transactions sampleBlock) \/
  exists x y, x ∈ merkle_inputs 3 (map merkle_leaf (transactions sampleBlock)) /\
    y ∈ merkle_inputs 3 (map merkle_leaf (transactions sampleBlock)) /\ collision x y.
Proof.
  apply (merkle_root_binding (OSS := toy_spec) sampleBlock sampleBlock).
  - reflexivity.
  - repeat constructor.
  - repeat constructor.
  - reflexivity.
Defined.

Lemma calculateHash_nonce_difficulty_witness :
  calculateHash (mkBlock 1 "t" "p" [] "r" 17 2 "") = calculateHash (mkBlock 1 "t" "p" [] "r" 1 72 "").
Proof.
  apply (calculateHash_nonce_difficulty (mkBlock 1 "t" "p" [] "r" 0 0 "") 1 7 2); lia.
Defined.

Lemma block_json_roundtrip_witness : blockFromJson (blockToJson sampleBlock) = Ok sampleBlock.
Proof.
  apply (block_json_roundtrip sampleBlock).
  - unfold block_wf, tx_wf, in_u. split_and!; try done; repeat constructor; done.
  - repeat constructor; simpl; naive_solver.
Defined.
End block_witnesses.
