(* ===== verification/State.v ===== *)
(** * State: src/src/state/state_manager.cpp

    The in-memory state derived from the chain: balances, the last nonce of each
    sender, the identifiers spent so far and the transactions of each address.
    [std::map] and [std::set] are [gmap] and [gset]; the mutex is not modelled
    (every operation runs under it from start to end).

    The abstract side of the file is a ledger of postings in unbounded
    arithmetic: each transaction credits its receiver and, unless it is a
    coinbase, debits its sender. [rebuild_balances] and [supply_conserved] relate
    the machine arithmetic of the code (wrap-around credits, clamped debits) to
    that ledger. *)

From S2P Require Import Prelude StdTime Json Crypto Transaction Block.

Record StateManager := mkState {
  ownershipMap_ : gmap string (gset string);
  spentTxIDs_ : gset string;
  balances_ : gmap string Z;                            (* uint64_t *)
  lastNonceMap_ : gmap string Z;                        (* uint64_t *)
  transactionsByAddress_ : gmap string (list Transaction)
}.

#[export] Instance StateManager_eq_dec : EqDecision StateManager.
Proof. solve_decision. Defined.

Definition emptyState : StateManager := mkState ∅ ∅ ∅ ∅ ∅.

(** ** The member updates of [applyBlockState] *)

(** [balances_[address] += amount] *)
Definition credit (address : string) (amt : Z) (st : StateManager) : StateManager :=
  mkState (ownershipMap_ st) (spentTxIDs_ st)
    (<[address := u64 (default 0 (balances_ st !! address) + amt)]> (balances_ st))
    (lastNonceMap_ st) (transactionsByAddress_ st).

(** [transactionsByAddress_[address].push_back(tx)] *)
Definition push_history (address : string) (tx : Transaction) (st : StateManager) : StateManager :=
  mkState (ownershipMap_ st) (spentTxIDs_ st) (balances_ st) (lastNonceMap_ st)
    (<[address := default [] (transactionsByAddress_ st !! address) ++ [tx]]>
       (transactionsByAddress_ st)).

(** [ownershipMap_[senderPublicKey].insert(txID); spentTxIDs_.insert(txID)] *)
Definition record_spent (tx : Transaction) (st : StateManager) : StateManager :=
  mkState
    (<[senderPublicKey tx := {[txID tx]} ∪ default ∅ (ownershipMap_ st !! senderPublicKey tx)]>
       (ownershipMap_ st))
    ({[txID tx]} ∪ spentTxIDs_ st)
    (balances_ st) (lastNonceMap_ st) (transactionsByAddress_ st).

(** The debit: only an address with an entry is debited, and not below 0. *)
Definition debit (address : string) (amt : Z) (st : StateManager) : StateManager :=
  match balances_ st !! address with
  | Some bal =>
      mkState (ownershipMap_ st) (spentTxIDs_ st)
        (<[address := if amt <? bal then bal - amt else 0]> (balances_ st))
        (lastNonceMap_ st) (transactionsByAddress_ st)
  | None => st
  end.

(** [lastNonceMap_[a] = std::max(lastNonceMap_[a], nonce)] *)
Definition bump_nonce (address : string) (n : Z) (st : StateManager) : StateManager :=
  mkState (ownershipMap_ st) (spentTxIDs_ st) (balances_ st)
    (<[address := int_max (default 0 (lastNonceMap_ st !! address)) n]> (lastNonceMap_ st))
    (transactionsByAddress_ st).

(** ** Operations *)

(** One turn of the loop of [applyBlockState]. *)
Definition applyTransaction (st : StateManager) (tx : Transaction) : StateManager :=
  let st :=
    if negb (str_empty (toAddress tx))
    then push_history (toAddress tx) tx (credit (toAddress tx) (amount tx) st)
    else st in
  if negb (isCoinbase tx) then
    let st := record_spent tx st in
    if negb (str_empty (fromAddress tx)) then
      let st := debit (fromAddress tx) (amount tx) st in
      let st := bump_nonce (fromAddress tx) (Transaction.nonce tx) st in
      push_history (fromAddress tx) tx st
    else st
  else st.

Definition applyBlockState (st : StateManager) (b : Block) : StateManager :=
  foldl applyTransaction st (transactions b).

Definition applyBlock : StateManager -> Block -> StateManager := applyBlockState.

Definition clear (_ : StateManager) : StateManager := emptyState.

Definition rebuildState (chain : list Block) (st : StateManager) : StateManager :=
  foldl applyBlockState (clear st) chain.

Definition isDoubleSpend (id : string) (st : StateManager) : bool :=
  bool_decide (id ∈ spentTxIDs_ st).

Definition getTransactionCount (publicKey : string) (st : StateManager) : Z :=
  match ownershipMap_ st !! publicKey with Some ids => Z.of_nat (size ids) | None => 0 end.

Definition getAllSpentTxIDs (st : StateManager) : gset string := spentTxIDs_ st.

Definition getBalance (address : string) (st : StateManager) : Z :=
  match balances_ st !! address with Some bal => bal | None => 0 end.

Definition getLastNonce (address : string) (st : StateManager) : Z :=
  match lastNonceMap_ st !! address with Some n => n | None => 0 end.

Definition getTransactionsForAddress (address : string) (st : StateManager) : list Transaction :=
  match transactionsByAddress_ st !! address with Some txs => txs | None => [] end.

(** ** The abstract ledger *)

(** The transactions of a chain, in order. *)
Definition chain_txs (chain : list Block) : list Transaction := chain ≫= transactions.

Definition user_txs (txs : list Transaction) : list Transaction :=
  filter (fun tx => isCoinbase tx = false) txs.

(** Signed movements of a transaction: the credit, then the debit. *)
Definition postings (tx : Transaction) : list (string * Z) :=
  (if str_empty (toAddress tx) then [] else [(toAddress tx, amount tx)]) ++
  (if isCoinbase tx || str_empty (fromAddress tx) then []
   else [(fromAddress tx, - amount tx)]).

Definition ledger (ps : list (string * Z)) (a : string) : Z :=
  foldr (fun p acc => (if String.eqb p.1 a then p.2 else 0) + acc) 0 ps.

Definition minted (ps : list (string * Z)) : Z := foldr (fun p acc => p.2 + acc) 0 ps.

(** No address is ever overdrawn and none overflows: the ledger stays within
    64 bits after every posting. *)
Definition solvent (ps : list (string * Z)) : Prop :=
  forall before after, ps = before ++ after -> forall a, in_u 64 (ledger before a).

(** The sum of all balances. *)
Definition supply (st : StateManager) : Z := map_fold (fun _ v acc => v + acc) 0 (balances_ st).

(** The highest nonce a sender has used. *)
Definition max_nonce (txs : list Transaction) (a : string) : Z :=
  foldl (fun acc tx => if String.eqb (fromAddress tx) a
                       then int_max acc (Transaction.nonce tx) else acc) 0 (user_txs txs).

(** The entries an address has in its history: a transaction to itself twice. *)
Definition history (txs : list Transaction) (a : string) : list Transaction :=
  txs ≫= fun tx =>
    (if String.eqb (toAddress tx) a then [tx] else []) ++
    (if negb (isCoinbase tx) && String.eqb (fromAddress tx) a then [tx] else []).

(** ** Lemmas *)

Lemma rebuildState_snoc chain b st :
  rebuildState (chain ++ [b]) st = applyBlockState (rebuildState chain st) b.
Proof. unfold rebuildState. by rewrite foldl_app. Qed.

Lemma rebuildState_txs chain st :
  rebuildState chain st = foldl applyTransaction emptyState (chain_txs chain).
Proof.
  unfold rebuildState, clear, chain_txs. generalize emptyState.
  induction chain as [|b chain IH]; intros s; [done|].
  simpl. by rewrite IH, foldl_app.
Qed.

Lemma getBalance_credit a b amt st :
  getBalance a (credit b amt st) =
  if String.eqb b a then u64 (getBalance a st + amt) else getBalance a st.
Proof.
  unfold getBalance, credit. simpl. destruct (String.eqb_spec b a) as [->|].
  - rewrite lookup_insert_eq. by destruct (balances_ st !! a).
  - by rewrite lookup_insert_ne.
Qed.

Lemma getBalance_debit a b amt st :
  getBalance a (debit b amt st) =
  if String.eqb b a
  then match balances_ st !! a with
       | Some bal => if amt <? bal then bal - amt else 0
       | None => 0
       end
  else getBalance a st.
Proof.
  unfold getBalance, debit. destruct (String.eqb_spec b a) as [->|].
  - destruct (balances_ st !! a) eqn:E; simpl; [by rewrite lookup_insert_eq | by rewrite E].
  - destruct (balances_ st !! b) eqn:E; simpl; [by rewrite lookup_insert_ne | done].
Qed.

Lemma ledger_app ps qs a : ledger (ps ++ qs) a = ledger ps a + ledger qs a.
Proof. induction ps as [|p ps IH]; simpl; [done|]. rewrite IH. lia. Qed.

Lemma minted_app ps qs : minted (ps ++ qs) = minted ps + minted qs.
Proof. induction ps as [|p ps IH]; simpl; [done|]. rewrite IH. lia. Qed.

Lemma solvent_prefix ps qs : solvent (ps ++ qs) -> solvent ps.
Proof. intros Hs before after -> a. by apply (Hs before (after ++ qs)); rewrite app_assoc. Qed.

Lemma solvent_last ps a : solvent ps -> in_u 64 (ledger ps a).
Proof. intros Hs. apply (Hs ps []). by rewrite app_nil_r. Qed.

(** One posting, as the code applies it: a credit or a debit. *)
Inductive post_step : string * Z -> StateManager -> StateManager -> Prop :=
| post_credit a amt st : 0 <= amt -> post_step (a, amt) st (credit a amt st)
| post_debit a amt st : 0 <= amt -> post_step (a, - amt) st (debit a amt st).

(** A solvent posting moves the balance of its address by exactly its amount. *)
Lemma post_step_balance p st st' a :
  post_step p st st' ->
  0 <= getBalance a st -> in_u 64 (getBalance a st + ledger [p] a) ->
  getBalance a st' = getBalance a st + ledger [p] a.
Proof.
  intros [b amt s Hamt|b amt s Hamt]; simpl; intros H0 Hr.
  - rewrite getBalance_credit. destruct (String.eqb_spec b a) as [->|]; [|lia].
    rewrite wrapu_small; [lia|]. by rewrite Z.add_0_r in Hr.
  - rewrite getBalance_debit. unfold in_u in Hr.
    destruct (String.eqb_spec b a) as [->|]; [|lia].
    unfold getBalance in *. destruct (balances_ s !! a) as [bal|]; [|lia].
    destruct (Z.ltb_spec amt bal); lia.
Qed.

Lemma supply_insert a v (m : gmap string Z) :
  map_fold (fun _ v acc => v + acc) 0 (<[a := v]> m) =
  map_fold (fun _ v acc => v + acc) 0 m + v - default 0 (m !! a).
Proof.
  assert (Hc : forall (j1 j2 : string) (z1 z2 y : Z), z1 + (z2 + y) = z2 + (z1 + y)) by lia.
  destruct (m !! a) as [w|] eqn:E; simpl.
  - rewrite <- insert_delete_eq.
    rewrite (map_fold_insert_L (fun _ v acc => v + acc)) by (lia || apply lookup_delete_eq).
    rewrite (map_fold_delete_L (fun _ v acc => v + acc) 0 a w m) by (done || lia). lia.
  - rewrite (map_fold_insert_L (fun _ v acc => v + acc)) by (lia || done). lia.
Qed.

Lemma post_step_supply p st st' :
  post_step p st st' ->
  0 <= getBalance p.1 st -> in_u 64 (getBalance p.1 st + p.2) ->
  supply st' = supply st + p.2.
Proof.
  intros [b amt s Hamt|b amt s Hamt]; simpl; intros H0 Hr; unfold supply, credit, debit; simpl.
  - rewrite supply_insert. unfold getBalance in *.
    destruct (balances_ s !! b); simpl in *; rewrite wrapu_small by done; lia.
  - unfold getBalance in *. unfold in_u in Hr. destruct (balances_ s !! b) as [bal|] eqn:E; simpl.
    + rewrite supply_insert, E. simpl. destruct (Z.ltb_spec amt bal); lia.
    + assert (amt = 0) as -> by lia. lia.
Qed.

(** The state agrees with the ledger: balances address by address, and in sum. *)
Definition agrees (ps : list (string * Z)) (st : StateManager) : Prop :=
  (forall a, getBalance a st = ledger ps a) /\ supply st = minted ps.

Lemma agrees_balances ps st st' :
  balances_ st' = balances_ st -> agrees ps st -> agrees ps st'.
Proof. unfold agrees, getBalance, supply. by intros ->. Qed.

Lemma agrees_step ps p st st' :
  solvent (ps ++ [p]) -> post_step p st st' -> agrees ps st -> agrees (ps ++ [p]) st'.
Proof.
  intros Hs Hp [Hb Hsup]. split.
  - intros a. rewrite ledger_app, <- Hb. apply (post_step_balance p); [done|..].
    + rewrite Hb. by apply solvent_last, solvent_prefix with [p].
    + rewrite Hb, <- ledger_app. by apply solvent_last.
  - rewrite minted_app, <- Hsup. simpl. rewrite Z.add_0_r. apply post_step_supply; [done|..].
    + rewrite Hb. by apply solvent_last, solvent_prefix with [p].
    + rewrite Hb. pose proof (solvent_last _ p.1 Hs) as H. rewrite ledger_app in H. simpl in H.
      by rewrite String.eqb_refl, Z.add_0_r in H.
Qed.

Lemma agrees_transaction ps tx st :
  tx_wf tx -> solvent (ps ++ postings tx) -> agrees ps st ->
  agrees (ps ++ postings tx) (applyTransaction st tx).
Proof.
  intros [[Ha _] _] Hs Hag. unfold postings, applyTransaction in *.
  set (st1 := if negb (str_empty (toAddress tx)) then _ else st).
  set (cr := if str_empty (toAddress tx) then [] else [(toAddress tx, amount tx)]) in *.
  assert (H1 : agrees (ps ++ cr) st1).
  { rewrite app_assoc in Hs. apply solvent_prefix in Hs. subst cr st1.
    destruct (str_empty (toAddress tx)); simpl in *; [by rewrite app_nil_r|].
    apply (agrees_balances _ (credit (toAddress tx) (amount tx) st)); [done|].
    eapply agrees_step; [done|by apply post_credit|done]. }
  clearbody st1. rewrite app_assoc in Hs |- *.
  destruct (isCoinbase tx); simpl in *; [by rewrite app_nil_r|].
  destruct (str_empty (fromAddress tx)); simpl in *.
  { rewrite app_nil_r. by apply (agrees_balances _ st1). }
  apply (agrees_balances _ (debit (fromAddress tx) (amount tx) (record_spent tx st1))); [done|].
  eapply agrees_step; [done|by apply post_debit|]. by apply (agrees_balances _ st1).
Qed.

Lemma agrees_transactions ps txs st :
  Forall tx_wf txs -> solvent (ps ++ (txs ≫= postings)) -> agrees ps st ->
  agrees (ps ++ (txs ≫= postings)) (foldl applyTransaction st txs).
Proof.
  intros Hwf. revert ps st. induction Hwf as [|tx txs Hw _ IH]; intros ps st Hs Hag; simpl in *.
  - by rewrite app_nil_r.
  - rewrite app_assoc in Hs |- *. apply IH; [done|].
    apply agrees_transaction; [done| |done]. by apply solvent_prefix in Hs.
Qed.

Lemma agrees_rebuild chain st :
  Forall block_wf chain -> solvent (chain_txs chain ≫= postings) ->
  agrees (chain_txs chain ≫= postings) (rebuildState chain st).
Proof.
  intros Hwf Hs. rewrite rebuildState_txs.
  apply (agrees_transactions [] (chain_txs chain) emptyState); [|done|done].
  unfold chain_txs. apply Forall_bind. eapply Forall_impl; [done|]. by intros b (_ & _ & _ & H).
Qed.

(** *** The other tables *)

Lemma user_txs_app l1 l2 : user_txs (l1 ++ l2) = user_txs l1 ++ user_txs l2.
Proof. apply filter_app. Qed.

Lemma user_txs_one tx : user_txs [tx] = if isCoinbase tx then [] else [tx].
Proof. unfold user_txs, filter; simpl. by destruct (isCoinbase tx). Qed.

(** Every branch of one turn of the loop. *)
Ltac tx_cases tx :=
  unfold applyTransaction;
  destruct (isCoinbase tx) eqn:?, (str_empty (toAddress tx)) eqn:?,
    (str_empty (fromAddress tx)) eqn:?; simpl;
  unfold debit; simpl;
  repeat (match goal with
          | |- context [match balances_ ?s !! ?k with _ => _ end] => destruct (balances_ s !! k)
          | |- context [match <[_:=_]> (balances_ ?s) !! ?k with _ => _ end] =>
              destruct (<[_:=_]> (balances_ s) !! k)
          end; simpl).

Lemma spent_transaction st tx :
  spentTxIDs_ (applyTransaction st tx) =
  if isCoinbase tx then spentTxIDs_ st else {[txID tx]} ∪ spentTxIDs_ st.
Proof. by tx_cases tx. Qed.

Lemma lastNonce_transaction st tx a :
  a <> "" ->
  getLastNonce a (applyTransaction st tx) =
  if negb (isCoinbase tx) && String.eqb (fromAddress tx) a
  then int_max (getLastNonce a st) (Transaction.nonce tx) else getLastNonce a st.
Proof.
  intros Ha. unfold getLastNonce.
  destruct (String.eqb_spec (fromAddress tx) a) as [<-|Hne].
  - destruct (str_empty (fromAddress tx)) eqn:E; [by destruct (fromAddress tx)|].
    revert E. tx_cases tx; intros; rewrite ?lookup_insert_eq; try done;
      by destruct (lastNonceMap_ st !! _).
  - rewrite andb_false_r. tx_cases tx; by rewrite ?lookup_insert_ne.
Qed.

Lemma history_transaction st tx a :
  a <> "" ->
  getTransactionsForAddress a (applyTransaction st tx) =
  getTransactionsForAddress a st ++ history [tx] a.
Proof.
  intros Ha. unfold getTransactionsForAddress, history. simpl. rewrite app_nil_r.
  destruct (String.eqb_spec (toAddress tx) a) as [Ht|Ht], (String.eqb_spec (fromAddress tx) a) as [Hf|Hf];
    rewrite ?andb_false_r, ?andb_true_r; tx_cases tx; rewrite ?Ht, ?Hf in *;
    rewrite ?lookup_insert_eq, ?lookup_insert_ne by done; simpl;
    rewrite ?lookup_insert_eq, ?lookup_insert_ne by done;
    try (by destruct a); destruct (transactionsByAddress_ st !! a); simpl;
    by rewrite <- ?app_assoc, ?app_nil_r.
Qed.

Lemma spent_rebuild chain st :
  spentTxIDs_ (rebuildState chain st) = list_to_set (map txID (user_txs (chain_txs chain))).
Proof.
  rewrite rebuildState_txs. induction (chain_txs chain) as [|tx txs IH] using rev_ind; [done|].
  rewrite foldl_app, user_txs_app, map_app, list_to_set_app_L, <- IH, user_txs_one. simpl.
  rewrite spent_transaction. destruct (isCoinbase tx); simpl; set_solver.
Qed.

Lemma lastNonce_rebuild chain st a :
  a <> "" -> getLastNonce a (rebuildState chain st) = max_nonce (chain_txs chain) a.
Proof.
  intros Ha. rewrite rebuildState_txs.
  induction (chain_txs chain) as [|tx txs IH] using rev_ind; [done|].
  unfold max_nonce in *. rewrite user_txs_app, !foldl_app, user_txs_one. simpl.
  rewrite lastNonce_transaction, IH by done.
  destruct (isCoinbase tx); simpl; [done|]. by destruct (String.eqb (fromAddress tx) a).
Qed.

Lemma history_rebuild chain st a :
  a <> "" -> getTransactionsForAddress a (rebuildState chain st) = history (chain_txs chain) a.
Proof.
  intros Ha. rewrite rebuildState_txs.
  induction (chain_txs chain) as [|tx txs IH] using rev_ind; [done|].
  rewrite foldl_app. simpl. rewrite history_transaction, IH by done.
  unfold history. by rewrite bind_app.
Qed.

Lemma isDoubleSpend_spec chain st id :
  isDoubleSpend id (rebuildState chain st) = true <->
  exists tx, tx ∈ user_txs (chain_txs chain) /\ txID tx = id.
Proof.
  unfold isDoubleSpend. rewrite bool_decide_eq_true, spent_rebuild, elem_of_list_to_set.
  rewrite list_elem_of_fmap. naive_solver.
Qed.

(** A user transaction between two distinct addresses, the sender holding less
    than the amount: the receiver is credited in full, the sender is emptied. *)
Lemma applyTransaction_user st tx a :
  isCoinbase tx = false -> toAddress tx <> "" -> fromAddress tx <> "" ->
  getBalance a (applyTransaction st tx) =
  getBalance a (debit (fromAddress tx) (amount tx) (credit (toAddress tx) (amount tx) st)).
Proof.
  intros Hc Ht Hf. unfold applyTransaction. rewrite Hc.
  rewrite (proj2 (str_empty_false _) Ht), (proj2 (str_empty_false _) Hf). simpl.
  unfold getBalance, debit. simpl. by destruct (_ !! fromAddress tx).
Qed.

(** The receiver, when it is not the sender, is credited the amount. *)
Lemma getBalance_received st tx :
  toAddress tx <> "" -> toAddress tx <> fromAddress tx ->
  getBalance (toAddress tx) (applyTransaction st tx) = u64 (getBalance (toAddress tx) st + amount tx).
Proof.
  intros Ht Hne. assert (E : getBalance (toAddress tx) (applyTransaction st tx) =
    getBalance (toAddress tx) (credit (toAddress tx) (amount tx) st)).
  { destruct (isCoinbase tx) eqn:Hc; [unfold applyTransaction; by rewrite Hc, (proj2 (str_empty_false _) Ht)|].
    destruct (str_empty (fromAddress tx)) eqn:Hf.
    - unfold applyTransaction. by rewrite Hc, Hf, (proj2 (str_empty_false _) Ht).
    - rewrite applyTransaction_user by (done || by apply str_empty_false). rewrite getBalance_debit.
      by rewrite (proj2 (String.eqb_neq _ _)) by congruence. }
  by rewrite E, getBalance_credit, String.eqb_refl.
Qed.

(** ** Properties *)

(** C6: on a chain where no address is ever overdrawn (and none passes 2^64),
    the balance the state manager computes for every address, with its wrapped
    credits and clamped debits, is the exact sum of credits minus debits. *)
Theorem rebuild_balances (chain : list Block) (st : StateManager) :
  Forall block_wf chain -> solvent (chain_txs chain ≫= postings) ->
  forall a, getBalance a (rebuildState chain st) = ledger (chain_txs chain ≫= postings) a.
Proof. intros Hwf Hs. apply (agrees_rebuild chain st Hwf Hs). Qed.

(** C7: value is conserved: on such a chain whose user transactions all name a
    sender and a receiver, the balances add up to what the coinbase
    transactions credited. *)
Theorem supply_conserved (chain : list Block) (st : StateManager) :
  Forall block_wf chain -> solvent (chain_txs chain ≫= postings) ->
  Forall (fun tx => toAddress tx <> "" /\ fromAddress tx <> "") (user_txs (chain_txs chain)) ->
  supply (rebuildState chain st) =
  minted (filter (fun tx => isCoinbase tx = true) (chain_txs chain) ≫= postings).
Proof.
  intros Hwf Hs Hu. destruct (agrees_rebuild chain st Hwf Hs) as [_ ->].
  clear Hs. induction (chain_txs chain) as [|tx txs IH]; [done|].
  unfold user_txs in Hu. rewrite filter_cons in Hu |- *. simpl.
  destruct (isCoinbase tx) eqn:E; simpl in *; rewrite !minted_app.
  - f_equal. by apply IH.
  - apply Forall_cons in Hu as [[Ht Hf] Hu]. rewrite <- IH by done.
    assert (minted (postings tx) = 0) as ->; [|done]. unfold postings.
    rewrite E, (proj2 (str_empty_false _) Ht), (proj2 (str_empty_false _) Hf). simpl. lia.
Qed.

(** The identifiers marked spent, the last nonce and the history of every
    address are functions of the chain alone, whatever the state before: the
    identifiers of the user transactions, the highest nonce a sender used, and
    the transactions that name the address, in chain order. *)
Lemma rebuild_tables (chain : list Block) (st : StateManager) (a : string) :
  a <> "" ->
  (forall id, isDoubleSpend id (rebuildState chain st) = true <->
     exists tx, tx ∈ user_txs (chain_txs chain) /\ txID tx = id) /\
  getLastNonce a (rebuildState chain st) = max_nonce (chain_txs chain) a /\
  getTransactionsForAddress a (rebuildState chain st) = history (chain_txs chain) a.
Proof.
  intros Ha. split_and!; [apply isDoubleSpend_spec|by apply lastNonce_rebuild|by apply history_rebuild].
Qed.

(** Nothing in the state update checks funds: a user transaction whose
    sender holds less than its amount (or nothing at all) credits the receiver
    in full and leaves the sender at 0, so the missing amount is created. *)
Lemma overspend_creates_value (st : StateManager) (tx : Transaction) :
  isCoinbase tx = false -> toAddress tx <> "" -> fromAddress tx <> "" ->
  toAddress tx <> fromAddress tx ->
  0 <= getBalance (fromAddress tx) st < amount tx ->
  in_u 64 (getBalance (toAddress tx) st + amount tx) ->
  let st' := applyTransaction st tx in
  getBalance (toAddress tx) st' = getBalance (toAddress tx) st + amount tx /\
  getBalance (fromAddress tx) st' = 0 /\
  getBalance (toAddress tx) st' + getBalance (fromAddress tx) st' =
    getBalance (toAddress tx) st + getBalance (fromAddress tx) st
    + (amount tx - getBalance (fromAddress tx) st).
Proof.
  intros Hc Ht Hf Hne Hb Hov st'. subst st'. rewrite !applyTransaction_user by done.
  rewrite !getBalance_debit, getBalance_credit, !String.eqb_refl, wrapu_small by done.
  destruct (String.eqb_spec (fromAddress tx) (toAddress tx)) as [|_]; [congruence|].
  unfold credit; simpl. rewrite lookup_insert_ne by done. unfold getBalance in *.
  destruct (balances_ st !! fromAddress tx) as [bal|]; [|lia].
  destruct (Z.ltb_spec (amount tx) bal); lia.
Qed.

(** ** Witnesses *)

Section state_witnesses.

(** A coinbase of 50 to "a", then 20 of them to "b". *)
Definition sampleMint : Transaction := mkTx "m" "COINBASE" "" "COINBASE" "a" 50 0 "" "" "".
Definition sampleTransfer : Transaction := mkTx "t" "pk" "" "a" "b" 20 1 "" "" "s".
Definition sampleChain : list Block :=
  [mkBlock 0 "" "" [sampleMint] "" 0 1 ""; mkBlock 1 "" "" [sampleTransfer] "" 0 1 ""].

Lemma sampleChain_wf : Forall block_wf sampleChain.
Proof. unfold sampleChain, block_wf, tx_wf, in_u. repeat constructor; simpl; lia. Qed.

Lemma sampleChain_solvent : solvent (chain_txs sampleChain ≫= postings).
Proof.
  intros before after E a. unfold in_u. simpl in E.
  destruct before as [|p1 [|p2 [|p3 [|p4 before]]]]; simplify_eq/=;
    repeat case_if; bool_to_prop; subst; try lia; try discriminate.
Qed.

Lemma rebuild_balances_witness :
  getBalance "a" (rebuildState sampleChain emptyState) = 30.
Proof.
  apply (rebuild_balances sampleChain emptyState sampleChain_wf sampleChain_solvent "a").
Defined.

Lemma supply_conserved_witness : supply (rebuildState sampleChain emptyState) = 50.
Proof.
  apply (supply_conserved sampleChain emptyState sampleChain_wf sampleChain_solvent).
  repeat constructor; discriminate.
Defined.

Lemma rebuild_tables_witness :
  getLastNonce "a" (rebuildState sampleChain emptyState) = 1 /\
  getTransactionsForAddress "a" (rebuildState sampleChain emptyState) = [sampleMint; sampleTransfer].
Proof.
  destruct (rebuild_tables sampleChain emptyState "a") as (_ & H1 & H2); [discriminate|].
  split; [exact H1|exact H2].
Defined.

Lemma overspend_creates_value_witness :
  getBalance "b" (applyTransaction emptyState sampleTransfer) = 20.
Proof.
  apply (overspend_creates_value emptyState sampleTransfer); try reflexivity; try discriminate.
  - split; [discriminate|reflexivity].
  - split; [discriminate|reflexivity].
Defined.

End state_witnesses.
