(* ===== verification/Consensus.v ===== *)
(** * Consensus: src/include/consensus/ and src/src/consensus/difficulty_adjuster.cpp

    The difficulty retargeting rule with its [double] arithmetic (IEEE binary64
    through [SpecFloat]), the timestamp rule, the engine interface the blockchain
    delegates to (a record of operations with the laws of [EngineSpec]) and its
    two implementations, proof of work and the proof-of-stake skeleton. *)

From S2P Require Import Prelude StdTime Json Crypto Transaction Block.
From Stdlib Require Import SpecFloat.

(** ** [double] *)

Section binary64.

Definition double := spec_float.

(** [static_cast<double>] of an integer. *)
Definition to_double (z : Z) : double := binary_normalize 53 1024 z 0 false.

Definition dmul (a b : double) : double := SFmul 53 1024 a b.
Definition ddiv (a b : double) : double := SFdiv 53 1024 a b.

(** [std::max] and [std::min] at [double]. *)
Definition dmax (a b : double) : double := if SFltb a b then b else a.
Definition dmin (a b : double) : double := if SFltb b a then b else a.

(** [std::round]: halfway cases away from zero; the result as an integer. *)
Definition dround (f : double) : Z :=
  match f with
  | S754_finite s m e =>
      let r :=
        if 0 <=? e then Z.pos m * 2 ^ e
        else Z.pos m / 2 ^ (- e) + (if 2 ^ (- e) <=? 2 * (Z.pos m mod 2 ^ (- e)) then 1 else 0) in
      if s then - r else r
  | _ => 0
  end.

End binary64.

(** ** DifficultyAdjuster *)

Record DifficultyAdjuster := mkAdjuster {
  targetBlockTimeSec_ : Z;        (* uint32_t *)
  windowSize_ : Z;                (* uint32_t *)
  maxAdjustmentFactor_ : double;
  minDifficulty_ : Z;             (* uint32_t *)
  maxDifficulty_ : Z              (* uint32_t *)
}.

(** The default arguments of the constructor. *)
Definition defaultAdjuster : DifficultyAdjuster := mkAdjuster 10 10 (to_double 4) 1 8.

(** [parseTimestamp]: epoch seconds, 0 when the text does not parse. *)
Definition parseTimestamp (isoTimestamp : string) : Z :=
  match get_time isoTimestamp with
  | None => 0
  | Some tm => timegm tm
  end.

Definition shouldRetarget (adj : DifficultyAdjuster) (chainLength : nat) : bool :=
  if Z.of_nat chainLength <=? 1 then false
  else ((Z.of_nat chainLength - 1) mod windowSize_ adj) =? 0.

(** The arithmetic of a retarget, from the measured span on. *)
Definition retarget (adj : DifficultyAdjuster) (actualTimeSpan currentDifficulty : Z) : Z :=
  let expectedTimeSpan := i64 (windowSize_ adj * targetBlockTimeSec_ adj) in
  let ratio := ddiv (to_double expectedTimeSpan) (to_double actualTimeSpan) in
  let clampedRatio :=
    dmax (ddiv (to_double 1) (maxAdjustmentFactor_ adj)) (dmin (maxAdjustmentFactor_ adj) ratio) in
  let newDiffExact := dmul (to_double currentDifficulty) clampedRatio in
  let newDifficulty := u32 (dround newDiffExact) in
  int_max (minDifficulty_ adj) (int_min (maxDifficulty_ adj) newDifficulty).

Definition calculateNextDifficulty (adj : DifficultyAdjuster) (chain : list Block)
    (currentDifficulty : Z) : Z :=
  if Z.of_nat (length chain) <? u32 (windowSize_ adj + 1) then currentDifficulty
  else if negb (shouldRetarget adj (length chain)) then currentDifficulty
  else
    let latestIdx := (length chain - 1)%nat in
    let oldestIdx := (length chain - 1 - Z.to_nat (windowSize_ adj))%nat in
    let time i := match chain !! i with Some b => parseTimestamp (timestamp b) | None => 0 end in
    let actualTimeSpan := i64 (time latestIdx - time oldestIdx) in
    if actualTimeSpan <=? 0 then currentDifficulty
    else retarget adj actualTimeSpan currentDifficulty.

Definition validateBlockTimestamp (now : Z) (block previousBlock : Block) : bool :=
  let blockTime := parseTimestamp (timestamp block) in
  let prevTime := parseTimestamp (timestamp previousBlock) in
  if blockTime <? prevTime then false
  else
    let nowEpoch := to_seconds now in
    if nowEpoch + 120 <? blockTime then false
    else true.

(** ** The engine interface

    [validateBlock] reads the clock; [sealBlock] may loop, so it takes fuel. *)

Record IConsensusEngine := mkEngine {
  name : string;
  validateBlock : Z -> Block -> Block -> bool;
  sealBlock : nat -> Block -> string -> option Block;
  shouldAcceptChain : list Block -> list Block -> bool;
  nextDifficulty : list Block -> Z -> Z
}.

Section engines.
Context `{OS : OpenSSL}.

(** ** PoWEngine *)

Definition pow_validateBlock (now : Z) (block previousBlock : Block) : bool :=
  if (difficulty block <? 1) || (64 <? difficulty block) then false
  else if negb (String.eqb (hash block) (calculateHash block)) then false
  else if negb (meets_target (hash block) (difficulty block)) then false
  else if negb (String.eqb (previousHash block) (hash previousBlock)) then false
  else if negb (String.eqb (merkleRoot block) (computeMerkleRoot block)) then false
  else if negb (validateBlockTimestamp now block previousBlock) then false
  else if negb (hasValidTransactions block) then false
  else true.

Definition longest_chain (currentChain candidateChain : list Block) : bool :=
  Nat.ltb (length currentChain) (length candidateChain).

Definition PoWEngine (adj : DifficultyAdjuster) : IConsensusEngine := {|
  name := "Proof-of-Work";
  validateBlock := pow_validateBlock;
  sealBlock := fun fuel block _ => mineBlock fuel block;
  shouldAcceptChain := longest_chain;
  nextDifficulty := calculateNextDifficulty adj;
|}.

(** ** PoSEngine *)

Definition pos_validateBlock (block previousBlock : Block) : bool :=
  if negb (String.eqb (previousHash block) (hash previousBlock)) then false
  else if negb (String.eqb (merkleRoot block) (computeMerkleRoot block)) then false
  else true.

Definition pos_sealBlock (block : Block) : Block :=
  let block := set_merkleRoot (computeMerkleRoot block) block in
  let block := set_nonce 0 block in
  set_hash (calculateHash block) block.

Definition PoSEngine : IConsensusEngine := {|
  name := "Proof-of-Stake (skeleton)";
  validateBlock := fun _ => pos_validateBlock;
  sealBlock := fun _ block _ => Some (pos_sealBlock block);
  shouldAcceptChain := longest_chain;
  nextDifficulty := fun _ _ => 0;
|}.

(** What the blockchain relies on an engine for: a sealed block keeps the fields
    it was given and is sealed (its root, hash and target hold), and chain
    selection prefers longer chains only. *)
Class EngineSpec (e : IConsensusEngine) : Prop := {
  seal_fields : forall fuel b ctx b', sealBlock e fuel b ctx = Some b' ->
    exists r n h, b' = mkBlock (index b) (timestamp b) (previousHash b) (transactions b) r n
                        (difficulty b) h;
  seal_root : forall fuel b ctx b', sealBlock e fuel b ctx = Some b' ->
    merkleRoot b' = computeMerkleRoot b';
  seal_hash : forall fuel b ctx b', sealBlock e fuel b ctx = Some b' ->
    hash b' = calculateHash b';
  seal_target : forall fuel b ctx b' chain d, sealBlock e fuel b ctx = Some b' ->
    difficulty b = nextDifficulty e chain d ->
    meets_target (hash b') (difficulty b') = true;
  accept_longer : forall c c', shouldAcceptChain e c c' = true -> (length c < length c')%nat;
}.

End engines.

(** ** Lemmas *)

Section engine_lemmas.
Context `{OS : OpenSSL}.

Lemma meets_target_0 h : meets_target h 0 = true.
Proof. by destruct h. Qed.

#[export] Instance PoWEngine_spec adj : EngineSpec (PoWEngine adj).
Proof.
  split; simpl.
  - intros fuel b _ b' (n & -> & _)%mineBlock_candidate. unfold candidate. simpl. eauto.
  - by intros fuel b _ b' (n & -> & _)%mineBlock_candidate.
  - by intros fuel b _ b' (n & -> & _)%mineBlock_candidate.
  - by intros fuel b _ b' _ _ (n & -> & Ht)%mineBlock_candidate _.
  - unfold longest_chain. by intros c c' ?%Nat.ltb_lt.
Qed.

#[export] Instance PoSEngine_spec : EngineSpec PoSEngine.
Proof.
  split; simpl.
  - intros _ b _ b' [= <-]. unfold pos_sealBlock. simpl. eauto.
  - by intros _ b _ b' [= <-].
  - by intros _ b _ b' [= <-].
  - intros _ b _ b' _ _ [= <-] Hd. simpl. rewrite Hd. apply meets_target_0.
  - unfold longest_chain. by intros c c' ?%Nat.ltb_lt.
Qed.

Lemma parseTimestamp_iso_now now :
  time_in_range (to_seconds now) -> parseTimestamp (iso_now now) = to_seconds now.
Proof. intros. unfold parseTimestamp. by rewrite get_time_iso_now, timegm_gmtime. Qed.

Lemma validateBlockTimestamp_spec now b p :
  validateBlockTimestamp now b p = true <->
  parseTimestamp (timestamp p) <= parseTimestamp (timestamp b) <= to_seconds now + 120.
Proof.
  unfold validateBlockTimestamp.
  destruct (Z.ltb_spec (parseTimestamp (timestamp b)) (parseTimestamp (timestamp p)));
  destruct (Z.ltb_spec (to_seconds now + 120) (parseTimestamp (timestamp b)));
    split; intros; try done; lia.
Qed.

(** What the engine accepts it accepts later too. *)
Lemma pow_validate_later now now' b p :
  now <= now' -> pow_validateBlock now b p = true -> pow_validateBlock now' b p = true.
Proof.
  intros Hn. unfold pow_validateBlock. repeat (case_match; try done).
  match goal with H : negb (validateBlockTimestamp now' _ _) = true |- _ => apply negb_true_iff in H as Hno end.
  match goal with H : negb (validateBlockTimestamp now _ _) = false |- _ => apply negb_false_iff in H as Hyes end.
  apply validateBlockTimestamp_spec in Hyes. apply not_true_iff_false in Hno. intros _. destruct Hno.
  apply validateBlockTimestamp_spec. assert (to_seconds now <= to_seconds now'); [|lia].
  unfold to_seconds. by apply Z.div_le_mono || by apply Z.quot_le_mono.
Qed.

Lemma pow_validateBlock_spec now b p :
  pow_validateBlock now b p = true <->
  1 <= difficulty b <= 64 /\ isValid b = true /\ previousHash b = hash p /\
  (parseTimestamp (timestamp p) <= parseTimestamp (timestamp b) <= to_seconds now + 120) /\
  hasValidTransactions b = true.
Proof.
  rewrite isValid_spec, <- validateBlockTimestamp_spec. unfold pow_validateBlock.
  destruct (Z.ltb_spec (difficulty b) 1), (Z.ltb_spec 64 (difficulty b)); simpl; try (split; [done|lia]).
  destruct (String.eqb_spec (hash b) (calculateHash b)), (meets_target (hash b) (difficulty b)),
    (String.eqb_spec (previousHash b) (hash p)), (String.eqb_spec (merkleRoot b) (computeMerkleRoot b)),
    (validateBlockTimestamp now b p), (hasValidTransactions b); simpl; naive_solver.
Qed.

End engine_lemmas.

#[export] Hint Resolve seal_root seal_hash accept_longer meets_target_0 : chain.

(** ** Properties *)

Section consensus_properties.
Context `{OS : OpenSSL}.

(** C34: when the chain has a positive multiple of the window of blocks after the
    genesis block, and the time span from the block a window ago to the tip is
    positive, the difficulty of the next block is the retargeted one, within the
    configured bounds; in every other case it is the current one. (A window of 0,
    where the code divides by 0, and bounds out of order are left out.) *)
Theorem nextDifficulty_bounds (adj : DifficultyAdjuster) (chain : list Block) (d : Z) :
  minDifficulty_ adj <= maxDifficulty_ adj -> 0 < windowSize_ adj < 2 ^ 32 - 1 ->
  let d' := calculateNextDifficulty adj chain d in
  let boundary (newest oldest : Block) (span : Z) :=
    windowSize_ adj + 1 <= Z.of_nat (length chain) /\
    (Z.of_nat (length chain) - 1) mod windowSize_ adj = 0 /\
    chain !! (length chain - 1)%nat = Some newest /\
    chain !! (length chain - 1 - Z.to_nat (windowSize_ adj))%nat = Some oldest /\
    span = i64 (parseTimestamp (timestamp newest) - parseTimestamp (timestamp oldest)) /\ 0 < span in
  (forall newest oldest span, boundary newest oldest span ->
     d' = retarget adj span d /\ minDifficulty_ adj <= d' <= maxDifficulty_ adj) /\
  ((forall newest oldest span, ~ boundary newest oldest span) -> d' = d).
Proof.
  intros Hmm Hw d' boundary. subst d' boundary. unfold calculateNextDifficulty.
  rewrite (wrapu_small 32 (windowSize_ adj + 1)) by (unfold in_u; lia). unfold shouldRetarget. split.
  - intros newest oldest span (Hl & Hm & Hn & Ho & -> & Hs). rewrite Hn, Ho, Hm.
    destruct (Z.ltb_spec (Z.of_nat (length chain)) (windowSize_ adj + 1)); [lia|].
    destruct (Z.leb_spec (Z.of_nat (length chain)) 1); [lia|]. cbn [negb Z.eqb].
    destruct (Z.leb_spec (i64 (parseTimestamp (timestamp newest) - parseTimestamp (timestamp oldest))) 0); [lia|].
    split; [done|]. unfold retarget. rewrite int_max_spec, int_min_spec. lia.
  - intros Hno. destruct (Z.ltb_spec (Z.of_nat (length chain)) (windowSize_ adj + 1)) as [|Hl]; [done|].
    destruct (Z.leb_spec (Z.of_nat (length chain)) 1); [done|].
    destruct (Z.eqb_spec ((Z.of_nat (length chain) - 1) mod windowSize_ adj) 0) as [Hm|]; [cbn [negb]|done].
    destruct (lookup_lt_is_Some_2 chain (length chain - 1)%nat) as [newest Hn]; [lia|].
    destruct (lookup_lt_is_Some_2 chain (length chain - 1 - Z.to_nat (windowSize_ adj))%nat) as [oldest Ho]; [lia|].
    rewrite Hn, Ho. case_match eqn:Hs; [done|]. apply Z.leb_gt in Hs. exfalso. by eapply Hno.
Qed.

(** A block the engine sealed on top of [p], within the two-minute window,
    is accepted by the same engine exactly when its difficulty is in range, the
    block under it is not in the future and its transactions verify: mining
    itself does not guarantee a block its own node accepts. *)
Lemma sealed_block_validates (adj : DifficultyAdjuster) (fuel : nat) (now : Z) (p : Block)
    (idx d : Z) (txs : list Transaction) (ctx : string) (b : Block) :
  time_in_range (to_seconds now) ->
  sealBlock (PoWEngine adj) fuel (newBlock now idx (hash p) txs d) ctx = Some b ->
  validateBlock (PoWEngine adj) now b p = true <->
  1 <= d <= 64 /\ parseTimestamp (timestamp p) <= to_seconds now /\
  Forall (fun tx => verifyTx tx = true) txs.
Proof.
  intros Hr Hs. simpl in *. rewrite pow_validateBlock_spec, hasValidTransactions_spec, isValid_spec.
  destruct (mineBlock_candidate _ _ _ Hs) as (n & -> & Ht).
  unfold candidate in *. simpl in *. rewrite parseTimestamp_iso_now by done.
  rewrite calculateHash_set_hash. naive_solver lia.
Qed.

End consensus_properties.

(** ** Witnesses *)

Section consensus_witnesses.
Import ToyOpenSSL.

(** Ten blocks after the genesis block, the last of them at time [last]. *)
Definition sampleTimes (last : string) : list Block :=
  mkBlock 0 "2026-01-01T00:00:00Z" "" [] "" 0 2 ""
  :: replicate 10 (mkBlock 0 last "" [] "" 0 2 "").

(** Ten quick blocks raise the difficulty fourfold, ten of 10 seconds keep it, ten
    slow ones lower it, and with nine nothing changes. *)
Lemma nextDifficulty_bounds_witness :
  calculateNextDifficulty defaultAdjuster (sampleTimes "2026-01-01T00:00:10Z") 2 =
    retarget defaultAdjuster 10 2 /\
  retarget defaultAdjuster 10 2 = 8 /\
  calculateNextDifficulty defaultAdjuster (sampleTimes "2026-01-01T00:01:40Z") 2 = 2 /\
  calculateNextDifficulty defaultAdjuster (sampleTimes "2026-01-02T00:00:00Z") 8 = 2 /\
  calculateNextDifficulty defaultAdjuster (take 10 (sampleTimes "2026-01-01T00:00:10Z")) 2 = 2.
Proof.
  assert (Hadj : minDifficulty_ defaultAdjuster <= maxDifficulty_ defaultAdjuster /\
    0 < windowSize_ defaultAdjuster < 2 ^ 32 - 1) by (cbn; lia).
  split_and!; [|vm_compute; reflexivity..|].
  - refine (proj1 (proj1 (nextDifficulty_bounds defaultAdjuster (sampleTimes "2026-01-01T00:00:10Z") 2
      (proj1 Hadj) (proj2 Hadj)) _ _ 10 _)).
    split; [by apply Z.leb_le|]. split; [reflexivity|]. split; [reflexivity|]. split; [reflexivity|].
    split; vm_compute; reflexivity.
  - refine (proj2 (nextDifficulty_bounds defaultAdjuster (take 10 (sampleTimes "2026-01-01T00:00:10Z")) 2
      (proj1 Hadj) (proj2 Hadj)) _).
    intros newest oldest span [H _]. apply Z.leb_le in H. vm_compute in H. discriminate H.
Defined.

Definition sampleTip : Block := mkBlock 0 "2026-01-01T00:00:00Z" "" [] "" 0 1 "m".

Definition sampleSealed : Block :=
  candidate (newBlock 1780000000000000000 1 "m" [genesisCoinbase] 1) 0.

Lemma sealed_block_validates_witness :
  validateBlock (PoWEngine defaultAdjuster) 1780000000000000000 sampleSealed sampleTip = true.
Proof.
  apply (sealed_block_validates defaultAdjuster 0 1780000000000000000 sampleTip 1 1
           [genesisCoinbase] "" sampleSealed).
  - vm_compute. split; [discriminate|reflexivity].
  - vm_compute. reflexivity.
  - split; [split; discriminate|]. split; [vm_compute; discriminate|].
    constructor; [reflexivity|constructor].
Defined.

End consensus_witnesses.
