(* ===== verification/Storage.v ===== *)
(** * Storage: src/src/storage/leveldb_manager.cpp

    The file-based store. A file system is a map from paths to contents; a
    storage routine is a program over primitive operations ([prog]), run against
    a list of [event]s that say, operation by operation, whether it is carried
    out, reports an error, or the process dies there. A write that fails or is
    cut short leaves a prefix of its text. What the operating system may still
    hold in memory when the process dies counts as written (a power loss is not
    modelled), and so do directories and file types. *)

From S2P Require Import Prelude StdTime Json JsonNlohmann Crypto Transaction Block State.

(** ** File system and programs *)

Abbreviation FS := (gmap string string).

Inductive fsop : Type :=
| OpenTrunc (p : string)            (* std::ofstream(p, binary | trunc) *)
| Write (p s : string)              (* write, flush, close *)
| Exists (p : string)
| Remove (p : string)
| Rename (p q : string)
| Read (p : string).

(** What an operation answers; [RErr] is an error code, a failed stream or a
    [filesystem_error]. *)
Inductive resp : Type :=
| RErr
| RBool (b : bool)
| RText (s : string).

Inductive prog (A : Type) : Type :=
| Ret (a : A)
| Op (o : fsop) (k : resp -> prog A).
Arguments Ret {A} a.
Arguments Op {A} o k.

Fixpoint pbind {A B} (m : prog A) (f : A -> prog B) : prog B :=
  match m with
  | Ret a => f a
  | Op o k => Op o (fun r => pbind (k r) f)
  end.

Notation "'op!' r := o 'in' k" := (Op o (fun r => k))
  (at level 10, r binder, o at level 100, k at level 200) : chain_scope.
Notation "'do!' x := m 'in' k" := (pbind m (fun x => k))
  (at level 10, x binder, m at level 100, k at level 200) : chain_scope.

Definition is_true (r : resp) : bool := match r with RBool b => b | _ => false end.
Definition is_err (r : resp) : bool := match r with RErr => true | _ => false end.
Definition failed (r : resp) : bool := match r with RBool true => false | _ => true end.

(** One operation carried out. *)
Definition perform (o : fsop) (fs : FS) : resp * FS :=
  match o with
  | OpenTrunc p => (RBool true, <[p := EmptyString]> fs)
  | Write p s => (RBool true, <[p := s]> fs)
  | Exists p => (RBool (match fs !! p with Some _ => true | None => false end), fs)
  | Remove p => (RBool true, delete p fs)
  | Rename p q =>
      match fs !! p with
      | Some s => (RBool true, <[q := s]> (delete p fs))
      | None => (RErr, fs)
      end
  | Read p => (match fs !! p with Some s => RText s | None => RErr end, fs)
  end.

(** One operation cut short after [n] bytes. *)
Definition cut_short (n : nat) (o : fsop) (fs : FS) : FS :=
  match o with
  | Write p s => <[p := str_take n s]> fs
  | _ => fs
  end.

Inductive event : Type :=
| Done                 (* carried out *)
| Fails (n : nat)      (* reports an error, after n bytes if it is a write *)
| Crash (n : nat).     (* the process dies, after n bytes if it is a write *)

(** A run: the answer ([None] when the process died), the file system and the
    events left. Operations beyond the list are carried out. *)
Fixpoint exec {A} (m : prog A) (evs : list event) (fs : FS) : option A * FS * list event :=
  match m with
  | Ret a => (Some a, fs, evs)
  | Op o k =>
      match evs with
      | [] => let '(r, fs) := perform o fs in exec (k r) [] fs
      | Done :: evs => let '(r, fs) := perform o fs in exec (k r) evs fs
      | Fails n :: evs => exec (k RErr) evs (cut_short n o fs)
      | Crash n :: evs => (None, cut_short n o fs, evs)
      end
  end.

Definition run {A} (m : prog A) (evs : list event) (fs : FS) : option A * FS := (exec m evs fs).1.

(** ** LevelDBManager *)

Definition chainFilePath (dataDir : string) : string := dataDir +:+ "/chain.json".
Definition stateFilePath (dataDir : string) : string := dataDir +:+ "/state.json".
Definition tmpPath (filePath : string) : string := filePath +:+ ".tmp".
Definition bakPath (filePath : string) : string := filePath +:+ ".bak".

(** [atomicWrite]: the temporary file, the backup of the old file if there is
    one, the swap, and what is done when the swap fails. *)
Definition atomicWrite (filePath content : string) : prog bool :=
  op! opened := OpenTrunc (tmpPath filePath) in
  if failed opened then Ret false
  else op! written := Write (tmpPath filePath) content in
  if failed written then Ret false
  else op! there := Exists filePath in
  let install : prog bool :=
    op! renamed := Rename (tmpPath filePath) filePath in
    if failed renamed then
      op! bak := Exists (bakPath filePath) in
      if is_err bak then
        (* fs::exists without an error code throws: the handler cleans up *)
        op! _ := Remove (tmpPath filePath) in Ret false
      else if is_true bak then
        op! _ := Rename (bakPath filePath) filePath in Ret false
      else Ret false
    else op! _ := Remove (bakPath filePath) in Ret true in
  if is_true there then
    op! _ := Remove (bakPath filePath) in
    op! saved := Rename filePath (bakPath filePath) in
    if failed saved then Ret false else install
  else install.

(** One turn of the loop of [recoverTempFiles]. *)
Definition recoverTempFile (filePath : string) : prog unit :=
  op! tmp := Exists (tmpPath filePath) in
  if negb (is_true tmp) then Ret tt
  else op! there := Exists filePath in
  if is_true there then op! _ := Remove (tmpPath filePath) in Ret tt
  else op! _ := Rename (tmpPath filePath) filePath in Ret tt.

Definition recoverTempFiles (dataDir : string) : prog unit :=
  do! _ := recoverTempFile (chainFilePath dataDir) in
  recoverTempFile (stateFilePath dataDir).

(** [readFile]: an unreadable file reads as empty; a failing [fs::exists] throws. *)
Definition readFile (filePath : string) : prog (result string) :=
  op! there := Exists filePath in
  if is_err there then Ret (Throw (runtime_error "filesystem_error"))
  else if negb (is_true there) then Ret (Ok EmptyString)
  else op! text := Read filePath in
  Ret (Ok (match text with RText s => s | _ => EmptyString end)).

(** [hasPersistedChain] (the path is a regular file if it exists; its size is the
    length of what a read returns). *)
Definition hasPersistedChain (dataDir : string) : prog (result bool) :=
  op! there := Exists (chainFilePath dataDir) in
  if is_err there then Ret (Throw (runtime_error "filesystem_error"))
  else if negb (is_true there) then Ret (Ok false)
  else op! text := Read (chainFilePath dataDir) in
  Ret (Ok (match text with RText s => Nat.ltb 2 (String.length s) | _ => false end)).

Section storage.
Context `{OS : OpenSSL} `{JT : JsonText}.

(** The body of the [try] of [loadChain]; an exception empties the chain. *)
Definition parseChain (raw : string) : list Block :=
  try_catch
    (let! j := json_parse raw in
     if negb (is_array j) then Ok []
     else rmap blockFromJson (json_items j))
    (fun _ => []).

Definition loadChain (dataDir : string) : prog (result (list Block)) :=
  do! raw := readFile (chainFilePath dataDir) in
  Ret (let! raw := raw in if str_empty raw then Ok [] else Ok (parseChain raw)).

Definition chainJson (chain : list Block) : json := JArray (map blockToJson chain).

(** A text to write, or the exception its printing raised. *)
Definition writeDump (filePath : string) (text : result string) : prog (result bool) :=
  match text with
  | Throw e => Ret (Throw e)
  | Ok text => do! ok := atomicWrite filePath text in Ret (Ok ok)
  end.

Definition saveChain (dataDir : string) (chain : list Block) : prog (result bool) :=
  writeDump (chainFilePath dataDir) (json_dump (Some 2) (chainJson chain)).

(** The stored array [appendBlock] starts from; [None] aborts. *)
Definition appendBase (raw : string) : option (list json) :=
  if str_empty raw then Some []
  else match json_parse raw with
       | Ok (JArray l) => Some l
       | _ => None
       end.

Definition appendBlock (dataDir : string) (block : Block) : prog (result bool) :=
  do! raw := readFile (chainFilePath dataDir) in
  match raw with
  | Throw e => Ret (Throw e)
  | Ok raw =>
      match appendBase raw with
      | None => Ret (Ok false)
      | Some l =>
          let extends : result bool :=
            match last l with
            | None => Ok true
            | Some back =>
                let! tip := blockFromJson back in
                Ok (negb (negb (index block =? u64 (index tip + 1))
                          || negb (String.eqb (previousHash block) (hash tip))))
            end in
          match extends with
          | Throw e => Ret (Throw e)
          | Ok false => Ret (Ok false)
          | Ok true =>
              writeDump (chainFilePath dataDir)
                (json_dump (Some 2) (JArray (l ++ [blockToJson block])))
          end
      end
  end.

Definition saveState (dataDir : string) (st : StateManager) : prog (result bool) :=
  let j := json_set "spentTxIDs" (JArray (map JString (sorted_keys (getAllSpentTxIDs st)))) JNull in
  writeDump (stateFilePath dataDir) (json_dump (Some 2) j).

Definition loadState (dataDir : string) : prog (result bool) :=
  do! raw := readFile (stateFilePath dataDir) in
  Ret (let! raw := raw in
       if str_empty raw then Ok false
       else Ok (try_catch
                  (let! j := json_parse raw in
                   if negb (contains "spentTxIDs" j) then Ok false else Ok true)
                  (fun _ => false))).

(** The constructor on an existing directory. *)
Definition openStorage (dataDir : string) : prog unit := recoverTempFiles dataDir.

End storage.

#[global] Arguments hasPersistedChain : simpl never.
#[global] Arguments loadChain {_ _} _ : simpl never.
#[global] Arguments saveChain {_} _ _ : simpl never.
#[global] Arguments appendBlock {_ _} _ _ : simpl never.
#[global] Arguments saveState {_} _ _ : simpl never.
#[global] Arguments readFile : simpl never.

(** ** Lemmas *)

Lemma exec_pbind {A B} (m : prog A) (f : A -> prog B) evs fs :
  exec (pbind m f) evs fs =
  match exec m evs fs with
  | (Some a, fs', evs') => exec (f a) evs' fs'
  | (None, fs', evs') => (None, fs', evs')
  end.
Proof.
  revert evs fs. induction m as [a|o k IH]; intros evs fs; [done|].
  simpl. destruct evs as [|[] evs]; try destruct (perform o fs); simpl; auto.
Qed.

Lemma str_app_ne a c b : a +:+ String c b <> a.
Proof.
  intros H. apply (f_equal String.length) in H. rewrite str_length_app in H. simpl in H. lia.
Qed.

Lemma paths_distinct f : tmpPath f <> f /\ bakPath f <> f /\ tmpPath f <> bakPath f.
Proof.
  unfold tmpPath, bakPath. split_and!; [apply str_app_ne..|].
  intros H%str_app_inj; [naive_solver|done].
Qed.

(** The event list with one event at position [n], everything before it and after
    it carried out. *)
Definition single (n : nat) (ev : event) : list event := replicate n Done ++ [ev].

(** Only the file, its temporary file and its backup are touched. *)
Definition others_kept (f : string) (fs fs' : FS) : Prop :=
  forall p, p <> f -> p <> tmpPath f -> p <> bakPath f -> fs' !! p = fs !! p.

(** What recovery makes of a file. *)
Definition recovered (f : string) (fs : FS) : option string :=
  (run (recoverTempFile f) [] fs).2 !! f.

Lemma recovered_spec f fs :
  recovered f fs = match fs !! f with Some s => Some s | None => fs !! tmpPath f end.
Proof.
  destruct (paths_distinct f) as (H1 & H2 & H3). unfold recovered, run, recoverTempFile. simpl.
  destruct (fs !! tmpPath f) as [t|] eqn:Et, (fs !! f) as [s|] eqn:Es;
    repeat (simpl; simplify_map_eq); congruence.
Qed.

(** One operation of a run with a single event left. *)
Ltac fs_step n ev :=
  destruct n as [|n]; [destruct ev; simpl|simpl]; simplify_map_eq.

Ltac fs_run n ev :=
  do 9 (fs_step n ev;
        try match goal with
            | |- (_, _) = _ -> _ => intros [= <- <-]; naive_solver (by simplify_map_eq)
            end).

(** A value that prints is canonical: its keys are in order and its integers fit. *)
Definition prints_canonical (j : json) : Prop := json_utf8 j = true -> json_canonical j = true.

Lemma string_canonical s : prints_canonical (JString s).
Proof. exact id. Qed.

Lemma unsigned_canonical w z : w <= 64 -> in_u w z -> prints_canonical (JUnsigned z).
Proof.
  unfold in_u. intros Hw [H1 H2] _. apply andb_true_intro. split; [by apply Z.leb_le|]. apply Z.ltb_lt.
  assert (2 ^ w <= 2 ^ 64); [|lia]. apply Z.pow_le_mono_r; lia.
Qed.

Lemma forallb_impl {A} (p q : A -> bool) l :
  Forall (fun x => p x = true -> q x = true) l -> forallb p l = true -> forallb q l = true.
Proof. induction 1 as [|x l Hx _ IH]; cbn; [done|]. rewrite !andb_true_iff. naive_solver. Qed.

Lemma array_canonical l : Forall prints_canonical l -> prints_canonical (JArray l).
Proof. exact (forallb_impl json_utf8 json_canonical l). Qed.

Lemma object_canonical m :
  sorted_strict (map fst m) = true -> Forall (fun kv => prints_canonical kv.2) m -> prints_canonical (JObject m).
Proof.
  intros Hs Hm Hu. apply andb_true_intro. split; [exact Hs|]. revert Hu. apply forallb_impl.
  eapply Forall_impl; [exact Hm|]. intros [k j] Hj. rewrite !andb_true_iff. naive_solver.
Qed.

Ltac canonical_object :=
  lazymatch goal with
  | |- prints_canonical ?j =>
      let j' := eval vm_compute in j in
      change (prints_canonical j'); apply object_canonical; [vm_compute; reflexivity|]
  end;
  repeat (apply Forall_cons; split; cbn [snd]); try apply Forall_nil_2;
  try first [apply string_canonical | eapply unsigned_canonical; [|eassumption]; done].

(** The chain file holds the text of a chain. *)
Definition stored `{OS : OpenSSL} `{JT : JsonText} (dataDir : string) (chain : list Block)
    (fs : FS) : Prop :=
  exists s, fs !! chainFilePath dataDir = Some s /\ s <> EmptyString /\
    json_parse s = Ok (chainJson chain) /\ (chain <> [] -> (2 < String.length s)%nat).

Section storage_lemmas.
Context `{OS : OpenSSL} `{JT : JsonText}.

Lemma atomicWrite_done f content fs :
  exists fs', run (atomicWrite f content) [] fs = (Some true, fs') /\
    fs' !! f = Some content /\ others_kept f fs fs'.
Proof.
  destruct (paths_distinct f) as (H1 & H2 & H3). unfold run, atomicWrite, others_kept. simpl.
  simplify_map_eq. destruct (fs !! f) eqn:E; simplify_map_eq; eexists;
    split_and!; try done; intros; by simplify_map_eq.
Qed.

Lemma readFile_done f fs :
  run (readFile f) [] fs = (Some (Ok (default EmptyString (fs !! f))), fs).
Proof. unfold run, readFile. simpl. destruct (fs !! f) eqn:E; simpl; by rewrite ?E. Qed.

Lemma exec_nil_run {A} (m : prog A) fs : exec m [] fs = (run m [] fs, []).
Proof.
  unfold run. revert fs. induction m as [a|o k IH]; intros fs; simpl; [done|].
  destruct (perform o fs). apply IH.
Qed.

Lemma run_nil_pbind {A B} (m : prog A) (f : A -> prog B) fs a fs' :
  run m [] fs = (Some a, fs') -> run (pbind m f) [] fs = run (f a) [] fs'.
Proof. intros H. unfold run at 1. rewrite exec_pbind, exec_nil_run, H. done. Qed.

(** A block's JSON value has its keys in order, whatever the block. *)
Definition block_text (b : Block) : Prop := json_canonical (blockToJson b) = true.

Lemma tx_canonical tx : tx_wf tx -> prints_canonical (txToJson tx).
Proof. intros [Ha Hn]. destruct tx. canonical_object. Qed.

Lemma block_canonical b : block_wf b -> prints_canonical (blockToJson b).
Proof.
  intros (Hi & Hn & Hd & Ht). assert (Hl : Forall prints_canonical (map txToJson (transactions b))).
  { apply Forall_map. eapply Forall_impl; [exact Ht|]. apply tx_canonical. }
  unfold blockToJson. destruct b as [i ts ph txs mr nn df hs]. cbn [transactions] in *.
  unfold blockToJson in *. cbn [index timestamp previousHash transactions merkleRoot nonce difficulty hash] in *.
  revert Hl. generalize (map txToJson txs). intros l Hl. canonical_object. by apply array_canonical.
Qed.

Lemma chain_text chain : Forall block_wf chain -> json_utf8 (chainJson chain) = true -> Forall block_text chain.
Proof.
  unfold chainJson. cbn [json_utf8]. induction 1 as [|b chain Hb _ IH]; cbn [map forallb]; [done|].
  rewrite andb_true_iff. intros [Hu Hc]. constructor; [by apply block_canonical|by apply IH].
Qed.

Lemma chainJson_canonical chain :
  Forall block_text chain -> json_canonical (chainJson chain) = true.
Proof.
  intros H. unfold chainJson. cbn [json_canonical]. apply forallb_forall.
  intros j (b & <- & Hb%list_elem_of_In)%in_map_iff. rewrite Forall_forall in H. by apply H.
Qed.

Lemma writeDump_stored {JTS : JsonTextSpec JT} d chain fs :
  Forall block_text chain ->
  exists fs', run (writeDump (chainFilePath d) (json_dump (Some 2) (chainJson chain))) [] fs
    = (Some (Ok true), fs') /\ stored d chain fs' /\ others_kept (chainFilePath d) fs fs'.
Proof.
  intros Ht. destruct (parse_dump (Some 2) (chainJson chain)) as (s & Hd & Hp & Hne);
    [done|by apply chainJson_canonical|].
  rewrite Hd. unfold writeDump. destruct (atomicWrite_done (chainFilePath d) s fs) as (fs' & Hr & Hf & Ho).
  exists fs'. erewrite run_nil_pbind by exact Hr. split_and!; [done| |done]. exists s.
  split_and!; [done..|]. intros Hc. destruct chain as [|b chain]; [done|].
  by apply (dump_array_length (Some 2) _ _ s eq_refl (chainJson_canonical _ Ht)).
Qed.

(** A chain whose saving did not throw is on disk. *)
Lemma saveChain_stored {JTS : JsonTextSpec JT} d chain fs r fs' :
  Forall block_wf chain -> run (saveChain d chain) [] fs = (Some (Ok r), fs') ->
  r = true /\ stored d chain fs'.
Proof.
  intros Hwf H. assert (Ht : Forall block_text chain).
  { apply chain_text; [done|]. pose proof (dump_utf8 (Some 2) (chainJson chain)) as Hd.
    destruct (json_utf8 (chainJson chain)); [done|]. destruct Hd as (t & _ & Hd).
    unfold saveChain in H. rewrite Hd in H. discriminate H. }
  destruct (writeDump_stored d chain fs Ht) as (fs1 & Hr & Hs & _).
  unfold saveChain in H. rewrite Hr in H. by simplify_eq.
Qed.

(** Whether a text is written does not depend on the disk or the path. *)
Lemma writeDump_again f t fs x fs1 f' fs2 :
  run (writeDump f t) [] fs = (Some (Ok x), fs1) -> exists fs3, run (writeDump f' t) [] fs2 = (Some (Ok true), fs3).
Proof.
  destruct t as [text|e]; [intros _|intros H; discriminate H]. unfold writeDump.
  destruct (atomicWrite_done f' text fs2) as (fs3 & Hr & _). exists fs3. by erewrite run_nil_pbind by exact Hr.
Qed.

Lemma chain_path_apart d :
  chainFilePath d <> stateFilePath d /\ chainFilePath d <> tmpPath (stateFilePath d) /\
  chainFilePath d <> bakPath (stateFilePath d).
Proof.
  unfold tmpPath, bakPath, chainFilePath, stateFilePath. rewrite !str_app_assoc.
  split_and!; intros H%str_app_inj; try done; naive_solver.
Qed.

Lemma saveState_keeps_chain d st fs r fs' :
  run (saveState d st) [] fs = (Some r, fs') -> fs' !! chainFilePath d = fs !! chainFilePath d.
Proof.
  unfold saveState, writeDump. destruct (json_dump _ _) as [text|e]; [|intros H; unfold run in H; simpl in H; by simplify_eq].
  destruct (atomicWrite_done (stateFilePath d) text fs) as (fs1 & Hr & _ & Ho).
  erewrite run_nil_pbind by exact Hr. unfold run. simpl. intros [= <- <-].
  apply Ho; apply chain_path_apart.
Qed.

(** Opening the store leaves a chain file as it is. *)
Lemma recoverTempFile_keeps f fs p :
  p <> f -> p <> tmpPath f ->
  exists fs', run (recoverTempFile f) [] fs = (Some tt, fs') /\ fs' !! p = fs !! p.
Proof.
  intros H1 H2. unfold run, recoverTempFile. simpl.
  destruct (fs !! tmpPath f) as [t|] eqn:Et, (fs !! f) as [s|] eqn:Es; repeat (simpl; simplify_map_eq);
    eexists; (split; [done|]); by simplify_map_eq.
Qed.

Lemma openStorage_keeps d fs s :
  fs !! chainFilePath d = Some s ->
  exists fs', run (openStorage d) [] fs = (Some tt, fs') /\ fs' !! chainFilePath d = Some s.
Proof.
  intros Hs. unfold openStorage, recoverTempFiles.
  pose proof (recovered_spec (chainFilePath d) fs) as Hr. rewrite Hs in Hr. unfold recovered in Hr.
  assert (H1 : exists fs1, run (recoverTempFile (chainFilePath d)) [] fs = (Some tt, fs1)).
  { unfold run, recoverTempFile. simpl. destruct (fs !! tmpPath _); simpl; [rewrite Hs; simpl|]; by eexists. }
  destruct H1 as [fs1 H1]. rewrite H1 in Hr. cbn [snd] in Hr.
  destruct (chain_path_apart d) as (N1 & N2 & _).
  destruct (recoverTempFile_keeps (stateFilePath d) fs1 (chainFilePath d) N1 N2) as (fs2 & H2 & Hk).
  exists fs2. erewrite run_nil_pbind by exact H1. split; [exact H2|]. by rewrite Hk.
Qed.

Lemma parseChain_stored s chain :
  json_parse s = Ok (chainJson chain) -> Forall block_wf chain ->
  parseChain s = map fillLegacyBlock chain.
Proof.
  intros Hp Hwf. unfold parseChain, chainJson in *. rewrite Hp. simpl.
  rewrite rmap_compose. erewrite rmap_map; [done|].
  intros b Hb. rewrite Forall_forall in Hwf. by apply blockFromJson_toJson, Hwf.
Qed.

(** What [appendBlock] does on each kind of file, without faults. *)
Lemma appendBlock_run d b fs :
  run (appendBlock d b) [] fs =
  let raw := default EmptyString (fs !! chainFilePath d) in
  match appendBase raw with
  | None => (Some (Ok false), fs)
  | Some l =>
      match match last l with
            | None => Ok true
            | Some back =>
                let! tip := blockFromJson back in
                Ok (negb (negb (index b =? u64 (index tip + 1))
                          || negb (String.eqb (previousHash b) (hash tip))))
            end with
      | Throw e => (Some (Throw e), fs)
      | Ok false => (Some (Ok false), fs)
      | Ok true =>
          run (writeDump (chainFilePath d) (json_dump (Some 2) (JArray (l ++ [blockToJson b])))) [] fs
      end
  end.
Proof.
  unfold appendBlock. erewrite run_nil_pbind by apply readFile_done. simpl.
  destruct (appendBase _) as [l|]; [|done]. destruct (last l) as [back|]; [|done].
  destruct (blockFromJson back) as [tip|]; simpl; [|done]. by destruct (negb _).
Qed.

Lemma appendBase_stored s chain :
  s <> EmptyString -> json_parse s = Ok (chainJson chain) ->
  appendBase s = Some (map blockToJson chain).
Proof.
  intros Hne Hp. unfold appendBase. by rewrite (proj2 (str_empty_false s) Hne), Hp.
Qed.

(** The block extends the tip of the chain, as [appendBlock] compares them. *)
Definition extends_tip (chain : list Block) (b : Block) : bool :=
  match last chain with
  | None => true
  | Some tip => (index b =? u64 (index tip + 1)) && String.eqb (previousHash b) (hash tip)
  end.

Lemma appendBlock_stored {JTS : JsonTextSpec JT} d chain b fs :
  Forall block_wf chain -> Forall block_text (chain ++ [b]) -> stored d chain fs ->
  if extends_tip chain b
  then exists fs', run (appendBlock d b) [] fs = (Some (Ok true), fs') /\ stored d (chain ++ [b]) fs'
  else run (appendBlock d b) [] fs = (Some (Ok false), fs).
Proof.
  intros Hwf Ht (s & Hs & Hne & Hp & _). rewrite appendBlock_run, Hs. simpl.
  rewrite (appendBase_stored s chain) by done. rewrite fmap_last. unfold extends_tip.
  destruct (last chain) as [tip|] eqn:El; simpl.
  - assert (Hin : block_wf tip).
    { apply last_Some in El as [c ->]. rewrite Forall_app, Forall_singleton in Hwf. tauto. }
    rewrite blockFromJson_toJson by done. simpl.
    destruct (_ && _) eqn:E.
    + apply andb_prop in E as [-> ->]. simpl.
      destruct (writeDump_stored d (chain ++ [b]) fs Ht) as (fs' & Hr & Hst & _).
      unfold chainJson in Hr. rewrite map_app in Hr. eauto.
    + destruct (index b =? _), (String.eqb _ _); (done || discriminate).
  - destruct (writeDump_stored d (chain ++ [b]) fs Ht) as (fs' & Hr & Hst & _).
    unfold chainJson in Hr. rewrite map_app in Hr. eauto.
Qed.

End storage_lemmas.

(** ** Properties *)

Section storage_properties.
Context `{OS : OpenSSL} `{JT : JsonText}.

(** C26: replacing an existing file survives one accident. If, at any one
    operation of [atomicWrite], the process dies or the operation fails (a write
    after any number of bytes), then after a restart's recovery the file holds
    the old text or the new one in full; a reported success means the new text
    is there, a reported failure that the old one still is. *)
Theorem atomicWrite_single_fault (f content old : string) (fs : FS) (n : nat) (ev : event)
    (r : option bool) (fs' : FS) :
  fs !! f = Some old ->
  run (atomicWrite f content) (single n ev) fs = (r, fs') ->
  match r with
  | Some true => fs' !! f = Some content
  | Some false => fs' !! f = Some old
  | None => recovered f fs' = Some old \/ recovered f fs' = Some content
  end /\ others_kept f fs fs'.
Proof.
  destruct (paths_distinct f) as (H1 & H2 & H3). intros Hf. unfold run, single, others_kept.
  rewrite recovered_spec. unfold atomicWrite. simpl. fs_run n ev.
Qed.

(** Writing a file for the first time is not atomic: when the process dies,
    recovery leaves no file or a prefix of the text, and every prefix is
    possible, because recovery installs the temporary file unseen. *)
Lemma atomicWrite_first_write (f content : string) (fs : FS) :
  fs !! f = None -> fs !! tmpPath f = None ->
  (forall n ev fs', run (atomicWrite f content) (single n ev) fs = (None, fs') ->
     recovered f fs' = None \/ exists k, recovered f fs' = Some (str_take k content)) /\
  (forall k, exists fs', run (atomicWrite f content) (single 1 (Crash k)) fs = (None, fs') /\
     recovered f fs' = Some (str_take k content)).
Proof.
  destruct (paths_distinct f) as (H1 & H2 & H3). intros Hf Ht. split.
  - intros n ev fs'. unfold run, single. rewrite recovered_spec. unfold atomicWrite. simpl.
    assert (Hall : exists k, content = str_take k content).
    { exists (String.length content). by rewrite str_take_all. }
    destruct (fs !! bakPath f) eqn:Eb; do 9 (fs_step n ev;
          try match goal with
              | |- (_, _) = _ -> _ => intros [=]; subst; simplify_map_eq;
                  first [by left | right; by exists 0%nat | right; by eexists
                        | destruct Hall as [k Hk]; right; exists k; by rewrite <- Hk]
              end).
  - intros k. unfold run, single. simpl. eexists. split; [done|].
    rewrite recovered_spec. by simplify_map_eq.
Qed.

(** Two errors in a row lose the file: when the swap fails and the test for
    the backup fails too, the handler removes the new text and reports failure
    while the old text stays in the backup, which recovery never reads. *)
Lemma atomicWrite_double_fault (f content old : string) (fs : FS) :
  fs !! f = Some old ->
  let evs := [Done; Done; Done; Done; Done; Fails 0; Fails 0] in
  exists fs', run (atomicWrite f content) evs fs = (Some false, fs') /\
    recovered f fs' = None /\ fs' !! bakPath f = Some old.
Proof.
  destruct (paths_distinct f) as (H1 & H2 & H3). intros Hf evs. unfold run, atomicWrite, evs. simpl.
  simplify_map_eq. eexists. split; [done|]. rewrite recovered_spec.
  split; by simplify_map_eq.
Qed.

(** Without faults [saveChain] then [loadChain] returns the chain, each
    transaction passed through the legacy defaults; a chain of complete
    transactions comes back equal. *)
Lemma save_load_chain {JTS : JsonTextSpec JT} (d : string) (chain : list Block) (fs : FS) :
  Forall block_wf chain -> Forall block_text chain ->
  exists fs', run (saveChain d chain) [] fs = (Some (Ok true), fs') /\
    run (loadChain d) [] fs' = (Some (Ok (map fillLegacyBlock chain)), fs') /\
    (Forall (fun b => Forall tx_complete (transactions b)) chain ->
     run (loadChain d) [] fs' = (Some (Ok chain), fs')).
Proof.
  intros Hwf Ht. destruct (writeDump_stored d chain fs Ht) as (fs' & Hr & (s & Hs & Hne & Hp & _) & _).
  exists fs'. split; [done|].
  assert (Hl : run (loadChain d) [] fs' = (Some (Ok (map fillLegacyBlock chain)), fs')).
  { unfold loadChain. erewrite run_nil_pbind by apply readFile_done. rewrite Hs. simpl.
    unfold run. simpl. rewrite (proj2 (str_empty_false s) Hne).
    by rewrite (parseChain_stored s chain). }
  split; [done|]. intros Hc. rewrite Hl. by rewrite fillLegacyChain_id.
Qed.

(** Without faults, on a file that holds a chain, [appendBlock] stores the
    chain with the block added when the block's index and previous hash follow
    the stored tip, and otherwise reports failure and leaves the file as it is;
    on a missing file it stores the block alone, whatever its index. *)
Lemma appendBlock_follows_tip {JTS : JsonTextSpec JT} (d : string) (chain : list Block)
    (b : Block) (fs : FS) :
  Forall block_wf chain -> Forall block_text (chain ++ [b]) ->
  (stored d chain fs ->
   if extends_tip chain b
   then exists fs', run (appendBlock d b) [] fs = (Some (Ok true), fs') /\ stored d (chain ++ [b]) fs'
   else run (appendBlock d b) [] fs = (Some (Ok false), fs)) /\
  (fs !! chainFilePath d = None ->
   exists fs', run (appendBlock d b) [] fs = (Some (Ok true), fs') /\ stored d [b] fs').
Proof.
  intros Hwf Ht. split; [by apply appendBlock_stored|]. intros Hn.
  rewrite appendBlock_run, Hn. simpl.
  destruct (writeDump_stored d [b] fs) as (fs' & Hr & Hst & _); [|eauto].
  by apply Forall_app in Ht as [_ ?].
Qed.

End storage_properties.

(** ** Witnesses *)

Section storage_witnesses.
Import ToyOpenSSL Nlohmann.

Definition sampleFS : FS := <["f" := "old"]> ∅.

Definition sampleStored : list Block :=
  [mkBlock 0 "t" "0" [genesisCoinbase] "r" 3 1 "h"; mkBlock 1 "t" "h" [] "r" 0 1 "k"].

Lemma sampleStored_ok : Forall block_wf sampleStored /\ Forall block_text sampleStored.
Proof.
  unfold sampleStored, block_wf, tx_wf, in_u, block_text. split; repeat constructor; done.
Qed.

Lemma atomicWrite_single_fault_witness :
  exists fs', run (atomicWrite "f" "new") (single 5 (Crash 0)) sampleFS = (None, fs') /\
    fs' !! "f" = None /\ (recovered "f" fs' = Some "old" \/ recovered "f" fs' = Some "new").
Proof.
  eexists. split; [reflexivity|]. split; [reflexivity|].
  refine (proj1 (atomicWrite_single_fault "f" "new" "old" sampleFS 5 (Crash 0) None _ _ _));
    reflexivity.
Defined.

Lemma atomicWrite_first_write_witness :
  exists fs', run (atomicWrite "f" "[1,2]") (single 1 (Crash 3)) ∅ = (None, fs') /\
    recovered "f" fs' = Some "[1,".
Proof. apply (atomicWrite_first_write "f" "[1,2]" ∅); reflexivity. Defined.

Lemma atomicWrite_double_fault_witness :
  exists fs', run (atomicWrite "f" "new") [Done; Done; Done; Done; Done; Fails 0; Fails 0] sampleFS
    = (Some false, fs') /\ recovered "f" fs' = None /\ fs' !! bakPath "f" = Some "old".
Proof. apply (atomicWrite_double_fault "f" "new" "old" sampleFS). reflexivity. Defined.

Lemma save_load_chain_witness :
  exists fs', run (saveChain "data" sampleStored) [] ∅ = (Some (Ok true), fs') /\
    run (loadChain "data") [] fs' = (Some (Ok sampleStored), fs').
Proof.
  destruct sampleStored_ok as [H1 H2].
  destruct (save_load_chain "data" sampleStored ∅ H1 H2) as (fs' & Hs & _ & Hl).
  exists fs'. split; [exact Hs|]. apply Hl.
  unfold sampleStored, tx_complete, isCoinbase. repeat constructor; simpl; naive_solver.
Defined.

Lemma appendBlock_follows_tip_witness :
  exists fs', run (appendBlock "data" (mkBlock 2 "t" "k" [] "r" 0 1 "l")) [] ∅
    = (Some (Ok true), fs') /\ stored "data" [mkBlock 2 "t" "k" [] "r" 0 1 "l"] fs'.
Proof.
  destruct sampleStored_ok as [H1 H2].
  apply (appendBlock_follows_tip "data" sampleStored (mkBlock 2 "t" "k" [] "r" 0 1 "l") ∅ H1).
  - apply Forall_app. split; [exact H2|]. repeat constructor.
  - reflexivity.
Defined.

End storage_witnesses.
