(* ===== verification/Blockchain.v ===== *)
(** * Blockchain: src/src/core/blockchain.cpp

    The node's chain, its mempool, the state derived from the chain, and the
    operations on them. Each public operation runs under the object's mutex from
    start to end, so an operation is one atomic step; [bstep] is the relation
    between the states before and after one of them.

    The clock, the fuel of mining and the file system are inputs. An operation
    that writes to disk is a [prog] of Storage.v over the result: the new object,
    the callbacks it made ([notice]) and its return value or exception; the
    object may have changed when an exception leaves the operation. *)

From S2P Require Import Prelude StdTime Json Crypto Transaction Block State Consensus Storage.
From stdpp Require Import relations.
#[local] Open Scope Z_scope.

Definition kBlockReward : Z := 50.
Definition MAX_TXS_PER_BLOCK : nat := 100.

(** The callbacks made, in order. *)
Inductive notice : Type :=
| BlockAdded (b : Block)
| BlockAccepted (b : Block)
| TransactionAdded (tx : Transaction).

Record Blockchain := mkBlockchain {
  difficulty_ : Z;                                  (* uint32_t *)
  chain_ : list Block;
  mempool_ : list Transaction;
  stateManager_ : StateManager;
  consensusEngine_ : option IConsensusEngine;       (* nullable *)
  storage_ : option string;                         (* nullable; the data directory *)
  onBlockAdded_ : bool;                             (* whether a callback is set *)
  onBlockAccepted_ : bool;
  onTransactionAdded_ : bool;
  chainUpdateVersion_ : Z                           (* uint64_t *)
}.

(** *** Member assignments *)

Definition set_difficulty (d : Z) (bc : Blockchain) : Blockchain :=
  mkBlockchain d (chain_ bc) (mempool_ bc) (stateManager_ bc) (consensusEngine_ bc) (storage_ bc)
    (onBlockAdded_ bc) (onBlockAccepted_ bc) (onTransactionAdded_ bc) (chainUpdateVersion_ bc).
Definition set_chain (c : list Block) (bc : Blockchain) : Blockchain :=
  mkBlockchain (difficulty_ bc) c (mempool_ bc) (stateManager_ bc) (consensusEngine_ bc) (storage_ bc)
    (onBlockAdded_ bc) (onBlockAccepted_ bc) (onTransactionAdded_ bc) (chainUpdateVersion_ bc).
Definition set_mempool (m : list Transaction) (bc : Blockchain) : Blockchain :=
  mkBlockchain (difficulty_ bc) (chain_ bc) m (stateManager_ bc) (consensusEngine_ bc) (storage_ bc)
    (onBlockAdded_ bc) (onBlockAccepted_ bc) (onTransactionAdded_ bc) (chainUpdateVersion_ bc).
Definition set_state (st : StateManager) (bc : Blockchain) : Blockchain :=
  mkBlockchain (difficulty_ bc) (chain_ bc) (mempool_ bc) st (consensusEngine_ bc) (storage_ bc)
    (onBlockAdded_ bc) (onBlockAccepted_ bc) (onTransactionAdded_ bc) (chainUpdateVersion_ bc).
(** [++chainUpdateVersion_] *)
Definition bump_version (bc : Blockchain) : Blockchain :=
  mkBlockchain (difficulty_ bc) (chain_ bc) (mempool_ bc) (stateManager_ bc) (consensusEngine_ bc)
    (storage_ bc) (onBlockAdded_ bc) (onBlockAccepted_ bc) (onTransactionAdded_ bc)
    (u64 (chainUpdateVersion_ bc + 1)).

Definition setOnBlockAdded (bc : Blockchain) : Blockchain :=
  mkBlockchain (difficulty_ bc) (chain_ bc) (mempool_ bc) (stateManager_ bc) (consensusEngine_ bc)
    (storage_ bc) true (onBlockAccepted_ bc) (onTransactionAdded_ bc) (chainUpdateVersion_ bc).
Definition setOnBlockAccepted (bc : Blockchain) : Blockchain :=
  mkBlockchain (difficulty_ bc) (chain_ bc) (mempool_ bc) (stateManager_ bc) (consensusEngine_ bc)
    (storage_ bc) (onBlockAdded_ bc) true (onTransactionAdded_ bc) (chainUpdateVersion_ bc).
Definition setOnTransactionAdded (bc : Blockchain) : Blockchain :=
  mkBlockchain (difficulty_ bc) (chain_ bc) (mempool_ bc) (stateManager_ bc) (consensusEngine_ bc)
    (storage_ bc) (onBlockAdded_ bc) (onBlockAccepted_ bc) true (chainUpdateVersion_ bc).

(** ** Accessors *)

Definition getChain (bc : Blockchain) : list Block := chain_ bc.
(** [chain_.back()]; the chain is never empty ([chain_inv]). *)
Definition getLatestBlock (bc : Blockchain) : Block := default emptyBlock (last (chain_ bc)).
Definition getMempool (bc : Blockchain) : list Transaction := mempool_ bc.
Definition getChainLength (bc : Blockchain) : Z := Z.of_nat (length (chain_ bc)).
Definition getChainUpdateVersion (bc : Blockchain) : Z := chainUpdateVersion_ bc.
Definition getBalanceForAddress (a : string) (bc : Blockchain) : Z := getBalance a (stateManager_ bc).
Definition getLastNonceForAddress (a : string) (bc : Blockchain) : Z :=
  getLastNonce a (stateManager_ bc).
Definition getHistoryForAddress (a : string) (bc : Blockchain) : list Transaction :=
  getTransactionsForAddress a (stateManager_ bc).
Definition getDifficulty (bc : Blockchain) : Z := difficulty_ bc.

Section blockchain.
Context `{OS : OpenSSL} `{JT : JsonText}.

(** ** Validation *)

(** The body of the loop of [isChainValid] at block [i]. *)
Definition link_ok (i : Z) (current previous : Block) : bool :=
  if negb (index current =? i) then false
  else if negb (String.eqb (hash current) (calculateHash current)) then false
  else if negb (String.eqb (previousHash current) (hash previous)) then false
  else if negb (String.eqb (merkleRoot current) (computeMerkleRoot current)) then false
  else if negb (meets_target (hash current) (difficulty current)) then false
  else hasValidTransactions current.

Fixpoint links_ok (i : Z) (previous : Block) (rest : list Block) : bool :=
  match rest with
  | [] => true
  | current :: rest => if link_ok i current previous then links_ok (i + 1) current rest else false
  end.

Definition genesis_ok (genesis : Block) : bool :=
  if negb (String.eqb (previousHash genesis) (str_repeat 64 "0")) then false
  else if negb (String.eqb (hash genesis) (calculateHash genesis)) then false
  else if negb (String.eqb (merkleRoot genesis) (computeMerkleRoot genesis)) then false
  else true.

(** [static isChainValid(chain)] *)
Definition isChainValid (chain : list Block) : bool :=
  match chain with
  | [] => false
  | genesis :: rest => if genesis_ok genesis then links_ok 1 genesis rest else false
  end.

(** The engine's loop over consecutive blocks. *)
Fixpoint engine_ok (e : IConsensusEngine) (now : Z) (previous : Block) (rest : list Block) : bool :=
  match rest with
  | [] => true
  | current :: rest =>
      if validateBlock e now current previous then engine_ok e now current rest else false
  end.

Definition validateChainAgainstConsensus (engine : option IConsensusEngine) (now : Z)
    (chain : list Block) : bool :=
  if negb (isChainValid chain) then false
  else match engine, chain with
       | Some e, genesis :: rest => engine_ok e now genesis rest
       | _, _ => true
       end.

(** [isChainValid() const] *)
Definition isValidChain (now : Z) (bc : Blockchain) : bool :=
  validateChainAgainstConsensus (consensusEngine_ bc) now (chain_ bc).

(** ** Mempool *)

Definition isInMempool (id : string) (mempool : list Transaction) : bool :=
  existsb (fun tx => String.eqb (txID tx) id) mempool.

(** The two running sums over the mempool. *)
Definition pendingOutgoing (a : string) (mempool : list Transaction) : Z :=
  foldl (fun acc p => if String.eqb (fromAddress p) a then u64 (acc + amount p) else acc) 0 mempool.
Definition pendingIncoming (a : string) (mempool : list Transaction) : Z :=
  foldl (fun acc p => if String.eqb (toAddress p) a then u64 (acc + amount p) else acc) 0 mempool.

Definition highestSeenNonce (a : string) (bc : Blockchain) : Z :=
  foldl (fun acc p => if String.eqb (fromAddress p) a then int_max acc (Transaction.nonce p) else acc)
    (getLastNonce a (stateManager_ bc)) (mempool_ bc).

Definition addTransaction (now : Z) (tx : Transaction) (bc : Blockchain)
    : bool * Blockchain * list notice :=
  if isCoinbase tx then (false, bc, [])
  else if negb (verifyTx tx) then (false, bc, [])
  else if amount tx =? 0 then (false, bc, [])
  else
    let expectedFrom := "PCN_" +:+ str_take 40 (sha256 (senderPublicKey tx)) in
    if negb (String.eqb (fromAddress tx) expectedFrom) then (false, bc, [])
    else
      let confirmedBalance := getBalance (fromAddress tx) (stateManager_ bc) in
      let outgoing := pendingOutgoing (fromAddress tx) (mempool_ bc) in
      let incoming := pendingIncoming (fromAddress tx) (mempool_ bc) in
      let availableBalance := u64 (confirmedBalance + incoming) in
      if (availableBalance <? outgoing) || (u64 (availableBalance - outgoing) <? amount tx)
      then (false, bc, [])
      else
        let expectedNextNonce := u64 (highestSeenNonce (fromAddress tx) bc + 1) in
        if negb (Transaction.nonce tx =? expectedNextNonce) then (false, bc, [])
        else if isExpired now 300 tx then (false, bc, [])
        else if isDoubleSpend (txID tx) (stateManager_ bc) then (false, bc, [])
        else if isInMempool (txID tx) (mempool_ bc) then (false, bc, [])
        else
          let bc := set_mempool (mempool_ bc ++ [tx]) bc in
          let bc := bump_version bc in
          (true, bc, if onTransactionAdded_ bc then [TransactionAdded tx] else []).

(** ** State *)

(** [Blockchain::applyBlockState] *)
Definition apply_block (b : Block) (bc : Blockchain) : Blockchain :=
  bump_version (set_state (applyBlockState (stateManager_ bc) b) bc).

(** [if (storage_) storage_->appendBlock(block)]; the returned flag is ignored. *)
Definition persistBlock (b : Block) (bc : Blockchain) : prog (result unit) :=
  match storage_ bc with
  | None => Ret (Ok tt)
  | Some d => do! r := appendBlock d b in Ret (let! _ := r in Ok tt)
  end.

Definition saveAll (bc : Blockchain) : prog (result unit) :=
  match storage_ bc with
  | None => Ret (Ok tt)
  | Some d => do! r := saveChain d (chain_ bc) in Ret (let! _ := r in Ok tt)
  end.

(** [persistChain]: the chain, then the state. *)
Definition persistChain (bc : Blockchain) : prog (result unit) :=
  match storage_ bc with
  | None => Ret (Ok tt)
  | Some d =>
      do! r := saveChain d (chain_ bc) in
      match r with
      | Throw e => Ret (Throw e)
      | Ok _ => do! r := saveState d (stateManager_ bc) in Ret (let! _ := r in Ok tt)
      end
  end.

(** What an operation that touches the disk leaves: the object, the callbacks
    made, and the value returned or the exception thrown. *)
Definition outcome (A : Type) : Type := Blockchain * list notice * result A.

Definition after_storage {A} (r : result unit) (bc : Blockchain) (ns : list notice) (a : A)
    : outcome A :=
  match r with
  | Ok _ => (bc, ns, Ok a)
  | Throw e => (bc, [], Throw e)
  end.

(** ** Mining *)

(** The retargeted difficulty, stored in the object. *)
Definition retargeted (bc : Blockchain) : Blockchain :=
  match consensusEngine_ bc with
  | None => bc
  | Some e => set_difficulty (nextDifficulty e (chain_ bc) (difficulty_ bc)) bc
  end.

Definition rewardTransaction (t : Z) (minerAddress : string) : Transaction :=
  computeTxID (mkTx "" "COINBASE" "" "COINBASE" minerAddress kBlockReward 0 "Mining Reward"
                 (currentTimestamp t) "").

(** The block before it is sealed: the reward, then at most 100 pending
    transactions. [t1] and [t2] are the two readings of the clock. *)
Definition blockTemplate (t1 t2 : Z) (minerAddress : string) (bc : Blockchain) : Block :=
  newBlock t2 (Z.of_nat (length (chain_ bc))) (hash (getLatestBlock bc))
    (rewardTransaction t1 minerAddress :: take MAX_TXS_PER_BLOCK (mempool_ bc)) (difficulty_ bc).

Definition sealNewBlock (fuel : nat) (minerAddress : string) (b : Block) (bc : Blockchain) : option Block :=
  match consensusEngine_ bc with
  | Some e => sealBlock e fuel b minerAddress
  | None => mineBlock fuel b
  end.

Definition minePendingTransactions (fuel : nat) (t1 t2 : Z) (minerAddress : string) (bc : Blockchain)
    : option (prog (outcome Block)) :=
  let bc := retargeted bc in
  newBlock ← sealNewBlock fuel minerAddress (blockTemplate t1 t2 minerAddress bc) bc;
  let bc := set_chain (chain_ bc ++ [newBlock]) bc in
  let bc := apply_block newBlock bc in
  let bc := set_mempool (drop MAX_TXS_PER_BLOCK (mempool_ bc)) bc in
  Some (do! r := persistBlock newBlock bc in
        Ret (after_storage r bc
               ((if onBlockAdded_ bc then [BlockAdded newBlock] else []) ++
                (if onBlockAccepted_ bc then [BlockAccepted newBlock] else [])) newBlock)).

(** ** Blocks and chains from the network *)

Definition removeConfirmed (b : Block) (mempool : list Transaction) : list Transaction :=
  filter (fun p => existsb (fun c => String.eqb (txID c) (txID p)) (transactions b) = false) mempool.

Definition acceptBlock (now : Z) (b : Block) (bc : Blockchain) : prog (outcome bool) :=
  match last (chain_ bc) with
  | None => Ret (bc, [], Ok false)
  | Some tip =>
      if negb (index b =? Z.of_nat (length (chain_ bc)))
         || negb (String.eqb (previousHash b) (hash tip))
      then Ret (bc, [], Ok false)
      else if negb (validateChainAgainstConsensus (consensusEngine_ bc) now (chain_ bc ++ [b]))
      then Ret (bc, [], Ok false)
      else
        let bc := set_chain (chain_ bc ++ [b]) bc in
        let bc := apply_block b bc in
        let bc := set_mempool (removeConfirmed b (mempool_ bc)) bc in
        do! r := persistBlock b bc in
        Ret (after_storage r bc (if onBlockAccepted_ bc then [BlockAccepted b] else []) true)
  end.

Definition chainSelected (newChain : list Block) (bc : Blockchain) : bool :=
  match consensusEngine_ bc with
  | Some e => shouldAcceptChain e (chain_ bc) newChain
  | None => negb (Nat.leb (length newChain) (length (chain_ bc)))
  end.

Definition replaceChain (now : Z) (newChain : list Block) (bc : Blockchain) : prog (outcome bool) :=
  if negb (chainSelected newChain bc) then Ret (bc, [], Ok false)
  else if negb (validateChainAgainstConsensus (consensusEngine_ bc) now newChain)
  then Ret (bc, [], Ok false)
  else
    let bc := set_chain newChain bc in
    let bc := bump_version (set_state (rebuildState (chain_ bc) (stateManager_ bc)) bc) in
    let spent := getAllSpentTxIDs (stateManager_ bc) in
    let bc := set_mempool (filter (fun tx => txID tx ∉ spent) (mempool_ bc)) bc in
    do! r := saveAll bc in
    Ret (after_storage r bc
           (match onBlockAccepted_ bc, last (chain_ bc) with
            | true, Some tip => [BlockAccepted tip]
            | _, _ => []
            end) true).

Definition chainToJson (bc : Blockchain) : json := JArray (map blockToJson (chain_ bc)).

(** [chainFromJson]: parse every block, then [replaceChain], its answer dropped. *)
Definition chainFromJson (now : Z) (j : json) (bc : Blockchain) : prog (outcome unit) :=
  match rmap blockFromJson (json_items j) with
  | Throw e => Ret (bc, [], Throw e)
  | Ok newChain =>
      do! o := replaceChain now newChain bc in
      Ret (o.1, let! _ := o.2 in Ok tt)
  end.

(** ** Construction *)

Definition bareBlockchain (diff : Z) (engine : option IConsensusEngine) (storage : option string)
    : Blockchain :=
  mkBlockchain diff [] [] emptyState engine storage false false false 0.

(** The chain on disk, if there is one that validates. *)
Definition loadPersisted (now : Z) (engine : option IConsensusEngine) (storage : option string)
    : prog (result (option (list Block))) :=
  match storage with
  | None => Ret (Ok None)
  | Some d =>
      do! there := hasPersistedChain d in
      match there with
      | Throw e => Ret (Throw e)
      | Ok false => Ret (Ok None)
      | Ok true =>
          do! loaded := loadChain d in
          Ret (let! loaded := loaded in
               if negb (Nat.eqb (length loaded) 0) && validateChainAgainstConsensus engine now loaded
               then Ok (Some loaded) else Ok None)
      end
  end.

(** The constructor; [Ok None] means the genesis block is still being mined. *)
Definition newBlockchain (fuel : nat) (now diff : Z) (engine : option IConsensusEngine)
    (storage : option string) : prog (result (option Blockchain)) :=
  let bc := bareBlockchain diff engine storage in
  do! loaded := loadPersisted now engine storage in
  match loaded with
  | Throw e => Ret (Throw e)
  | Ok (Some chain) =>
      let bc := set_chain chain bc in
      let bc := set_state (rebuildState chain (stateManager_ bc)) bc in
      Ret (Ok (Some (bump_version bc)))
  | Ok None =>
      match createGenesis fuel diff with
      | None => Ret (Ok None)
      | Some genesis =>
          let bc := set_chain (chain_ bc ++ [genesis]) bc in
          (* applyBlockState counts one update, then the version is set to 1 *)
          let bc := set_state (applyBlockState (stateManager_ bc) genesis) bc in
          let bc := bump_version bc in
          do! r := saveAll bc in
          Ret (let! _ := r in Ok (Some bc))
      end
  end.

End blockchain.

(** ** Lemmas *)

Section blockchain_lemmas.
Context `{OS : OpenSSL} `{JT : JsonText}.

Lemma link_ok_spec i b p :
  link_ok i b p = true <->
  index b = i /\ previousHash b = hash p /\ isValid b = true /\ hasValidTransactions b = true.
Proof.
  rewrite isValid_spec. unfold link_ok.
  destruct (Z.eqb_spec (index b) i), (String.eqb_spec (hash b) (calculateHash b)),
    (String.eqb_spec (previousHash b) (hash p)), (String.eqb_spec (merkleRoot b) (computeMerkleRoot b)),
    (meets_target (hash b) (difficulty b)); simpl; naive_solver.
Qed.

Lemma genesis_ok_spec g :
  genesis_ok g = true <->
  previousHash g = str_repeat 64 "0" /\ hash g = calculateHash g /\
  merkleRoot g = computeMerkleRoot g.
Proof.
  unfold genesis_ok.
  destruct (String.eqb_spec (previousHash g) (str_repeat 64 "0")),
    (String.eqb_spec (hash g) (calculateHash g)),
    (String.eqb_spec (merkleRoot g) (computeMerkleRoot g)); simpl; naive_solver.
Qed.

Lemma last_cons_default {A} (d x : A) l : default d (last (x :: l)) = default x (last l).
Proof.
  revert d x. induction l as [|y l IH]; intros d x; [done|].
  change (last (x :: y :: l)) with (last (y :: l)). by rewrite (IH d y), (IH x y).
Qed.

Lemma links_ok_snoc i p rest b :
  links_ok i p (rest ++ [b]) =
  links_ok i p rest && link_ok (i + Z.of_nat (length rest)) b (default p (last rest)).
Proof.
  revert i p. induction rest as [|c rest IH]; intros i p; simpl.
  - rewrite Z.add_0_r. by destruct (link_ok i b p).
  - destruct (link_ok i c p); [|done]. rewrite IH.
    rewrite <- (last_cons_default p c).
    by replace (i + 1 + Z.of_nat (length rest)) with (i + Z.of_nat (S (length rest))) by lia.
Qed.

Lemma engine_ok_snoc e now p rest b :
  engine_ok e now p (rest ++ [b]) =
  engine_ok e now p rest && validateBlock e now b (default p (last rest)).
Proof.
  revert p. induction rest as [|c rest IH]; intros p; simpl.
  - by destruct (validateBlock e now b p).
  - destruct (validateBlock e now c p); [|done]. rewrite IH.
    by rewrite <- (last_cons_default p c).
Qed.

Definition tip (chain : list Block) : Block := default emptyBlock (last chain).

Lemma tip_cons g rest : tip (g :: rest) = default g (last rest).
Proof. apply last_cons_default. Qed.

Lemma tip_snoc chain b : tip (chain ++ [b]) = b.
Proof. unfold tip. by rewrite last_snoc. Qed.

Lemma isChainValid_snoc chain b :
  chain <> [] ->
  isChainValid (chain ++ [b]) =
  isChainValid chain && link_ok (Z.of_nat (length chain)) b (tip chain).
Proof.
  destruct chain as [|g rest]; [done|intros _]. rewrite tip_cons. cbn [isChainValid app length].
  rewrite links_ok_snoc. replace (1 + Z.of_nat (length rest)) with (Z.of_nat (S (length rest))) by lia.
  by destruct (genesis_ok g).
Qed.

(** What the engine adds to the validity of a chain. *)
Definition engine_accepts (engine : option IConsensusEngine) (now : Z) (chain : list Block) : bool :=
  match engine, chain with
  | Some e, genesis :: rest => engine_ok e now genesis rest
  | _, _ => true
  end.

Lemma validateChain_split engine now chain :
  validateChainAgainstConsensus engine now chain = isChainValid chain && engine_accepts engine now chain.
Proof. unfold validateChainAgainstConsensus. by destruct (isChainValid chain). Qed.

Lemma engine_accepts_snoc engine now chain b :
  chain <> [] ->
  engine_accepts engine now (chain ++ [b]) =
  engine_accepts engine now chain &&
  match engine with Some e => validateBlock e now b (tip chain) | None => true end.
Proof.
  destruct chain as [|g rest]; [done|intros _]. destruct engine as [e|]; [|done]. simpl.
  by rewrite engine_ok_snoc, tip_cons.
Qed.

(** A block on top of a chain that already validates. *)
Lemma validateChain_snoc engine now chain b :
  chain <> [] ->
  validateChainAgainstConsensus engine now (chain ++ [b]) = true <->
  validateChainAgainstConsensus engine now chain = true /\
  link_ok (Z.of_nat (length chain)) b (tip chain) = true /\
  match engine with Some e => validateBlock e now b (tip chain) = true | None => True end.
Proof.
  intros Hne. rewrite !validateChain_split, isChainValid_snoc, engine_accepts_snoc by done.
  rewrite !andb_true_iff. destruct engine; naive_solver.
Qed.

Lemma isChainValid_nonempty chain : isChainValid chain = true -> chain <> [].
Proof. by destruct chain. Qed.

(** *** State of one block *)

Lemma spent_block st b :
  spentTxIDs_ (applyBlockState st b) =
  spentTxIDs_ st ∪ list_to_set (map txID (user_txs (transactions b))).
Proof.
  unfold applyBlockState. revert st.
  induction (transactions b) as [|tx txs IH]; intros st; [set_solver|].
  cbn [foldl]. rewrite IH, spent_transaction. change (tx :: txs) with ([tx] ++ txs).
  rewrite user_txs_app, user_txs_one, map_app, list_to_set_app_L.
  destruct (isCoinbase tx); simpl; set_solver.
Qed.

(** ** The invariant *)

(** A pending transaction that passed [addTransaction]. *)
Definition admissible (tx : Transaction) : Prop :=
  verifyTx tx = true /\ isCoinbase tx = false /\
  fromAddress tx = deriveAddressV2 (senderPublicKey tx).

Definition engine_lawful (engine : option IConsensusEngine) : Prop :=
  match engine with Some e => EngineSpec e | None => True end.

Record chain_inv (bc : Blockchain) : Prop := {
  inv_engine : engine_lawful (consensusEngine_ bc);
  inv_valid : isChainValid (chain_ bc) = true;
  inv_state : stateManager_ bc = rebuildState (chain_ bc) emptyState;
  inv_mempool : Forall admissible (mempool_ bc);
  inv_nodup : NoDup (map txID (mempool_ bc));
  inv_unspent : Forall (fun tx => txID tx ∉ spentTxIDs_ (stateManager_ bc)) (mempool_ bc)
}.

Lemma isInMempool_spec id m : isInMempool id m = true <-> id ∈ map txID m.
Proof.
  unfold isInMempool. rewrite existsb_exists, list_elem_of_fmap.
  setoid_rewrite String.eqb_eq. setoid_rewrite list_elem_of_In. naive_solver.
Qed.

(** The pending transactions an address sent, and what they and those it
    receives amount to, in unbounded arithmetic. *)
Definition sent_by (a : string) (m : list Transaction) : list Transaction :=
  filter (fun p => fromAddress p = a) m.
Definition received_by (a : string) (m : list Transaction) : list Transaction :=
  filter (fun p => toAddress p = a) m.
Definition total (l : list Transaction) : Z := foldr (fun p acc => amount p + acc) 0 l.

(** The highest nonce among those of [l], and at least [n]. *)
Definition max_nonce (n : Z) (l : list Transaction) : Z :=
  foldr (fun p acc => Z.max (Transaction.nonce p) acc) n l.

Lemma pending_total (f : Transaction -> string) a m :
  foldl (fun acc p => if String.eqb (f p) a then u64 (acc + amount p) else acc) 0 m =
  u64 (total (filter (fun p => f p = a) m)).
Proof.
  assert (Hg : forall l acc, foldl (fun acc p => if String.eqb (f p) a then u64 (acc + amount p) else acc)
      (u64 acc) l = u64 (acc + total (filter (fun p => f p = a) l))).
  { induction l as [|p l IH]; intros acc; [simpl; by rewrite Z.add_0_r|]. cbn [foldl].
    destruct (String.eqb_spec (f p) a) as [He|He].
    - rewrite filter_cons_True by done. cbn [total foldr].
      replace (u64 (u64 acc + amount p)) with (u64 (acc + amount p)).
      + rewrite IH. fold (total (filter (fun p => f p = a) l)). f_equal. lia.
      + unfold wrapu. by rewrite Zplus_mod_idemp_l.
    - by rewrite filter_cons_False, IH by done. }
  exact (Hg m 0).
Qed.

Lemma pending_sums a m :
  pendingOutgoing a m = u64 (total (sent_by a m)) /\ pendingIncoming a m = u64 (total (received_by a m)).
Proof. split; apply pending_total. Qed.

Lemma max_nonce_start n k l : max_nonce (Z.max n k) l = Z.max k (max_nonce n l).
Proof. induction l as [|q l IH]; simpl; [lia|]. rewrite IH. lia. Qed.

Lemma highestSeenNonce_max a bc :
  highestSeenNonce a bc = max_nonce (getLastNonce a (stateManager_ bc)) (sent_by a (mempool_ bc)).
Proof.
  unfold highestSeenNonce, sent_by. generalize (getLastNonce a (stateManager_ bc)).
  induction (mempool_ bc) as [|p l IH]; intros n; [done|]. cbn [foldl]. rewrite IH.
  destruct (String.eqb_spec (fromAddress p) a) as [He|He].
  - rewrite filter_cons_True by done. cbn [max_nonce foldr]. rewrite int_max_spec.
    apply max_nonce_start.
  - by rewrite filter_cons_False.
Qed.

(** What a transaction must satisfy to be let into the mempool: a signature that
    verifies, a positive amount, the address of the signing key, an amount the
    confirmed balance covers after the pending transactions (in 64-bit
    arithmetic), the nonce after the highest one known, a recent timestamp, and
    an identifier neither spent nor pending. *)
Definition acceptable (now : Z) (tx : Transaction) (bc : Blockchain) : Prop :=
  let from := fromAddress tx in
  let available := u64 (getBalance from (stateManager_ bc) + total (received_by from (mempool_ bc))) in
  let outgoing := u64 (total (sent_by from (mempool_ bc))) in
  isCoinbase tx = false /\ verifyTx tx = true /\ amount tx <> 0 /\
  from = deriveAddressV2 (senderPublicKey tx) /\
  outgoing <= available /\ amount tx <= u64 (available - outgoing) /\
  Transaction.nonce tx =
    u64 (max_nonce (getLastNonce from (stateManager_ bc)) (sent_by from (mempool_ bc)) + 1) /\
  isExpired now 300 tx = false /\
  txID tx ∉ spentTxIDs_ (stateManager_ bc) /\ txID tx ∉ map txID (mempool_ bc).

(** The same in the quantities the code computes. *)
Definition passes (now : Z) (tx : Transaction) (bc : Blockchain) : Prop :=
  let from := fromAddress tx in
  let available := u64 (getBalance from (stateManager_ bc) + pendingIncoming from (mempool_ bc)) in
  isCoinbase tx = false /\ verifyTx tx = true /\ amount tx <> 0 /\
  from = deriveAddressV2 (senderPublicKey tx) /\
  pendingOutgoing from (mempool_ bc) <= available /\
  amount tx <= u64 (available - pendingOutgoing from (mempool_ bc)) /\
  Transaction.nonce tx = u64 (highestSeenNonce from bc + 1) /\
  isExpired now 300 tx = false /\
  txID tx ∉ spentTxIDs_ (stateManager_ bc) /\ txID tx ∉ map txID (mempool_ bc).

Lemma acceptable_passes now tx bc : acceptable now tx bc <-> passes now tx bc.
Proof.
  unfold acceptable, passes. cbv zeta.
  destruct (pending_sums (fromAddress tx) (mempool_ bc)) as [-> ->]. rewrite highestSeenNonce_max.
  assert (E : forall x y, u64 (x + u64 y) = u64 (x + y)).
  { intros x y. unfold wrapu. by rewrite Zplus_mod_idemp_r. }
  by rewrite E.
Qed.

#[export] Instance acceptable_dec now tx bc : Decision (acceptable now tx bc).
Proof. unfold acceptable. cbv zeta. apply _. Defined.

Lemma addTransaction_accepts now tx bc :
  acceptable now tx bc ->
  addTransaction now tx bc =
  (true, bump_version (set_mempool (mempool_ bc ++ [tx]) bc),
   if onTransactionAdded_ bc then [TransactionAdded tx] else []).
Proof.
  intros (Hc & Hv & Ha & Hf & Ho & Hb & Hn & He & Hs & Hm)%acceptable_passes. unfold addTransaction.
  rewrite Hc, Hv. cbn [negb]. rewrite (proj2 (Z.eqb_neq _ _) Ha).
  change ("PCN_" +:+ str_take 40 (sha256 (senderPublicKey tx))) with
    (deriveAddressV2 (senderPublicKey tx)).
  rewrite (proj2 (String.eqb_eq _ _) Hf). cbn [negb].
  rewrite (proj2 (Z.ltb_ge _ _) Ho), (proj2 (Z.ltb_ge _ _) Hb). cbn [orb].
  rewrite (proj2 (Z.eqb_eq _ _) Hn), He. cbn [negb].
  unfold isDoubleSpend. rewrite bool_decide_eq_false_2 by done.
  destruct (isInMempool _ _) eqn:E; [|done]. by apply isInMempool_spec in E.
Qed.

Lemma addTransaction_rejects now tx bc :
  ~ acceptable now tx bc -> addTransaction now tx bc = (false, bc, []).
Proof.
  rewrite acceptable_passes. unfold addTransaction. cbv zeta. intros Hn.
  destruct (isCoinbase tx) eqn:Hc; [done|]. destruct (verifyTx tx) eqn:Hv; [cbn [negb]|done].
  destruct (Z.eqb_spec (amount tx) 0) as [|Ha]; [done|].
  destruct (String.eqb_spec (fromAddress tx) ("PCN_" +:+ str_take 40 (sha256 (senderPublicKey tx))))
    as [Hf|]; [cbn [negb]|done].
  destruct (Z.ltb_spec (u64 (getBalance (fromAddress tx) (stateManager_ bc)
    + pendingIncoming (fromAddress tx) (mempool_ bc))) (pendingOutgoing (fromAddress tx) (mempool_ bc)))
    as [|Ho]; [done|simpl].
  match goal with |- context [?x <? amount tx] => destruct (Z.ltb_spec x (amount tx)) as [|Hb] end;
    [done|].
  match goal with |- context [Transaction.nonce tx =? ?x] =>
    destruct (Z.eqb_spec (Transaction.nonce tx) x) as [Hnn|] end; [simpl|done].
  destruct (isExpired now 300 tx) eqn:He; [done|].
  destruct (isDoubleSpend (txID tx) (stateManager_ bc)) eqn:Hs; [done|].
  destruct (isInMempool (txID tx) (mempool_ bc)) eqn:Hm; [done|].
  exfalso. apply Hn. unfold isDoubleSpend in Hs. apply bool_decide_eq_false in Hs.
  assert (txID tx ∉ map txID (mempool_ bc)).
  { rewrite <- isInMempool_spec. congruence. }
  by unfold passes.
Qed.

End blockchain_lemmas.
