(* ===== verification/SampleNode.v ===== *)
(** * SampleNode: a small concrete node

    A node with a genesis block of difficulty 0, a proof-of-work engine and the
    toy cryptography, and a block mined on it: the inputs of the witnesses of
    ChainInvariant.v and ChainSafety.v. *)

From S2P Require Import Prelude StdTime Json JsonNlohmann Crypto Transaction Block State Consensus Storage Blockchain.
#[local] Open Scope Z_scope.
Import ToyOpenSSL Nlohmann.

Definition sampleNow : Z := 1780000000000000000.

Definition sampleGenesis : Block := Eval vm_compute in default emptyBlock (createGenesis 0 0).

(** The node, on difficulty 1, with the given store. *)
Definition sampleNode (storage : option string) : Blockchain :=
  mkBlockchain 1 [sampleGenesis] [] (rebuildState [sampleGenesis] emptyState)
    (Some (PoWEngine defaultAdjuster)) storage false true true 1.

Definition sampleCoinbase (amt : Z) : Transaction :=
  mkTx "id" "COINBASE" "" "COINBASE" "addr" amt 0 "" "" "".

(** Two blocks mined on the genesis block: one transaction, and three. *)
Definition sampleNext : Block := Eval vm_compute in
  candidate (newBlock sampleNow 1 (hash sampleGenesis) [set_txID "a" (sampleCoinbase 1000)] 1) 0.

Definition sampleTriple : Block := Eval vm_compute in
  candidate (newBlock sampleNow 1 (hash sampleGenesis)
    [set_txID "f" (sampleCoinbase 50); set_txID "2f" (sampleCoinbase 50);
     set_txID "3f" (sampleCoinbase 50)] 1) 0.

Lemma sampleGenesis_valid : isChainValid [sampleGenesis] = true.
Proof. vm_compute. reflexivity. Qed.

Lemma sampleNode_inv storage : chain_inv (sampleNode storage).
Proof.
  constructor.
  - exact (PoWEngine_spec defaultAdjuster).
  - exact sampleGenesis_valid.
  - exact eq_refl.
  - apply Forall_nil_2.
  - apply NoDup_nil_2.
  - apply Forall_nil_2.
Qed.

Lemma sampleNext_link : link_ok 1 sampleNext sampleGenesis = true.
Proof. vm_compute. reflexivity. Qed.

Lemma sampleNext_pow : pow_validateBlock sampleNow sampleNext sampleGenesis = true.
Proof. vm_compute. reflexivity. Qed.

Lemma sampleTriple_pow : pow_validateBlock sampleNow sampleTriple sampleGenesis = true.
Proof. vm_compute. reflexivity. Qed.

Lemma sampleChain2_valid : isChainValid [sampleGenesis; sampleNext] = true.
Proof.
  rewrite (isChainValid_snoc [sampleGenesis] sampleNext) by done.
  rewrite sampleGenesis_valid. exact sampleNext_link.
Qed.

Lemma sample_printable : Forall block_wf [sampleGenesis; sampleNext] /\
  Forall block_text [sampleGenesis; sampleNext] /\
  Forall (fun b => Forall tx_complete (transactions b)) [sampleGenesis; sampleNext].
Proof.
  split_and!.
  - constructor; [by apply block_wfb_spec|]. constructor; [by apply block_wfb_spec|constructor].
  - constructor; [vm_compute; reflexivity|]. constructor; [vm_compute; reflexivity|constructor].
  - unfold tx_complete, sampleGenesis, sampleNext. simpl. repeat constructor; discriminate.
Qed.

(** The node after the block was appended. *)
Definition sampleNode2 (storage : option string) : Blockchain :=
  mkBlockchain 1 [sampleGenesis; sampleNext] []
    (rebuildState [sampleGenesis; sampleNext] emptyState)
    (Some (PoWEngine defaultAdjuster)) storage false true true 2.

Lemma sampleNode2_inv storage : chain_inv (sampleNode2 storage).
Proof.
  constructor.
  - exact (PoWEngine_spec defaultAdjuster).
  - exact sampleChain2_valid.
  - exact eq_refl.
  - apply Forall_nil_2.
  - apply NoDup_nil_2.
  - apply Forall_nil_2.
Qed.

Lemma sampleNode2_validates storage :
  validateChainAgainstConsensus (consensusEngine_ (sampleNode2 storage)) sampleNow
    (chain_ (sampleNode2 storage)) = true.
Proof.
  unfold validateChainAgainstConsensus. cbn [chain_ consensusEngine_ sampleNode2].
  rewrite sampleChain2_valid. cbn [negb engine_ok validateBlock PoWEngine].
  by rewrite sampleNext_pow.
Qed.

Lemma sampleGenesis_made : createGenesis 0 0 = Some sampleGenesis.
Proof. vm_compute. reflexivity. Qed.

(** A block the node mines for "b" on its own clock, and one mined for "i" on a
    clock a minute behind the tip of [sampleNode2]. *)
Definition sampleMined : Block := Eval vm_compute in
  candidate (newBlock sampleNow 1 (hash sampleGenesis) [rewardTransaction sampleNow "b"] 1) 0.

Definition sampleEarly : Z := sampleNow - 60000000000.

Definition sampleLate : Block := Eval vm_compute in
  default emptyBlock
    (mineBlock 7 (newBlock sampleEarly 2 (hash sampleNext) [rewardTransaction sampleEarly "i"] 1)).

Lemma sampleMined_sealed :
  mineBlock 0 (newBlock sampleNow 1 (hash sampleGenesis) [rewardTransaction sampleNow "b"] 1)
    = Some sampleMined.
Proof. vm_compute. reflexivity. Qed.

Lemma sampleLate_sealed :
  mineBlock 7 (newBlock sampleEarly 2 (hash sampleNext) [rewardTransaction sampleEarly "i"] 1)
    = Some sampleLate.
Proof. vm_compute. reflexivity. Qed.

(** Disks that hold the chains of the two nodes. *)
Definition chainText (j : json) : string :=
  match json_dump (Some 2) j with Ok s => s | Throw _ => "" end.
Definition sampleDisk : FS :=
  <[chainFilePath "d" := chainText (chainJson [sampleGenesis])]> ∅.

Lemma stored_enc chain :
  chain <> [] -> Forall block_text chain ->
  stored "d" chain (<[chainFilePath "d" := chainText (chainJson chain)]> ∅).
Proof.
  intros Hne Ht. exists (chainText (chainJson chain)).
  destruct (parse_dump (Some 2) (chainJson chain)) as (s & Hs & Hp & Hnn);
    [done|by apply chainJson_canonical|].
  assert (chainText (chainJson chain) = s) as -> by (unfold chainText; by rewrite Hs).
  split_and!; [by simplify_map_eq|done|done|].
  intros _. destruct chain as [|b chain]; [done|].
  by apply (dump_array_length (Some 2) _ _ s eq_refl (chainJson_canonical _ Ht)).
Qed.
