(* ===== verification/ChainInvariant.v ===== *)
(** * ChainInvariant: what every operation of the blockchain preserves

    The step relation over the operations of Blockchain.v, the exact effect of
    each operation, and the invariant [chain_inv]: the chain validates from its
    genesis block, the state manager holds what replaying the chain gives, and
    the mempool holds verified, distinct, unspent user transactions. *)

From S2P Require Import Prelude StdTime Json JsonNlohmann Crypto Transaction Block State Consensus Storage Blockchain SampleNode.
From stdpp Require Import relations.
#[local] Open Scope Z_scope.

Section invariant.
Context `{OS : OpenSSL} `{JT : JsonText}.

(** ** Steps *)

(** One operation run to its end (returning or throwing) against any clock,
    mining fuel, disk and disk faults. *)
Inductive bstep : Blockchain -> Blockchain -> Prop :=
| step_add now tx bc : bstep bc (addTransaction now tx bc).1.2
| step_mine fuel t1 t2 miner bc p evs fs bc' ns r fs' :
    minePendingTransactions fuel t1 t2 miner bc = Some p ->
    run p evs fs = (Some (bc', ns, r), fs') -> bstep bc bc'
| step_accept now b bc evs fs bc' ns r fs' :
    run (acceptBlock now b bc) evs fs = (Some (bc', ns, r), fs') -> bstep bc bc'
| step_replace now c bc evs fs bc' ns r fs' :
    run (replaceChain now c bc) evs fs = (Some (bc', ns, r), fs') -> bstep bc bc'
| step_fromJson now j bc evs fs bc' ns r fs' :
    run (chainFromJson now j bc) evs fs = (Some (bc', ns, r), fs') -> bstep bc bc'
| step_onBlockAdded bc : bstep bc (setOnBlockAdded bc)
| step_onBlockAccepted bc : bstep bc (setOnBlockAccepted bc)
| step_onTransactionAdded bc : bstep bc (setOnTransactionAdded bc).

(** The object a constructor call that returned made. *)
Definition constructed (engine : option IConsensusEngine) (bc : Blockchain) : Prop :=
  exists fuel now d storage evs fs fs',
    run (newBlockchain fuel now d engine storage) evs fs = (Some (Ok (Some bc)), fs').

(** ** Runs *)

Lemma run_pbind {A B} (m : prog A) (f : A -> prog B) evs fs x fs' :
  run (pbind m f) evs fs = (Some x, fs') ->
  exists a evs1 fs1, exec m evs fs = (Some a, fs1, evs1) /\ run (f a) evs1 fs1 = (Some x, fs').
Proof.
  unfold run at 1. rewrite exec_pbind. destruct (exec m evs fs) as [[[a|] fs1] evs1]; simpl.
  - intros H. exists a, evs1, fs1. split; [done|]. done.
  - discriminate.
Qed.

Lemma run_after {A} (m : prog (result unit)) bc ns (a : A) evs fs bc' ns' r fs' :
  run (pbind m (fun r => Ret (after_storage r bc ns a))) evs fs = (Some (bc', ns', r), fs') ->
  bc' = bc /\ ((r = Ok a /\ ns' = ns) \/ (exists e, r = Throw e /\ ns' = [])).
Proof.
  intros (s & evs1 & fs1 & _ & H)%run_pbind. unfold run in H. simpl in H.
  destruct s; simplify_eq/=; naive_solver.
Qed.

(** ** The states the operations leave *)

Definition mined (b : Block) (bc : Blockchain) : Blockchain :=
  set_mempool (drop MAX_TXS_PER_BLOCK (mempool_ bc))
    (apply_block b (set_chain (chain_ bc ++ [b]) bc)).

Definition extended (b : Block) (bc : Blockchain) : Blockchain :=
  set_mempool (removeConfirmed b (mempool_ bc))
    (apply_block b (set_chain (chain_ bc ++ [b]) bc)).

Definition replaced (c : list Block) (bc : Blockchain) : Blockchain :=
  let st := rebuildState c (stateManager_ bc) in
  set_mempool (filter (fun tx => txID tx ∉ getAllSpentTxIDs st) (mempool_ bc))
    (bump_version (set_state st (set_chain c bc))).

(** The three conditions [acceptBlock] tests. *)
Definition block_acceptable (now : Z) (b : Block) (bc : Blockchain) : Prop :=
  chain_ bc <> [] /\ index b = Z.of_nat (length (chain_ bc)) /\
  previousHash b = hash (tip (chain_ bc)) /\
  validateChainAgainstConsensus (consensusEngine_ bc) now (chain_ bc ++ [b]) = true.

Lemma acceptBlock_yes now b bc :
  block_acceptable now b bc ->
  acceptBlock now b bc =
  pbind (persistBlock b (extended b bc)) (fun r =>
    Ret (after_storage r (extended b bc) (if onBlockAccepted_ bc then [BlockAccepted b] else []) true)).
Proof.
  intros (Hne & Hi & Hp & Hv). unfold acceptBlock. unfold tip in Hp.
  destruct (last (chain_ bc)) as [t|] eqn:Et; [|by apply last_None in Et].
  simpl in Hp. rewrite (proj2 (Z.eqb_eq _ _) Hi), (proj2 (String.eqb_eq _ _) Hp), Hv. done.
Qed.

Lemma acceptBlock_no now b bc :
  ~ block_acceptable now b bc -> acceptBlock now b bc = Ret (bc, [], Ok false).
Proof.
  intros Hn. unfold acceptBlock. destruct (last (chain_ bc)) as [t|] eqn:Et; [|done].
  destruct (Z.eqb_spec (index b) (Z.of_nat (length (chain_ bc)))); [|done].
  destruct (String.eqb_spec (previousHash b) (hash t)); [|done].
  destruct (validateChainAgainstConsensus _ _ _) eqn:Hv; [|done].
  exfalso. apply Hn. unfold block_acceptable, tip. rewrite Et.
  split_and!; [by intros E; rewrite E in Et|done..].
Qed.

Lemma acceptBlock_dec now b bc : block_acceptable now b bc \/ ~ block_acceptable now b bc.
Proof.
  unfold block_acceptable.
  destruct (decide (chain_ bc = [])), (decide (index b = Z.of_nat (length (chain_ bc)))),
    (decide (previousHash b = hash (tip (chain_ bc)))),
    (validateChainAgainstConsensus (consensusEngine_ bc) now (chain_ bc ++ [b])); naive_solver.
Qed.

Lemma replaceChain_cases now c bc :
  (chainSelected c bc = true /\
   validateChainAgainstConsensus (consensusEngine_ bc) now c = true /\
   replaceChain now c bc =
   pbind (saveAll (replaced c bc)) (fun r =>
     Ret (after_storage r (replaced c bc)
            (match onBlockAccepted_ bc, last c with true, Some t => [BlockAccepted t] | _, _ => [] end)
            true))) \/
  ((chainSelected c bc = false \/
    validateChainAgainstConsensus (consensusEngine_ bc) now c = false) /\
   replaceChain now c bc = Ret (bc, [], Ok false)).
Proof.
  unfold replaceChain. destruct (chainSelected c bc) eqn:Hs; [|right; auto].
  destruct (validateChainAgainstConsensus _ now c) eqn:Hv; [|right; auto]. left. done.
Qed.

(** ** The invariant holds after each of them *)

Lemma seal_spec fuel m b bc b' :
  engine_lawful (consensusEngine_ bc) -> sealNewBlock fuel m b bc = Some b' ->
  index b' = index b /\ timestamp b' = timestamp b /\ previousHash b' = previousHash b /\
  transactions b' = transactions b /\ difficulty b' = difficulty b /\
  merkleRoot b' = computeMerkleRoot b' /\ hash b' = calculateHash b' /\
  (match consensusEngine_ bc with
   | Some e => exists c d, difficulty b = nextDifficulty e c d
   | None => True
   end -> meets_target (hash b') (difficulty b') = true).
Proof.
  unfold engine_lawful, sealNewBlock. destruct (consensusEngine_ bc) as [e|]; intros Hl Hs.
  - destruct (seal_fields _ _ _ _ Hs) as (r & n & h & ->). simpl. split_and!; try done.
    + by apply (seal_root _ _ _ _ Hs).
    + by apply (seal_hash _ _ _ _ Hs).
    + intros (c & d & Hd). by apply (seal_target _ _ _ _ c d Hs).
  - by apply mineBlock_candidate in Hs as (n & -> & Ht).
Qed.

Lemma retargeted_fields bc :
  chain_ (retargeted bc) = chain_ bc /\ mempool_ (retargeted bc) = mempool_ bc /\
  stateManager_ (retargeted bc) = stateManager_ bc /\
  consensusEngine_ (retargeted bc) = consensusEngine_ bc /\
  storage_ (retargeted bc) = storage_ bc.
Proof. unfold retargeted. destruct (consensusEngine_ bc) eqn:E; simpl; rewrite ?E; auto. Qed.

Lemma retargeted_inv bc : chain_inv bc -> chain_inv (retargeted bc).
Proof.
  intros [? ? ? ? ? ?]. destruct (retargeted_fields bc) as (Hc & Hm & Hs & He & _).
  split; rewrite ?Hc, ?Hm, ?Hs, ?He; done.
Qed.

Lemma reward_verifies t m : verifyTx (rewardTransaction t m) = true.
Proof. done. Qed.

(** The block mining makes links to the tip and validates. *)
Lemma mined_link fuel t1 t2 miner bc b :
  chain_inv bc ->
  sealNewBlock fuel miner (blockTemplate t1 t2 miner (retargeted bc)) (retargeted bc) = Some b ->
  link_ok (Z.of_nat (length (chain_ bc))) b (tip (chain_ bc)) = true /\
  transactions b = rewardTransaction t1 miner :: take MAX_TXS_PER_BLOCK (mempool_ bc).
Proof.
  intros Hinv Hs. destruct (retargeted_fields bc) as (Hc & Hm & _ & He & _).
  apply seal_spec in Hs as (Hi & _ & Hp & Htx & Hd & Hr & Hh & Ht);
    [|by apply retargeted_inv in Hinv as []].
  unfold blockTemplate, getLatestBlock in *. rewrite Hc, Hm in *. simpl in *.
  split; [|done]. apply link_ok_spec. split_and!; [done|done| |].
  - apply isValid_spec. split_and!; [done| |done]. apply Ht. rewrite He. unfold retargeted.
    destruct (consensusEngine_ bc) as [e|]; [|done]. simpl. eauto.
  - apply hasValidTransactions_spec. rewrite Htx. constructor; [apply reward_verifies|].
    apply Forall_take. destruct Hinv as [_ _ _ Hmem _ _]. eapply Forall_impl; [done|].
    by intros tx (? & _).
Qed.

Lemma apply_block_inv_state chain b bc :
  stateManager_ bc = rebuildState chain emptyState ->
  applyBlockState (stateManager_ bc) b = rebuildState (chain ++ [b]) emptyState.
Proof. intros ->. by rewrite rebuildState_snoc. Qed.

Lemma map_txID_user txs : list_to_set (map txID (user_txs txs)) ⊆ (list_to_set (map txID txs) : gset string).
Proof.
  induction txs as [|tx txs IH]; [done|]. change (tx :: txs) with ([tx] ++ txs).
  rewrite user_txs_app, user_txs_one, !map_app, !list_to_set_app_L.
  destruct (isCoinbase tx); simpl; set_solver.
Qed.

Lemma mined_inv fuel t1 t2 miner bc b :
  chain_inv bc ->
  sealNewBlock fuel miner (blockTemplate t1 t2 miner (retargeted bc)) (retargeted bc) = Some b ->
  chain_inv (mined b (retargeted bc)).
Proof.
  intros Hinv Hs. destruct (mined_link _ _ _ _ _ _ Hinv Hs) as [Hl Htx].
  destruct (retargeted_fields bc) as (Hc & Hm & Hst & He & _).
  destruct Hinv as [Heng Hv Hstate Hmem Hnd Hun].
  split; unfold mined; simpl; rewrite ?Hc, ?Hm, ?Hst, ?He in *.
  - done.
  - rewrite isChainValid_snoc by (by apply isChainValid_nonempty). by rewrite Hv, Hl.
  - rewrite (apply_block_inv_state (chain_ bc) b bc); done.
  - by apply Forall_drop.
  - rewrite <- (take_drop MAX_TXS_PER_BLOCK (mempool_ bc)), map_app in Hnd.
    by apply NoDup_app in Hnd as (_ & _ & ?).
  - rewrite <- (take_drop MAX_TXS_PER_BLOCK (mempool_ bc)) in Hun, Hnd.
    rewrite map_app in Hnd. apply NoDup_app in Hnd as (_ & Hdis & _).
    apply Forall_app in Hun as [_ Hun]. rewrite Forall_forall in Hun |- *. intros tx Htx'.
    rewrite spent_block, Htx. change (?a :: ?l) with ([a] ++ l).
    rewrite user_txs_app, user_txs_one. simpl.
    intros [?|Hin]%elem_of_union; [by apply (Hun tx)|].
    apply map_txID_user, elem_of_list_to_set in Hin. apply (Hdis _ Hin).
    apply list_elem_of_fmap. eauto.
Qed.

Lemma removeConfirmed_spec b m tx :
  tx ∈ removeConfirmed b m <-> tx ∈ m /\ txID tx ∉ map txID (transactions b).
Proof.
  unfold removeConfirmed. rewrite list_elem_of_filter. split.
  - intros [Hx Hm]. split; [done|]. intros (c & Hc & Hin)%list_elem_of_fmap.
    apply not_true_iff_false in Hx. apply Hx. apply existsb_exists. exists c.
    rewrite <- list_elem_of_In. split; [done|]. by apply String.eqb_eq.
  - intros [Hm Hx]. split; [|done]. apply not_true_iff_false. intros (c & Hin & Heq)%existsb_exists.
    apply Hx, list_elem_of_fmap. exists c. apply String.eqb_eq in Heq. by rewrite list_elem_of_In.
Qed.

Lemma filter_sublist_inv (P : Transaction -> Prop) `{!forall x, Decision (P x)} (m : list Transaction) :
  Forall admissible m -> NoDup (map txID m) ->
  Forall admissible (filter P m) /\ NoDup (map txID (filter P m)).
Proof.
  intros Ha Hn. split.
  { rewrite Forall_forall in Ha |- *. by intros tx [_ ?%Ha]%list_elem_of_filter. }
  eapply sublist_NoDup; [exact Hn|]. apply fmap_sublist, sublist_filter.
Qed.

Lemma extended_inv now b bc :
  chain_inv bc -> block_acceptable now b bc -> chain_inv (extended b bc).
Proof.
  intros [Heng Hv Hstate Hmem Hnd Hun] (Hne & Hi & Hp & Hval).
  rewrite validateChain_split in Hval. apply andb_prop in Hval as [Hval _].
  destruct (filter_sublist_inv (fun p => existsb (fun c => String.eqb (txID c) (txID p))
    (transactions b) = false) (mempool_ bc)) as [HF HN]; [done..|].
  split; unfold extended; simpl; try done.
  - by apply apply_block_inv_state.
  - apply Forall_forall. intros tx (Hm & Hb)%removeConfirmed_spec.
    rewrite spent_block. intros [?|Hin]%elem_of_union.
    + rewrite Forall_forall in Hun. by apply (Hun tx).
    + by apply map_txID_user, elem_of_list_to_set in Hin.
Qed.

Lemma replaced_inv now c bc :
  chain_inv bc -> validateChainAgainstConsensus (consensusEngine_ bc) now c = true ->
  chain_inv (replaced c bc).
Proof.
  intros [Heng Hv Hstate Hmem Hnd Hun] Hval.
  rewrite validateChain_split in Hval. apply andb_prop in Hval as [Hval _].
  destruct (filter_sublist_inv (fun tx => txID tx ∉ getAllSpentTxIDs
    (rebuildState c (stateManager_ bc))) (mempool_ bc)) as [HF HN]; [done..|].
  split; unfold replaced; simpl; try done.
  apply Forall_forall. intros tx. by intros [? _]%list_elem_of_filter.
Qed.

Lemma added_inv now tx bc : chain_inv bc -> chain_inv (addTransaction now tx bc).1.2.
Proof.
  intros Hinv. destruct (decide (acceptable now tx bc)) as [Ha|Ha];
    [|by rewrite addTransaction_rejects].
  rewrite addTransaction_accepts by done. destruct Hinv as [Heng Hv Hstate Hmem Hnd Hun].
  destruct Ha as (Hc & Hver & _ & Hf & _ & _ & _ & _ & Hs & Hm).
  split; simpl; try done.
  - apply Forall_app_2; [done|]. by apply Forall_singleton.
  - rewrite map_app. apply NoDup_app. split_and!; [done| |apply NoDup_singleton]. simpl. set_solver.
  - apply Forall_app_2; [done|]. by apply Forall_singleton.
Qed.

(** *** Construction *)

Lemma createGenesis_ok fuel d g : createGenesis fuel d = Some g -> isChainValid [g] = true.
Proof.
  intros (n & -> & _)%mineBlock_candidate. simpl.
  match goal with |- (if genesis_ok ?g then _ else _) = _ => assert (genesis_ok g = true) as -> end; [|done].
  by apply genesis_ok_spec.
Qed.

Lemma loadPersisted_valid now engine storage evs fs c evs' fs' :
  exec (loadPersisted now engine storage) evs fs = (Some (Ok (Some c)), fs', evs') ->
  validateChainAgainstConsensus engine now c = true.
Proof.
  unfold loadPersisted. destruct storage as [d|]; [|simpl; naive_solver].
  rewrite exec_pbind. destruct (exec (hasPersistedChain d) evs fs) as [[[there|] fs1] evs1];
    [|naive_solver].
  destruct there as [[]|]; [|cbn [exec]; naive_solver..].
  rewrite exec_pbind. destruct (exec (loadChain d) evs1 fs1) as [[[loaded|] fs2] evs2]; [|naive_solver].
  cbn [exec]. destruct loaded as [loaded|]; cbn [rbind]; [|naive_solver].
  case_if; [|naive_solver]. bool_to_prop. naive_solver.
Qed.

Lemma constructed_inv engine bc : engine_lawful engine -> constructed engine bc -> chain_inv bc.
Proof.
  intros Hl (fuel & now & d & storage & evs & fs & fs' & H). unfold newBlockchain in H.
  apply run_pbind in H as (loaded & evs1 & fs1 & Hload & H).
  destruct loaded as [[c|]|]; [| |discriminate].
  - apply loadPersisted_valid in Hload. unfold run in H. simpl in H. simplify_eq.
    rewrite validateChain_split in Hload. apply andb_prop in Hload as [Hv _].
    split; simpl; try done; by constructor.
  - destruct (createGenesis fuel d) as [g|] eqn:Eg; [|discriminate].
    apply run_pbind in H as (r & evs2 & fs2 & _ & H). unfold run in H. simpl in H.
    destruct r; simplify_eq/=. split; simpl; try done; [|by constructor..].
    by eapply createGenesis_ok.
Qed.

(** *** Steps *)

Lemma replaceChain_state now c bc evs fs bc' ns r fs' :
  run (replaceChain now c bc) evs fs = (Some (bc', ns, r), fs') ->
  bc' = bc \/
  bc' = replaced c bc /\ chainSelected c bc = true /\
  validateChainAgainstConsensus (consensusEngine_ bc) now c = true.
Proof.
  intros H. destruct (replaceChain_cases now c bc) as [(Hs & Hv & E)|(_ & E)]; rewrite E in H.
  - right. apply run_after in H as [-> _]. done.
  - left. unfold run in H. simpl in H. by simplify_eq.
Qed.

Lemma chainFromJson_state now j bc evs fs bc' ns r fs' :
  run (chainFromJson now j bc) evs fs = (Some (bc', ns, r), fs') ->
  bc' = bc \/
  exists c, rmap blockFromJson (json_items j) = Ok c /\ bc' = replaced c bc /\
    chainSelected c bc = true /\ validateChainAgainstConsensus (consensusEngine_ bc) now c = true.
Proof.
  unfold chainFromJson. destruct (rmap blockFromJson (json_items j)) as [c|e] eqn:Ej.
  - intros (o & evs1 & fs1 & Ho & H)%run_pbind. unfold run in H. simpl in H. simplify_eq/=.
    destruct o as [[bc1 ns1] r1]. simpl in *. simplify_eq.
    destruct (replaceChain_state now c bc evs fs bc' ns r1 fs') as [->|?]; [|by left|right; eauto].
    unfold run. by rewrite Ho.
  - unfold run. simpl. intros. simplify_eq. by left.
Qed.

Lemma minePending_state fuel t1 t2 miner bc p evs fs bc' ns r fs' :
  minePendingTransactions fuel t1 t2 miner bc = Some p ->
  run p evs fs = (Some (bc', ns, r), fs') ->
  exists b, sealNewBlock fuel miner (blockTemplate t1 t2 miner (retargeted bc)) (retargeted bc) = Some b /\
    bc' = mined b (retargeted bc).
Proof.
  unfold minePendingTransactions. destruct (sealNewBlock _ _ _ _) as [b|] eqn:Es; [|discriminate].
  cbn [mbind option_bind]. intros Hp H. injection Hp as <-. apply run_after in H as [-> _]. eauto.
Qed.

Lemma acceptBlock_state now b bc evs fs bc' ns r fs' :
  run (acceptBlock now b bc) evs fs = (Some (bc', ns, r), fs') ->
  bc' = bc \/ bc' = extended b bc /\ block_acceptable now b bc.
Proof.
  intros H. destruct (acceptBlock_dec now b bc) as [Ha|Ha].
  - right. rewrite acceptBlock_yes in H by done. by apply run_after in H as [-> _].
  - left. rewrite acceptBlock_no in H by done. unfold run in H. simpl in H. by simplify_eq.
Qed.

Lemma bstep_inv bc bc' : bstep bc bc' -> chain_inv bc -> chain_inv bc'.
Proof.
  intros Hs Hinv. destruct Hs.
  - by apply added_inv.
  - edestruct minePending_state as (b & Hb & ->); [done..|]. by eapply mined_inv.
  - edestruct acceptBlock_state as [->|[-> Ha]]; [done..|]. by eapply extended_inv.
  - edestruct replaceChain_state as [->|(-> & _ & Hv)]; [done..|]. by eapply replaced_inv.
  - edestruct chainFromJson_state as [->|(c & _ & -> & _ & Hv)]; [done..|]. by eapply replaced_inv.
  - destruct Hinv. by split.
  - destruct Hinv. by split.
  - destruct Hinv. by split.
Qed.

(** The store and the engine of an object never change. *)
Definition same_setup (bc bc' : Blockchain) : Prop :=
  storage_ bc' = storage_ bc /\ consensusEngine_ bc' = consensusEngine_ bc.

Lemma bstep_setup bc bc' : bstep bc bc' -> same_setup bc bc'.
Proof.
  unfold same_setup. intros Hs. destruct Hs; try done.
  - unfold addTransaction. by repeat (case_match; simpl).
  - edestruct minePending_state as (b & _ & ->); [done..|].
    unfold mined, retargeted. destruct (consensusEngine_ bc) eqn:E; simpl; by rewrite ?E.
  - edestruct acceptBlock_state as [->|[-> _]]; done.
  - edestruct replaceChain_state as [->|(-> & _)]; done.
  - edestruct chainFromJson_state as [->|(c & _ & -> & _)]; done.
Qed.

Lemma chain_steps_setup bc bc' : rtc bstep bc bc' -> same_setup bc bc'.
Proof.
  induction 1 as [|x y z Hs _ [IH1 IH2]]; [done|]. apply bstep_setup in Hs as [H1 H2].
  split; congruence.
Qed.

Lemma constructed_setup fuel now d engine storage evs fs bc fs' :
  run (newBlockchain fuel now d engine storage) evs fs = (Some (Ok (Some bc)), fs') ->
  storage_ bc = storage /\ consensusEngine_ bc = engine.
Proof.
  unfold newBlockchain. intros (loaded & evs1 & fs1 & _ & H)%run_pbind.
  destruct loaded as [[c|]|]; [unfold run in H; simpl in H; by simplify_eq| |discriminate].
  destruct (createGenesis fuel d) as [g|]; [|discriminate].
  apply run_pbind in H as (r & evs2 & fs2 & _ & H). unfold run in H. simpl in H. destruct r; by simplify_eq/=.
Qed.

(** The chain of a later state: longer, or the same. *)
Definition chain_grows (c c' : list Block) : Prop := c' = c \/ (length c < length c')%nat.

#[export] Instance chain_grows_preorder : PreOrder chain_grows.
Proof.
  unfold chain_grows. split; [by left|]. intros c1 c2 c3 [->|?] [->|?]; auto. right. lia.
Qed.

Lemma chainSelected_longer c bc :
  engine_lawful (consensusEngine_ bc) -> chainSelected c bc = true ->
  (length (chain_ bc) < length c)%nat.
Proof.
  unfold engine_lawful, chainSelected. destruct (consensusEngine_ bc) as [e|].
  - intros Hl. by apply accept_longer.
  - intros _. rewrite negb_true_iff. intros ?%Nat.leb_gt. lia.
Qed.

Lemma addTransaction_chain now tx bc : chain_ (addTransaction now tx bc).1.2 = chain_ bc.
Proof.
  unfold addTransaction. repeat (case_match; simpl; try done).
Qed.

Lemma bstep_grows bc bc' :
  bstep bc bc' -> engine_lawful (consensusEngine_ bc) -> chain_grows (chain_ bc) (chain_ bc').
Proof.
  intros Hs Hl. unfold chain_grows. destruct Hs; try by left.
  - left. apply addTransaction_chain.
  - edestruct minePending_state as (b & _ & ->); [done..|]. right. simpl.
    destruct (retargeted_fields bc) as (-> & _). rewrite length_app. simpl. lia.
  - edestruct acceptBlock_state as [->|[-> _]]; [done..|by left|]. right. simpl.
    rewrite length_app. simpl. lia.
  - edestruct replaceChain_state as [->|(-> & Hsel & _)]; [done..|by left|]. right.
    by apply chainSelected_longer.
  - edestruct chainFromJson_state as [->|(c & _ & -> & Hsel & _)]; [done..|by left|]. right.
    by apply chainSelected_longer.
Qed.

Lemma chain_steps_inv bc bc' : rtc bstep bc bc' -> chain_inv bc -> chain_inv bc'.
Proof. induction 1 as [|x y z Hs _ IH]; [done|]. intros Hinv. apply IH. by eapply bstep_inv. Qed.

Lemma chain_steps_grow bc bc' :
  rtc bstep bc bc' -> chain_inv bc -> chain_grows (chain_ bc) (chain_ bc').
Proof.
  induction 1 as [|x y z Hs _ IH]; [reflexivity|]. intros Hinv.
  etrans; [apply bstep_grows; [done|apply Hinv]|]. apply IH. by eapply bstep_inv.
Qed.

(** ** Properties *)

(** C1: whatever transactions, blocks, chains, clocks, disks and disk faults a
    node meets after it was constructed, its chain validates from its genesis
    block, its state manager holds exactly what replaying that chain gives, and
    its mempool holds verified user transactions from PCN addresses, with
    distinct identifiers none of which the chain has spent. *)
Theorem blockchain_invariant (engine : option IConsensusEngine) (bc0 bc : Blockchain) :
  engine_lawful engine -> constructed engine bc0 -> rtc bstep bc0 bc -> chain_inv bc.
Proof.
  intros Hl Hc Hr. apply constructed_inv in Hc; [|done]. by eapply chain_steps_inv.
Qed.

(** A node's chain never gets shorter, and is only ever replaced by a longer
    one: after any number of operations it is the same chain or a longer one. *)
Lemma chain_never_shrinks (bc bc' : Blockchain) :
  chain_inv bc -> rtc bstep bc bc' ->
  chain_ bc' = chain_ bc \/ (length (chain_ bc) < length (chain_ bc'))%nat.
Proof.
  intros Hinv Hr. by apply chain_steps_grow.
Qed.

(** C2: [addTransaction] accepts exactly the transactions that satisfy all of
    its conditions (not a coinbase, signature, positive amount, PCN address of
    the sender key, funds after pending transfers, next nonce, fresh timestamp,
    not spent, not pending); it then appends the transaction to the mempool,
    counts one update and calls back; otherwise nothing changes. In particular a
    sender address that is the plain SHA-256 of the sender's key is always refused,
    although transaction.h and WALLET_SYSTEM_UPGRADE.md define the address so and
    wallet_system_tests.cpp asserts that such a transaction is accepted. *)
Theorem addTransaction_exact {OSS : OpenSSLSpec OS} (now : Z) (tx : Transaction) (bc : Blockchain) :
  ((addTransaction now tx bc).1.1 = true <-> acceptable now tx bc) /\
  (acceptable now tx bc ->
   addTransaction now tx bc =
     (true, bump_version (set_mempool (mempool_ bc ++ [tx]) bc),
      if onTransactionAdded_ bc then [TransactionAdded tx] else [])) /\
  (~ acceptable now tx bc -> addTransaction now tx bc = (false, bc, [])) /\
  (fromAddress tx = sha256 (senderPublicKey tx) -> addTransaction now tx bc = (false, bc, [])).
Proof.
  split_and!; [|apply addTransaction_accepts|apply addTransaction_rejects|].
  - destruct (decide (acceptable now tx bc)) as [Ha|Ha].
    + by rewrite addTransaction_accepts.
    + by rewrite addTransaction_rejects.
  - intros Hf. apply addTransaction_rejects. intros (_ & _ & _ & Hf' & _).
    rewrite Hf in Hf'. symmetry in Hf'. by apply deriveAddressV2_not_legacy in Hf'.
Qed.

End invariant.

(** ** Witnesses *)

Section invariant_witnesses.
Import ToyOpenSSL Nlohmann.

Lemma sampleNext_acceptable storage : block_acceptable sampleNow sampleNext (sampleNode storage).
Proof.
  split_and!; [discriminate|reflexivity|reflexivity|].
  exact (sampleNode2_validates storage).
Qed.

Lemma sampleNode_accepts :
  run (acceptBlock sampleNow sampleNext (sampleNode None)) [] ∅ =
  (Some (extended sampleNext (sampleNode None), [BlockAccepted sampleNext], Ok true), ∅).
Proof. rewrite acceptBlock_yes by apply sampleNext_acceptable. reflexivity. Qed.

(** The object the constructor makes without a store. *)
Definition sampleFresh : Blockchain :=
  mkBlockchain 0 [sampleGenesis] [] (applyBlockState emptyState sampleGenesis)
    (Some (PoWEngine defaultAdjuster)) None false false false 1.

Lemma sampleFresh_constructed : constructed (Some (PoWEngine defaultAdjuster)) sampleFresh.
Proof.
  exists 0%nat, 0, 0, None, [], ∅, ∅. unfold newBlockchain. cbn [loadPersisted pbind].
  rewrite sampleGenesis_made. reflexivity.
Qed.

Lemma blockchain_invariant_witness : chain_inv (setOnBlockAdded sampleFresh).
Proof.
  apply (blockchain_invariant (Some (PoWEngine defaultAdjuster)) sampleFresh).
  - exact (PoWEngine_spec defaultAdjuster).
  - exact sampleFresh_constructed.
  - apply rtc_once, step_onBlockAdded.
Defined.

(** A transaction with the address of the wallet tests. *)
Lemma addTransaction_exact_witness :
  addTransaction sampleNow (mkTx "id" "pk" "" (sha256 "pk") "to" 5 1 "" "" "sig") (sampleNode None)
  = (false, sampleNode None, []).
Proof.
  apply (addTransaction_exact (OSS := toy_spec) sampleNow (mkTx "id" "pk" "" (sha256 "pk") "to" 5 1 "" "" "sig")).
  reflexivity.
Defined.

Lemma chain_never_shrinks_witness :
  chain_ (extended sampleNext (sampleNode None)) = chain_ (sampleNode None) \/
  (length (chain_ (sampleNode None)) < length (chain_ (extended sampleNext (sampleNode None))))%nat.
Proof.
  apply chain_never_shrinks; [apply sampleNode_inv|].
  apply rtc_once. eapply step_accept. exact sampleNode_accepts.
Defined.

End invariant_witnesses.
