(* ===== verification/ChainSafety.v ===== *)
(** * ChainSafety: what the blockchain's operations guarantee, and what they do not

    Exact effects of accepting and replacing, agreement between memory and disk,
    what a restart loads, synchronisation, what a tip hash commits to; and the behaviours
    of the code that its consensus rules leave open (unchecked coinbase amounts,
    twin blocks, a tip in the future, legacy senders). *)

From S2P Require Import Prelude StdTime Json JsonNlohmann Crypto Transaction Block State Consensus Storage Blockchain SampleNode ChainInvariant.
From stdpp Require Import relations.
#[local] Open Scope Z_scope.

Section safety_lemmas.
Context `{OS : OpenSSL} `{JT : JsonText}.

(** The conditions on a block alone, for a chain that validates. *)
Definition block_conditions (now : Z) (b : Block) (bc : Blockchain) : Prop :=
  index b = Z.of_nat (length (chain_ bc)) /\ previousHash b = hash (tip (chain_ bc)) /\
  isValid b = true /\ hasValidTransactions b = true /\
  match consensusEngine_ bc with
  | Some e => validateBlock e now b (tip (chain_ bc)) = true
  | None => True
  end.

Lemma block_acceptable_iff now b bc :
  isChainValid (chain_ bc) = true ->
  block_acceptable now b bc <->
  validateChainAgainstConsensus (consensusEngine_ bc) now (chain_ bc) = true /\
  block_conditions now b bc.
Proof.
  intros Hv. pose proof (isChainValid_nonempty _ Hv) as Hne.
  unfold block_acceptable, block_conditions. rewrite validateChain_snoc, link_ok_spec by done.
  naive_solver.
Qed.

(** Blocks that differ in their transactions only, with one Merkle root. *)
Lemma acceptable_same now bc b txs :
  chain_inv bc ->
  (consensusEngine_ bc = None \/ exists adj, consensusEngine_ bc = Some (PoWEngine adj)) ->
  computeMerkleRoot (set_transactions txs b) = computeMerkleRoot b ->
  hasValidTransactions (set_transactions txs b) = hasValidTransactions b ->
  block_acceptable now (set_transactions txs b) bc <-> block_acceptable now b bc.
Proof.
  intros Hinv He Hroot Htx.
  assert (Hvalid : isValid (set_transactions txs b) = isValid b) by (unfold isValid; by rewrite Hroot).
  rewrite !block_acceptable_iff by apply Hinv. unfold block_conditions. rewrite Hvalid, Htx.
  destruct He as [->|[adj ->]]; [done|]. simpl. rewrite !pow_validateBlock_spec, Hvalid, Htx. done.
Qed.

(** *** What a hash commits to *)

(** The lengths the node's own blocks have: a 20-character time and a
    64-character Merkle root. *)
Definition standard_block (b : Block) : Prop :=
  String.length (timestamp b) = 20%nat /\ String.length (merkleRoot b) = 64%nat.

Definition same_header (b1 b2 : Block) : Prop :=
  timestamp b1 = timestamp b2 /\ merkleRoot b1 = merkleRoot b2 /\
  previousHash b1 = previousHash b2 /\ hash b1 = hash b2.

Lemma preimage_fields {OSS : OpenSSLSpec OS} b1 b2 :
  index b1 = index b2 -> standard_block b1 -> standard_block b2 ->
  String.length (previousHash b1) = String.length (previousHash b2) ->
  hash_preimage b1 = hash_preimage b2 ->
  timestamp b1 = timestamp b2 /\ merkleRoot b1 = merkleRoot b2 /\ previousHash b1 = previousHash b2.
Proof.
  intros Hi [Ht1 Hm1] [Ht2 Hm2] Hp H. unfold hash_preimage in H. rewrite Hi in H.
  apply str_app_inj in H as [_ H]; [|done].
  apply str_app_inj in H as [-> H]; [|congruence].
  apply str_app_inj in H as [-> H]; [|congruence].
  by apply str_app_inj in H as [-> _].
Qed.

Lemma valid_tip_hash chain :
  isChainValid chain = true -> hash (tip chain) = calculateHash (tip chain).
Proof.
  intros Hv. destruct chain as [|b chain] using rev_ind; [done|]. rewrite tip_snoc.
  destruct (decide (chain = [])) as [->|Hne].
  - simpl in Hv. destruct (genesis_ok b) eqn:E; [|done]. by apply genesis_ok_spec in E as (_ & ? & _).
  - rewrite isChainValid_snoc in Hv by done. apply andb_prop in Hv as [_ Hl].
    apply link_ok_spec in Hl as (_ & _ & Hl & _). by apply isValid_spec in Hl as [? _].
Qed.

Lemma valid_tip_hash_length {OSS : OpenSSLSpec OS} chain :
  isChainValid chain = true -> String.length (hash (tip chain)) = 64%nat.
Proof. intros Hv. rewrite valid_tip_hash by done. unfold calculateHash. apply sha256_length. Qed.

Definition header_collision (c1 c2 : list Block) : Prop :=
  exists b1 b2, b1 ∈ c1 /\ b2 ∈ c2 /\ collision (hash_preimage b1) (hash_preimage b2).

Lemma Forall2_tail_snoc {A} (P : A -> A -> Prop) l1 l2 x y :
  l1 <> [] -> length l1 = length l2 -> P x y -> Forall2 P (tail l1) (tail l2) ->
  Forall2 P (tail (l1 ++ [x])) (tail (l2 ++ [y])).
Proof.
  intros Hne Hl HP HF. destruct l1, l2; simpl in *; try done.
  apply Forall2_app; [done|]. by repeat constructor.
Qed.

Lemma tip_history {OSS : OpenSSLSpec OS} c1 c2 :
  isChainValid c1 = true -> isChainValid c2 = true -> length c1 = length c2 ->
  Forall standard_block c1 -> Forall standard_block c2 -> hash (tip c1) = hash (tip c2) ->
  (Forall2 (fun b1 b2 => hash b1 = hash b2) c1 c2 /\ Forall2 same_header (tail c1) (tail c2)) \/
  header_collision c1 c2.
Proof.
  revert c2. induction c1 as [|b1 l1 IH] using rev_ind; intros c2 V1 V2 Hl S1 S2 Ht; [done|].
  destruct c2 as [|b2 l2 _] using rev_ind; [done|].
  rewrite !length_app in Hl. simpl in Hl. assert (length l1 = length l2) as Hl' by lia.
  rewrite !tip_snoc in Ht. rewrite Forall_app, Forall_singleton in S1, S2.
  destruct S1 as [S1 Sb1], S2 as [S2 Sb2].
  destruct (decide (l1 = [])) as [->|Hne1].
  { destruct l2; [|done]. left. split; [by repeat constructor|constructor]. }
  assert (Hne2 : l2 <> []) by (destruct l1, l2; done).
  rewrite isChainValid_snoc in V1 by done. apply andb_prop in V1 as [V1 K1].
  rewrite isChainValid_snoc in V2 by done. apply andb_prop in V2 as [V2 K2].
  apply link_ok_spec in K1 as (I1 & P1 & (H1 & _)%isValid_spec & _).
  apply link_ok_spec in K2 as (I2 & P2 & (H2 & _)%isValid_spec & _).
  destruct (decide (hash_preimage b1 = hash_preimage b2)) as [Heq|Hcol].
  - assert (Hpl : String.length (previousHash b1) = String.length (previousHash b2)).
    { by rewrite P1, P2, !valid_tip_hash_length. }
    destruct (preimage_fields b1 b2) as (Et & Em & Ep); [congruence|done..|].
    destruct (IH l2) as [[HF HT]|(x & y & Hx & Hy & Hc)]; [done..|congruence| |].
    + left. split; [by apply Forall2_app; [|repeat constructor]|].
      by apply Forall2_tail_snoc.
    + right. exists x, y. split_and!; [set_solver..|done].
  - right. exists b1, b2. split_and!; [set_solver..|]. split; [done|].
    unfold calculateHash in *. congruence.
Qed.

(** *** Memory and disk *)

Definition on_disk (bc : Blockchain) (fs : FS) : Prop :=
  match storage_ bc with Some d => stored d (chain_ bc) fs | None => True end.

(** The blocks of a chain have fields of their width and print as text. *)
Definition printable (chain : list Block) : Prop :=
  Forall block_wf chain /\ Forall block_text chain.

Lemma persistBlock_done {JTS : JsonTextSpec JT} b bc chain fs :
  printable (chain ++ [b]) -> extends_tip chain b = true ->
  match storage_ bc with Some d => stored d chain fs | None => True end ->
  exists fs', run (persistBlock b bc) [] fs = (Some (Ok tt), fs') /\
    match storage_ bc with Some d => stored d (chain ++ [b]) fs' | None => True end.
Proof.
  intros [Hwf Ht] He Hst. unfold persistBlock. destruct (storage_ bc) as [d|]; [|by exists fs].
  apply Forall_app in Hwf as [Hwf _].
  pose proof (appendBlock_stored d chain b fs Hwf Ht Hst) as H. rewrite He in H.
  destruct H as (fs' & Hr & Hs). exists fs'. by erewrite run_nil_pbind by exact Hr.
Qed.

Lemma saveAll_done {JTS : JsonTextSpec JT} bc fs :
  printable (chain_ bc) ->
  exists fs', run (saveAll bc) [] fs = (Some (Ok tt), fs') /\ on_disk bc fs'.
Proof.
  intros [_ Ht]. unfold saveAll, on_disk. destruct (storage_ bc) as [d|]; [|by exists fs].
  destruct (writeDump_stored d (chain_ bc) fs Ht) as (fs' & Hr & Hs & _).
  exists fs'. by erewrite run_nil_pbind by exact Hr.
Qed.

(** [persistChain], when it does not throw: the chain is on disk, and saving the
    same ledger works anywhere. *)
Lemma persistChain_run d bc fs fs' :
  storage_ bc = Some d -> run (persistChain bc) [] fs = (Some (Ok tt), fs') ->
  exists x1 fs1 x2, run (saveChain d (chain_ bc)) [] fs = (Some (Ok x1), fs1) /\
    run (saveState d (stateManager_ bc)) [] fs1 = (Some (Ok x2), fs').
Proof.
  intros Hd. unfold persistChain. rewrite Hd. intros (r1 & evs1 & fs1 & H1 & H)%run_pbind.
  rewrite exec_nil_run in H1. injection H1 as H1 <-. destruct r1 as [x1|e]; [|by unfold run in H; simpl in H; simplify_eq].
  apply run_pbind in H as (r2 & evs2 & fs2 & H2 & H). rewrite exec_nil_run in H2. injection H2 as H2 <-.
  unfold run in H. simpl in H. destruct r2 as [x2|e]; simplify_eq/=. by exists x1, fs1, x2.
Qed.

Lemma persistChain_stored {JTS : JsonTextSpec JT} d bc fs fs' :
  storage_ bc = Some d -> Forall block_wf (chain_ bc) ->
  run (persistChain bc) [] fs = (Some (Ok tt), fs') -> stored d (chain_ bc) fs'.
Proof.
  intros Hd Hwf H. destruct (persistChain_run d bc fs fs' Hd H) as (x1 & fs1 & x2 & H1 & H2).
  apply saveChain_stored in H1 as [_ Hs]; [|done]. apply saveState_keeps_chain in H2.
  unfold stored in *. by rewrite H2.
Qed.

Lemma persistChain_again d bc fs fs' d' bc' fs2 :
  storage_ bc = Some d -> run (persistChain bc) [] fs = (Some (Ok tt), fs') ->
  storage_ bc' = Some d' -> chain_ bc' = chain_ bc -> stateManager_ bc' = stateManager_ bc ->
  exists fs3, run (persistChain bc') [] fs2 = (Some (Ok tt), fs3).
Proof.
  intros Hd H Hd' Hc Hs. destruct (persistChain_run d bc fs fs' Hd H) as (x1 & fs1 & x2 & H1 & H2).
  unfold persistChain. rewrite Hd', Hc, Hs. unfold saveChain, saveState in *.
  apply (writeDump_again _ _ _ _ _ (chainFilePath d') fs2) in H1 as [fs3 H1].
  apply (writeDump_again _ _ _ _ _ (stateFilePath d') fs3) in H2 as [fs4 H2].
  exists fs4. erewrite run_nil_pbind by exact H1. cbn beta iota. by erewrite run_nil_pbind by exact H2.
Qed.

Definition stateJson (st : StateManager) : json :=
  json_set "spentTxIDs" (JArray (map JString (sorted_keys (getAllSpentTxIDs st)))) JNull.

Lemma persistChain_prints {JTS : JsonTextSpec JT} d bc fs :
  storage_ bc = Some d -> json_utf8 (chainJson (chain_ bc)) = true -> json_utf8 (stateJson (stateManager_ bc)) = true ->
  exists fs', run (persistChain bc) [] fs = (Some (Ok tt), fs').
Proof.
  intros Hd Hc Hs. destruct (dump_total (Some 2) _ Hc) as [x Hx]. destruct (dump_total (Some 2) _ Hs) as [y Hy].
  unfold persistChain. rewrite Hd. unfold saveChain, saveState, writeDump. fold (stateJson (stateManager_ bc)).
  rewrite Hx. destruct (atomicWrite_done (chainFilePath d) x fs) as (fs1 & H1 & _).
  destruct (atomicWrite_done (stateFilePath d) y fs1) as (fs2 & H2 & _). exists fs2.
  erewrite run_nil_pbind by by erewrite run_nil_pbind by exact H1. cbn beta iota zeta. rewrite Hy.
  by erewrite run_nil_pbind by by erewrite run_nil_pbind by exact H2.
Qed.

(** A linked block follows the tip for [appendBlock] too, given the tip's index. *)
Lemma link_extends chain b :
  in_u 64 (Z.of_nat (length chain)) -> chain <> [] ->
  index (tip chain) = Z.of_nat (length chain) - 1 ->
  link_ok (Z.of_nat (length chain)) b (tip chain) = true -> extends_tip chain b = true.
Proof.
  intros Hu Hne Hi (Hib & Hp & _)%link_ok_spec. unfold extends_tip, tip in *.
  destruct (last chain) as [t|] eqn:E; [|done]. simpl in *. rewrite Hib, Hi, Hp, String.eqb_refl.
  replace (Z.of_nat (length chain) - 1 + 1) with (Z.of_nat (length chain)) by lia.
  by rewrite wrapu_small, Z.eqb_refl.
Qed.

(** Blocks after the genesis block carry their position; the genesis block's own
    index is not validated. *)
Lemma tip_index chain :
  isChainValid chain = true ->
  (forall g, head chain = Some g -> index g = 0) ->
  index (tip chain) = Z.of_nat (length chain) - 1.
Proof.
  intros Hv Hg. destruct chain as [|b chain] using rev_ind; [done|]. rewrite tip_snoc.
  destruct (decide (chain = [])) as [->|Hne]; [by rewrite (Hg b)|].
  rewrite isChainValid_snoc in Hv by done. apply andb_prop in Hv as [_ Hl].
  apply link_ok_spec in Hl as (-> & _). rewrite length_app. simpl. lia.
Qed.

End safety_lemmas.

(** ** Properties *)

Section safety.
Context `{OS : OpenSSL} `{JT : JsonText}.

(** C3: on a node whose chain is valid, [acceptBlock] appends a block exactly
    when its whole chain still validates and the block carries the next index,
    links to the tip, has a right hash, target, Merkle root and signatures, and
    satisfies the engine; it then updates state and mempool and calls back (an
    exception of the store leaves the block appended); otherwise the node, its
    disk and its callbacks are untouched and the answer is false. *)
Theorem acceptBlock_exact (now : Z) (b : Block) (bc bc' : Blockchain) (evs : list event)
    (fs fs' : FS) (ns : list notice) (r : result bool) :
  chain_inv bc ->
  run (acceptBlock now b bc) evs fs = (Some (bc', ns, r), fs') ->
  (validateChainAgainstConsensus (consensusEngine_ bc) now (chain_ bc) = true /\
   block_conditions now b bc /\
   chain_ bc' = chain_ bc ++ [b] /\
   stateManager_ bc' = applyBlockState (stateManager_ bc) b /\
   (forall tx, tx ∈ mempool_ bc' <-> tx ∈ mempool_ bc /\ txID tx ∉ map txID (transactions b)) /\
   chainUpdateVersion_ bc' = u64 (chainUpdateVersion_ bc + 1) /\
   ((r = Ok true /\ ns = if onBlockAccepted_ bc then [BlockAccepted b] else []) \/
    (exists e, r = Throw e /\ ns = []))) \/
  (~ (validateChainAgainstConsensus (consensusEngine_ bc) now (chain_ bc) = true /\
      block_conditions now b bc) /\
   bc' = bc /\ ns = [] /\ r = Ok false /\ fs' = fs).
Proof.
  intros Hinv Hr. pose proof (block_acceptable_iff now b bc (inv_valid _ Hinv)) as Hiff.
  destruct (acceptBlock_dec now b bc) as [Ha|Ha].
  - left. rewrite acceptBlock_yes in Hr by done. apply run_after in Hr as [-> Hres].
    apply Hiff in Ha as [Hv Hc]. split_and!; try done. intros tx. apply removeConfirmed_spec.
  - right. rewrite acceptBlock_no in Hr by done. rewrite <- Hiff.
    unfold run in Hr. simpl in Hr. by simplify_eq.
Qed.

(** C4: [replaceChain] installs a chain exactly when the engine (or the length
    rule) selects it and it validates; the state is then rebuilt from it and the
    mempool keeps what the new chain has not spent; otherwise nothing changes. *)
Theorem replaceChain_exact (now : Z) (c : list Block) (bc bc' : Blockchain) (evs : list event)
    (fs fs' : FS) (ns : list notice) (r : result bool) :
  run (replaceChain now c bc) evs fs = (Some (bc', ns, r), fs') ->
  (chainSelected c bc = true /\
   validateChainAgainstConsensus (consensusEngine_ bc) now c = true /\
   chain_ bc' = c /\ stateManager_ bc' = rebuildState c emptyState /\
   (forall tx, tx ∈ mempool_ bc' <->
      tx ∈ mempool_ bc /\ isDoubleSpend (txID tx) (stateManager_ bc') = false) /\
   chainUpdateVersion_ bc' = u64 (chainUpdateVersion_ bc + 1) /\ r <> Ok false) \/
  ((chainSelected c bc = false \/
    validateChainAgainstConsensus (consensusEngine_ bc) now c = false) /\
   bc' = bc /\ ns = [] /\ r = Ok false /\ fs' = fs).
Proof.
  intros Hr. destruct (replaceChain_cases now c bc) as [(Hs & Hv & E)|(Hn & E)]; rewrite E in Hr.
  - left. apply run_after in Hr as [-> Hres]. split_and!; try done; [|naive_solver].
    intros tx. simpl. unfold isDoubleSpend. rewrite bool_decide_eq_false, list_elem_of_filter.
    naive_solver.
  - right. unfold run in Hr. simpl in Hr. by simplify_eq.
Qed.

(** C5: a mined block extends the chain by one block that links to the old tip
    and validates; it holds the 50-unit reward and the first 100 pending
    transactions, in order, which leave the mempool. *)
Theorem minePending_exact (fuel : nat) (t1 t2 : Z) (miner : string) (bc bc' : Blockchain)
    (p : prog (outcome Block)) (evs : list event) (fs fs' : FS) (ns : list notice)
    (r : result Block) :
  chain_inv bc ->
  minePendingTransactions fuel t1 t2 miner bc = Some p ->
  run p evs fs = (Some (bc', ns, r), fs') ->
  exists b,
    chain_ bc' = chain_ bc ++ [b] /\
    link_ok (Z.of_nat (length (chain_ bc))) b (tip (chain_ bc)) = true /\
    isChainValid (chain_ bc') = true /\
    transactions b = rewardTransaction t1 miner :: take 100 (mempool_ bc) /\
    amount (rewardTransaction t1 miner) = 50 /\
    mempool_ bc' = drop 100 (mempool_ bc) /\
    stateManager_ bc' = applyBlockState (stateManager_ bc) b /\
    (r = Ok b \/ exists e, r = Throw e).
Proof.
  intros Hinv Hp Hr. destruct (minePending_state _ _ _ _ _ _ _ _ _ _ _ _ Hp Hr) as (b & Hs & Hbc).
  destruct (mined_link _ _ _ _ _ _ Hinv Hs) as [Hl Htx].
  pose proof (mined_inv _ _ _ _ _ _ Hinv Hs) as Hinv'.
  destruct (retargeted_fields bc) as (Hc & Hm & Hst & _ & _).
  exists b. subst bc'. unfold mined in *. simpl in *. rewrite Hc, Hm, Hst in *.
  split_and!; try done; [by apply Hinv'|].
  unfold minePendingTransactions in Hp. rewrite Hs in Hp. injection Hp as <-.
  apply run_after in Hr as [_ Hres]. naive_solver.
Qed.

(** C9: two valid chains of one length whose blocks have 20-character times and
    64-character Merkle roots, and whose tips have the same hash, agree on every
    block hash and, after the genesis block, on every time, Merkle root and
    link, unless two block headers among them collide under SHA-256. *)
Theorem tip_determines_history {OSS : OpenSSLSpec OS} (c1 c2 : list Block) :
  isChainValid c1 = true -> isChainValid c2 = true -> length c1 = length c2 ->
  Forall standard_block c1 -> Forall standard_block c2 -> hash (tip c1) = hash (tip c2) ->
  (Forall2 (fun b1 b2 => hash b1 = hash b2) c1 c2 /\ Forall2 same_header (tail c1) (tail c2)) \/
  header_collision c1 c2.
Proof. apply tip_history. Qed.

(** C12: a node that mines while its tip is dated after its clock is stuck: the
    mined chain fails its own proof-of-work validation at every later time, so
    the node reports an invalid chain and rejects every further block. (A tip up
    to two minutes in the future is accepted from the network.) *)
Theorem mining_on_future_tip_sticks (adj : DifficultyAdjuster) (fuel : nat) (t1 t2 : Z)
    (miner : string) (bc bc' : Blockchain) (p : prog (outcome Block)) (evs : list event)
    (fs fs' : FS) (ns : list notice) (r : result Block) :
  chain_inv bc -> consensusEngine_ bc = Some (PoWEngine adj) ->
  time_in_range (to_seconds t2) -> to_seconds t2 < parseTimestamp (timestamp (tip (chain_ bc))) ->
  minePendingTransactions fuel t1 t2 miner bc = Some p ->
  run p evs fs = (Some (bc', ns, r), fs') ->
  forall now, isValidChain now bc' = false /\ forall b, acceptBlock now b bc' = Ret (bc', [], Ok false).
Proof.
  intros Hinv He Ht2 Hlt Hp Hr now.
  destruct (minePending_state _ _ _ _ _ _ _ _ _ _ _ _ Hp Hr) as (b & Hs & Hbc).
  pose proof (mined_inv _ _ _ _ _ _ Hinv Hs) as Hinv'. rewrite <- Hbc in Hinv'.
  destruct (retargeted_fields bc) as (Hc & _ & _ & He' & _).
  assert (Hts : timestamp b = iso_now t2).
  { apply seal_spec in Hs as (_ & Hts & _); [done|]. by apply retargeted_inv in Hinv as []. }
  assert (Hf : isValidChain now bc' = false).
  { subst bc'. unfold isValidChain, mined. simpl. rewrite He', Hc, He.
    apply not_true_iff_false. rewrite validateChain_snoc; [|by apply isChainValid_nonempty, Hinv].
    intros (_ & _ & Hv). simpl in Hv. apply pow_validateBlock_spec in Hv as (_ & _ & _ & Hv & _).
    rewrite Hts, parseTimestamp_iso_now in Hv by done. lia. }
  split; [done|]. intros x. apply acceptBlock_no.
  intros [Hv _]%block_acceptable_iff; [|apply Hinv'].
  unfold isValidChain in Hf. congruence.
Qed.

(** C11: a block with an odd number of transactions, three or more, has a twin with
    the last transaction repeated that carries the same hash. Under proof of work
    (or no engine) a node accepts the twin exactly when it accepts the block, and
    then applies the last transaction twice: its receiver, when it is not the
    sender, is credited the amount once more. *)
Theorem twin_block_accepted (now : Z) (bc : Blockchain) (b : Block) (txs : list Transaction)
    (tx : Transaction) :
  chain_inv bc ->
  (consensusEngine_ bc = None \/ exists adj, consensusEngine_ bc = Some (PoWEngine adj)) ->
  transactions b = txs ++ [tx] -> txs <> [] -> Nat.Even (length txs) ->
  let b' := set_transactions (txs ++ [tx; tx]) b in
  hash b' = hash b /\ (block_acceptable now b' bc <-> block_acceptable now b bc) /\
  stateManager_ (extended b' bc) = applyTransaction (stateManager_ (extended b bc)) tx /\
  (toAddress tx <> "" -> toAddress tx <> fromAddress tx ->
   getBalance (toAddress tx) (stateManager_ (extended b' bc)) =
     u64 (getBalance (toAddress tx) (stateManager_ (extended b bc)) + amount tx)).
Proof.
  intros Hinv He Hb Hne Hev b'.
  assert (Hroot : computeMerkleRoot b' = computeMerkleRoot b) by (by eapply merkle_root_dup).
  assert (Htx : hasValidTransactions b' = hasValidTransactions b).
  { unfold hasValidTransactions. rewrite Hb. simpl. rewrite !forallb_app. simpl.
    by destruct (forallb verifyTx txs), (verifyTx tx). }
  assert (Hst : stateManager_ (extended b' bc) = applyTransaction (stateManager_ (extended b bc)) tx).
  { unfold extended, apply_block, applyBlockState. simpl. rewrite Hb.
    change [tx; tx] with ([tx] ++ [tx]). by rewrite app_assoc, foldl_app. }
  split_and!; [done| | |].
  - by apply acceptable_same.
  - exact Hst.
  - intros Hto Hne'. rewrite Hst. by apply getBalance_received.
Qed.

(** C10: proof of work does not commit to coinbase transactions: only their
    identifier enters the Merkle root and it is never recomputed, so replacing a
    coinbase of a block by one with the same identifier and any other receiver
    and amount keeps the hash, and a node (proof of work or no engine) accepts
    the altered block whenever it accepts the original. *)
Theorem coinbase_not_committed (now : Z) (bc : Blockchain) (b : Block)
    (l1 l2 : list Transaction) (cb cb' : Transaction) :
  chain_inv bc ->
  (consensusEngine_ bc = None \/ exists adj, consensusEngine_ bc = Some (PoWEngine adj)) ->
  transactions b = l1 ++ cb :: l2 -> isCoinbase cb = true -> isCoinbase cb' = true ->
  txID cb' = txID cb -> txID cb <> "" ->
  let b' := set_transactions (l1 ++ cb' :: l2) b in
  hash b' = hash b /\ (block_acceptable now b' bc <-> block_acceptable now b bc) /\
  stateManager_ (extended b' bc) =
    foldl applyTransaction (stateManager_ bc) (l1 ++ cb' :: l2).
Proof.
  intros Hinv He Hb Hc Hc' Hid Hne b'.
  assert (Hleaf : merkle_leaf cb' = merkle_leaf cb).
  { unfold merkle_leaf. by rewrite Hid, (proj2 (str_empty_false _) Hne). }
  assert (Hroot : computeMerkleRoot b' = computeMerkleRoot b).
  { apply computeMerkleRoot_leaves. simpl. by rewrite Hb, !map_app, !map_cons, Hleaf. }
  assert (Hver : verifyTx cb = true /\ verifyTx cb' = true) by (unfold verifyTx; by rewrite Hc, Hc').
  assert (Htx : hasValidTransactions b' = hasValidTransactions b).
  { unfold hasValidTransactions. simpl. rewrite Hb, !forallb_app. simpl.
    by destruct Hver as [-> ->]. }
  split_and!; [done|by apply acceptable_same|done].
Qed.

(** C13: without disk faults, accepting or mining a printable block leaves on
    disk exactly the chain in memory, if it was there before (for a chain whose
    genesis block has index 0), and nothing is thrown. *)
Theorem disk_follows_memory {JTS : JsonTextSpec JT} (bc : Blockchain) (b : Block) (fs : FS) :
  chain_inv bc -> on_disk bc fs -> printable (chain_ bc ++ [b]) ->
  in_u 64 (Z.of_nat (length (chain_ bc))) ->
  (forall g, head (chain_ bc) = Some g -> index g = 0) ->
  (forall now, block_acceptable now b bc ->
     exists bc' ns fs', run (acceptBlock now b bc) [] fs = (Some (bc', ns, Ok true), fs') /\
       chain_ bc' = chain_ bc ++ [b] /\ on_disk bc' fs') /\
  (forall fuel t1 t2 miner p,
     sealNewBlock fuel miner (blockTemplate t1 t2 miner (retargeted bc)) (retargeted bc) = Some b ->
     minePendingTransactions fuel t1 t2 miner bc = Some p ->
     exists bc' ns fs', run p [] fs = (Some (bc', ns, Ok b), fs') /\
       chain_ bc' = chain_ bc ++ [b] /\ on_disk bc' fs').
Proof.
  intros Hinv Hd Hp Hu Hg. pose proof (inv_valid _ Hinv) as Hv.
  pose proof (isChainValid_nonempty _ Hv) as Hne. split.
  - intros now Ha. assert (Hext : extends_tip (chain_ bc) b = true).
    { apply link_extends; [done|done|by apply tip_index|]. apply block_acceptable_iff in Ha; [|done].
      apply link_ok_spec. by destruct Ha as (_ & ? & ? & ? & ? & _). }
    destruct (persistBlock_done b (extended b bc) (chain_ bc) fs) as (fs' & Hr & Hst); [done..|].
    rewrite acceptBlock_yes by done. erewrite run_nil_pbind by exact Hr. by do 3 eexists.
  - intros fuel t1 t2 miner p Hs Hm. destruct (mined_link _ _ _ _ _ _ Hinv Hs) as [Hl _].
    destruct (retargeted_fields bc) as (Hc & _ & _ & _ & Hsto).
    unfold minePendingTransactions in Hm. rewrite Hs in Hm. injection Hm as <-.
    destruct (persistBlock_done b (mined b (retargeted bc)) (chain_ bc) fs) as (fs' & Hr & Hst);
      [done|by apply link_extends; [..|apply tip_index|]|unfold mined; simpl; rewrite Hsto; exact Hd|].
    unfold mined in *. simpl in *. rewrite Hc in *.
    erewrite run_nil_pbind by exact Hr. do 3 eexists. split; [done|]. split; [done|].
    unfold on_disk. simpl. by rewrite Hsto in Hst |- *.
Qed.

(** What the constructor reads from a disk that holds a chain: the chain, if it
    validates. *)
Lemma loadPersisted_stored dir chain engine now fs :
  chain <> [] -> stored dir chain fs ->
  Forall block_wf chain -> Forall (fun b => Forall tx_complete (transactions b)) chain ->
  run (loadPersisted now engine (Some dir)) [] fs =
    (Some (Ok (if validateChainAgainstConsensus engine now chain then Some chain else None)), fs).
Proof.
  intros Hcne (s & Hs & Hne & Hp & Hlen) Hwf Hc.
  assert (Hhas : run (hasPersistedChain dir) [] fs = (Some (Ok true), fs)).
  { unfold run, hasPersistedChain. simpl. rewrite Hs. simpl. rewrite Hs. simpl.
    by rewrite (proj2 (Nat.ltb_lt _ _) (Hlen Hcne)). }
  unfold loadPersisted. erewrite run_nil_pbind by exact Hhas.
  unfold loadChain. erewrite run_nil_pbind; [|erewrite run_nil_pbind by apply readFile_done;
    rewrite Hs; cbn [default]; unfold run; reflexivity].
  cbn [rbind from_option id]. rewrite (proj2 (str_empty_false s) Hne).
  rewrite (parseChain_stored s chain), fillLegacyChain_id by done.
  unfold run. simpl. destruct chain as [|g rest]; [done|]. cbn [length Nat.eqb negb andb].
  by destruct (validateChainAgainstConsensus engine now (g :: rest)).
Qed.

(** A restart restores the node: on a disk that holds a chain which
    validates, the constructor returns a node with that chain and the state of
    the node that wrote it; the mempool starts empty and the difficulty is the
    configured one, not the retargeted one. *)
Lemma restart_restores (bc : Blockchain) (dir : string)
    (engine : option IConsensusEngine) (fuel : nat) (now d : Z) (fs : FS) :
  chain_inv bc -> stored dir (chain_ bc) fs ->
  Forall block_wf (chain_ bc) -> Forall (fun b => Forall tx_complete (transactions b)) (chain_ bc) ->
  validateChainAgainstConsensus engine now (chain_ bc) = true ->
  exists bc', run (newBlockchain fuel now d engine (Some dir)) [] fs = (Some (Ok (Some bc')), fs) /\
    chain_ bc' = chain_ bc /\ stateManager_ bc' = stateManager_ bc /\
    mempool_ bc' = [] /\ difficulty_ bc' = d.
Proof.
  intros Hinv Hd Hwf Hc Hv. pose proof (isChainValid_nonempty _ (inv_valid _ Hinv)) as Hcne.
  unfold newBlockchain. erewrite run_nil_pbind by by apply (loadPersisted_stored dir (chain_ bc)).
  rewrite Hv. eexists. split; [reflexivity|]. simpl. split_and!; try done. by rewrite (inv_state _ Hinv).
Qed.

(** A chain that does not validate is given up for a new genesis block, which is
    saved over it. *)
Lemma restart_gives_up (chain : list Block) (dir : string)
    (engine : option IConsensusEngine) (fuel : nat) (now d : Z) (fs : FS) (g : Block) x :
  chain <> [] -> stored dir chain fs ->
  Forall block_wf chain -> Forall (fun b => Forall tx_complete (transactions b)) chain ->
  validateChainAgainstConsensus engine now chain = false ->
  createGenesis fuel d = Some g -> json_dump (Some 2) (chainJson [g]) = Ok x ->
  exists bc' fs', run (newBlockchain fuel now d engine (Some dir)) [] fs = (Some (Ok (Some bc')), fs') /\
    chain_ bc' = [g] /\ stateManager_ bc' = applyBlockState emptyState g /\
    mempool_ bc' = [] /\ difficulty_ bc' = d.
Proof.
  intros Hcne Hd Hwf Hc Hv Hg Hx. unfold newBlockchain. erewrite run_nil_pbind by by apply (loadPersisted_stored dir chain).
  rewrite Hv, Hg. cbv zeta. destruct (atomicWrite_done (chainFilePath dir) x fs) as (fs' & Hw & _).
  assert (Hs : run (pbind (saveChain dir [g]) (fun r => Ret (let! _ := r in Ok tt))) [] fs = (Some (Ok tt), fs')).
  { unfold saveChain, writeDump. rewrite Hx. erewrite run_nil_pbind; [|by erewrite run_nil_pbind by exact Hw]. done. }
  unfold saveAll. cbn [storage_ bump_version set_state set_chain bareBlockchain chain_ app].
  erewrite run_nil_pbind by exact Hs. eexists _, fs'. split; [reflexivity|done].
Qed.

(** C15: a node that reads a peer's chain ([chainFromJson] of the peer's
    [chainToJson]) ends with the peer's chain and state when that chain is
    selected and validates, and is unchanged otherwise. *)
Theorem sync_from_peer (now : Z) (a b b' : Blockchain) (evs : list event) (fs fs' : FS)
    (ns : list notice) (r : result unit) :
  chain_inv a ->
  Forall block_wf (chain_ a) -> Forall (fun b => Forall tx_complete (transactions b)) (chain_ a) ->
  run (chainFromJson now (chainToJson a) b) evs fs = (Some (b', ns, r), fs') ->
  if chainSelected (chain_ a) b && validateChainAgainstConsensus (consensusEngine_ b) now (chain_ a)
  then chain_ b' = chain_ a /\ stateManager_ b' = stateManager_ a
  else b' = b /\ fs' = fs.
Proof.
  intros Ha Hwf Hc. unfold chainFromJson, chainToJson. simpl. rewrite rmap_compose.
  rewrite (rmap_map _ fillLegacyBlock).
  2:{ intros x Hx. rewrite Forall_forall in Hwf. by apply blockFromJson_toJson, Hwf. }
  rewrite fillLegacyChain_id by done.
  intros (o & evs1 & fs1 & Ho & H)%run_pbind. destruct o as [[bc1 ns1] r1].
  unfold run in H. simpl in H. simplify_eq.
  destruct (replaceChain_cases now (chain_ a) b) as [(Hs & Hv & E)|(Hn & E)]; rewrite E in Ho.
  - rewrite Hs, Hv. simpl. destruct (run_after (saveAll (replaced (chain_ a) b)) (replaced (chain_ a) b)
      (match onBlockAccepted_ b, last (chain_ a) with true, Some t => [BlockAccepted t] | _, _ => [] end)
      true evs fs b' ns r1 fs') as [-> _]; [by unfold run; rewrite Ho|].
    simpl. by rewrite (inv_state _ Ha).
  - simpl in Ho. simplify_eq. by destruct Hn as [-> | ->]; rewrite ?andb_false_r.
Qed.

End safety.

(** ** Witnesses *)

Section safety_witnesses.
Import ToyOpenSSL Nlohmann.

Lemma sampleTriple_acceptable : block_acceptable sampleNow sampleTriple (sampleNode None).
Proof.
  apply block_acceptable_iff; [exact sampleGenesis_valid|]. split.
  - unfold validateChainAgainstConsensus. cbn [chain_ consensusEngine_ sampleNode].
    by rewrite sampleGenesis_valid.
  - pose proof sampleTriple_pow as H. apply pow_validateBlock_spec in H as (_ & Hv & Hp & _ & Ht).
    split_and!; [reflexivity|exact Hp|exact Hv|exact Ht|exact sampleTriple_pow].
Qed.

Lemma acceptBlock_exact_witness :
  chain_ (extended sampleNext (sampleNode None)) = [sampleGenesis; sampleNext].
Proof.
  destruct (acceptBlock_exact sampleNow sampleNext (sampleNode None) _ [] ∅ _ _ _
              (sampleNode_inv None) sampleNode_accepts) as [(_ & _ & H & _)|(_ & _ & H & _)];
    [exact H|discriminate].
Defined.

Lemma replaceChain_exact_witness :
  exists bc', run (replaceChain sampleNow [sampleGenesis; sampleNext] (sampleNode None)) [] ∅
    = (Some (bc', [BlockAccepted sampleNext], Ok true), ∅) /\
    chain_ bc' = [sampleGenesis; sampleNext].
Proof.
  assert (Hr : run (replaceChain sampleNow [sampleGenesis; sampleNext] (sampleNode None)) [] ∅
    = (Some (replaced [sampleGenesis; sampleNext] (sampleNode None), [BlockAccepted sampleNext], Ok true), ∅)).
  { destruct (replaceChain_cases sampleNow [sampleGenesis; sampleNext] (sampleNode None))
      as [(_ & _ & ->)|([H|H] & _)]; [reflexivity|discriminate|].
    pose proof (sampleNode2_validates None) as H'. change (consensusEngine_ (sampleNode None))
      with (consensusEngine_ (sampleNode2 None)) in H.
    change (chain_ (sampleNode2 None)) with [sampleGenesis; sampleNext] in H'. congruence. }
  exists (replaced [sampleGenesis; sampleNext] (sampleNode None)). split; [exact Hr|].
  destruct (replaceChain_exact _ _ _ _ _ _ _ _ _ Hr) as [(_ & _ & H & _)|(_ & _ & H & _)];
    [exact H|discriminate].
Defined.

Lemma minePending_exact_witness :
  exists b, chain_ (mined sampleMined (sampleNode None)) = [sampleGenesis; b] /\
    mempool_ (mined sampleMined (sampleNode None)) = [].
Proof.
  assert (Hp : minePendingTransactions 0 sampleNow sampleNow "b" (sampleNode None) =
    Some (pbind (persistBlock sampleMined (mined sampleMined (sampleNode None))) (fun r =>
      Ret (after_storage r (mined sampleMined (sampleNode None)) [BlockAccepted sampleMined] sampleMined)))).
  { unfold minePendingTransactions, sealNewBlock. cbn [retargeted consensusEngine_ sampleNode
      set_difficulty sealBlock PoWEngine nextDifficulty].
    change (blockTemplate _ _ _ _) with
      (newBlock sampleNow 1 (hash sampleGenesis) [rewardTransaction sampleNow "b"] 1).
    rewrite sampleMined_sealed. reflexivity. }
  destruct (minePending_exact 0 sampleNow sampleNow "b" (sampleNode None)
    (mined sampleMined (sampleNode None)) _ [] ∅ ∅ [BlockAccepted sampleMined] (Ok sampleMined)
    (sampleNode_inv None) Hp eq_refl) as (b & Hc & _ & _ & _ & _ & Hm & _).
  exists b. split; [exact Hc|exact Hm].
Defined.

Lemma tip_determines_history_witness :
  (Forall2 (fun b1 b2 => hash b1 = hash b2) [sampleGenesis; sampleTriple] [sampleGenesis; sampleTriple] /\
   Forall2 same_header [sampleTriple] [sampleTriple]) \/
  header_collision [sampleGenesis; sampleTriple] [sampleGenesis; sampleTriple].
Proof.
  assert (Hv : isChainValid [sampleGenesis; sampleTriple] = true).
  { destruct sampleTriple_acceptable as (_ & _ & _ & H). rewrite validateChain_split in H.
    apply andb_prop in H as [H _]. exact H. }
  assert (Hs : Forall standard_block [sampleGenesis; sampleTriple]) by (repeat constructor).
  apply (tip_determines_history (OSS := toy_spec) _ _ Hv Hv eq_refl Hs Hs eq_refl).
Defined.

Lemma mining_on_future_tip_sticks_witness :
  isValidChain sampleNow (mined sampleLate (sampleNode2 None)) = false.
Proof.
  assert (Hp : minePendingTransactions 7 sampleEarly sampleEarly "i" (sampleNode2 None) =
    Some (pbind (persistBlock sampleLate (mined sampleLate (sampleNode2 None))) (fun r =>
      Ret (after_storage r (mined sampleLate (sampleNode2 None)) [BlockAccepted sampleLate] sampleLate)))).
  { unfold minePendingTransactions, sealNewBlock. cbn [retargeted consensusEngine_ sampleNode2
      set_difficulty sealBlock PoWEngine nextDifficulty].
    change (blockTemplate _ _ _ _) with
      (newBlock sampleEarly 2 (hash sampleNext) [rewardTransaction sampleEarly "i"] 1).
    rewrite sampleLate_sealed. reflexivity. }
  assert (Hr : time_in_range (to_seconds sampleEarly)) by (vm_compute; split; [discriminate|reflexivity]).
  assert (Hlt : to_seconds sampleEarly < parseTimestamp (timestamp (tip (chain_ (sampleNode2 None)))))
    by (vm_compute; reflexivity).
  destruct (mining_on_future_tip_sticks defaultAdjuster 7 sampleEarly sampleEarly "i" (sampleNode2 None)
    (mined sampleLate (sampleNode2 None)) _ [] ∅ ∅ [BlockAccepted sampleLate] (Ok sampleLate)
    (sampleNode2_inv None) eq_refl Hr Hlt Hp eq_refl sampleNow) as [H _].
  exact H.
Defined.

Lemma twin_block_accepted_witness :
  let twin := set_transactions (transactions sampleTriple ++ [set_txID "3f" (sampleCoinbase 50)]) sampleTriple in
  block_acceptable sampleNow twin (sampleNode None) /\
  getBalance "addr" (stateManager_ (extended twin (sampleNode None))) =
    u64 (getBalance "addr" (stateManager_ (extended sampleTriple (sampleNode None))) + 50).
Proof.
  destruct (twin_block_accepted sampleNow (sampleNode None) sampleTriple
    [set_txID "f" (sampleCoinbase 50); set_txID "2f" (sampleCoinbase 50)]
    (set_txID "3f" (sampleCoinbase 50)) (sampleNode_inv None)) as (_ & H1 & _ & H2).
  - right. exists defaultAdjuster. reflexivity.
  - reflexivity.
  - discriminate.
  - exists 1%nat. reflexivity.
  - split; [apply H1; exact sampleTriple_acceptable|apply H2; discriminate].
Defined.

Lemma coinbase_not_committed_witness :
  block_acceptable sampleNow
    (set_transactions [mkTx "a" "COINBASE" "" "COINBASE" "thief" 1000000 0 "" "" ""] sampleNext)
    (sampleNode None).
Proof.
  apply (coinbase_not_committed sampleNow (sampleNode None) sampleNext [] []
    (set_txID "a" (sampleCoinbase 1000)) (mkTx "a" "COINBASE" "" "COINBASE" "thief" 1000000 0 "" "" "")
    (sampleNode_inv None)).
  - right. exists defaultAdjuster. reflexivity.
  - reflexivity.
  - reflexivity.
  - reflexivity.
  - reflexivity.
  - discriminate.
  - exact (sampleNext_acceptable None).
Defined.

Lemma disk_follows_memory_witness :
  exists bc' ns fs', run (acceptBlock sampleNow sampleNext (sampleNode (Some "d"))) [] sampleDisk
    = (Some (bc', ns, Ok true), fs') /\
    chain_ bc' = [sampleGenesis; sampleNext] /\ on_disk bc' fs'.
Proof.
  destruct sample_printable as (Hw & Ht & _).
  apply (disk_follows_memory (JTS := nlohmann_spec) (sampleNode (Some "d")) sampleNext sampleDisk
    (sampleNode_inv (Some "d"))).
  - apply Forall_cons in Ht as [Hg _]. apply stored_enc; [discriminate|]. constructor; [exact Hg|constructor].
  - split; [exact Hw|exact Ht].
  - split; [discriminate|reflexivity].
  - intros g [= <-]. reflexivity.
  - exact (sampleNext_acceptable (Some "d")).
Defined.

Lemma sync_from_peer_witness :
  exists b', chain_ b' = [sampleGenesis; sampleNext] /\
    stateManager_ b' = stateManager_ (sampleNode2 None).
Proof.
  destruct sample_printable as (Hw & Ht & Hc).
  exists (replaced [sampleGenesis; sampleNext] (sampleNode None)).
  assert (Hv : chainSelected (chain_ (sampleNode2 None)) (sampleNode None) &&
    validateChainAgainstConsensus (consensusEngine_ (sampleNode None)) sampleNow
      (chain_ (sampleNode2 None)) = true).
  { apply andb_true_intro. split; [reflexivity|exact (sampleNode2_validates None)]. }
  pose proof (sync_from_peer sampleNow (sampleNode2 None) (sampleNode None)
    (replaced [sampleGenesis; sampleNext] (sampleNode None)) [] ∅ ∅ [BlockAccepted sampleNext] (Ok tt)
    (sampleNode2_inv None) Hw Hc) as H.
  rewrite Hv in H. apply H. clear H. apply andb_prop in Hv as [Hs Hv].
  unfold chainFromJson, chainToJson. cbn [json_items]. rewrite rmap_compose.
  rewrite (rmap_map _ fillLegacyBlock).
  2:{ intros x Hx. rewrite Forall_forall in Hw. by apply blockFromJson_toJson, Hw. }
  rewrite fillLegacyChain_id by exact Hc.
  destruct (replaceChain_cases sampleNow (chain_ (sampleNode2 None)) (sampleNode None))
    as [(_ & _ & E)|([E|E] & _)]; [|congruence..].
  unfold run. rewrite exec_pbind, E. reflexivity.
Defined.

End safety_witnesses.
