(* ===== verification/Wallet.v ===== *)
(** * Wallet: src/src/wallet/wallet.cpp and src/src/wallet/wallet_manager.cpp

    Key pairs, the address of a public key, and the challenge-response login.
    The clock (nanoseconds) and the random numbers of a challenge are arguments;
    the challenge table is a [gmap]. *)

From S2P Require Import Prelude StdTime Json Crypto Transaction Block State Consensus Storage Blockchain.
#[local] Open Scope Z_scope.

Record Wallet := mkWallet { privateKey_ : string; publicKey_ : string }.

Record ChallengeRecord := mkChallenge {
  address : string;
  publicKey : string;
  expiresAt : Z              (* system_clock, nanoseconds *)
}.

Abbreviation ChallengeStore := (gmap string ChallengeRecord).

Section wallet.
Context `{OS : OpenSSL}.

(** ** Wallet *)

(** [Wallet()] *)
Definition newWallet (entropy : Z) : result Wallet :=
  let! kp := generateKeyPair entropy in
  Ok (mkWallet (kp_privateKey kp) (kp_publicKey kp)).

(** [Wallet(privateKeyHex)]; the answer of [EC_KEY_set_public_key] is ignored. *)
Definition walletFromKey (privateKeyHex : string) : result Wallet :=
  match BN_hex2bn privateKeyHex with
  | None => Throw (runtime_error "Failed to parse private key hex")
  | Some privBN =>
      if negb (EC_KEY_set_private_key privBN)
      then Throw (runtime_error "Failed to set private key")
      else match EC_POINT_mul privBN with
      | None => Throw (runtime_error "Failed to derive public key")
      | Some pubPoint =>
          match EC_POINT_point2hex pubPoint with
          | None => Throw (runtime_error "Failed to convert public key to hex")
          | Some pubHex => Ok (mkWallet privateKeyHex (str_map tolower pubHex))
          end
      end
  end.

Definition signData (entropy : Z) (data : string) (w : Wallet) : result string :=
  Crypto.sign entropy data (privateKey_ w).

Definition walletToJson `{JT : JsonText} (w : Wallet) : result string :=
  json_dump None (json_set "publicKey" (JString (publicKey_ w)) JNull).

(** ** WalletManager *)

(** [regex_match] against ["^[0-9a-fA-F]{64}$"] and ["^PCN_[0-9a-fA-F]{40}$"]. *)
Definition isValidPrivateKeyHex (s : string) : bool :=
  Nat.eqb (String.length s) 64 && str_forallb is_xdigit s.

Definition isValidWalletAddress (s : string) : bool :=
  String.eqb (str_take 4 s) "PCN_" && Nat.eqb (String.length (str_drop 4 s)) 40 &&
  str_forallb is_xdigit (str_drop 4 s).

Definition createWallet (entropy : Z) : result Wallet := newWallet entropy.

Definition importWallet (privateKeyHex : string) : result Wallet :=
  if negb (isValidPrivateKeyHex privateKeyHex)
  then Throw (runtime_error "Invalid private key format")
  else walletFromKey privateKeyHex.

Definition addressFromPublicKey (pk : string) : string :=
  let digest := sha256 pk in "PCN_" +:+ str_take 40 digest.

(** Two random 64-bit numbers and the clock, hashed. *)
Definition randomChallenge (r1 r2 now : Z) : string :=
  sha256 (to_string r1 +:+ ":" +:+ to_string r2 +:+ ":" +:+ to_string now).

Definition five_minutes : Z := 300 * 10 ^ 9.

(** [t1] is the clock of the challenge text, [t2] that of the expiry. *)
Definition createLoginChallenge (r1 r2 t1 t2 : Z) (addr pk : string) (store : ChallengeStore)
    : result string * ChallengeStore :=
  let derived := addressFromPublicKey pk in
  if negb (String.eqb derived addr)
  then (Throw (runtime_error "Address/public key mismatch"), store)
  else
    let challenge := randomChallenge r1 r2 t1 in
    let rec := mkChallenge addr pk (i64 (t2 + five_minutes)) in
    (Ok challenge, <[challenge := rec]> store).

Definition loginToken (addr : string) (now : Z) : string := sha256 (addr +:+ ":" +:+ to_string now).

Definition verifyLogin (now : Z) (addr pk challenge signatureHex : string) (store : ChallengeStore)
    : option string * ChallengeStore :=
  match store !! challenge with
  | None => (None, store)
  | Some rec =>
      if expiresAt rec <? now then (None, delete challenge store)
      else if negb (String.eqb (address rec) addr) || negb (String.eqb (publicKey rec) pk)
      then (None, delete challenge store)
      else if negb (String.eqb (addressFromPublicKey pk) addr)
      then (None, delete challenge store)
      else
        let ok := Crypto.verify challenge signatureHex pk in
        let store := delete challenge store in
        if negb ok then (None, store)
        else (Some (loginToken addr now), store)
  end.

(** The token, the address and the public key. *)
Definition verifyPrivateKeyLogin (now : Z) (privateKeyHex : string)
    : result (option (string * string * string)) :=
  if negb (isValidPrivateKeyHex privateKeyHex) then Ok None
  else
    let! wallet := walletFromKey privateKeyHex in
    let outPublicKey := publicKey_ wallet in
    let outAddress := addressFromPublicKey outPublicKey in
    Ok (Some (loginToken outAddress now, outAddress, outPublicKey)).

(** [getBalance], [getLastNonce] and [getTransactions] delegate to the chain. *)
Definition walletBalance (addr : string) (bc : Blockchain) : Z := getBalanceForAddress addr bc.
Definition walletNonce (addr : string) (bc : Blockchain) : Z := getLastNonceForAddress addr bc.
Definition walletTransactions (addr : string) (bc : Blockchain) : list Transaction :=
  getHistoryForAddress addr bc.

End wallet.

(** ** Lemmas *)

Section wallet_lemmas.
Context `{OS : OpenSSL} {OSS : OpenSSLSpec OS}.

Lemma is_lower_is_xdigit c : is_lower_xdigit c = true -> is_xdigit c = true.
Proof. unfold is_lower_xdigit. by intros [? _]%andb_prop. Qed.

Lemma str_forallb_take p n s : str_forallb p s = true -> str_forallb p (str_take n s) = true.
Proof.
  revert s. induction n as [|n IH]; intros [|c s]; simpl; try done.
  intros [Hc Hs]%andb_prop. by rewrite Hc, IH.
Qed.

Lemma str_forallb_impl p q s :
  (forall c, p c = true -> q c = true) -> str_forallb p s = true -> str_forallb q s = true.
Proof.
  intros Hi. induction s as [|c s IH]; simpl; [done|]. intros [Hc Hs]%andb_prop.
  by rewrite (Hi c Hc), IH.
Qed.

Lemma addressFromPublicKey_valid pk : isValidWalletAddress (addressFromPublicKey pk) = true.
Proof.
  unfold isValidWalletAddress, addressFromPublicKey.
  rewrite (str_take_app 4), (str_drop_app 4) by done.
  rewrite str_length_take, sha256_length, String.eqb_refl. cbn [Nat.min Nat.eqb andb].
  apply str_forallb_take. eapply str_forallb_impl; [apply is_lower_is_xdigit|]. apply sha256_lower.
Qed.

Lemma walletFromKey_private priv w : walletFromKey priv = Ok w -> privateKey_ w = priv.
Proof.
  unfold walletFromKey. repeat (case_match; try discriminate). by intros [= <-].
Qed.

(** Signing with a key and verifying with the public key derived from it. *)
Lemma verify_sign_wallet ent msg priv w sig :
  walletFromKey priv = Ok w -> Crypto.sign ent msg priv = Ok sig ->
  Crypto.verify msg sig (publicKey_ w) = true /\ sig <> "".
Proof.
  unfold walletFromKey, Crypto.sign, Crypto.verify. rewrite hexToBytes_sha256. cbn [rbind].
  destruct (BN_hex2bn priv) as [bn|]; [|done]. destruct (EC_KEY_set_private_key bn); [cbn [negb]|done].
  destruct (EC_POINT_mul bn) as [pt|] eqn:Em; [|done].
  destruct (EC_POINT_point2hex pt) as [hex|] eqn:Eh; [|done]. intros [= <-].
  destruct (EC_KEY_set_public_key pt) eqn:Ep; [cbn [negb]|done].
  destruct (ECDSA_do_sign ent (EVP_sha256 msg) bn pt) as [s|] eqn:Es; [|done].
  destruct (Nat.eqb_spec (length (i2d_ECDSA_SIG s)) 0) as [|Hlen]; [done|]. intros [= <-].
  rewrite hexToBytes_bytesToHex by apply i2d_bytes. cbn [rbind publicKey_]. rewrite d2i_i2d.
  rewrite (hex2point_point2hex bn pt hex Em Eh), Ep. cbn [negb try_catch].
  rewrite (verify_sign ent (EVP_sha256 msg) bn pt s Em Es). split; [done|].
  intros He. apply (f_equal String.length) in He. rewrite bytesToHex_length in He. simpl in He. lia.
Qed.

Lemma verifyLogin_cases now addr pk challenge sig store rec :
  store !! challenge = Some rec ->
  verifyLogin now addr pk challenge sig store =
  (if (now <=? expiresAt rec) && String.eqb (address rec) addr && String.eqb (publicKey rec) pk &&
      String.eqb (addressFromPublicKey pk) addr && Crypto.verify challenge sig pk
   then Some (loginToken addr now) else None, delete challenge store).
Proof.
  intros Hs. unfold verifyLogin. rewrite Hs.
  destruct (Z.ltb_spec (expiresAt rec) now), (Z.leb_spec now (expiresAt rec)); try lia; [done|].
  destruct (String.eqb (address rec) addr), (String.eqb (publicKey rec) pk),
    (String.eqb (addressFromPublicKey pk) addr), (Crypto.verify challenge sig pk); done.
Qed.

End wallet_lemmas.

(** ** Properties *)

Section wallet_properties.
Context `{OS : OpenSSL} {OSS : OpenSSLSpec OS}.

(** A transaction a wallet signs is accepted by [Transaction::verify]: if it
    names the wallet's public key and its PCN address (or no sender address),
    has a positive amount and no identifier yet, then after [sign] with the
    wallet's private key it verifies, and [addressFromPublicKey] of its key is a
    well-formed wallet address. *)
Lemma signed_transaction_verifies (ent : Z) (priv : string) (w : Wallet) (tx tx' : Transaction) :
  walletFromKey priv = Ok w -> signTx ent priv tx = Ok tx' ->
  senderPublicKey tx = publicKey_ w -> publicKey_ w <> "" -> publicKey_ w <> "COINBASE" ->
  (fromAddress tx = "" \/ fromAddress tx = addressFromPublicKey (publicKey_ w)) ->
  amount tx <> 0 -> txID tx = "" ->
  verifyTx tx' = true /\ isValidWalletAddress (addressFromPublicKey (publicKey_ w)) = true.
Proof.
  intros Hw Hs Hpk Hne Hcb Hf Ha Hid. split; [|apply addressFromPublicKey_valid].
  unfold signTx in Hs. rewrite Hid in Hs. cbn [str_empty] in Hs.
  apply rbind_ok_inv in Hs as (sig & Hsig & [= <-]).
  destruct (verify_sign_wallet _ _ _ _ _ Hw Hsig) as [Hv Hnes].
  apply verifyTx_user; [by apply String.eqb_neq; rewrite <- Hpk in Hcb|].
  cbn [set_signature computeTxID set_txID amount txID digitalSignature senderPublicKey fromAddress
       computeTxID] in *.
  rewrite Hpk. split_and!; try done.
  - apply sha256_nonempty.
  - destruct Hf as [->| ->]; auto.
Qed.

(** C39: the login is sound and single-use: [verifyLogin] answers a token only
    for a challenge in the table, before its expiry, for the address and key it
    was issued to, and with a signature of it under that key; and whatever it
    answers, the challenge is gone, so presenting it again fails. *)
Theorem verifyLogin_sound (now now' : Z) (addr pk challenge sig sig' : string)
    (store : ChallengeStore) (token : option string) (store' : ChallengeStore) :
  verifyLogin now addr pk challenge sig store = (token, store') ->
  (forall t, token = Some t ->
     exists rec, store !! challenge = Some rec /\ now <= expiresAt rec /\
       address rec = addr /\ publicKey rec = pk /\ addr = addressFromPublicKey pk /\
       Crypto.verify challenge sig pk = true /\ t = loginToken addr now) /\
  store' = delete challenge store /\
  verifyLogin now' addr pk challenge sig' store' = (None, store').
Proof.
  intros H. destruct (store !! challenge) as [rec|] eqn:Es.
  - rewrite (verifyLogin_cases _ _ _ _ _ _ rec Es) in H. apply pair_equal_spec in H as [<- <-]. split_and!; [|done|].
    + intros t Ht. case_if_in Ht; [|done]. bool_to_prop. injection Ht as <-. exists rec. split_and!; (done || congruence).
    + unfold verifyLogin. by rewrite lookup_delete_eq.
  - unfold verifyLogin in H. rewrite Es in H. injection H as <- <-. split_and!; [done| |].
    + by rewrite delete_id.
    + unfold verifyLogin. by rewrite Es.
Qed.

(** The login is complete: the owner of a key who signs the challenge issued
    for its address within five minutes gets a token. *)
Lemma login_completes (r1 r2 t1 t2 now ent : Z) (priv : string) (w : Wallet)
    (store : ChallengeStore) (challenge sig : string) (store' : ChallengeStore) :
  walletFromKey priv = Ok w ->
  createLoginChallenge r1 r2 t1 t2 (addressFromPublicKey (publicKey_ w)) (publicKey_ w) store
    = (Ok challenge, store') ->
  signData ent challenge w = Ok sig ->
  in_s 64 (t2 + five_minutes) -> now <= t2 + five_minutes ->
  verifyLogin now (addressFromPublicKey (publicKey_ w)) (publicKey_ w) challenge sig store' =
    (Some (loginToken (addressFromPublicKey (publicKey_ w)) now), delete challenge store').
Proof.
  intros Hw Hc Hs Hr Hn. pose proof (walletFromKey_private _ _ Hw) as Hp. unfold createLoginChallenge in Hc. rewrite String.eqb_refl in Hc.
  cbn [negb] in Hc. injection Hc as <- <-.
  erewrite verifyLogin_cases by apply lookup_insert_eq. cbn [address publicKey expiresAt].
  rewrite wraps_small, !String.eqb_refl by done.
  replace (now <=? t2 + five_minutes) with true by (symmetry; by apply Z.leb_le).
  unfold signData in Hs. rewrite Hp in Hs. destruct (verify_sign_wallet _ _ _ _ _ Hw Hs) as [-> _].
  done.
Qed.

End wallet_properties.

(** ** Witnesses *)

Section wallet_witnesses.
Import ToyOpenSSL.

Definition sampleKey : string := str_repeat 64 "7".
Definition sampleWallet : Wallet := mkWallet sampleKey ("02" +:+ sampleKey).

Lemma sampleWallet_made : walletFromKey sampleKey = Ok sampleWallet.
Proof. vm_compute. reflexivity. Qed.

Definition samplePayment : Transaction :=
  mkTx "" (publicKey_ sampleWallet) "" (addressFromPublicKey (publicKey_ sampleWallet)) "bob" 5 1 ""
    "2026-05-28T20:26:40Z" "".

Lemma signed_transaction_verifies_witness :
  exists tx, signTx 0 sampleKey samplePayment = Ok tx /\ verifyTx tx = true.
Proof.
  destruct (signTx 0 sampleKey samplePayment) as [tx|e] eqn:E; [|vm_compute in E; discriminate].
  exists tx. split; [reflexivity|].
  refine (proj1 (signed_transaction_verifies (OSS := toy_spec) 0 sampleKey sampleWallet samplePayment tx
    sampleWallet_made E eq_refl _ _ (or_intror eq_refl) _ eq_refl)); discriminate.
Defined.

Lemma verifyLogin_sound_witness :
  verifyLogin 7 "a" "pk" "c" "sig" (delete "c" {["c" := mkChallenge "a" "pk" 3]})
    = (None, delete "c" {["c" := mkChallenge "a" "pk" 3]}).
Proof.
  apply (verifyLogin_sound 5 7 "a" "pk" "c" "sig" "sig" {["c" := mkChallenge "a" "pk" 3]} None).
  reflexivity.
Defined.

Lemma login_completes_witness :
  exists challenge sig store,
    verifyLogin 1000 (addressFromPublicKey (publicKey_ sampleWallet)) (publicKey_ sampleWallet)
      challenge sig store
    = (Some (loginToken (addressFromPublicKey (publicKey_ sampleWallet)) 1000), delete challenge store).
Proof.
  set (challenge := randomChallenge 1 2 900).
  destruct (signData 0 challenge sampleWallet) as [sig|e] eqn:E; [|vm_compute in E; discriminate].
  exists challenge, sig. eexists.
  apply (login_completes (OSS := toy_spec) 1 2 900 900 1000 0 sampleKey sampleWallet ∅ challenge sig _
    sampleWallet_made).
  - unfold createLoginChallenge. rewrite String.eqb_refl. reflexivity.
  - exact E.
  - split; [discriminate|reflexivity].
  - discriminate.
Defined.

End wallet_witnesses.
