(* ===== verification/HttpText.v ===== *)
(** * HttpText: requests and responses as text

    The parsing and printing of src/src/network/http_server.cpp: the response
    printer, the request parser, the split of the bytes of a connection into
    header and body with the limits on the body, and the string helpers. *)

From S2P Require Import Prelude Json Wallet.
#[local] Open Scope Z_scope.

(** ** Data *)

Record HttpRequest := mkRequest {
  method : string;
  path : string;
  headers : gmap string string;
  body : string
}.

Record HttpResponse := mkResponse {
  statusCode : Z;
  statusText : string;
  contentType : string;
  respBody : string
}.

Definition emptyRequest : HttpRequest := mkRequest "" "" ∅ "".
(** The defaults of the members. *)
Definition defaultResponse (b : string) : HttpResponse := mkResponse 200 "OK" "application/json" b.
Definition statusResponse (code : Z) (text b : string) : HttpResponse :=
  mkResponse code text "application/json" b.

Definition CR : ascii := "013".
Definition LF : ascii := "010".
Definition crlf : string := String CR (String LF EmptyString).

(** ** [HttpResponse::serialize] *)

Definition serializeResponse (r : HttpResponse) : string :=
  ("HTTP/1.1 " +:+ to_string (statusCode r) +:+ " " +:+ statusText r +:+ crlf) +:+
  ("Content-Type: " +:+ contentType r +:+ crlf) +:+
  ("Content-Length: " +:+ to_string (Z.of_nat (String.length (respBody r))) +:+ crlf) +:+
  ("Access-Control-Allow-Origin: *" +:+ crlf) +:+
  ("Access-Control-Allow-Methods: GET, POST, OPTIONS" +:+ crlf) +:+
  ("Access-Control-Allow-Headers: Content-Type" +:+ crlf) +:+
  ("Connection: close" +:+ crlf) +:+
  crlf +:+ respBody r.

(** ** Searching *)

Fixpoint str_prefix (p s : string) : bool :=
  match p, s with
  | EmptyString, _ => true
  | String a p, String b s => Ascii.eqb a b && str_prefix p s
  | _, EmptyString => false
  end.

(** [s.find(p)]; [None] is [npos]. *)
Fixpoint find_sub (p s : string) : option nat :=
  if str_prefix p s then Some O
  else match s with
       | EmptyString => None
       | String _ s => S <$> find_sub p s
       end.

(** [s.find(c, pos)], relative to [pos]. *)
Definition find_from (c : ascii) (pos : nat) (s : string) : option nat := str_find c (str_drop pos s).

(** ** [parseRequest] *)

(** Drop a carriage return at the end of a line. *)
Fixpoint strip_cr (line : string) : string :=
  match line with
  | EmptyString => EmptyString
  | String c EmptyString => if Ascii.eqb c CR then EmptyString else line
  | String c rest => String c (strip_cr rest)
  end.

Fixpoint skip_blanks (s : string) : string :=
  match s with
  | String c s' => if Ascii.eqb c " " then skip_blanks s' else s
  | EmptyString => EmptyString
  end.

Definition parseRequestLine (line : string) (req : HttpRequest) : HttpRequest :=
  let line := strip_cr line in
  match str_find " " line with
  | None => req
  | Some sp1 =>
      match find_from " " (S sp1) line with
      | None => req
      | Some k => mkRequest (str_take sp1 line) (str_take k (str_drop (S sp1) line))
                    (headers req) (body req)
      end
  end.

(** The loop over the header lines; an empty line ends it. *)
Fixpoint parseHeaders (lines : list string) (hs : gmap string string) : gmap string string :=
  match lines with
  | [] => hs
  | line :: lines =>
      let line := strip_cr line in
      if str_empty line then hs
      else match str_find ":" line with
           | None => parseHeaders lines hs
           | Some colon =>
               let key := str_map tolower (str_take colon line) in
               let val := skip_blanks (str_drop (S colon) line) in
               parseHeaders lines (<[key := val]> hs)
           end
  end.

Definition parseRequest (raw : string) : HttpRequest :=
  match getlines LF raw with
  | [] => emptyRequest
  | line :: lines =>
      let req := parseRequestLine line emptyRequest in
      mkRequest (method req) (path req) (parseHeaders lines (headers req)) (body req)
  end.

(** ** [handleConnection]: from bytes to a request *)

Definition MAX_BODY_SIZE : Z := 1 * 1024 * 1024.

(** What is done once the header has been read. *)
Inductive plan : Type :=
| Reject (r : HttpResponse)
| NeedBody (req : HttpRequest) (extraBody : string) (remaining : nat)
| Ready (req : HttpRequest).

Definition with_body (b : string) (req : HttpRequest) : HttpRequest :=
  mkRequest (method req) (path req) (headers req) b.

Definition quoted (s : string) : string := String "034" (s +:+ String "034" EmptyString).
Definition errorText (message : string) : string :=
  "{" +:+ quoted "error" +:+ ": " +:+ quoted message +:+ "}".

(** [raw] is what the socket delivered up to and past the blank line; [None]
    when there is no blank line yet. *)
Definition planRequest (raw : string) : option plan :=
  headerEnd ← find_sub (crlf +:+ crlf) raw;
  let rawHeaders := str_take (headerEnd + 4) raw in
  let extraBody := str_drop (headerEnd + 4) raw in
  let req := parseRequest rawHeaders in
  Some (match headers req !! "content-length" with
        | None => Ready req
        | Some cl =>
            match stoul cl with
            | Throw _ => Reject (statusResponse 400 "Bad Request" (errorText "Invalid Content-Length header"))
            | Ok contentLen =>
                if MAX_BODY_SIZE <? contentLen
                then Reject (statusResponse 413 "Payload Too Large"
                               (errorText "Request body too large (max 1MB)"))
                else
                  let contentLen := Z.to_nat contentLen in
                  let alreadyRead := String.length extraBody in
                  let remaining := if Nat.ltb alreadyRead contentLen then (contentLen - alreadyRead)%nat else O in
                  if Nat.ltb 0 remaining then NeedBody req extraBody remaining
                  else Ready (with_body (str_take contentLen extraBody) req)
            end
        end).

(** The second read: the bytes, or [None] on an error, after which the request
    is handled all the same with the empty body it had. *)
Definition completeBody (req : HttpRequest) (extraBody : string) (more : option string) : HttpRequest :=
  match more with
  | Some rest => with_body (extraBody +:+ rest) req
  | None => req
  end.

(** The response sent at once, or the request handled; [more] is the outcome of
    the second read, given the number of bytes it waits for. *)
Definition requestOf (p : plan) (more : nat -> option string) : HttpResponse + HttpRequest :=
  match p with
  | Reject r => inl r
  | NeedBody req extraBody remaining => inr (completeBody req extraBody (more remaining))
  | Ready req => inr req
  end.

(** ** Helpers of the handlers *)

Definition routePath (p : string) : string :=
  match str_find "?" p with Some q => str_take q p | None => p end.

Fixpoint findParam (pairs : list string) (key : string) : string :=
  match pairs with
  | [] => ""
  | kv :: pairs =>
      match str_find "=" kv with
      | None => findParam pairs key
      | Some eq => if String.eqb (str_take eq kv) key then str_drop (S eq) kv
                   else findParam pairs key
      end
  end.

Definition queryParam (p key : string) : string :=
  match str_find "?" p with
  | None => ""
  | Some q => if Nat.leb (String.length p) (q + 1) then ""
              else findParam (getlines "&" (str_drop (q + 1) p)) key
  end.

Definition isLikelyHex (value : string) : bool :=
  if str_empty value then false else str_forallb is_xdigit value.

(** The two loops of [trim]. *)
Fixpoint trim_end (s : string) : string :=
  match s with
  | EmptyString => EmptyString
  | String c s =>
      match trim_end s with
      | EmptyString => if is_space c then EmptyString else String c EmptyString
      | t => String c t
      end
  end.
Definition trim (value : string) : string := trim_end (skip_spaces value).

Definition toLower (value : string) : string := str_map tolower value.

Definition isValidPrivateKey (privateKey : string) : bool := isValidPrivateKeyHex privateKey.
Definition isValidAddress (address : string) : bool := isValidWalletAddress address.

(** ** Lemmas *)

(** Text of one line: no carriage return and no line feed. *)
Definition plain_char (c : ascii) : bool := negb (Ascii.eqb c CR) && negb (Ascii.eqb c LF).
Abbreviation plain := (str_forallb plain_char).

(** Lines, each with its line end. *)
Definition header_text (lines : list string) : string :=
  foldr (fun l t => l +:+ crlf +:+ t) EmptyString lines.

Definition header_line (key val : string) : string := key +:+ ": " +:+ val.

Abbreviation blank := (crlf +:+ crlf).

Lemma blank_step c s : Ascii.eqb c CR = false -> find_sub blank (String c s) = S <$> find_sub blank s.
Proof.
  intros Hc. destruct c as [[] [] [] [] [] [] [] []]; first [reflexivity | vm_compute in Hc; discriminate Hc].
Qed.

Lemma blank_skip l x :
  plain l = true ->
  find_sub blank (l +:+ x) = Nat.add (String.length l) <$> find_sub blank x.
Proof.
  induction l as [|c l IH]; [cbn [String.append String.length]; by destruct (find_sub blank x)|].
  cbn [str_forallb]. intros [Hc Hl]%andb_prop. apply andb_prop in Hc as [Hc _].
  apply negb_true_iff in Hc. cbn [String.append]. rewrite blank_step, IH by done.
  by destruct (find_sub blank x).
Qed.

Lemma blank_not_here c t :
  Ascii.eqb c CR = false ->
  find_sub blank (crlf +:+ String c t) = Nat.add 2 <$> find_sub blank (String c t).
Proof.
  intros Hc. assert (Hp : str_prefix blank (crlf +:+ String c t) = false).
  { destruct c as [[] [] [] [] [] [] [] []]; first [reflexivity | vm_compute in Hc; discriminate Hc]. }
  change (crlf +:+ String c t) with (String CR (String LF (String c t))) in *.
  cbn [find_sub]. fold (find_sub blank). rewrite Hp.
  change (S <$> find_sub blank (String LF (String c t)) = Nat.add 2 <$> find_sub blank (String c t)).
  rewrite blank_step by done. by destruct (find_sub blank (String c t)).
Qed.

(** The blank line is found after the last header line. *)
Lemma find_blank lines rest :
  lines <> [] -> Forall (fun l => plain l = true /\ l <> EmptyString) lines ->
  find_sub blank (header_text lines +:+ crlf +:+ rest) =
  Some (String.length (header_text lines) - 2)%nat.
Proof.
  induction lines as [|l lines IH]; [done|]. intros _ [[Hl Hne] Hls]%Forall_cons.
  cbn [header_text foldr]. fold (header_text lines). rewrite !str_app_assoc, blank_skip by done.
  rewrite !str_length_app. change (String.length crlf) with 2%nat.
  destruct lines as [|l' lines].
  - cbn. f_equal. lia.
  - pose proof Hls as [[Hl' Hne'] _]%Forall_cons.
    assert (H2 : find_sub blank (crlf +:+ header_text (l' :: lines) +:+ crlf +:+ rest) =
                 Nat.add 2 <$> find_sub blank (header_text (l' :: lines) +:+ crlf +:+ rest)).
    { cbn [header_text foldr]. destruct l' as [|c l']; [done|].
      cbn [str_forallb] in Hl'. apply andb_prop in Hl' as [Hc _]. apply andb_prop in Hc as [Hc _].
      apply negb_true_iff in Hc. by apply blank_not_here. }
    rewrite H2, IH by done. cbn [fmap option_fmap option_map]. f_equal.
    cbn [header_text foldr]. rewrite !str_length_app. change (String.length crlf) with 2%nat. lia.
Qed.

(** Splitting at line feeds and dropping the carriage return gives the lines. *)
Lemma str_split_line cur l s :
  plain l = true ->
  str_split LF cur (l +:+ crlf +:+ s) = (cur +:+ l +:+ String CR EmptyString) :: str_split LF EmptyString s.
Proof.
  revert cur. induction l as [|c l IH]; intros cur.
  - intros _. cbn [String.append crlf str_split]. reflexivity.
  - cbn [str_forallb]. intros [Hc Hl]%andb_prop. apply andb_prop in Hc as [_ Hc].
    apply negb_true_iff in Hc. cbn [String.append str_split]. rewrite Hc, IH by done.
    by rewrite str_app_assoc.
Qed.

Lemma getlines_header lines :
  Forall (fun l => plain l = true) lines ->
  getlines LF (header_text lines +:+ crlf) =
  map (fun l => l +:+ String CR EmptyString) lines ++ [String CR EmptyString].
Proof.
  unfold getlines. induction 1 as [|l lines Hl _ IH]; [done|].
  cbn [header_text foldr map app]. rewrite !str_app_assoc, str_split_line by done. by rewrite <- IH.
Qed.

Lemma strip_cr_app l : strip_cr (l +:+ String CR EmptyString) = l.
Proof.
  induction l as [|c l IH]; [done|]. cbn [String.append strip_cr]. rewrite IH.
  destruct l; reflexivity.
Qed.

Lemma str_find_app_none c a b :
  str_forallb (fun d => negb (Ascii.eqb d c)) a = true ->
  str_find c (a +:+ String c b) = Some (String.length a).
Proof.
  induction a as [|d a IH]; cbn [str_forallb String.append str_find]; [by rewrite Ascii.eqb_refl|].
  intros [Hd Ha]%andb_prop. apply negb_true_iff in Hd. by rewrite Hd, IH.
Qed.

(** A name without a colon, and a value that does not start with a blank. *)
Definition header_ok (key val : string) : bool :=
  str_forallb (fun d => negb (Ascii.eqb d ":")) key && plain key && plain val &&
  match val with String c _ => negb (Ascii.eqb c " ") | EmptyString => true end.

Lemma header_ok_line key val :
  header_ok key val = true -> plain (header_line key val) = true /\ header_line key val <> EmptyString.
Proof.
  unfold header_ok, header_line. intros H. bool_to_prop. rewrite !str_forallb_app.
  split; [by apply andb_true_intro; split; [|apply andb_true_intro]|by destruct key].
Qed.

Lemma parseHeaders_step key val lines hs :
  header_ok key val = true ->
  parseHeaders ((header_line key val +:+ String CR EmptyString) :: lines) hs =
  parseHeaders lines (<[str_map tolower key := val]> hs).
Proof.
  intros Hok. pose proof (header_ok_line key val Hok) as [_ Hne]. cbn [parseHeaders].
  rewrite strip_cr_app, (proj2 (str_empty_false _) Hne). unfold header_ok in Hok. bool_to_prop.
  unfold header_line. change (": " +:+ val) with (String ":" (String " " val)).
  rewrite str_find_app_none by done. rewrite str_take_app by done. f_equal. f_equal.
  assert (Hd : forall n s, str_drop (S n) s = str_drop 1 (str_drop n s)).
  { induction n as [|n IH]; intros [|c s]; try done. exact (IH s). }
  rewrite Hd, str_drop_app by done. change (skip_blanks val = val).
  destruct val as [|c v]; [done|]. cbn [skip_blanks].
  bool_to_prop. match goal with H : Ascii.eqb c " " = false |- _ => by rewrite H end.
Qed.

Lemma parseHeaders_all kvs hs :
  Forall (fun kv => header_ok kv.1 kv.2 = true) kvs ->
  parseHeaders (map (fun l => l +:+ String CR EmptyString) (map (fun kv => header_line kv.1 kv.2) kvs)
                ++ [String CR EmptyString]) hs =
  foldl (fun m kv => <[str_map tolower kv.1 := kv.2]> m) hs kvs.
Proof.
  intros H. revert hs. induction H as [|kv kvs Hkv _ IH]; intros hs; [done|].
  cbn [map app foldl]. by rewrite parseHeaders_step, IH.
Qed.

(** A header block: what is searched, cut and parsed. *)
Lemma header_block first kvs rest :
  plain first = true -> first <> EmptyString ->
  Forall (fun kv => header_ok kv.1 kv.2 = true) kvs ->
  let lines := first :: map (fun kv => header_line kv.1 kv.2) kvs in
  let raw := header_text lines +:+ crlf +:+ rest in
  let k := (String.length (header_text lines) - 2)%nat in
  find_sub blank raw = Some k /\
  str_take (k + 4) raw = header_text lines +:+ crlf /\ str_drop (k + 4) raw = rest /\
  parseRequest (header_text lines +:+ crlf) =
    let req := parseRequestLine (first +:+ String CR EmptyString) emptyRequest in
    mkRequest (method req) (path req)
      (foldl (fun m kv => <[str_map tolower kv.1 := kv.2]> m) ∅ kvs) (body req).
Proof.
  intros Hp Hne Hkvs lines raw k.
  assert (Hlines : Forall (fun l => plain l = true /\ l <> EmptyString) lines).
  { constructor; [done|]. apply Forall_map. eapply Forall_impl; [exact Hkvs|].
    intros kv Hkv. by apply header_ok_line. }
  assert (Hlen : (2 <= String.length (header_text lines))%nat).
  { unfold lines. cbn [header_text foldr]. rewrite !str_length_app.
    change (String.length crlf) with 2%nat. lia. }
  assert (Hk : (k + 4)%nat = String.length (header_text lines +:+ crlf)).
  { rewrite str_length_app. change (String.length crlf) with 2%nat. unfold k. lia. }
  split_and!.
  - by apply find_blank.
  - unfold raw. rewrite <- str_app_assoc. by apply str_take_app.
  - unfold raw. rewrite <- str_app_assoc. by apply str_drop_app.
  - unfold parseRequest. rewrite getlines_header.
    2: { eapply Forall_impl; [exact Hlines|]. by intros l []. }
    unfold lines. cbn [map app].
    assert (He : headers (parseRequestLine (first +:+ String CR EmptyString) emptyRequest) = ∅).
    { unfold parseRequestLine. by repeat case_match. }
    by rewrite He, parseHeaders_all.
Qed.

Lemma parseRequestLine_print m p rest :
  str_forallb (fun d => negb (Ascii.eqb d " ")) m = true ->
  str_forallb (fun d => negb (Ascii.eqb d " ")) p = true ->
  parseRequestLine ((m +:+ " " +:+ p +:+ " " +:+ rest) +:+ String CR EmptyString) emptyRequest =
  mkRequest m p ∅ "".
Proof.
  intros Hm Hp. unfold parseRequestLine. rewrite strip_cr_app.
  change (m +:+ " " +:+ p +:+ " " +:+ rest) with (m +:+ String " " (p +:+ String " " rest)).
  rewrite str_find_app_none by done. unfold find_from.
  assert (Hd : str_drop (S (String.length m)) (m +:+ String " " (p +:+ String " " rest)) =
               p +:+ String " " rest).
  { clear. induction m as [|c m IH]; [done|]. exact IH. }
  by rewrite Hd, str_find_app_none, !str_take_app.
Qed.

(** A request as a client writes it. *)
Definition requestText (m p : string) (kvs : list (string * string)) (b : string) : string :=
  header_text ((m +:+ " " +:+ p +:+ " " +:+ "HTTP/1.1") :: map (fun kv => header_line kv.1 kv.2) kvs)
  +:+ crlf +:+ b.

Definition token (s : string) : bool := plain s && str_forallb (fun d => negb (Ascii.eqb d " ")) s.

Definition field_map (kvs : list (string * string)) : gmap string string :=
  foldl (fun m kv => <[str_map tolower kv.1 := kv.2]> m) ∅ kvs.

Lemma stoul_nonneg s z : stoul s = Ok z -> 0 <= z.
Proof.
  unfold stoul. destruct (read_int s) as [x|]; [|done]. destruct (Z.abs x <? 2 ^ 64); [|done].
  intros [= <-]. by apply wrapu_range.
Qed.

Lemma stoul_to_string n : Z.of_nat n < two64 -> stoul (to_string (Z.of_nat n)) = Ok (Z.of_nat n).
Proof.
  unfold two64. intros Hn. unfold stoul. rewrite read_int_to_string by lia.
  rewrite Z.abs_eq by lia. rewrite (proj2 (Z.ltb_lt _ _)) by done. f_equal.
  apply wrapu_small. unfold in_u. lia.
Qed.

Lemma digit_plain s : str_forallb is_digit s = true -> plain s = true.
Proof.
  apply str_forallb_impl. intros c. unfold is_digit, plain_char.
  intros Hc. apply andb_true_intro. split; apply negb_true_iff, Ascii.eqb_neq; intros ->; discriminate Hc.
Qed.

(** What is parsed from the text of a request. *)
Lemma planRequest_text m p kvs b :
  token m = true -> token p = true -> Forall (fun kv => header_ok kv.1 kv.2 = true) kvs ->
  exists k, find_sub blank (requestText m p kvs b) = Some k /\
    parseRequest (str_take (k + 4) (requestText m p kvs b)) = mkRequest m p (field_map kvs) "" /\
    str_drop (k + 4) (requestText m p kvs b) = b.
Proof.
  unfold token. intros [Hm Hm']%andb_prop [Hp Hp']%andb_prop Hkvs.
  destruct (header_block (m +:+ " " +:+ p +:+ " " +:+ "HTTP/1.1") kvs b) as (H1 & H2 & H3 & H4); [|by destruct m|done|].
  { by rewrite !str_forallb_app, Hm, Hp. }
  eexists. split_and!; [exact H1| |exact H3]. unfold requestText. rewrite H2, H4.
  by rewrite parseRequestLine_print.
Qed.

(** C36: however the bytes of a request's body are divided between the read of
    the header and the second read, the request handled is the one the client
    wrote: its method, its path, its fields under lower-case names and its
    whole body. *)
Theorem request_delivered (m p : string) (kvs : list (string * string)) (b1 b2 : string) :
  token m = true -> token p = true ->
  Forall (fun kv => header_ok kv.1 kv.2 = true) kvs ->
  field_map kvs !! "content-length" = Some (to_string (Z.of_nat (String.length (b1 +:+ b2)))) ->
  Z.of_nat (String.length (b1 +:+ b2)) <= MAX_BODY_SIZE ->
  exists pl, planRequest (requestText m p kvs b1) = Some pl /\
    requestOf pl (fun n => if Nat.eqb n (String.length b2) then Some b2 else None) =
    inr (mkRequest m p (field_map kvs) (b1 +:+ b2)).
Proof.
  intros Hm Hp Hkvs Hcl Hmax.
  destruct (planRequest_text m p kvs b1 Hm Hp Hkvs) as (k & H1 & H2 & H3).
  unfold planRequest. rewrite H1. cbn [mbind option_bind]. eexists. split; [reflexivity|].
  rewrite H2, H3. cbn [headers]. rewrite Hcl, stoul_to_string by (unfold MAX_BODY_SIZE, two64 in *; lia).
  rewrite (proj2 (Z.ltb_ge _ _)) by done. rewrite Nat2Z.id, str_length_app.
  destruct (Nat.ltb_spec (String.length b1) (String.length b1 + String.length b2)) as [Hlt|Hge].
  - replace (String.length b1 + String.length b2 - String.length b1)%nat with (String.length b2) by lia.
    rewrite (proj2 (Nat.ltb_lt _ _)) by lia. cbn [requestOf]. by rewrite Nat.eqb_refl.
  - cbn [Nat.ltb Nat.leb requestOf]. destruct b2; cbn [String.length] in Hge; [|lia].
    rewrite str_app_nil_r. unfold with_body. cbn. by rewrite str_take_all by lia.
Qed.

(** C37: the body a handler is given is never longer than one mebibyte. It is empty
    when no length was announced. When one was, it is the first bytes read past the
    blank line, cut at that length, if there are enough of them; if not, it is all
    of them followed by the missing ones, which a second read delivers; only when
    that read fails is it empty. *)
Theorem request_body_exact (raw : string) (pl : plan) (more : nat -> option string) (req : HttpRequest) :
  planRequest raw = Some pl -> requestOf pl more = inr req ->
  (forall n s, more n = Some s -> String.length s = n) ->
  Z.of_nat (String.length (body req)) <= MAX_BODY_SIZE /\
  exists k, find_sub blank raw = Some k /\
    let extra := str_drop (k + 4) raw in
    match headers req !! "content-length" with
    | None => body req = ""
    | Some cl =>
        exists len, stoul cl = Ok (Z.of_nat len) /\
          (((len <= String.length extra)%nat /\ body req = str_take len extra /\ String.length (body req) = len) \/
           ((String.length extra < len)%nat /\
            match more (len - String.length extra)%nat with
            | Some rest => body req = extra +:+ rest /\ String.length (body req) = len
            | None => body req = ""
            end))
    end.
Proof.
  intros Hpl Hreq Hmore. unfold planRequest in Hpl.
  destruct (find_sub blank raw) as [k|]; [|done]. cbn [mbind option_bind] in Hpl. injection Hpl as <-.
  set (rq := parseRequest (str_take (k + 4) raw)) in *. set (extra := str_drop (k + 4) raw) in *.
  assert (Hb : body rq = "").
  { unfold rq, parseRequest, parseRequestLine. by repeat case_match. }
  destruct (headers rq !! "content-length") as [cl|] eqn:Ecl.
  2: { injection Hreq as <-. rewrite Hb. split; [done|]. exists k. split; [done|]. cbv zeta. by rewrite Ecl. }
  destruct (stoul cl) as [z|e] eqn:Elen; [|done].
  destruct (Z.ltb_spec MAX_BODY_SIZE z) as [|Hle]; [done|]. apply stoul_nonneg in Elen as Hpos.
  set (len := Z.to_nat z) in *. assert (Hz : Z.of_nat len = z) by lia.
  destruct (Nat.ltb_spec (String.length extra) len) as [Hlt|Hge]; revert Hreq.
  - rewrite (proj2 (Nat.ltb_lt _ _)) by lia. cbn [requestOf]. intros [= <-].
    destruct (more (len - String.length extra)%nat) as [rest|] eqn:Em; cbn [completeBody].
    + assert (Hl : String.length (extra +:+ rest) = len) by (rewrite str_length_app, (Hmore _ _ Em); lia).
      change (body (with_body (extra +:+ rest) rq)) with (extra +:+ rest). split; [lia|]. exists k. split; [done|].
      cbn [with_body headers]. rewrite Ecl. exists len. fold extra. rewrite Hz, Em. split; [done|]. by right.
    + rewrite Hb. split; [done|]. exists k. split; [done|]. cbv zeta. fold extra. rewrite Ecl. exists len.
      rewrite Hz, Em. split; [done|]. by right.
  - cbn [Nat.ltb Nat.leb requestOf]. intros [= <-].
    assert (Hl : String.length (str_take len extra) = len) by (rewrite str_length_take; lia).
    change (body (with_body (str_take len extra) rq)) with (str_take len extra). split; [lia|]. exists k. split; [done|].
    cbn [with_body headers]. rewrite Ecl. exists len. fold extra. rewrite Hz. split; [done|]. by left.
Qed.

(** A client that looks for the first blank line of a response finds its
    body after it, and the length announced in the header is the length of that
    body. *)
Lemma response_framing (r : HttpResponse) :
  0 <= statusCode r -> plain (statusText r) = true -> header_ok "Content-Type" (contentType r) = true ->
  Z.of_nat (String.length (respBody r)) < two64 ->
  exists k, find_sub blank (serializeResponse r) = Some k /\
    str_drop (k + 4) (serializeResponse r) = respBody r /\
    exists cl, headers (parseRequest (str_take (k + 4) (serializeResponse r))) !! "content-length" = Some cl /\
      stoul cl = Ok (Z.of_nat (String.length (respBody r))).
Proof.
  intros Hcode Htext Htype Hlen.
  set (first := "HTTP/1.1 " +:+ to_string (statusCode r) +:+ " " +:+ statusText r).
  set (len := to_string (Z.of_nat (String.length (respBody r)))).
  set (kvs := [("Content-Type", contentType r); ("Content-Length", len);
    ("Access-Control-Allow-Origin", "*"); ("Access-Control-Allow-Methods", "GET, POST, OPTIONS");
    ("Access-Control-Allow-Headers", "Content-Type"); ("Connection", "close")]).
  assert (Hs : serializeResponse r =
    header_text (first :: map (fun kv => header_line kv.1 kv.2) kvs) +:+ crlf +:+ respBody r).
  { unfold serializeResponse, first, kvs, header_line. cbn [map fst snd header_text foldr].
    rewrite !str_app_assoc. reflexivity. }
  assert (Hdig : str_forallb is_digit len = true) by (apply to_string_digits; lia).
  destruct (header_block first kvs (respBody r)) as (H1 & H2 & H3 & H4).
  - unfold first. rewrite !str_forallb_app, Htext. rewrite (digit_plain (to_string _)); [done|].
    by apply to_string_digits.
  - done.
  - unfold kvs. repeat constructor; cbn [fst snd]; try (vm_compute; reflexivity); [done|].
    unfold header_ok. rewrite (digit_plain len Hdig).
    destruct len as [|c l]; [done|]. cbn [str_forallb] in Hdig. apply andb_prop in Hdig as [Hc _].
    rewrite (proj2 (Ascii.eqb_neq c " ")); [done|]. intros ->. discriminate Hc.
  - rewrite Hs. eexists. split_and!; [exact H1|exact H3|]. rewrite H2, H4. exists len. split.
    + unfold kvs. cbn [foldl fst snd headers]. by simpl_map.
    + by apply stoul_to_string.
Qed.

(** ** Witnesses *)

Definition sampleFields : list (string * string) := [("Host", "localhost:8001"); ("Content-Length", "4")].

Lemma request_delivered_witness :
  exists pl, planRequest (requestText "POST" "/mine" sampleFields "{ ") = Some pl /\
    requestOf pl (fun n => if Nat.eqb n 2 then Some " }" else None) =
    inr (mkRequest "POST" "/mine" (field_map sampleFields) "{  }").
Proof.
  refine (request_delivered "POST" "/mine" sampleFields "{ " " }" _ _ _ _ _);
    [reflexivity|reflexivity|repeat constructor|reflexivity|vm_compute; discriminate].
Defined.

Lemma request_body_exact_witness :
  exists k, find_sub blank (requestText "POST" "/mine" sampleFields "{ ") = Some k /\
    exists len, stoul "4" = Ok (Z.of_nat len) /\
      (((len <= 2)%nat /\ "{  }" = str_take len "{ " /\ String.length "{  }" = len) \/
       ((2 < len)%nat /\
        match (if Nat.eqb (len - 2) 2 then Some " }" else None) with
        | Some rest => "{  }" = "{ " +:+ rest /\ String.length "{  }" = len
        | None => "{  }" = ""
        end)).
Proof.
  destruct (request_body_exact (requestText "POST" "/mine" sampleFields "{ ")
            (NeedBody (mkRequest "POST" "/mine" (field_map sampleFields) "") "{ " 2)
            (fun n => if Nat.eqb n 2 then Some " }" else None)
            (mkRequest "POST" "/mine" (field_map sampleFields) "{  }")) as (_ & k & Hk & H); [reflexivity|reflexivity| |].
  - intros n s. destruct (Nat.eqb_spec n 2) as [->|]; [|discriminate]. by intros [= <-].
  - exists k. split; [exact Hk|]. vm_compute in Hk. injection Hk as <-. exact H.
Defined.

Lemma response_framing_witness :
  let r := statusResponse 404 "Not Found" (errorText "Endpoint not found") in
  exists k, find_sub blank (serializeResponse r) = Some k /\
    str_drop (k + 4) (serializeResponse r) = respBody r /\
    exists cl, headers (parseRequest (str_take (k + 4) (serializeResponse r))) !! "content-length" = Some cl /\
      stoul cl = Ok (Z.of_nat (String.length (respBody r))).
Proof.
  refine (response_framing (statusResponse 404 "Not Found" (errorText "Endpoint not found")) _ _ _ _);
    [vm_compute; discriminate|reflexivity|reflexivity|vm_compute; reflexivity].
Defined.
