(* ===== verification/Texts.v ===== *)
(** * Texts: what exceptions say, and which values print

    The exceptions of the program's functions have ASCII texts, except the errors
    of the JSON parser, which quote their input: so what a handler answers about
    an exception can be printed. [leaves] bounds what a storage program returns,
    whatever the disk answers. *)

From S2P Require Import Prelude StdTime Json Crypto Transaction Block State Consensus Storage Blockchain Wallet HttpText.
#[local] Open Scope Z_scope.

(** ** Exceptions *)

(** Every exception of [r] has an ASCII text. *)
Definition ascii_throws {A} (r : result A) : Prop := forall e, r = Throw e -> is_ascii (what e) = true.

Create HintDb texts discriminated.

Lemma ascii_ok {A} (a : A) : ascii_throws (Ok a).
Proof. done. Qed.

Lemma ascii_throw {A} e : is_ascii (what e) = true -> @ascii_throws A (Throw e).
Proof. by intros H e' [= <-]. Qed.

Lemma ascii_bind {A B} (r : result A) (f : A -> result B) :
  ascii_throws r -> (forall a, ascii_throws (f a)) -> ascii_throws (let! a := r in f a).
Proof. intros Hr Hf e. destruct r as [a|e']; cbn [rbind]; [apply Hf|]. intros [= <-]. by apply Hr. Qed.

Lemma ascii_rmap {A B} (f : A -> result B) l : (forall a, ascii_throws (f a)) -> ascii_throws (rmap f l).
Proof.
  intros Hf. induction l as [|x l IH]; [done|]. cbn [rmap]. apply ascii_bind; [done|]. intros y.
  by apply ascii_bind.
Qed.

Ltac ascii_step :=
  lazymatch goal with
  | |- ascii_throws (Ok _) => apply ascii_ok
  | |- ascii_throws (Throw _) => apply ascii_throw; reflexivity
  | |- ascii_throws (rbind _ _) => apply ascii_bind; [|intros ?]
  | |- ascii_throws (rmap _ _) => apply ascii_rmap; intros ?
  | |- ascii_throws (match ?x with _ => _ end) => destruct x
  end.
Ltac ascii_solve := repeat (ascii_step || solve [auto with texts]).

Section throwing.
Context `{OS : OpenSSL}.

Lemma ascii_type_error {A} id text : is_ascii text = true -> ascii_throws (@type_error A id text).
Proof.
  intros H. apply ascii_throw. cbn [what]. rewrite is_ascii_app, H, andb_true_r. unfold exception_name.
  by rewrite !is_ascii_app, to_string_ascii.
Qed.

Lemma type_name_ascii j : is_ascii (type_name j) = true.
Proof. by destruct j. Qed.

Lemma ascii_type_must_be {A} ty j : is_ascii ty = true -> ascii_throws (@type_must_be A ty j).
Proof. intros H. apply ascii_type_error. by rewrite !is_ascii_app, H, type_name_ascii. Qed.

Lemma ascii_jvalue {A} (get : json -> result A) key def j :
  (forall v, ascii_throws (get v)) -> ascii_throws (jvalue get key def j).
Proof.
  intros Hg. unfold jvalue. destruct j; try (apply ascii_type_error; reflexivity). by destruct (obj_find key m).
Qed.

Lemma ascii_value_string key def j : ascii_throws (value_string key def j).
Proof. apply ascii_jvalue. intros []; try (by apply ascii_type_must_be). done. Qed.

Lemma ascii_value_u64 key def j : ascii_throws (value_u64 key def j).
Proof. apply ascii_jvalue. intros []; try (by apply ascii_type_must_be); done. Qed.

Lemma ascii_value_u32 key def j : ascii_throws (value_u32 key def j).
Proof. apply ascii_jvalue. intros []; try (by apply ascii_type_must_be); done. Qed.
#[local] Hint Resolve ascii_value_string ascii_value_u64 ascii_value_u32 : texts.

Lemma ascii_txFromJson j : ascii_throws (txFromJson j).
Proof. unfold txFromJson. ascii_solve. Qed.
#[local] Hint Resolve ascii_txFromJson : texts.

Lemma ascii_blockFromJson j : ascii_throws (blockFromJson j).
Proof. unfold blockFromJson. ascii_solve. Qed.

Lemma ascii_generateKeyPair e : ascii_throws (generateKeyPair e).
Proof. unfold generateKeyPair. ascii_solve. Qed.
#[local] Hint Resolve ascii_generateKeyPair : texts.

Lemma ascii_walletFromKey k : ascii_throws (walletFromKey k).
Proof. unfold walletFromKey. ascii_solve. Qed.
#[local] Hint Resolve ascii_walletFromKey : texts.

Lemma ascii_createWallet e : ascii_throws (createWallet e).
Proof. unfold createWallet, newWallet. ascii_solve. Qed.

Lemma ascii_importWallet k : ascii_throws (importWallet k).
Proof. unfold importWallet. ascii_solve. Qed.

Lemma ascii_keyLogin now k : ascii_throws (verifyPrivateKeyLogin now k).
Proof. unfold verifyPrivateKeyLogin. ascii_solve. Qed.

Lemma ascii_challenge r1 r2 t1 t2 a pk store r store' :
  createLoginChallenge r1 r2 t1 t2 a pk store = (r, store') -> ascii_throws r.
Proof.
  unfold createLoginChallenge. case_if; intros [= <- _]; [by apply ascii_throw|done].
Qed.

Lemma ascii_dump `{JTS : JsonTextSpec} indent j : ascii_throws (json_dump indent j).
Proof. intros e. apply dump_raises. Qed.
End throwing.

#[export] Hint Resolve ascii_value_string ascii_value_u64 ascii_txFromJson ascii_blockFromJson ascii_createWallet
  ascii_importWallet ascii_keyLogin ascii_dump : texts.
#[export] Hint Extern 1 (ascii_throws _) => eapply ascii_challenge; eassumption : texts.

(** ** Storage programs *)

(** Whatever the disk answers, a value returned satisfies [Q]. *)
Inductive leaves {A} (Q : A -> Prop) : prog A -> Prop :=
| leaves_ret a : Q a -> leaves Q (Ret a)
| leaves_op o k : (forall r, leaves Q (k r)) -> leaves Q (Op o k).

Lemma exec_leaves {A} (Q : A -> Prop) (m : prog A) : leaves Q m ->
  forall evs fs a fs' evs', exec m evs fs = (Some a, fs', evs') -> Q a.
Proof.
  induction 1 as [a Ha|o k _ IH]; intros evs fs a' fs' evs'; cbn [exec]; [by intros [= <- _ _]|].
  destruct evs as [|[|n|n] evs]; [destruct (perform o fs)|destruct (perform o fs)| |done]; apply IH.
Qed.

Lemma leaves_pbind {A B} (Q : A -> Prop) (Q' : B -> Prop) (m : prog A) (f : A -> prog B) :
  leaves Q m -> (forall a, Q a -> leaves Q' (f a)) -> leaves Q' (pbind m f).
Proof. intros Hm Hf. induction Hm as [a Ha|o k _ IH]; cbn [pbind]; [by apply Hf|]. by constructor. Qed.

Lemma leaves_all {A} (Q : A -> Prop) (m : prog A) : (forall a, Q a) -> leaves Q m.
Proof. intros HQ. induction m as [a|o k IH]; by constructor. Qed.

Section storing.
Context `{OS : OpenSSL} `{JT : JsonText} {JTS : JsonTextSpec JT}.

Lemma leaves_readFile f : leaves ascii_throws (readFile f).
Proof.
  unfold readFile. constructor; intros r. case_if; [constructor; by apply ascii_throw|].
  case_if; [by constructor|]. constructor; intros r'. by constructor.
Qed.

Lemma leaves_writeDump f indent j : leaves ascii_throws (writeDump f (json_dump indent j)).
Proof.
  unfold writeDump. destruct (json_dump indent j) as [text|e] eqn:E.
  - apply (leaves_pbind (fun _ => True)); [by apply leaves_all|]. intros ok _. by constructor.
  - constructor. apply ascii_throw. by eapply ascii_dump.
Qed.

Lemma leaves_appendBlock d b : leaves ascii_throws (appendBlock d b).
Proof.
  unfold appendBlock. apply (leaves_pbind ascii_throws); [apply leaves_readFile|]. intros [raw|e] Hr.
  2: { constructor. apply ascii_throw. by apply Hr. }
  destruct (appendBase raw) as [l|]; [|by constructor]. cbv zeta.
  destruct (match last l with None => Ok true | Some back => _ end) as [[]|e] eqn:E; [|by constructor|].
  - apply leaves_writeDump.
  - constructor. apply ascii_throw. revert e E. destruct (last l) as [back|]; [|done].
    change (ascii_throws (let! tip := blockFromJson back in
      Ok (negb (negb (index b =? u64 (index tip + 1)) || negb (String.eqb (previousHash b) (hash tip)))))).
    ascii_solve.
Qed.

Lemma leaves_persistBlock b bc : leaves ascii_throws (persistBlock b bc).
Proof.
  unfold persistBlock. destruct (storage_ bc) as [d|]; [|by constructor].
  apply (leaves_pbind ascii_throws); [apply leaves_appendBlock|]. intros r Hr. constructor. ascii_solve.
Qed.

(** Mining returns the block, or an exception with an ASCII text. *)
Lemma leaves_mining fuel t1 t2 miner bc p :
  minePendingTransactions fuel t1 t2 miner bc = Some p -> leaves (fun o => ascii_throws o.2) p.
Proof.
  unfold minePendingTransactions. intros H. apply bind_Some in H as (b & _ & [= <-]).
  apply (leaves_pbind ascii_throws); [apply leaves_persistBlock|]. intros [u|e] Hr; constructor; [done|].
  apply ascii_throw. by apply Hr.
Qed.
End storing.

(** ** UTF-8 *)

Lemma str_forallb_ascii p s :
  (forall c, p c = true -> is_ascii_char c = true) -> str_forallb p s = true -> utf8 s = true.
Proof.
  intros Hp H. apply ascii_utf8. unfold is_ascii. induction s as [|c s IH]; [done|]. cbn [str_forallb] in *.
  apply andb_prop in H as [Hc Hs]. by rewrite (Hp c Hc), IH.
Qed.

Lemma xdigit_ascii c : is_xdigit c = true -> is_ascii_char c = true.
Proof. destruct c as [[] [] [] [] [] [] [] []]; done. Qed.

Lemma sha256_utf8 `{OSS : OpenSSLSpec} s : utf8 (sha256 s) = true.
Proof.
  apply (str_forallb_ascii is_lower_xdigit); [|apply sha256_lower]. intros c Hc. apply xdigit_ascii.
  by apply andb_prop in Hc as [? _].
Qed.

Lemma pad2_ascii z : is_ascii (pad2 z) = true.
Proof.
  unfold pad2, is_ascii. cbn [str_forallb]. unfold is_ascii_char.
  pose proof (Z.mod_pos_bound (z / 10) 10 ltac:(lia)). pose proof (Z.mod_pos_bound z 10 ltac:(lia)).
  rewrite !code_chr by (unfold in_u; lia). lia.
Qed.

Lemma currentTimestamp_utf8 now : utf8 (currentTimestamp now) = true.
Proof.
  apply ascii_utf8. unfold currentTimestamp, iso_now, put_time, pad4. by rewrite !is_ascii_app, !pad2_ascii.
Qed.

(** A wallet address is ASCII. *)
Lemma address_utf8 a : isValidAddress a = true -> utf8 a = true.
Proof.
  unfold isValidAddress, isValidWalletAddress. intros [[H1%String.eqb_eq _]%andb_prop H2]%andb_prop.
  rewrite <- (str_take_drop 4 a), H1. rewrite utf8_app by done.
  by apply (str_forallb_ascii is_xdigit); [apply xdigit_ascii|].
Qed.

(** *** Values *)

Lemma obj_set_utf8 k v m :
  utf8 k = true -> json_utf8 v = true -> forallb (fun kv => utf8 kv.1 && json_utf8 kv.2) m = true ->
  forallb (fun kv => utf8 kv.1 && json_utf8 kv.2) (obj_set k v m) = true.
Proof.
  intros Hk Hv. induction m as [|[k' v'] m IH]; cbn [obj_set forallb fst snd]; [by rewrite Hk, Hv|].
  intros [H1 H2]%andb_prop. destruct (String.eqb k k'); cbn [forallb fst snd]; [by rewrite Hk, Hv|].
  destruct (str_lt k k'); cbn [forallb fst snd]; [by rewrite Hk, Hv, H1|]. by rewrite H1, IH.
Qed.

Lemma json_set_utf8 k v j :
  utf8 k = true -> json_utf8 v = true -> json_utf8 j = true -> json_utf8 (json_set k v j) = true.
Proof. intros Hk Hv Hj. destruct j; cbn [json_set json_utf8]; by apply obj_set_utf8. Qed.

Lemma json_object_utf8 l :
  forallb (fun kv => utf8 kv.1 && json_utf8 kv.2) l = true -> json_utf8 (json_object l) = true.
Proof.
  unfold json_object. cbn [json_utf8].
  assert (H : forall m, forallb (fun kv => utf8 kv.1 && json_utf8 kv.2) m = true ->
    forallb (fun kv => utf8 kv.1 && json_utf8 kv.2) l = true ->
    forallb (fun kv => utf8 kv.1 && json_utf8 kv.2)
      (fold_left (fun m kv => obj_set kv.1 kv.2 m) l m) = true); [|by apply H].
  induction l as [|[k v] l IH]; intros m Hm Hl; [done|]. cbn [fold_left forallb fst snd] in *.
  apply andb_prop in Hl as [[Hk Hv]%andb_prop Hl]. apply IH; [|done]. by apply obj_set_utf8.
Qed.

Lemma json_array_utf8 l : Forall (fun j => json_utf8 j = true) l -> json_utf8 (JArray l) = true.
Proof. intros H. cbn [json_utf8]. apply forallb_forall. intros j Hj. rewrite Forall_forall in H. apply H. by apply list_elem_of_In. Qed.

Lemma jvalue_utf8 key def j s :
  json_utf8 j = true -> utf8 def = true -> value_string key def j = Ok s -> utf8 s = true.
Proof.
  unfold value_string, jvalue. intros Hj Hd. destruct j as [| | | | | | |m]; try done.
  cbn [json_utf8] in Hj. revert Hj. induction m as [|[k v] m IH]; cbn [obj_find forallb fst snd].
  - by intros _ [= <-].
  - intros [[_ Hv]%andb_prop Hm]%andb_prop. destruct (String.eqb key k); [|by apply IH].
    destruct v; cbn [get_string]; try done. by intros [= <-].
Qed.

(** Transactions whose texts are UTF-8. *)
Definition tx_utf8 (tx : Transaction) : bool :=
  forallb utf8 [txID tx; senderPublicKey tx; receiverPublicKey tx; fromAddress tx; toAddress tx;
                payload tx; Transaction.timestamp tx; digitalSignature tx].

Lemma tx_utf8_make id spk rpk from to amt n pl ts sig :
  utf8 id = true -> utf8 spk = true -> utf8 rpk = true -> utf8 from = true -> utf8 to = true ->
  utf8 pl = true -> utf8 ts = true -> utf8 sig = true ->
  tx_utf8 (mkTx id spk rpk from to amt n pl ts sig) = true.
Proof.
  intros H1 H2 H3 H4 H5 H6 H7 H8. unfold tx_utf8. cbn [forallb txID senderPublicKey receiverPublicKey fromAddress toAddress
    Transaction.payload Transaction.timestamp digitalSignature].
  by rewrite H1, H2, H3, H4, H5, H6, H7, H8.
Qed.

Lemma txToJson_utf8 tx : tx_utf8 tx = true -> json_utf8 (txToJson tx) = true.
Proof.
  unfold tx_utf8. cbn [forallb]. rewrite !andb_true_iff. intros (H1 & H2 & H3 & H4 & H5 & H6 & H7 & H8 & _).
  apply json_object_utf8. cbn [forallb fst snd json_utf8]. by rewrite H1, H2, H3, H4, H5, H6, H7, H8.
Qed.
