(* ===== verification/Peer.v ===== *)
(** * Peer: src/src/network/message.cpp and src/src/network/peer.cpp

    Message framing, the receive loop of a connection, its bounded write queue
    and its rate limiter. The socket is outside the model: what it delivers is a
    byte string (an [async_read] waits for exactly the bytes it asks for), and
    the completion of a write is an event. The steady clock is in nanoseconds. *)

From S2P Require Import Prelude Json JsonNlohmann.
#[local] Open Scope Z_scope.

(** ** Message *)

Inductive MessageType : Type :=
| NEW_TRANSACTION | NEW_BLOCK | REQUEST_CHAIN | RESPONSE_CHAIN | PING | PONG | PEER_LIST
| REQUEST_PEERS | RESPONSE_PEERS | NODE_ANNOUNCE | REGISTER_NODE | REQUEST_BOOTSTRAP
| RESPONSE_BOOTSTRAP | UNKNOWN.

#[export] Instance MessageType_eq_dec : EqDecision MessageType.
Proof. solve_decision. Defined.

Record Message := mkMessage { type : MessageType; payload : json }.

Definition typeToString (t : MessageType) : string :=
  match t with
  | NEW_TRANSACTION => "NEW_TRANSACTION"
  | NEW_BLOCK => "NEW_BLOCK"
  | REQUEST_CHAIN => "REQUEST_CHAIN"
  | RESPONSE_CHAIN => "RESPONSE_CHAIN"
  | PING => "PING"
  | PONG => "PONG"
  | PEER_LIST => "PEER_LIST"
  | REQUEST_PEERS => "REQUEST_PEERS"
  | RESPONSE_PEERS => "RESPONSE_PEERS"
  | NODE_ANNOUNCE => "NODE_ANNOUNCE"
  | REGISTER_NODE => "REGISTER_NODE"
  | REQUEST_BOOTSTRAP => "REQUEST_BOOTSTRAP"
  | RESPONSE_BOOTSTRAP => "RESPONSE_BOOTSTRAP"
  | UNKNOWN => "UNKNOWN"
  end.

Definition stringToType (s : string) : MessageType :=
  if String.eqb s "NEW_TRANSACTION" then NEW_TRANSACTION
  else if String.eqb s "NEW_BLOCK" then NEW_BLOCK
  else if String.eqb s "REQUEST_CHAIN" then REQUEST_CHAIN
  else if String.eqb s "RESPONSE_CHAIN" then RESPONSE_CHAIN
  else if String.eqb s "PING" then PING
  else if String.eqb s "PONG" then PONG
  else if String.eqb s "PEER_LIST" then PEER_LIST
  else if String.eqb s "REQUEST_PEERS" then REQUEST_PEERS
  else if String.eqb s "RESPONSE_PEERS" then RESPONSE_PEERS
  else if String.eqb s "NODE_ANNOUNCE" then NODE_ANNOUNCE
  else if String.eqb s "REGISTER_NODE" then REGISTER_NODE
  else if String.eqb s "REQUEST_BOOTSTRAP" then REQUEST_BOOTSTRAP
  else if String.eqb s "RESPONSE_BOOTSTRAP" then RESPONSE_BOOTSTRAP
  else UNKNOWN.

Section message.
Context `{JT : JsonText}.

Definition messageJson (m : Message) : json :=
  json_set "payload" (payload m) (json_set "type" (JString (typeToString (type m))) JNull).

(** The four bytes of a 32-bit length, most significant first. *)
Definition header (len : Z) : string :=
  String (chr (Z.land (Z.shiftr len 24) 255))
    (String (chr (Z.land (Z.shiftr len 16) 255))
      (String (chr (Z.land (Z.shiftr len 8) 255))
        (String (chr (Z.land len 255)) EmptyString))).

Definition serialize (m : Message) : result string :=
  let! data := json_dump None (messageJson m) in
  Ok (header (u32 (Z.of_nat (String.length data))) +:+ data).

(** Anything that fails to parse is an [UNKNOWN] message. *)
Definition deserialize (data : string) : Message :=
  try_catch
    (let! j := json_parse data in
     let! t := value_string "type" "UNKNOWN" j in
     let! p := jvalue get_json "payload" (JObject []) j in
     Ok (mkMessage (stringToType t) p))
    (fun _ => mkMessage UNKNOWN (JObject [])).

(** ** Receiving *)

Definition max_body : Z := 10 * 1024 * 1024.

Definition bodyLength (c0 c1 c2 c3 : ascii) : Z :=
  Z.lor (Z.lor (Z.lor (Z.shiftl (code c0) 24) (Z.shiftl (code c1) 16)) (Z.shiftl (code c2) 8))
    (code c3).

(** Where the loop is when the delivered bytes are used up. *)
Inductive read_state : Type :=
| AwaitHeader (got : string)              (* fewer than 4 bytes so far *)
| AwaitBody (len : nat) (got : string)    (* fewer than len bytes so far *)
| Closed.                                 (* oversized frame: the connection was closed *)

(** [doReadHeader]/[doReadBody] on the bytes delivered: the messages handed to
    the handler and where the loop stops. Each frame uses at least 4 bytes, so
    the length of the bytes is enough fuel. *)
Fixpoint receive (fuel : nat) (bytes : string) : list Message * read_state :=
  match fuel, bytes with
  | S fuel, String c0 (String c1 (String c2 (String c3 rest))) =>
      let bodyLen := bodyLength c0 c1 c2 c3 in
      if max_body <? bodyLen then ([], Closed)
      else
        let len := Z.to_nat bodyLen in
        if Nat.ltb (String.length rest) len then ([], AwaitBody len rest)
        else
          let msg := deserialize (str_take len rest) in
          let '(msgs, st) := receive fuel (str_drop len rest) in
          (match type msg with UNKNOWN => msgs | _ => msg :: msgs end, st)
  | _, _ => ([], AwaitHeader bytes)
  end.

Definition receiveAll (bytes : string) : list Message * read_state :=
  receive (String.length bytes) bytes.

End message.

(** ** The write queue *)

Definition MAX_WRITE_QUEUE : nat := 1000.

Record WriteQueue := mkQueue { writeQueue_ : list string; writing_ : bool }.

Definition emptyQueue : WriteQueue := mkQueue [] false.

(** [doWrite] starts writing the front of the queue. *)
Definition doWrite (q : WriteQueue) : option string := head (writeQueue_ q).

(** [send] of serialized data: the queue, whether the data was queued, and the
    write it started. *)
Definition enqueue (data : string) (q : WriteQueue) : WriteQueue * bool * option string :=
  if Nat.leb MAX_WRITE_QUEUE (length (writeQueue_ q)) then (q, false, None)
  else
    let queue := writeQueue_ q ++ [data] in
    if negb (writing_ q) then
      let q := mkQueue queue true in (q, true, doWrite q)
    else (mkQueue queue (writing_ q), true, None).

Definition peerSend `{JT : JsonText} (m : Message) (q : WriteQueue)
    : result (WriteQueue * bool * option string) :=
  let! data := serialize m in Ok (enqueue data q).

(** The completion handler of a write: an error drops the queue, success starts
    the next write. *)
Definition onWriteError (q : WriteQueue) : WriteQueue := mkQueue [] false.

Definition onWriteDone (q : WriteQueue) : WriteQueue * option string :=
  let queue := tail (writeQueue_ q) in
  match queue with
  | [] => (mkQueue queue false, None)
  | _ => let q := mkQueue queue (writing_ q) in (q, doWrite q)
  end.

(** ** Rate limiting *)

Definition one_second : Z := 10 ^ 9.

Fixpoint drop_old (cutoff : Z) (times : list Z) : list Z :=
  match times with
  | t :: times' => if t <? cutoff then drop_old cutoff times' else times
  | [] => []
  end.

Definition isRateLimited (now maxPerSecond : Z) (messageTimes_ : list Z) : bool * list Z :=
  let times := drop_old (now - one_second) (messageTimes_ ++ [now]) in
  (maxPerSecond <? i32 (Z.of_nat (length times)), times).

(** ** The endpoint of a peer *)

(** Whether the socket is open, what [remote_endpoint] answers (it throws when
    the connection is gone), and the port the peer announced (0 when unknown). *)
Record PeerSocket := mkSocket {
  is_open : bool;
  remote : option (string * Z);
  knownListenPort_ : Z
}.

Definition closePeer (p : PeerSocket) : PeerSocket := mkSocket false None (knownListenPort_ p).
Definition setListenPort (port : Z) (p : PeerSocket) : PeerSocket :=
  mkSocket (is_open p) (remote p) port.
Definition isConnected (p : PeerSocket) : bool := is_open p.

Definition getEndpoint (p : PeerSocket) : string :=
  match remote p with
  | Some (addr, ephemeral) =>
      let port := if 0 <? knownListenPort_ p then knownListenPort_ p else ephemeral in
      addr +:+ ":" +:+ to_string port
  | None => "unknown"
  end.

Definition getPort (p : PeerSocket) : Z :=
  match remote p with Some (_, port) => port | None => 0 end.

(** ** Lemmas *)

Lemma stringToType_toString t : stringToType (typeToString t) = t.
Proof. by destruct t. Qed.

Lemma header_bodyLength len :
  in_u 32 len ->
  exists c0 c1 c2 c3, header len = String c0 (String c1 (String c2 (String c3 EmptyString))) /\
    bodyLength c0 c1 c2 c3 = len.
Proof.
  intros Hl. unfold header. do 4 eexists. split; [done|]. unfold bodyLength.
  assert (Hb : forall z, in_u 8 (Z.land z 255)).
  { intros z. change 255 with (Z.ones 8). rewrite Z.land_ones by lia. apply Z.mod_pos_bound. lia. }
  rewrite !code_chr by apply Hb. apply Z.bits_inj'. intros n Hn. unfold in_u in Hl.
  rewrite !Z.lor_spec, !Z.shiftl_spec by done. change 255 with (Z.ones 8).
  assert (Hs : forall k, Z.testbit (Z.land (Z.shiftr len k) (Z.ones 8)) (n - k) =
    if (k <=? n) && (n <? k + 8) then Z.testbit len n else false).
  { intros k. rewrite Z.land_spec. destruct (Z.leb_spec k n); simpl.
    - rewrite Z.shiftr_spec by lia. replace (n - k + k) with n by lia.
      destruct (Z.ltb_spec n (k + 8)).
      + rewrite Z.ones_spec_low by lia. apply andb_true_r.
      + rewrite Z.ones_spec_high by lia. apply andb_false_r.
    - by rewrite !Z.testbit_neg_r by lia. }
  rewrite !Hs. pose proof (Hs 0) as H0. rewrite Z.shiftr_0_r, Z.sub_0_r in H0. rewrite H0.
  destruct (Z.ltb_spec n 8).
  { replace (24 <=? n) with false by lia. replace (16 <=? n) with false by lia.
    replace (8 <=? n) with false by lia. replace (0 <=? n) with true by lia.
    replace (n <? 0 + 8) with true by lia. done. }
  replace (n <? 0 + 8) with false by lia. rewrite andb_false_r, orb_false_r.
  destruct (Z.ltb_spec n 16).
  { replace (24 <=? n) with false by lia. replace (16 <=? n) with false by lia.
    replace (8 <=? n) with true by lia. by replace (n <? 8 + 8) with true by lia. }
  replace (n <? 8 + 8) with false by lia. rewrite andb_false_r, orb_false_r.
  destruct (Z.ltb_spec n 24).
  { replace (24 <=? n) with false by lia. replace (16 <=? n) with true by lia.
    by replace (n <? 16 + 8) with true by lia. }
  replace (n <? 16 + 8) with false by lia. rewrite andb_false_r, orb_false_r.
  destruct (Z.ltb_spec n 32).
  { replace (24 <=? n) with true by lia. by replace (n <? 24 + 8) with true by lia. }
  replace (n <? 24 + 8) with false by lia. rewrite andb_false_r.
  symmetry. apply Z.bits_above_log2; [lia|].
  destruct (Z.eq_dec len 0) as [->|]; [simpl; lia|]. apply Z.log2_lt_pow2; [lia|].
  apply Z.lt_le_trans with (2 ^ 32); [lia|]. apply Z.pow_le_mono_r; lia.
Qed.

Definition str_concat (l : list string) : string := foldr String.append EmptyString l.

Section framing.
Context `{JT : JsonText} {JTS : JsonTextSpec JT}.

Lemma serialize_frame m s :
  json_canonical (payload m) = true -> serialize m = Ok s ->
  exists data, s = header (u32 (Z.of_nat (String.length data))) +:+ data /\ deserialize data = m.
Proof.
  intros Hc Hs. assert (Hcan : json_canonical (messageJson m) = true).
  { unfold messageJson. destruct m as [t p]. simpl in *. rewrite Hc. by destruct t. }
  destruct (parse_dump None (messageJson m) eq_refl Hcan) as (data & Hd & Hp & _).
  unfold serialize in Hs. rewrite Hd in Hs. cbn [rbind] in Hs. injection Hs as <-.
  exists data. split; [done|]. unfold deserialize. rewrite Hp. destruct m as [t p].
  by destruct t.
Qed.

Lemma receive_frame fuel data rest :
  Z.of_nat (String.length data) <= max_body ->
  receive (S fuel) (header (u32 (Z.of_nat (String.length data))) +:+ (data +:+ rest)) =
  let msg := deserialize data in
  let '(msgs, st) := receive fuel rest in
  (match type msg with UNKNOWN => msgs | _ => msg :: msgs end, st).
Proof.
  intros Hl. set (len := Z.of_nat (String.length data)) in *.
  assert (Hu : in_u 32 len).
  { unfold in_u, len. split; [lia|]. eapply Z.le_lt_trans; [exact Hl|reflexivity]. }
  rewrite wrapu_small by done.
  destruct (header_bodyLength len Hu) as (c0 & c1 & c2 & c3 & -> & Hb).
  cbn [String.append receive]. rewrite Hb.
  destruct (Z.ltb_spec max_body len); [lia|]. unfold len. rewrite Nat2Z.id.
  rewrite str_length_app. destruct (Nat.ltb_spec (String.length data + String.length rest)
    (String.length data)); [lia|].
  by rewrite str_take_app, str_drop_app.
Qed.

Lemma receive_oversized fuel data rest :
  max_body < Z.of_nat (String.length data) < 2 ^ 32 ->
  receive (S fuel) (header (u32 (Z.of_nat (String.length data))) +:+ (data +:+ rest)) = ([], Closed).
Proof.
  intros Hl. assert (Hu : in_u 32 (Z.of_nat (String.length data))) by (unfold in_u; lia).
  rewrite wrapu_small by done.
  destruct (header_bodyLength _ Hu) as (c0 & c1 & c2 & c3 & -> & Hb).
  cbn [String.append receive]. rewrite Hb.
  by destruct (Z.ltb_spec max_body (Z.of_nat (String.length data))); [|lia].
Qed.

Lemma receive_short fuel bytes :
  (String.length bytes < 4)%nat -> receive fuel bytes = ([], AwaitHeader bytes).
Proof.
  intros Hl. destruct fuel as [|fuel]; [done|].
  destruct bytes as [|c0 [|c1 [|c2 [|c3 rest]]]]; try done. simpl in Hl. lia.
Qed.

Lemma header_length len : String.length (header len) = 4%nat.
Proof. done. Qed.

(** The frames of messages that fit. *)
Definition fits (m : Message) (s : string) : Prop :=
  serialize m = Ok s /\ json_canonical (payload m) = true /\ type m <> UNKNOWN /\
  Z.of_nat (String.length s) <= max_body + 4.

Lemma receive_frames msgs frames partial fuel :
  Forall2 fits msgs frames -> (String.length partial < 4)%nat ->
  (String.length (str_concat frames +:+ partial) <= fuel)%nat ->
  receive fuel (str_concat frames +:+ partial) = (msgs, AwaitHeader partial).
Proof.
  intros HF Hp. revert fuel.
  induction HF as [|m s msgs frames (Hs & Hc & Ht & Hl) _ IH]; intros fuel Hfuel.
  - by apply receive_short.
  - destruct (serialize_frame m s Hc Hs) as (data & -> & Hd).
    rewrite str_length_app, header_length in Hl.
    cbn [str_concat foldr] in Hfuel |- *. fold (str_concat frames) in *.
    rewrite !str_length_app, header_length in Hfuel. rewrite !str_app_assoc.
    destruct fuel as [|fuel]; [lia|]. rewrite receive_frame by lia. rewrite Hd.
    rewrite IH by (rewrite str_length_app; lia). cbv zeta. by destruct (type m).
Qed.

End framing.

(** *** Runs of the write queue *)

(** The queue with the data accepted so far, the data whose write completed, and
    the write in flight. *)
Record QueueRun := mkRun {
  queue : WriteQueue; accepted : list string; completed : list string; inflight : option string
}.

Inductive queue_step : QueueRun -> QueueRun -> Prop :=
| queue_send data q ok started r :
    enqueue data (queue r) = (q, ok, started) ->
    queue_step r (mkRun q (if ok then accepted r ++ [data] else accepted r) (completed r)
                    (match started with Some _ => started | None => inflight r end))
| queue_done data q started r :
    inflight r = Some data -> onWriteDone (queue r) = (q, started) ->
    queue_step r (mkRun q (accepted r) (completed r ++ [data]) started)
| queue_error data r :
    inflight r = Some data ->
    queue_step r (mkRun (onWriteError (queue r)) (accepted r) (completed r) None).

Definition emptyRun : QueueRun := mkRun emptyQueue [] [] None.

(** At most 1000 entries; the front is the write in flight, and there is one
    exactly when the queue is not empty; what was written and what waits are, in
    order, entries accepted. *)
Definition queue_inv (r : QueueRun) : Prop :=
  (length (writeQueue_ (queue r)) <= MAX_WRITE_QUEUE)%nat /\
  inflight r = head (writeQueue_ (queue r)) /\
  writing_ (queue r) = match writeQueue_ (queue r) with [] => false | _ => true end /\
  sublist (completed r ++ writeQueue_ (queue r)) (accepted r).

Lemma queue_step_inv r r' : queue_step r r' -> queue_inv r -> queue_inv r'.
Proof.
  intros Hs (Hl & Hi & Hw & Hsub). destruct Hs as [data q ok started r He|data q started r Hf He|data r Hf];
    unfold queue_inv in *; simpl.
  - unfold enqueue in He. destruct (Nat.leb_spec MAX_WRITE_QUEUE (length (writeQueue_ (queue r)))).
    { by simplify_eq. }
    rewrite Hw, Hi in *. destruct (writeQueue_ (queue r)) as [|x l] eqn:E; simpl in *; simplify_eq/=.
    + split_and!; [unfold MAX_WRITE_QUEUE; lia|done|done|]. rewrite app_nil_r in Hsub.
      by apply sublist_app.
    + split_and!; [rewrite length_app; simpl; lia|done|done|].
      change (x :: l ++ [data]) with ((x :: l) ++ [data]). rewrite app_assoc. by apply sublist_app.
  - rewrite Hf in Hi. destruct (writeQueue_ (queue r)) as [|x l] eqn:E; [done|].
    simpl in Hi. injection Hi as ->. unfold onWriteDone in He. rewrite E in He. simpl in He.
    rewrite <- app_assoc. simpl. rewrite Hw in He.
    destruct l as [|y l]; simplify_eq/=; split_and!; (done || lia).
  - split_and!; [lia|done|done|]. rewrite app_nil_r.
    eapply transitivity; [|exact Hsub]. apply sublist_inserts_r. done.
Qed.

(** *** Rate limiting *)

Lemma drop_old_filter cutoff times :
  StronglySorted Z.le times -> drop_old cutoff times = filter (fun t => cutoff <= t) times.
Proof.
  induction 1 as [|t times Hs IH Hall]; [done|]. simpl. rewrite filter_cons.
  destruct (Z.ltb_spec t cutoff); [rewrite decide_False by lia; done|].
  rewrite decide_True by done. f_equal. clear IH Hs.
  induction Hall as [|x l Hx _ IH]; [done|]. rewrite filter_cons, decide_True by lia. by f_equal.
Qed.

(** *** Frames that do not fit, sockets that are closed *)

(** The 10 MB limit is the receiver's only: a message whose text is longer
    (and shorter than 4 GB) is serialized without complaint, and on reading it
    the peer closes the connection, losing every message behind it. *)
Lemma oversized_frame_closes `{JT : JsonText} {JTS : JsonTextSpec JT}
    (m : Message) (frame rest : string) :
  serialize m = Ok frame -> json_canonical (payload m) = true ->
  max_body + 4 < Z.of_nat (String.length frame) < 2 ^ 32 ->
  receiveAll (frame +:+ rest) = ([], Closed).
Proof.
  intros Hs Hc Hl. destruct (serialize_frame m frame Hc Hs) as (data & -> & _).
  rewrite str_length_app, header_length in Hl. unfold receiveAll.
  rewrite !str_length_app, header_length, str_app_assoc. cbn [Nat.add].
  apply receive_oversized. lia.
Qed.

(** A peer's endpoint string depends on its socket being open: once closed,
    every peer reads as "unknown", whatever endpoint it was registered under. *)
Lemma closed_endpoint_unknown (p : PeerSocket) (addr : string) (port : Z) :
  remote p = Some (addr, port) ->
  getEndpoint p = addr +:+ ":" +:+ to_string (if 0 <? knownListenPort_ p then knownListenPort_ p else port) /\
  getEndpoint p <> "unknown" /\ getEndpoint (closePeer p) = "unknown" /\
  isConnected (closePeer p) = false.
Proof.
  intros Hr. unfold getEndpoint. rewrite Hr. split_and!; [done| |done..].
  generalize (if 0 <? knownListenPort_ p then knownListenPort_ p else port). intros z H.
  assert (Hc : str_find ":" (addr +:+ ":" +:+ to_string z) <> None).
  { clear. induction addr as [|c addr IH]; [done|]. simpl. case_match; [done|].
    by intros ?%fmap_None. }
  by rewrite H in Hc.
Qed.

(** ** Properties *)

(** C35: a stream that holds the frames of messages within 10 MB, in order and
    followed by a partial header, is read back as exactly those messages, and
    the connection then waits with the partial header. *)
Theorem framing_roundtrip `{JT : JsonText} {JTS : JsonTextSpec JT}
    (msgs : list Message) (frames : list string) (partial : string) :
  Forall2 fits msgs frames -> (String.length partial < 4)%nat ->
  receiveAll (str_concat frames +:+ partial) = (msgs, AwaitHeader partial).
Proof. intros. by apply receive_frames. Qed.

(** C38: the write queue is bounded and ordered: through any sends, completions
    and errors it never holds more than 1000 messages, a write is in flight
    exactly when it is not empty, and the messages written, followed by those
    that wait, are accepted messages in the order they were accepted. *)
Theorem write_queue_bounded_fifo (r : QueueRun) :
  rtc queue_step emptyRun r -> queue_inv r.
Proof.
  intros Hr. assert (H0 : queue_inv emptyRun).
  { unfold queue_inv. simpl. split_and!; (lia || done). }
  revert H0. induction Hr as [|x y z Hs _ IH]; [done|]. intros Hx. by eapply IH, queue_step_inv.
Qed.

(** With a clock that does not go back, the rate limiter keeps exactly the
    times of the last second, this message included, and limits the peer exactly
    when there are more than [maxPerSecond] of them. *)
Lemma rate_limit_window (now maxPerSecond : Z) (times : list Z) :
  StronglySorted Z.le (times ++ [now]) -> Z.of_nat (length times) + 1 < 2 ^ 31 ->
  let window := filter (fun t => now - one_second <= t) (times ++ [now]) in
  isRateLimited now maxPerSecond times = (maxPerSecond <? Z.of_nat (length window), window).
Proof.
  intros Hs Hl window. unfold isRateLimited. rewrite drop_old_filter by done. fold window.
  assert (Hw : (length window <= length times + 1)%nat).
  { replace (length times + 1)%nat with (length (times ++ [now])) by (rewrite length_app; simpl; lia).
    unfold window. apply length_filter. }
  rewrite wraps_small; [done|lia|]. unfold in_s. lia.
Qed.

(** ** Witnesses *)

Section peer_witnesses.
Import Nlohmann.

Definition samplePing : Message := mkMessage PING (JObject []).

Lemma framing_roundtrip_witness :
  exists frame, serialize samplePing = Ok frame /\
    receiveAll (str_concat [frame; frame] +:+ "ab") = ([samplePing; samplePing], AwaitHeader "ab").
Proof.
  destruct (serialize samplePing) as [frame|e] eqn:E; [|vm_compute in E; discriminate E].
  exists frame. split; [reflexivity|].
  assert (Hf : fits samplePing frame).
  { split_and!; [exact E|reflexivity|discriminate|]. vm_compute in E. injection E as <-. vm_compute. discriminate. }
  refine (framing_roundtrip [samplePing; samplePing] [frame; frame] "ab" _ _); [|simpl; lia].
  constructor; [exact Hf|]. constructor; [exact Hf|constructor].
Defined.

Lemma write_queue_bounded_fifo_witness :
  queue_inv (mkRun (mkQueue ["x"] true) ["x"] [] (Some "x")).
Proof.
  apply write_queue_bounded_fifo. apply rtc_once.
  apply (queue_send "x" (mkQueue ["x"] true) true (Some "x") emptyRun). reflexivity.
Defined.

Lemma rate_limit_window_witness :
  isRateLimited 3000000000 1 [1000000000; 2500000000] = (true, [2500000000; 3000000000]).
Proof.
  apply (rate_limit_window 3000000000 1 [1000000000; 2500000000]); [|simpl; lia].
  repeat constructor; lia.
Defined.

End peer_witnesses.
