(* ===== verification/PeerScorer.v ===== *)
(** * PeerScorer: src/src/network/peer_scorer.cpp

    Reputation scores and bans of the known peers, keyed by "host:port". The map
    is a [gmap]; where the code iterates over it the keys are taken in order. The
    steady clock is in nanoseconds. *)

From S2P Require Import Prelude.
#[local] Open Scope Z_scope.

Definition INITIAL_SCORE : Z := 100.
Definition BAN_THRESHOLD : Z := 0.
Definition REWARD_VALID_BLOCK : Z := 1.
Definition REWARD_VALID_TX : Z := 1.
Definition PENALTY_INVALID_BLOCK : Z := -10.
Definition PENALTY_INVALID_TX : Z := -5.
Definition PENALTY_RAPID_MISBEHAVIOR : Z := -20.

Record PeerInfo := mkPeerInfo {
  host : string;
  port : Z;                 (* uint16_t *)
  score : Z;                (* int32_t *)
  banned : bool;
  invalidBlockCount : Z;    (* int32_t *)
  lastSeen : Z;
  lastPingSent : Z;
  pendingPong : bool
}.

Abbreviation PeerScorer := (gmap string PeerInfo).

(** [host + ":" + std::to_string(port)] *)
Definition peerKey (host : string) (port : Z) : string := host +:+ ":" +:+ to_string port.

Definition set_score (s : Z) (i : PeerInfo) : PeerInfo :=
  mkPeerInfo (host i) (port i) s (banned i) (invalidBlockCount i) (lastSeen i) (lastPingSent i)
    (pendingPong i).
Definition set_banned (b : bool) (i : PeerInfo) : PeerInfo :=
  mkPeerInfo (host i) (port i) (score i) b (invalidBlockCount i) (lastSeen i) (lastPingSent i)
    (pendingPong i).
Definition set_invalidBlockCount (n : Z) (i : PeerInfo) : PeerInfo :=
  mkPeerInfo (host i) (port i) (score i) (banned i) n (lastSeen i) (lastPingSent i) (pendingPong i).
Definition set_lastSeen (t : Z) (i : PeerInfo) : PeerInfo :=
  mkPeerInfo (host i) (port i) (score i) (banned i) (invalidBlockCount i) t (lastPingSent i)
    (pendingPong i).
Definition set_pong (t : Z) (b : bool) (i : PeerInfo) : PeerInfo :=
  mkPeerInfo (host i) (port i) (score i) (banned i) (invalidBlockCount i) (lastSeen i) t b.

(** ** Operations *)

Definition newPeerInfo (now : Z) (h : string) (p : Z) : PeerInfo :=
  mkPeerInfo h p INITIAL_SCORE false 0 now 0 false.

Definition addPeer (now : Z) (h : string) (p : Z) (s : PeerScorer) : PeerScorer :=
  match s !! peerKey h p with
  | Some _ => s
  | None => <[peerKey h p := newPeerInfo now h p]> s
  end.

(** The body of [rewardPeer] on the entry found. *)
Definition reward (amount : Z) (i : PeerInfo) : PeerInfo :=
  let i := set_score (i32 (score i + amount)) i in
  let i := if 200 <? score i then set_score 200 i else i in
  if banned i && (BAN_THRESHOLD + 20 <? score i)
  then set_invalidBlockCount 0 (set_banned false i)
  else i.

Definition rewardPeer (key : string) (amount : Z) (s : PeerScorer) : PeerScorer :=
  match s !! key with
  | Some i => <[key := reward amount i]> s
  | None => s
  end.

(** The body of [penalizePeer] on the entry found, with its answer. *)
Definition penalize (penalty : Z) (i : PeerInfo) : PeerInfo * bool :=
  let i := set_score (i32 (score i + penalty)) i in
  let i :=
    if penalty =? PENALTY_INVALID_BLOCK then
      let i := set_invalidBlockCount (i32 (invalidBlockCount i + 1)) i in
      if invalidBlockCount i =? 3
      then set_score (i32 (score i + PENALTY_RAPID_MISBEHAVIOR)) i else i
    else i in
  if score i <=? BAN_THRESHOLD then (set_banned true i, true) else (i, false).

Definition penalizePeer (key : string) (penalty : Z) (s : PeerScorer) : PeerScorer * bool :=
  match s !! key with
  | None => (s, false)
  | Some i => let '(i, b) := penalize penalty i in (<[key := i]> s, b)
  end.

Definition isBanned (key : string) (s : PeerScorer) : bool :=
  match s !! key with Some i => banned i | None => false end.

Definition getScore (key : string) (s : PeerScorer) : Z :=
  match s !! key with Some i => score i | None => 0 end.

Definition markSeen (now : Z) (key : string) (s : PeerScorer) : PeerScorer :=
  match s !! key with Some i => <[key := set_lastSeen now i]> s | None => s end.

Definition markPingSent (now : Z) (key : string) (s : PeerScorer) : PeerScorer :=
  match s !! key with
  | None => s
  | Some i => if pendingPong i then s else <[key := set_pong now true i]> s
  end.

Definition markPongReceived (now : Z) (key : string) (s : PeerScorer) : PeerScorer :=
  match s !! key with
  | None => s
  | Some i => <[key := set_lastSeen now (set_pong (lastPingSent i) false i)]> s
  end.

Definition seconds (n : Z) : Z := n * 10 ^ 9.

(** The keys that satisfy a test on their entry, in map order. *)
Definition keys_where (test : PeerInfo -> bool) (s : PeerScorer) : list string :=
  filter (fun k => match s !! k with Some i => test i | None => false end = true)
    (sorted_keys (dom s)).

Definition getHeartbeatTimeoutPeers (now timeoutSeconds : Z) (s : PeerScorer) : list string :=
  keys_where (fun i => pendingPong i && (seconds timeoutSeconds <? now - lastPingSent i)) s.

Definition getShareablePeers (s : PeerScorer) : list string :=
  keys_where (fun i => negb (banned i) && (20 <? score i)) s.

Definition getAllPeers (s : PeerScorer) : PeerScorer := s.

Definition evictStalePeers (now staleSeconds : Z) (s : PeerScorer) : PeerScorer :=
  filter (fun ki => (seconds staleSeconds <? now - lastSeen ki.2) = false) s.

(** ** Lemmas *)

(** The judgements the node makes about one peer. *)
Inductive judgement : Type :=
| GoodBlock | GoodTx | BadBlock | BadTx | Seen (t : Z) | PingSent (t : Z) | Pong (t : Z).

Definition judge (i : PeerInfo) (j : judgement) : PeerInfo :=
  match j with
  | GoodBlock => reward REWARD_VALID_BLOCK i
  | GoodTx => reward REWARD_VALID_TX i
  | BadBlock => (penalize PENALTY_INVALID_BLOCK i).1
  | BadTx => (penalize PENALTY_INVALID_TX i).1
  | Seen t => set_lastSeen t i
  | PingSent t => if pendingPong i then i else set_pong t true i
  | Pong t => set_lastSeen t (set_pong (lastPingSent i) false i)
  end.

(** The same through the scorer's operations. *)
Definition judgePeer (key : string) (s : PeerScorer) (j : judgement) : PeerScorer :=
  match j with
  | GoodBlock => rewardPeer key REWARD_VALID_BLOCK s
  | GoodTx => rewardPeer key REWARD_VALID_TX s
  | BadBlock => (penalizePeer key PENALTY_INVALID_BLOCK s).1
  | BadTx => (penalizePeer key PENALTY_INVALID_TX s).1
  | Seen t => markSeen t key s
  | PingSent t => markPingSent t key s
  | Pong t => markPongReceived t key s
  end.

Lemma judgePeer_lookup key s i j :
  s !! key = Some i -> judgePeer key s j !! key = Some (judge i j).
Proof.
  intros Hi. destruct j; simpl; unfold rewardPeer, penalizePeer, markSeen, markPingSent,
    markPongReceived; rewrite Hi; try (by rewrite lookup_insert_eq).
  - destruct (penalize _ i) eqn:E. simpl. by rewrite lookup_insert_eq.
  - destruct (penalize _ i) eqn:E. simpl. by rewrite lookup_insert_eq.
  - destruct (pendingPong i); [done|]. by rewrite lookup_insert_eq.
Qed.

Lemma judgePeers_lookup key s i js :
  s !! key = Some i -> foldl (judgePeer key) s js !! key = Some (foldl judge i js).
Proof.
  revert s i. induction js as [|j js IH]; intros s i Hi; [done|]. simpl.
  apply IH. by apply judgePeer_lookup.
Qed.

(** A score between its floor after [n] judgements and the cap; a peer is banned
    whenever its score is 0 or less, and only up to a score of 20. *)
Definition info_inv (n : Z) (i : PeerInfo) : Prop :=
  100 - 30 * n <= score i <= 200 /\ 0 <= invalidBlockCount i <= n /\
  (score i <= 0 -> banned i = true) /\ (banned i = true -> score i <= 20).

Lemma judge_inv n i j :
  0 <= n < 2 ^ 24 -> info_inv n i -> info_inv (n + 1) (judge i j).
Proof.
  intros Hn (Hs & Hc & Hb1 & Hb2). unfold info_inv.
  assert (Hw : forall z, - 2 ^ 30 <= z < 2 ^ 30 -> i32 z = z).
  { intros z Hz. apply wraps_small; [lia|]. unfold in_s. lia. }
  destruct j; simpl; unfold reward, penalize, PENALTY_INVALID_BLOCK, PENALTY_INVALID_TX,
    PENALTY_RAPID_MISBEHAVIOR, BAN_THRESHOLD, REWARD_VALID_BLOCK, REWARD_VALID_TX in *; simpl;
    rewrite ?(Hw (score i + 1)), ?(Hw (score i + -10)), ?(Hw (score i + -5)),
      ?(Hw (invalidBlockCount i + 1)) by lia;
    rewrite ?(Hw (score i + -10 + -20)) by lia;
    repeat (case_if; simpl in *; bool_to_prop); try destruct (pendingPong i); simpl;
    destruct (banned i) eqn:Eb; simpl in *; bool_to_prop;
    split_and!; intros; try lia; try done; try (exfalso; lia).
Qed.

Lemma judgements_inv n i js :
  0 <= n -> n + Z.of_nat (length js) <= 2 ^ 24 -> info_inv n i ->
  info_inv (n + Z.of_nat (length js)) (foldl judge i js).
Proof.
  revert n i. induction js as [|j js IH]; intros n i Hn Hl Hi; simpl in *.
  - by rewrite Z.add_0_r.
  - replace (n + Z.of_nat (S (length js))) with (n + 1 + Z.of_nat (length js)) by lia.
    apply IH; [lia..|]. apply judge_inv; [lia|done].
Qed.

(** The entry of a fresh peer after [n] invalid blocks, or [n] invalid
    transactions, in a row. *)
Definition after_bad_blocks (i : PeerInfo) (n : nat) : PeerInfo :=
  set_invalidBlockCount (Z.of_nat n)
    (set_banned (Nat.leb 8 n)
      (set_score (100 - 10 * Z.of_nat n - if Nat.leb 3 n then 20 else 0) i)).

Definition after_bad_txs (i : PeerInfo) (n : nat) : PeerInfo :=
  set_banned (Nat.leb 20 n) (set_score (100 - 5 * Z.of_nat n) i).

Lemma bad_blocks_score now h p n :
  Z.of_nat n < 2 ^ 24 ->
  foldl judge (newPeerInfo now h p) (replicate n BadBlock) = after_bad_blocks (newPeerInfo now h p) n.
Proof.
  induction n as [|n IH]; intros Hn; [done|].
  rewrite replicate_S_end, foldl_app, IH by lia. clear IH.
  assert (Hw : forall z, - 2 ^ 30 <= z < 2 ^ 30 -> i32 z = z).
  { intros z Hz. apply wraps_small; [lia|]. unfold in_s. lia. }
  unfold after_bad_blocks, newPeerInfo. cbn [foldl judge]. unfold penalize. rewrite Z.eqb_refl.
  cbn [score set_score set_banned set_invalidBlockCount invalidBlockCount host port banned lastSeen
       lastPingSent pendingPong].
  unfold PENALTY_INVALID_BLOCK, PENALTY_RAPID_MISBEHAVIOR, BAN_THRESHOLD.
  rewrite (Hw (Z.of_nat n + 1)) by lia.
  destruct (Z.eqb_spec (Z.of_nat n + 1) 3) as [E|E].
  { replace n with 2%nat by lia. reflexivity. }
  destruct (Nat.leb_spec 3 n), (Nat.leb_spec 3 (S n)); try lia; cbn [score set_score];
    rewrite Hw by lia; case_if; bool_to_prop; cbn in E0; destruct (Nat.leb_spec 8 n), (Nat.leb_spec 8 (S n));
    try lia; unfold set_banned, set_invalidBlockCount, set_score; cbn; f_equal; lia.
Qed.

Lemma bad_txs_score now h p n :
  Z.of_nat n < 2 ^ 24 ->
  foldl judge (newPeerInfo now h p) (replicate n BadTx) = after_bad_txs (newPeerInfo now h p) n.
Proof.
  induction n as [|n IH]; intros Hn; [done|].
  rewrite replicate_S_end, foldl_app, IH by lia. clear IH.
  unfold after_bad_txs, newPeerInfo. cbn [foldl judge]. unfold penalize.
  change (PENALTY_INVALID_TX =? PENALTY_INVALID_BLOCK) with false.
  cbn [score set_score set_banned set_invalidBlockCount invalidBlockCount host port banned lastSeen
       lastPingSent pendingPong].
  unfold PENALTY_INVALID_TX, BAN_THRESHOLD.
  rewrite wraps_small by (lia || unfold in_s; lia).
  destruct (Z.leb_spec (100 - 5 * Z.of_nat n + -5) 0), (Nat.leb_spec 20 n), (Nat.leb_spec 20 (S n));
    try lia; unfold set_banned, set_score; cbn; f_equal; lia.
Qed.

Lemma addPeer_fresh now h p s :
  s !! peerKey h p = None -> addPeer now h p s !! peerKey h p = Some (newPeerInfo now h p).
Proof. intros Hn. unfold addPeer. rewrite Hn. by rewrite lookup_insert_eq. Qed.

(** ** Properties *)

(** Whatever the node observes of a peer it registered (up to 2^24
    judgements), the peer's score stays at most 200, the peer is banned whenever
    its score is 0 or below, and a banned peer's score is at most 20. *)
Lemma scorer_ban_invariant (now : Z) (h : string) (p : Z) (s : PeerScorer) (js : list judgement) :
  s !! peerKey h p = None -> Z.of_nat (length js) <= 2 ^ 24 ->
  let s' := foldl (judgePeer (peerKey h p)) (addPeer now h p s) js in
  getScore (peerKey h p) s' <= 200 /\
  (getScore (peerKey h p) s' <= 0 -> isBanned (peerKey h p) s' = true) /\
  (isBanned (peerKey h p) s' = true -> getScore (peerKey h p) s' <= 20).
Proof.
  intros Hn Hl s'. subst s'. unfold getScore, isBanned.
  rewrite (judgePeers_lookup _ _ _ js (addPeer_fresh now h p s Hn)).
  pose proof (judgements_inv 0 (newPeerInfo now h p) js) as Hinv.
  destruct Hinv as (Hs & _ & H1 & H2); [lia|lia| |].
  - unfold info_inv. simpl. unfold INITIAL_SCORE. split_and!; intros; (lia || done).
  - split_and!; [lia|exact H1|exact H2].
Qed.

(** A peer that only sends invalid blocks is banned at the eighth and not
    before (the third costs 20 more), one that only sends invalid transactions
    at the twentieth; the ban sets in at score 0. *)
Lemma ban_thresholds (now : Z) (h : string) (p : Z) (s : PeerScorer) (n : nat) :
  s !! peerKey h p = None -> Z.of_nat n < 2 ^ 24 ->
  let k := peerKey h p in
  let blocks := foldl (judgePeer k) (addPeer now h p s) (replicate n BadBlock) in
  let txs := foldl (judgePeer k) (addPeer now h p s) (replicate n BadTx) in
  isBanned k blocks = Nat.leb 8 n /\
  getScore k blocks = 100 - 10 * Z.of_nat n - (if Nat.leb 3 n then 20 else 0) /\
  isBanned k txs = Nat.leb 20 n /\ getScore k txs = 100 - 5 * Z.of_nat n.
Proof.
  intros Hn Hl k blocks txs. subst blocks txs. unfold isBanned, getScore.
  rewrite !(judgePeers_lookup _ _ _ _ (addPeer_fresh now h p s Hn)).
  by rewrite bad_blocks_score, bad_txs_score.
Qed.

(** Eviction forgives: a banned peer that has not been seen for the stale
    period is dropped from the table, is then not banned, and comes back with
    the initial score when it is registered again. *)
Lemma eviction_forgives_ban (now stale : Z) (h : string) (p : Z) (s : PeerScorer) (i : PeerInfo) :
  s !! peerKey h p = Some i -> banned i = true -> seconds stale < now - lastSeen i ->
  let s' := evictStalePeers now stale s in
  isBanned (peerKey h p) s = true /\ isBanned (peerKey h p) s' = false /\
  getScore (peerKey h p) (addPeer now h p s') = INITIAL_SCORE /\
  isBanned (peerKey h p) (addPeer now h p s') = false.
Proof.
  intros Hi Hb Ht s'. assert (Hn : s' !! peerKey h p = None).
  { unfold s', evictStalePeers. apply map_lookup_filter_None. right. intros x Hx. simpl.
    rewrite Hi in Hx. injection Hx as <-.
    destruct (Z.ltb_spec (seconds stale) (now - lastSeen i)); [done|lia]. }
  unfold isBanned, getScore. rewrite Hi, Hn, (addPeer_fresh now h p s' Hn). done.
Qed.

(** ** Witnesses *)

Lemma scorer_ban_invariant_witness :
  getScore (peerKey "h" 1) (foldl (judgePeer (peerKey "h" 1)) (addPeer 0 "h" 1 ∅)
    [BadBlock; GoodBlock; BadTx]) <= 200.
Proof.
  refine (proj1 (scorer_ban_invariant 0 "h" 1 ∅ [BadBlock; GoodBlock; BadTx] _ _)).
  - reflexivity.
  - cbn [length]. lia.
Defined.

Lemma ban_thresholds_witness :
  isBanned (peerKey "h" 1) (foldl (judgePeer (peerKey "h" 1)) (addPeer 0 "h" 1 ∅)
    (replicate 8 BadBlock)) = true.
Proof.
  refine (proj1 (ban_thresholds 0 "h" 1 ∅ 8 _ _)).
  - reflexivity.
  - lia.
Defined.

(** The banned entry of the last witness, last seen at 0. *)
Definition stale_entry : PeerInfo := mkPeerInfo "h" 1 (-5) true 0 0 0 false.

Lemma eviction_forgives_ban_witness :
  isBanned (peerKey "h" 1)
    (evictStalePeers (seconds 400) 300 {[peerKey "h" 1 := stale_entry]}) = false.
Proof.
  refine (proj1 (proj2 (eviction_forgives_ban (seconds 400) 300 "h" 1
    {[peerKey "h" 1 := stale_entry]} stale_entry _ _ _))); reflexivity.
Defined.
