(* ===== verification/PeerManager.v ===== *)
(** * PeerManager: src/src/network/peer_manager.cpp

    The endpoints the node knows of, in the order it learned them, the time of
    the last dial of each and the quarantines. An operation that reads the steady
    clock takes the instant; the random shuffle is a parameter of the operation
    that uses it. *)

From S2P Require Import Prelude PeerScorer.
#[local] Open Scope Z_scope.

Record PeerManager := mkPeerManager {
  knownPeers_ : list string;
  lastDialAttempt_ : gmap string Z;
  quarantinedUntil_ : gmap string Z
}.

Definition emptyPeerManager : PeerManager := mkPeerManager [] ∅ ∅.

(** ** Operations *)

(** [push_back] unless [find] succeeds. *)
Definition push_unknown (l : list string) (x : string) : list string :=
  if bool_decide (x ∈ l) then l else l ++ [x].

Definition addKnownPeer (endpoint : string) (m : PeerManager) : PeerManager :=
  if str_empty endpoint then m
  else mkPeerManager (push_unknown (knownPeers_ m) endpoint) (lastDialAttempt_ m) (quarantinedUntil_ m).

Definition mergeKnownPeers (peers : list string) (m : PeerManager) : PeerManager :=
  mkPeerManager
    (foldl (fun l peer => if str_empty peer then l else push_unknown l peer) (knownPeers_ m) peers)
    (lastDialAttempt_ m) (quarantinedUntil_ m).

Definition hasPeer (endpoint : string) (m : PeerManager) : bool :=
  bool_decide (endpoint ∈ knownPeers_ m).

Definition getKnownPeers (m : PeerManager) : list string := knownPeers_ m.

(** [isQuarantined] and [isQuarantinedUnlocked] *)
Definition isQuarantined (now : Z) (endpoint : string) (m : PeerManager) : bool :=
  match quarantinedUntil_ m !! endpoint with
  | None => false
  | Some t => now <? t
  end.

Definition candidates (now : Z) (exclude : list string) (m : PeerManager) : list string :=
  filter (fun p => bool_decide (p ∉ exclude) && negb (isQuarantined now p m) = true) (knownPeers_ m).

(** [resize] of a longer vector keeps a prefix. *)
Definition getRandomPeers (shuffle : list string -> list string) (now : Z) (maxCount : nat)
    (exclude : list string) (m : PeerManager) : list string :=
  let c := shuffle (candidates now exclude m) in
  if Nat.ltb maxCount (length c) then take maxCount c else c.

Definition shouldAttemptConnection (now : Z) (endpoint : string) (cooldownMs : Z) (m : PeerManager)
    : bool :=
  if isQuarantined now endpoint m then false
  else match lastDialAttempt_ m !! endpoint with
       | None => true
       | Some t => cooldownMs <=? Z.quot (now - t) (10 ^ 6)
       end.

Definition markDialAttempt (now : Z) (endpoint : string) (m : PeerManager) : PeerManager :=
  mkPeerManager (knownPeers_ m) (<[endpoint := now]> (lastDialAttempt_ m)) (quarantinedUntil_ m).

Definition quarantinePeer (now : Z) (endpoint : string) (quarantineSeconds : Z) (m : PeerManager)
    : PeerManager :=
  mkPeerManager (knownPeers_ m) (lastDialAttempt_ m)
    (<[endpoint := now + seconds quarantineSeconds]> (quarantinedUntil_ m)).

Definition quarantinedPeerCount (now : Z) (m : PeerManager) : Z :=
  Z.of_nat (size (filter (fun kt => (now <? kt.2) = true) (quarantinedUntil_ m))).

(** The answer and what the out-parameters hold afterwards. *)
Definition parseEndpoint (endpoint : string) (host : string) (port : Z) : bool * string * Z :=
  match str_rfind ":" endpoint with
  | None => (false, host, port)
  | Some O => (false, host, port)
  | Some split =>
      let host := str_take split endpoint in
      match stoi (str_drop (S split) endpoint) with
      | Throw _ => (false, host, port)
      | Ok n => let port := u16 n in (0 <? port, host, port)
      end
  end.

(** ** Lemmas *)

Lemma push_unknown_spec l x y : y ∈ push_unknown l x <-> y ∈ l \/ y = x.
Proof. unfold push_unknown. case_bool_decide; set_solver. Qed.

Lemma push_unknown_nodup l x : NoDup l -> NoDup (push_unknown l x).
Proof.
  intros Hl. unfold push_unknown. case_bool_decide as Hx; [done|].
  apply NoDup_app. split_and!; [done| |apply NoDup_singleton]. set_solver.
Qed.

Lemma push_unknown_prefix l x : l `prefix_of` push_unknown l x.
Proof. unfold push_unknown. case_bool_decide; [done|]. by apply prefix_app_r. Qed.

Definition merge_into (l peers : list string) : list string :=
  foldl (fun l peer => if str_empty peer then l else push_unknown l peer) l peers.

Lemma merge_into_spec l peers y :
  y ∈ merge_into l peers <-> y ∈ l \/ (y ∈ peers /\ y <> EmptyString).
Proof.
  revert l. induction peers as [|p peers IH]; intros l; cbn [merge_into foldl]; [set_solver|].
  change (y ∈ merge_into (if str_empty p then l else push_unknown l p) peers <->
    y ∈ l \/ (y ∈ p :: peers /\ y <> EmptyString)).
  rewrite IH. destruct (str_empty p) eqn:E.
  - destruct p; [|done]. set_solver.
  - apply str_empty_false in E. rewrite push_unknown_spec. set_solver.
Qed.

Lemma merge_into_keeps l peers :
  NoDup l -> NoDup (merge_into l peers) /\ l `prefix_of` merge_into l peers.
Proof.
  revert l. induction peers as [|p peers IH]; intros l Hl; [done|].
  cbn [merge_into foldl]. fold (merge_into (if str_empty p then l else push_unknown l p) peers).
  destruct (str_empty p); [by apply IH|].
  destruct (IH (push_unknown l p)) as [H1 H2]; [by apply push_unknown_nodup|].
  split; [done|]. etrans; [apply push_unknown_prefix|done].
Qed.

Lemma candidates_spec now exclude m p :
  p ∈ candidates now exclude m <->
  p ∈ knownPeers_ m /\ p ∉ exclude /\ isQuarantined now p m = false.
Proof.
  unfold candidates. rewrite list_elem_of_filter, andb_true_iff, bool_decide_eq_true, negb_true_iff.
  tauto.
Qed.

Lemma str_take_length_app a b : str_take (String.length a) (a +:+ b) = a.
Proof. by apply str_take_app. Qed.

Lemma parseEndpoint_make h n h0 p0 :
  h <> EmptyString -> 0 <= n < 2 ^ 31 ->
  parseEndpoint (peerKey h n) h0 p0 = (0 <? u16 n, h, u16 n).
Proof.
  intros Hh Hn. unfold parseEndpoint, peerKey.
  change (":" +:+ to_string n) with (String ":" (to_string n)).
  rewrite str_rfind_app_none by
    (apply (str_rfind_forallb is_digit); [done|apply to_string_digits; lia]).
  destruct (String.length h) as [|k] eqn:E; [by destruct h|].
  rewrite str_take_app by done.
  replace (str_drop (S (S k)) (h +:+ String ":" (to_string n))) with (to_string n).
  { by rewrite stoi_to_string. }
  change (h +:+ String ":" (to_string n)) with (h +:+ (":" +:+ to_string n)).
  rewrite <- str_app_assoc. rewrite str_drop_app; [done|].
  rewrite str_length_app, E. simpl. lia.
Qed.

(** ** Properties *)

(** Gossip merging is exact: the known endpoints stay without duplicates and
    in their order, and gain exactly the non-empty new ones. *)
Lemma mergeKnownPeers_exact (peers : list string) (m : PeerManager) :
  NoDup (knownPeers_ m) ->
  let m' := mergeKnownPeers peers m in
  NoDup (knownPeers_ m') /\ knownPeers_ m `prefix_of` knownPeers_ m' /\
  (forall x, hasPeer x m' = true <-> hasPeer x m = true \/ (x ∈ peers /\ x <> EmptyString)).
Proof.
  intros Hm m'. unfold m', mergeKnownPeers, hasPeer. cbn [knownPeers_].
  fold (merge_into (knownPeers_ m) peers).
  destruct (merge_into_keeps (knownPeers_ m) peers Hm) as [H1 H2].
  split_and!; [done..|]. intros x. by rewrite !bool_decide_eq_true, merge_into_spec.
Qed.

(** The peers drawn for expansion are known, not excluded, not quarantined
    and distinct, and there are as many as asked for unless fewer qualify. *)
Lemma getRandomPeers_sound (shuffle : list string -> list string) (now : Z) (maxCount : nat)
    (exclude : list string) (m : PeerManager) :
  (forall l, shuffle l ≡ₚ l) -> NoDup (knownPeers_ m) ->
  let r := getRandomPeers shuffle now maxCount exclude m in
  NoDup r /\
  (forall p, p ∈ r -> hasPeer p m = true /\ p ∉ exclude /\ isQuarantined now p m = false) /\
  length r = Nat.min maxCount (length (candidates now exclude m)) /\
  ((length (candidates now exclude m) <= maxCount)%nat -> r ≡ₚ candidates now exclude m).
Proof.
  intros Hs Hm r. pose proof (Hs (candidates now exclude m)) as Hp.
  assert (Hr : r = take maxCount (shuffle (candidates now exclude m))).
  { unfold r, getRandomPeers. destruct (Nat.ltb_spec maxCount (length (shuffle (candidates now exclude m))));
      [done|]. by rewrite take_ge. }
  rewrite Hr. split_and!.
  - refine (sublist_NoDup _ _ _ (sublist_take _ _)). rewrite Hp. by apply NoDup_filter.
  - intros p Hin. unfold hasPeer. rewrite bool_decide_eq_true. apply candidates_spec.
    rewrite <- Hp. eapply elem_of_sublist; [exact Hin|apply sublist_take].
  - by rewrite length_take, (Permutation_length Hp).
  - intros Hl. rewrite take_ge; [done|]. by rewrite (Permutation_length Hp).
Qed.

(** An endpoint the node prints parses back to its host and port; for any
    number the port is taken modulo 2^16, and rejected when that is 0. *)
Lemma parseEndpoint_roundtrip (h : string) (n : Z) (h0 : string) (p0 : Z) :
  h <> EmptyString -> 0 <= n < 2 ^ 31 ->
  (0 < n < 65536 -> parseEndpoint (peerKey h n) h0 p0 = (true, h, n)) /\
  parseEndpoint (peerKey h n) h0 p0 = (negb (n mod 65536 =? 0), h, n mod 65536).
Proof.
  intros Hh Hn. rewrite parseEndpoint_make by done. change (u16 n) with (n mod 65536).
  pose proof (Z.mod_pos_bound n 65536 ltac:(lia)).
  split.
  - intros Hs. rewrite Z.mod_small by lia. do 2 f_equal. lia.
  - do 2 f_equal. lia.
Qed.

(** ** Witnesses *)

Lemma mergeKnownPeers_exact_witness :
  hasPeer "b:2" (mergeKnownPeers ["a:1"; ""; "b:2"; "a:1"] (mkPeerManager ["a:1"] ∅ ∅)) = true.
Proof.
  refine (proj2 (proj2 (proj2 (mergeKnownPeers_exact ["a:1"; ""; "b:2"; "a:1"]
    (mkPeerManager ["a:1"] ∅ ∅) _)) "b:2") _).
  - apply NoDup_singleton.
  - right. split; [set_solver|done].
Defined.

Lemma getRandomPeers_sound_witness :
  length (getRandomPeers (@reverse string) 5 1 ["a:1"]
    (mkPeerManager ["a:1"; "b:2"; "c:3"] ∅ {["c:3" := 9]})) = 1%nat.
Proof.
  refine (eq_trans (proj1 (proj2 (proj2 (getRandomPeers_sound (@reverse string) 5 1 ["a:1"]
    (mkPeerManager ["a:1"; "b:2"; "c:3"] ∅ {["c:3" := 9]}) _ _)))) _).
  - intros l. apply reverse_Permutation.
  - vm_compute. repeat constructor; set_solver.
  - vm_compute. reflexivity.
Defined.

Lemma parseEndpoint_roundtrip_witness :
  parseEndpoint (peerKey "10.0.0.1" 70000) "" 0 = (true, "10.0.0.1", 4464).
Proof. refine (proj2 (parseEndpoint_roundtrip "10.0.0.1" 70000 "" 0 _ _)); [done|lia]. Defined.
