(* ===== verification/Connections.v ===== *)
(** * Connections: connection slots, bootstrap topology and network counters

    src/src/network/connection_manager.cpp, bootstrap_manager.cpp and
    network_metrics.cpp. The iteration order of an [unordered_set] is a
    parameter of the operation that lists one. *)

From S2P Require Import Prelude Json PeerScorer PeerManager.
#[local] Open Scope Z_scope.

(** ** ConnectionManager *)

Inductive ConnectionDirection : Type := INBOUND | OUTBOUND.

#[export] Instance ConnectionDirection_eq_dec : EqDecision ConnectionDirection.
Proof. solve_decision. Defined.

Record ConnectionManager := mkConnections {
  slots_ : gmap string ConnectionDirection;     (* peers_ *)
  maxOutboundPeers_ : nat;
  maxInboundPeers_ : nat
}.

Definition newConnectionManager (maxOutboundPeers maxInboundPeers : nat) : ConnectionManager :=
  mkConnections ∅ maxOutboundPeers maxInboundPeers.

(** The loops that count one direction. *)
Definition count_direction (d : ConnectionDirection) (slots : gmap string ConnectionDirection) : nat :=
  size (filter (fun e => e.2 = d) slots).

Definition inboundCount (m : ConnectionManager) : nat := count_direction INBOUND (slots_ m).
Definition outboundCount (m : ConnectionManager) : nat := count_direction OUTBOUND (slots_ m).
Definition totalCount (m : ConnectionManager) : nat := size (slots_ m).

Definition canAccept (d : ConnectionDirection) (m : ConnectionManager) : bool :=
  match d with
  | INBOUND => Nat.ltb (inboundCount m) (maxInboundPeers_ m)
  | OUTBOUND => Nat.ltb (outboundCount m) (maxOutboundPeers_ m)
  end.

Definition registerConnection (endpoint : string) (d : ConnectionDirection) (m : ConnectionManager)
    : ConnectionManager :=
  mkConnections (<[endpoint := d]> (slots_ m)) (maxOutboundPeers_ m) (maxInboundPeers_ m).

Definition unregisterConnection (endpoint : string) (m : ConnectionManager) : ConnectionManager :=
  mkConnections (delete endpoint (slots_ m)) (maxOutboundPeers_ m) (maxInboundPeers_ m).

(** [std::min_element]: the first of the least. *)
Definition min_element (best : string * Z) (rest : list (string * Z)) : string * Z :=
  foldl (fun best x => if x.2 <? best.2 then x else best) best rest.

Definition selectLowestScorePeerToDrop (scores : list (string * Z)) : string :=
  match scores with
  | [] => EmptyString
  | s :: rest => (min_element s rest).1
  end.

(** ** BootstrapManager *)

Record BootstrapManager := mkBootstrap {
  bootstrapPeers_ : list string;
  topologyPeers_ : gset string
}.

Definition emptyBootstrap : BootstrapManager := mkBootstrap [] ∅.

(** One entry of the list given to [setBootstrapPeers]. *)
Definition add_bootstrap (b : BootstrapManager) (peer : string) : BootstrapManager :=
  if str_empty peer then b
  else mkBootstrap (push_unknown (bootstrapPeers_ b) peer) ({[peer]} ∪ topologyPeers_ b).

Definition setBootstrapPeers (peers : list string) (b : BootstrapManager) : BootstrapManager :=
  foldl add_bootstrap (mkBootstrap [] ∅) peers.

Definition registerPeer (endpoint : string) (b : BootstrapManager) : BootstrapManager :=
  if str_empty endpoint then b
  else mkBootstrap (bootstrapPeers_ b) ({[endpoint]} ∪ topologyPeers_ b).

Definition knownTopology (order : gset string -> list string) (maxCount : nat) (b : BootstrapManager)
    : list string :=
  let peers := order (topologyPeers_ b) in
  if Nat.ltb maxCount (length peers) then take maxCount peers else peers.

(** ** NetworkMetrics *)

Record NetworkMetrics := mkMetrics {
  startedAt_ : Z;
  connectedPeers_ : Z;
  knownPeersCount_ : Z;      (* knownPeers_ *)
  rejectedPeers_ : Z;
  bannedPeers_ : Z
}.

Definition newMetrics (now : Z) : NetworkMetrics := mkMetrics now 0 0 0 0.
Definition setConnectedPeers (n : nat) (m : NetworkMetrics) : NetworkMetrics :=
  mkMetrics (startedAt_ m) (Z.of_nat n) (knownPeersCount_ m) (rejectedPeers_ m) (bannedPeers_ m).
Definition setKnownPeers (n : nat) (m : NetworkMetrics) : NetworkMetrics :=
  mkMetrics (startedAt_ m) (connectedPeers_ m) (Z.of_nat n) (rejectedPeers_ m) (bannedPeers_ m).
Definition setBannedPeers (n : nat) (m : NetworkMetrics) : NetworkMetrics :=
  mkMetrics (startedAt_ m) (connectedPeers_ m) (knownPeersCount_ m) (rejectedPeers_ m) (Z.of_nat n).
Definition incrementRejectedPeers (m : NetworkMetrics) : NetworkMetrics :=
  mkMetrics (startedAt_ m) (connectedPeers_ m) (knownPeersCount_ m) (u64 (rejectedPeers_ m + 1))
    (bannedPeers_ m).

Definition metricsToJson (now : Z) (m : NetworkMetrics) : json :=
  json_set "networkUptimeSeconds" (JInteger (Z.quot (now - startedAt_ m) (10 ^ 9)))
    (json_set "bannedPeers" (JUnsigned (bannedPeers_ m))
      (json_set "rejectedPeers" (JUnsigned (rejectedPeers_ m))
        (json_set "knownPeers" (JUnsigned (knownPeersCount_ m))
          (json_set "connectedPeers" (JUnsigned (connectedPeers_ m)) JNull)))).

(** ** Lemmas *)

Lemma count_direction_insert d d' e slots :
  (count_direction d (<[e := d']> slots) <=
   count_direction d slots + if decide (d' = d) then 1 else 0)%nat.
Proof.
  unfold count_direction. destruct (decide (d' = d)) as [<-|Hne].
  - rewrite map_filter_insert_True by done. rewrite map_size_insert. case_match; simpl; lia.
  - rewrite map_filter_insert_False by done. rewrite map_filter_delete.
    rewrite map_size_delete. case_match; simpl; lia.
Qed.

Lemma count_direction_delete d e slots :
  (count_direction d (delete e slots) <= count_direction d slots)%nat.
Proof.
  unfold count_direction. rewrite map_filter_delete, map_size_delete. case_match; simpl; lia.
Qed.

Lemma min_element_spec best rest :
  min_element best rest ∈ best :: rest /\
  Forall (fun x => (min_element best rest).2 <= x.2) (best :: rest).
Proof.
  revert best. induction rest as [|x rest IH]; intros best.
  - split; [set_solver|]. repeat constructor. simpl. lia.
  - cbn [min_element foldl]. fold (min_element (if x.2 <? best.2 then x else best) rest).
    destruct (IH (if x.2 <? best.2 then x else best)) as [Hin Hall].
    inversion Hall as [|? ? H1 H2]; subst.
    destruct (Z.ltb_spec x.2 best.2); split; try set_solver; repeat constructor; try lia; done.
Qed.

(** ** Connection limits *)

(** What callers do with the manager: register after [canAccept] said yes, or
    unregister. *)
Inductive slot_op : Type :=
| Admit (endpoint : string) (d : ConnectionDirection)
| Release (endpoint : string).

Definition slot_step (m : ConnectionManager) (o : slot_op) : ConnectionManager :=
  match o with
  | Admit e d => if canAccept d m then registerConnection e d m else m
  | Release e => unregisterConnection e m
  end.

Definition within_limits (m : ConnectionManager) : Prop :=
  (inboundCount m <= maxInboundPeers_ m)%nat /\ (outboundCount m <= maxOutboundPeers_ m)%nat.

Lemma slot_step_within m o : within_limits m -> within_limits (slot_step m o).
Proof.
  intros [Hi Ho]. destruct o as [e d|e]; simpl.
  - destruct (canAccept d m) eqn:Hc; [|done]. unfold within_limits, inboundCount, outboundCount in *.
    cbn [registerConnection slots_ maxInboundPeers_ maxOutboundPeers_].
    pose proof (count_direction_insert INBOUND d e (slots_ m)).
    pose proof (count_direction_insert OUTBOUND d e (slots_ m)).
    unfold canAccept, inboundCount, outboundCount in Hc.
    destruct d; apply Nat.ltb_lt in Hc; repeat case_decide; try done; lia.
  - unfold within_limits, inboundCount, outboundCount in *. simpl.
    pose proof (count_direction_delete INBOUND e (slots_ m)).
    pose proof (count_direction_delete OUTBOUND e (slots_ m)). lia.
Qed.

(** ** Properties *)

(** When every registration follows a successful [canAccept] with nothing in
    between, the inbound and outbound counts never pass their limits; and the
    peer chosen for dropping is one with the least score. *)
Lemma connection_limits (maxOut maxIn : nat) (ops : list slot_op) (s : string * Z)
    (scores : list (string * Z)) :
  within_limits (foldl slot_step (newConnectionManager maxOut maxIn) ops) /\
  exists v, (selectLowestScorePeerToDrop (s :: scores), v) ∈ s :: scores /\
            Forall (fun x => v <= x.2) (s :: scores).
Proof.
  split.
  - assert (H0 : within_limits (newConnectionManager maxOut maxIn)).
    { unfold within_limits, inboundCount, outboundCount, count_direction. simpl.
      rewrite !map_filter_empty, !map_size_empty. lia. }
    revert H0. generalize (newConnectionManager maxOut maxIn).
    induction ops as [|o ops IH]; intros m Hm; [done|]. simpl. by apply IH, slot_step_within.
  - destruct (min_element_spec s scores) as [Hin Hall]. exists (min_element s scores).2.
    split; [|done]. simpl selectLowestScorePeerToDrop. by destruct (min_element s scores).
Qed.
