(* ===== verification/Effects.v ===== *)
(** * Effects: state, exceptions and the other ways a handler can end

    A handler is a computation over the state of its object. It may return,
    raise an exception that leaves it, block for ever on a mutex, die with the
    process in the middle of a disk operation, or still be searching for a nonce
    when the fuel of mining is used up ([Unfinished]). The state reached is kept
    in every case. *)

From S2P Require Import Prelude.

Inductive ending (A : Type) : Type :=
| Returns (a : A)
| Raises (e : exn)
| Deadlocks
| Dies
| Unfinished.
Arguments Returns {A} a.
Arguments Raises {A} e.
Arguments Deadlocks {A}.
Arguments Dies {A}.
Arguments Unfinished {A}.

Definition St (S A : Type) : Type := S -> S * ending A.

#[export] Instance M_ret {S} : MRet (St S) := fun A a n => (n, Returns a).
#[export] Instance M_bind {S} : MBind (St S) := fun A B f m n =>
  match m n with
  | (n, Returns a) => f a n
  | (n, Raises e) => (n, Raises e)
  | (n, Deadlocks) => (n, Deadlocks)
  | (n, Dies) => (n, Dies)
  | (n, Unfinished) => (n, Unfinished)
  end.

Definition gets {S A} (f : S -> A) : St S A := fun n => (n, Returns (f n)).
Definition modify {S} (f : S -> S) : St S unit := fun n => (f n, Returns tt).
Definition lift {S A} (r : result A) : St S A := fun n =>
  (n, match r with Ok a => Returns a | Throw e => Raises e end).

Definition unfinished {S A} : St S A := fun n => (n, Unfinished).

(** [try { m } catch (const std::exception &e) { h(e) }]; every exception of the
    program is a [std::exception]. *)
Definition try_with {S A} (m : St S A) (h : exn -> St S A) : St S A := fun n =>
  match m n with
  | (n, Raises e) => h e n
  | r => r
  end.

Definition try_or {S A} (m h : St S A) : St S A := try_with m (fun _ => h).

Fixpoint for_each {S A} (l : list A) (f : A -> St S unit) : St S unit :=
  match l with
  | [] => mret tt
  | x :: l => _ ← f x; for_each l f
  end.

(** ** Relations a computation keeps *)

Section keeps.
Context {S : Type} (R : S -> S -> Prop) `{!PreOrder R}.

(** The state the computation leaves is related to the one it found. *)
Definition keeps {A} (m : St S A) : Prop := forall n, R n (m n).1.

Lemma keeps_ret {A} (a : A) : keeps (mret a).
Proof. by intros n. Qed.

Lemma keeps_gets {A} (f : S -> A) : keeps (gets f).
Proof. by intros n. Qed.

Lemma keeps_lift {A} (r : result A) : keeps (lift r).
Proof. by intros n. Qed.

Lemma keeps_modify f : (forall n, R n (f n)) -> keeps (modify f).
Proof. intros Hf n. apply Hf. Qed.

Lemma keeps_bind {A B} (m : St S A) (f : A -> St S B) :
  keeps m -> (forall a, keeps (f a)) -> keeps (m ≫= f).
Proof.
  intros Hm Hf n. unfold mbind, M_bind. specialize (Hm n).
  destruct (m n) as [n1 [a|e| | |]]; simpl in *; try done. etrans; [done|apply Hf].
Qed.

Lemma keeps_try_with {A} (m : St S A) h : keeps m -> (forall e, keeps (h e)) -> keeps (try_with m h).
Proof.
  intros Hm Hh n. unfold try_with. specialize (Hm n).
  destruct (m n) as [n1 [a|e| | |]]; simpl in *; try done. etrans; [done|apply Hh].
Qed.

Lemma keeps_try {A} (m h : St S A) : keeps m -> keeps h -> keeps (try_or m h).
Proof. intros. by apply keeps_try_with. Qed.

Lemma keeps_for_each {A} (l : list A) f : (forall x, keeps (f x)) -> keeps (for_each l f).
Proof.
  intros Hf. induction l as [|x l IH]; [apply keeps_ret|]. simpl. by apply keeps_bind.
Qed.

End keeps.

Lemma keeps_impl {S} (R R' : S -> S -> Prop) {A} (m : St S A) :
  (forall n n', R n n' -> R' n n') -> keeps R m -> keeps R' m.
Proof. intros Himp Hm n. apply Himp, Hm. Qed.

(** ** Invariants with the endings allowed *)

(** The ways to end, without the value. *)
Inductive kind : Type := KReturns | KRaises (e : exn) | KDeadlocks | KDies | KUnfinished.

Definition kind_of {A} (e : ending A) : kind :=
  match e with
  | Returns _ => KReturns
  | Raises e => KRaises e
  | Deadlocks => KDeadlocks
  | Dies => KDies
  | Unfinished => KUnfinished
  end.

Section holds.
Context {S : Type} (I : S -> Prop) (ok : kind -> Prop).

(** From a state of the invariant the computation ends in an allowed way, in a
    state of the invariant; a search that goes on is in the middle of something. *)
Definition holds {A} (m : St S A) : Prop := forall n, I n ->
  ok (kind_of (m n).2) /\ (kind_of (m n).2 <> KUnfinished -> I (m n).1).

Hypothesis ok_returns : ok KReturns.

Lemma holds_ret {A} (a : A) : holds (mret a).
Proof. by intros n. Qed.

Lemma holds_gets {A} (f : S -> A) : holds (gets f).
Proof. by intros n. Qed.

Lemma holds_lift_ok {A} (a : A) : holds (lift (Ok a)).
Proof. by intros n. Qed.

Lemma holds_lift {A} (r : result A) : (forall e, r = Throw e -> ok (KRaises e)) -> holds (lift r).
Proof. intros Hr n Hn. split; [|by destruct r]. destruct r as [a|e]; [done|by apply Hr]. Qed.

Lemma holds_modify f : (forall n, I n -> I (f n)) -> holds (modify f).
Proof. intros Hf n Hn. split; [done|intros _]. by apply Hf. Qed.

Lemma holds_bind {A B} (m : St S A) (f : A -> St S B) :
  holds m -> (forall a, holds (f a)) -> holds (m ≫= f).
Proof.
  intros Hm Hf n Hn. unfold mbind, M_bind. destruct (Hm n Hn) as [H1 H2].
  destruct (m n) as [n1 [a|e| | |]]; simpl in *; try done. apply Hf. by apply H2.
Qed.

Lemma holds_for_each {A} (l : list A) f : (forall x, holds (f x)) -> holds (for_each l f).
Proof.
  intros Hf. induction l as [|x l IH]; [apply holds_ret|]. simpl. by apply holds_bind.
Qed.

End holds.

(** The endings [ok], or an exception of [E]. *)
Definition may_raise (E : exn -> Prop) (ok : kind -> Prop) (k : kind) : Prop :=
  (exists e, k = KRaises e /\ E e) \/ ok k.

(** A handler for the exceptions of [E], which the body may raise; the whole need
    not. *)
Lemma holds_try_with {S A} (I : S -> Prop) (E : exn -> Prop) (ok : kind -> Prop) (m : St S A) h :
  (forall e, ok (KRaises e) -> E e) ->
  holds I (may_raise E ok) m -> (forall e, E e -> holds I ok (h e)) ->
  holds I ok (try_with m h).
Proof.
  intros Hok Hm Hh n Hn. unfold try_with. destruct (Hm n Hn) as [H1 H2].
  destruct (m n) as [n1 [a|e| | |]]; simpl in *; try (by destruct H1 as [(e' & ? & _)|H1]).
  apply Hh; [|by apply H2]. destruct H1 as [(e' & [= <-] & He)|H1]; [done|by apply Hok].
Qed.

Lemma holds_weaken {S A} (I : S -> Prop) (ok ok' : kind -> Prop) (m : St S A) :
  (forall k, ok k -> ok' k) -> holds I ok m -> holds I ok' m.
Proof. intros Himp Hm n Hn. destruct (Hm n Hn). auto. Qed.

(** ** Triples *)

(** From a state of [P], a value is returned only with [Q] of it and of the state
    reached. *)
Definition triple {S A} (P : S -> Prop) (m : St S A) (Q : A -> S -> Prop) : Prop :=
  forall s, P s -> match m s with (s', Returns a) => Q a s' | _ => True end.

Section triple.
Context {S : Type}.
Implicit Types P : S -> Prop.

Lemma triple_ret {A} P (a : A) (Q : A -> S -> Prop) : (forall s, P s -> Q a s) -> triple P (mret a) Q.
Proof. intros H s Hs. by apply H. Qed.

Lemma triple_bind {A B} P (R : A -> S -> Prop) (m : St S A) (f : A -> St S B) Q :
  triple P m R -> (forall a, triple (R a) (f a) Q) -> triple P (m ≫= f) Q.
Proof.
  intros Hm Hf s Hs. unfold mbind, M_bind. specialize (Hm s Hs).
  destruct (m s) as [s1 [a|e| | |]]; try done. by apply Hf.
Qed.

(** A pure step: what it returned is known from here on. *)
Lemma triple_lift {A B} P (r : result A) (f : A -> St S B) Q :
  (forall a, r = Ok a -> triple P (f a) Q) -> triple P (lift r ≫= f) Q.
Proof. intros Hf s Hs. unfold mbind, M_bind, lift. destruct r as [a|e]; [|done]. by apply (Hf a eq_refl). Qed.

Lemma triple_gets {A B} P (g : S -> A) (f : A -> St S B) Q :
  (forall a, triple (fun s => P s /\ g s = a) (f a) Q) -> triple P (gets g ≫= f) Q.
Proof. intros Hf s Hs. unfold mbind, M_bind, gets. by apply Hf. Qed.

End triple.
