(* ===== verification/Node.v ===== *)
(** * Node: src/src/network/node.cpp

    The peer-to-peer node: connection management, message routing, relaying,
    chain synchronisation, gossip and heartbeats. Each asynchronous handler is a
    computation of Effects.v over the node's state ([M]). A handler can block for
    ever on [peersMutex_], which it may lock twice, and on the mutex of the
    blockchain, which an operation holds while it calls the node back. Handlers
    run one after the other. The asynchronous operations a handler starts are
    appended to [requests].

    The clocks, the random devices and the order of hash sets are the parameters
    [World]; each reading takes the next instant. Peer objects live in a store,
    and the node's list holds their identities, as the shared pointers do. *)

From S2P Require Import Prelude StdTime Json Crypto Transaction Block State Consensus Storage Blockchain Peer PeerScorer PeerManager Connections Effects.
#[local] Open Scope Z_scope.

(** ** Options and identity *)

Record RetryPolicy := mkRetry {
  maxRetries : Z; baseDelayMs : Z; maxDelayMs : Z; jitterMs : Z; reconnectCooldownMs : Z  (* int *)
}.
Definition defaultRetry : RetryPolicy := mkRetry 6 500 30000 400 1200.

Record NetworkTimeouts := mkTimeouts {
  heartbeatIntervalSec : Z; heartbeatTimeoutSec : Z; gossipIntervalSec : Z; peerRotationSec : Z;
  quarantineSec : Z; dedupWindowSec : Z  (* int *)
}.
Definition defaultTimeouts : NetworkTimeouts := mkTimeouts 15 45 30 45 120 90.

Record NodeOptions := mkOptions {
  dataDir : string;
  publicIp : string;
  bootstrapNodes : list string;
  maxOutboundPeers : nat;
  maxInboundPeers : nat;
  retryPolicy : RetryPolicy;
  timeouts : NetworkTimeouts
}.
Definition defaultOptions : NodeOptions := mkOptions "./data" "" [] 8 32 defaultRetry defaultTimeouts.

Record NodeIdentityRecord := mkIdentity {
  nodeId : string;
  publicKey : string;
  privateKey : string;
  advertisedIp : string;
  identityPort : Z;         (* uint16_t port *)
  reputation : Z            (* int32_t *)
}.

(** [NodeIdentity::endpoint] and [NodeIdentity::toJson] *)
Definition identityEndpoint (r : NodeIdentityRecord) : string :=
  advertisedIp r +:+ ":" +:+ to_string (identityPort r).

Definition identityToJson (r : NodeIdentityRecord) : json :=
  json_set "reputation" (JInteger (reputation r))
    (json_set "port" (JUnsigned (identityPort r))
      (json_set "advertisedIp" (JString (advertisedIp r))
        (json_set "publicKey" (JString (publicKey r))
          (json_set "nodeId" (JString (nodeId r)) JNull)))).

(** ** State *)

(** A Peer object: its socket, its write queue and its rate limiter. *)
Record PeerObj := mkPeer { socket : PeerSocket; queue : WriteQueue; messageTimes_ : list Z }.

Definition newPeer (s : PeerSocket) : PeerObj := mkPeer s emptyQueue [].
Definition with_socket (s : PeerSocket) (p : PeerObj) : PeerObj := mkPeer s (queue p) (messageTimes_ p).
Definition with_queue (q : WriteQueue) (p : PeerObj) : PeerObj := mkPeer (socket p) q (messageTimes_ p).
Definition with_times (t : list Z) (p : PeerObj) : PeerObj := mkPeer (socket p) (queue p) t.

(** The asynchronous operations a handler can start. *)
Inductive request : Type :=
| AsyncAccept
| AsyncRead (p : nat)
| AsyncWrite (p : nat) (data : string)
| AsyncResolve (host : string) (port retryCount : Z)
| RetryTimer (delayMs : Z) (host : string) (port retryCount : Z)
| HeartbeatTimer (sec : Z)
| GossipTimer (sec : Z)
| RotationTimer (sec : Z)
| SyncTimer (sec : Z).

(** The mutex of the blockchain, which is held while an operation runs and calls
    back: by a handler that blocks there, or by a search for a nonce. *)
Inductive mutex : Type := Free | Held | Searching.

Record Node := mkNode {
  blockchain_ : Blockchain;
  disk : FS;  (* the data directory *)
  faults : list event;  (* what will happen to its operations *)
  port_ : Z;  (* uint16_t *)
  options_ : NodeOptions;
  nodeIdentity_ : NodeIdentityRecord;
  peerObjs : gmap nat PeerObj;  (* the Peer objects, by identity *)
  peers_ : list nat;  (* shared pointers to them *)
  peersLocked : bool;  (* peersMutex_ is held *)
  chainLock : mutex;  (* Blockchain::mutex_ *)
  seenTxIDs_ : gset string;
  seenBlockHashes_ : gset string;
  messageDedup_ : gmap string Z;
  peerScorer_ : PeerScorer;
  peerManager_ : PeerManager;
  bootstrapManager_ : BootstrapManager;
  connectionManager_ : ConnectionManager;
  networkMetrics_ : NetworkMetrics;
  requests : list request;  (* asynchronous operations started, oldest first *)
  ticks : nat  (* readings of clocks and random devices so far *)
}.

Definition with_blockchain (x : Blockchain) (n : Node) : Node :=
  mkNode x (disk n) (faults n) (port_ n) (options_ n) (nodeIdentity_ n) (peerObjs n) (peers_ n)
    (peersLocked n) (chainLock n) (seenTxIDs_ n) (seenBlockHashes_ n) (messageDedup_ n) (peerScorer_ n)
    (peerManager_ n) (bootstrapManager_ n) (connectionManager_ n) (networkMetrics_ n)
    (requests n) (ticks n).
Definition with_disk (x : FS) (n : Node) : Node :=
  mkNode (blockchain_ n) x (faults n) (port_ n) (options_ n) (nodeIdentity_ n) (peerObjs n)
    (peers_ n) (peersLocked n) (chainLock n) (seenTxIDs_ n) (seenBlockHashes_ n) (messageDedup_ n)
    (peerScorer_ n) (peerManager_ n) (bootstrapManager_ n) (connectionManager_ n)
    (networkMetrics_ n) (requests n) (ticks n).
Definition with_faults (x : list event) (n : Node) : Node :=
  mkNode (blockchain_ n) (disk n) x (port_ n) (options_ n) (nodeIdentity_ n) (peerObjs n)
    (peers_ n) (peersLocked n) (chainLock n) (seenTxIDs_ n) (seenBlockHashes_ n) (messageDedup_ n)
    (peerScorer_ n) (peerManager_ n) (bootstrapManager_ n) (connectionManager_ n)
    (networkMetrics_ n) (requests n) (ticks n).
Definition with_peerObjs (x : gmap nat PeerObj) (n : Node) : Node :=
  mkNode (blockchain_ n) (disk n) (faults n) (port_ n) (options_ n) (nodeIdentity_ n) x
    (peers_ n) (peersLocked n) (chainLock n) (seenTxIDs_ n) (seenBlockHashes_ n) (messageDedup_ n)
    (peerScorer_ n) (peerManager_ n) (bootstrapManager_ n) (connectionManager_ n)
    (networkMetrics_ n) (requests n) (ticks n).
Definition with_peers (x : list nat) (n : Node) : Node :=
  mkNode (blockchain_ n) (disk n) (faults n) (port_ n) (options_ n) (nodeIdentity_ n)
    (peerObjs n) x (peersLocked n) (chainLock n) (seenTxIDs_ n) (seenBlockHashes_ n) (messageDedup_ n)
    (peerScorer_ n) (peerManager_ n) (bootstrapManager_ n) (connectionManager_ n)
    (networkMetrics_ n) (requests n) (ticks n).
Definition with_peersLocked (x : bool) (n : Node) : Node :=
  mkNode (blockchain_ n) (disk n) (faults n) (port_ n) (options_ n) (nodeIdentity_ n)
    (peerObjs n) (peers_ n) x (chainLock n) (seenTxIDs_ n) (seenBlockHashes_ n) (messageDedup_ n)
    (peerScorer_ n) (peerManager_ n) (bootstrapManager_ n) (connectionManager_ n)
    (networkMetrics_ n) (requests n) (ticks n).
Definition with_chainLock (x : mutex) (n : Node) : Node :=
  mkNode (blockchain_ n) (disk n) (faults n) (port_ n) (options_ n) (nodeIdentity_ n)
    (peerObjs n) (peers_ n) (peersLocked n) x (seenTxIDs_ n) (seenBlockHashes_ n) (messageDedup_ n)
    (peerScorer_ n) (peerManager_ n) (bootstrapManager_ n) (connectionManager_ n)
    (networkMetrics_ n) (requests n) (ticks n).
Definition with_seenTxIDs (x : gset string) (n : Node) : Node :=
  mkNode (blockchain_ n) (disk n) (faults n) (port_ n) (options_ n) (nodeIdentity_ n)
    (peerObjs n) (peers_ n) (peersLocked n) (chainLock n) x (seenBlockHashes_ n) (messageDedup_ n)
    (peerScorer_ n) (peerManager_ n) (bootstrapManager_ n) (connectionManager_ n)
    (networkMetrics_ n) (requests n) (ticks n).
Definition with_seenBlockHashes (x : gset string) (n : Node) : Node :=
  mkNode (blockchain_ n) (disk n) (faults n) (port_ n) (options_ n) (nodeIdentity_ n)
    (peerObjs n) (peers_ n) (peersLocked n) (chainLock n) (seenTxIDs_ n) x (messageDedup_ n) (peerScorer_ n)
    (peerManager_ n) (bootstrapManager_ n) (connectionManager_ n) (networkMetrics_ n)
    (requests n) (ticks n).
Definition with_messageDedup (x : gmap string Z) (n : Node) : Node :=
  mkNode (blockchain_ n) (disk n) (faults n) (port_ n) (options_ n) (nodeIdentity_ n)
    (peerObjs n) (peers_ n) (peersLocked n) (chainLock n) (seenTxIDs_ n) (seenBlockHashes_ n) x (peerScorer_ n)
    (peerManager_ n) (bootstrapManager_ n) (connectionManager_ n) (networkMetrics_ n)
    (requests n) (ticks n).
Definition with_peerScorer (x : PeerScorer) (n : Node) : Node :=
  mkNode (blockchain_ n) (disk n) (faults n) (port_ n) (options_ n) (nodeIdentity_ n)
    (peerObjs n) (peers_ n) (peersLocked n) (chainLock n) (seenTxIDs_ n) (seenBlockHashes_ n) (messageDedup_ n)
    x (peerManager_ n) (bootstrapManager_ n) (connectionManager_ n) (networkMetrics_ n)
    (requests n) (ticks n).
Definition with_peerManager (x : PeerManager) (n : Node) : Node :=
  mkNode (blockchain_ n) (disk n) (faults n) (port_ n) (options_ n) (nodeIdentity_ n)
    (peerObjs n) (peers_ n) (peersLocked n) (chainLock n) (seenTxIDs_ n) (seenBlockHashes_ n) (messageDedup_ n)
    (peerScorer_ n) x (bootstrapManager_ n) (connectionManager_ n) (networkMetrics_ n)
    (requests n) (ticks n).
Definition with_bootstrapManager (x : BootstrapManager) (n : Node) : Node :=
  mkNode (blockchain_ n) (disk n) (faults n) (port_ n) (options_ n) (nodeIdentity_ n)
    (peerObjs n) (peers_ n) (peersLocked n) (chainLock n) (seenTxIDs_ n) (seenBlockHashes_ n) (messageDedup_ n)
    (peerScorer_ n) (peerManager_ n) x (connectionManager_ n) (networkMetrics_ n) (requests n)
    (ticks n).
Definition with_connectionManager (x : ConnectionManager) (n : Node) : Node :=
  mkNode (blockchain_ n) (disk n) (faults n) (port_ n) (options_ n) (nodeIdentity_ n)
    (peerObjs n) (peers_ n) (peersLocked n) (chainLock n) (seenTxIDs_ n) (seenBlockHashes_ n) (messageDedup_ n)
    (peerScorer_ n) (peerManager_ n) (bootstrapManager_ n) x (networkMetrics_ n) (requests n)
    (ticks n).
Definition with_networkMetrics (x : NetworkMetrics) (n : Node) : Node :=
  mkNode (blockchain_ n) (disk n) (faults n) (port_ n) (options_ n) (nodeIdentity_ n)
    (peerObjs n) (peers_ n) (peersLocked n) (chainLock n) (seenTxIDs_ n) (seenBlockHashes_ n) (messageDedup_ n)
    (peerScorer_ n) (peerManager_ n) (bootstrapManager_ n) (connectionManager_ n) x (requests n)
    (ticks n).
Definition with_requests (x : list request) (n : Node) : Node :=
  mkNode (blockchain_ n) (disk n) (faults n) (port_ n) (options_ n) (nodeIdentity_ n)
    (peerObjs n) (peers_ n) (peersLocked n) (chainLock n) (seenTxIDs_ n) (seenBlockHashes_ n) (messageDedup_ n)
    (peerScorer_ n) (peerManager_ n) (bootstrapManager_ n) (connectionManager_ n)
    (networkMetrics_ n) x (ticks n).
Definition with_ticks (x : nat) (n : Node) : Node :=
  mkNode (blockchain_ n) (disk n) (faults n) (port_ n) (options_ n) (nodeIdentity_ n)
    (peerObjs n) (peers_ n) (peersLocked n) (chainLock n) (seenTxIDs_ n) (seenBlockHashes_ n) (messageDedup_ n)
    (peerScorer_ n) (peerManager_ n) (bootstrapManager_ n) (connectionManager_ n)
    (networkMetrics_ n) (requests n) x.

(** ** Computations *)

Class World : Type := {
  steady_clock : nat -> Z;
  system_clock : nat -> Z;
  shuffle : nat -> list string -> list string;
  uniform_int : nat -> Z -> Z -> Z;
  random : nat -> Z;
  hash_order : gset string -> list string
}.

Abbreviation M := (St Node).

(** A block under [std::lock_guard<std::mutex> lock(peersMutex_)]: the mutex is
    not recursive, so locking it again blocks for ever. *)
Definition with_peersMutex {A} (m : M A) : M A := fun n =>
  if peersLocked n then (n, Deadlocks)
  else match m (with_peersLocked true n) with
       | (n, Deadlocks) => (n, Deadlocks)
       | (n, r) => (with_peersLocked false n, r)
       end.

(** A member function of the blockchain, under its own mutex. *)
Definition with_chainMutex {A} (m : M A) : M A := fun n =>
  match chainLock n with
  | Held => (n, Deadlocks)
  | Searching => (n, Unfinished)
  | Free =>
      match m (with_chainLock Held n) with
      | (n, Deadlocks) => (n, Deadlocks)
      | (n, Unfinished) => (with_chainLock Searching n, Unfinished)
      | (n, r) => (with_chainLock Free n, r)
      end
  end.

(** A getter of the blockchain. *)
Definition read_chain {A} (f : Blockchain -> A) : M A := with_chainMutex (gets (fun n => f (blockchain_ n))).

Definition start (r : request) : M unit := modify (fun n => with_requests (requests n ++ [r]) n).

Section node.
Context `{W : World} `{OS : OpenSSL} `{JT : JsonText}.

(** Readings of the clocks and of the random devices. *)
Definition reading {A} (f : nat -> A) : M A := fun n => (with_ticks (S (ticks n)) n, Returns (f (ticks n))).
Definition steady_now : M Z := reading steady_clock.
Definition system_now : M Z := reading system_clock.

(** *** Peer objects *)

Definition peerObj (p : nat) (n : Node) : PeerObj :=
  default (newPeer (mkSocket false None 0)) (peerObjs n !! p).
Definition update_peer (p : nat) (f : PeerObj -> PeerObj) : M unit :=
  modify (fun n => with_peerObjs (<[p := f (peerObj p n)]> (peerObjs n)) n).

Definition endpointOf (p : nat) (n : Node) : string := getEndpoint (socket (peerObj p n)).
Definition connected (p : nat) (n : Node) : bool := isConnected (socket (peerObj p n)).
Definition closePeerObj (p : nat) : M unit :=
  update_peer p (fun o => with_socket (closePeer (socket o)) o).

(** [peer->send(msg)] *)
Definition send (p : nat) (m : Message) : M unit :=
  q ← gets (fun n => queue (peerObj p n));
  r ← lift (peerSend m q);
  let '(q, _, started) := r in
  _ ← update_peer p (with_queue q);
  match started with
  | Some data => start (AsyncWrite p data)
  | None => mret tt
  end.

(** A new Peer object. *)
Definition makePeer (s : PeerSocket) : M nat :=
  p ← gets (fun n => fresh (dom (peerObjs n)));
  _ ← update_peer p (fun _ => newPeer s);
  mret p.

(** ** Node *)

Definition makeEndpoint (host : string) (port : Z) : string := host +:+ ":" +:+ to_string port.

Definition getPeerList : M (list string) :=
  with_peersMutex (gets (fun n =>
    map (fun p => endpointOf p n) (filter (fun p => connected p n = true) (peers_ n)))).

Definition refreshMetrics : M unit :=
  l ← getPeerList;
  _ ← modify (fun n => with_networkMetrics (setConnectedPeers (length l) (networkMetrics_ n)) n);
  _ ← modify (fun n => with_networkMetrics
        (setKnownPeers (length (getKnownPeers (peerManager_ n))) (networkMetrics_ n)) n);
  modify (fun n => with_networkMetrics
    (setBannedPeers (size (filter (fun e => banned e.2 = true) (getAllPeers (peerScorer_ n))))
      (networkMetrics_ n)) n).

Definition connectedPeerScores : M (list (string * Z)) :=
  peers ← getPeerList;
  gets (fun n => map (fun e => (e, getScore e (peerScorer_ n))) peers).

Definition broadcast (m : Message) (exclude : option nat) : M unit :=
  with_peersMutex (
    peers ← gets peers_;
    for_each peers (fun p =>
      c ← gets (connected p);
      if negb (bool_decide (Some p = exclude)) && c then send p m else mret tt)).

(** Insert into a capped [std::set]: while it is too large, drop its least. *)
Definition erase_begin (s : gset string) : gset string :=
  match sorted_keys s with
  | [] => s
  | x :: _ => s ∖ {[x]}
  end.
Definition insert_capped (cap : nat) (x : string) (s : gset string) : gset string :=
  let s := {[x]} ∪ s in
  Nat.iter (size s - cap) erase_begin s.

Definition noteTx (id : string) : M bool :=
  seen ← gets (fun n => bool_decide (id ∈ seenTxIDs_ n));
  if (seen : bool) then mret true
  else _ ← modify (fun n => with_seenTxIDs (insert_capped 10000 id (seenTxIDs_ n)) n); mret false.

Definition noteBlock (h : string) : M bool :=
  seen ← gets (fun n => bool_decide (h ∈ seenBlockHashes_ n));
  if (seen : bool) then mret true
  else _ ← modify (fun n => with_seenBlockHashes (insert_capped 1000 h (seenBlockHashes_ n)) n);
       mret false.

Definition broadcastTransaction (tx : Transaction) : M unit :=
  seen ← noteTx (txID tx);
  if (seen : bool) then mret tt
  else broadcast (mkMessage NEW_TRANSACTION (txToJson tx)) None.

Definition broadcastBlock (b : Block) : M unit :=
  seen ← noteBlock (hash b);
  if (seen : bool) then mret tt
  else broadcast (mkMessage NEW_BLOCK (blockToJson b)) None.

Definition requestChainFromPeers : M unit :=
  broadcast (mkMessage REQUEST_CHAIN (JObject [])) None.

Definition requestPeersFromAll : M unit :=
  id ← gets nodeIdentity_;
  broadcast (mkMessage REQUEST_PEERS
    (json_object [("requester", JString (identityEndpoint id)); ("nodeId", JString (nodeId id))])) None.

Definition getNodeIdentity : M json := gets (fun n => identityToJson (nodeIdentity_ n)).

Definition getNetworkStats : M json :=
  t ← steady_now;
  t' ← steady_now;
  gets (fun n =>
    json_set "quarantinedPeers" (JInteger (quarantinedPeerCount t' (peerManager_ n)))
      (json_set "connectionLimits" (json_object [
          ("maxOutboundPeers", JUnsigned (Z.of_nat (maxOutboundPeers (options_ n))));
          ("maxInboundPeers", JUnsigned (Z.of_nat (maxInboundPeers (options_ n))));
          ("currentOutboundPeers", JUnsigned (Z.of_nat (outboundCount (connectionManager_ n))));
          ("currentInboundPeers", JUnsigned (Z.of_nat (inboundCount (connectionManager_ n))))])
        (json_set "node" (identityToJson (nodeIdentity_ n))
          (metricsToJson t (networkMetrics_ n))))).

(** *** The blockchain's operations and its callbacks *)

(** The callbacks the constructor installed; [onBlockAccepted_] is not the
    node's. *)
Definition notify (ns : list notice) : M unit :=
  for_each ns (fun x =>
    match x with
    | BlockAdded b => broadcastBlock b
    | TransactionAdded tx => broadcastTransaction tx
    | BlockAccepted _ => mret tt
    end).

(** The body of an operation that writes to disk, against the faults to come; the
    mutex is held until the callbacks return. *)
Definition on_chain {A} (op : Blockchain -> prog (outcome A)) : M A := fun n =>
  match exec (op (blockchain_ n)) (faults n) (disk n) with
  | (None, fs, evs) => (with_faults evs (with_disk fs n), Dies)
  | (Some (bc, ns, r), fs, evs) =>
      (_ ← notify ns; lift r) (with_faults evs (with_disk fs (with_blockchain bc n)))
  end.

Definition addTransactionM (tx : Transaction) : M bool :=
  with_chainMutex
    (now ← system_now;
     bc ← gets blockchain_;
     let '(accepted, bc, ns) := addTransaction now tx bc in
     _ ← modify (with_blockchain bc);
     _ ← notify ns;
     mret accepted).

Definition acceptBlockM (b : Block) : M bool :=
  with_chainMutex (now ← system_now; on_chain (acceptBlock now b)).
Definition replaceChainM (c : list Block) : M bool :=
  with_chainMutex (now ← system_now; on_chain (replaceChain now c)).

(** *** Scores *)

Definition quarantine (endpoint : string) : M unit :=
  t ← steady_now;
  modify (fun n => with_peerManager
    (quarantinePeer t endpoint (quarantineSec (timeouts (options_ n))) (peerManager_ n)) n).

Definition unregister (endpoint : string) : M unit :=
  modify (fun n => with_connectionManager (unregisterConnection endpoint (connectionManager_ n)) n).
Definition registerC (endpoint : string) (d : ConnectionDirection) : M unit :=
  modify (fun n => with_connectionManager (registerConnection endpoint d (connectionManager_ n)) n).

(** The loop of [penalizePeerByEndpoint]: the first peer with the endpoint. *)
Fixpoint close_banned (endpoint : string) (peers : list nat) : M unit :=
  match peers with
  | [] => mret tt
  | p :: peers =>
      e ← gets (endpointOf p);
      if String.eqb e endpoint then
        _ ← closePeerObj p; _ ← quarantine endpoint; unregister endpoint
      else close_banned endpoint peers
  end.

Definition penalizePeerByEndpoint (endpoint : string) (penalty : Z) : M unit :=
  s ← gets peerScorer_;
  let '(s, isban) := penalizePeer endpoint penalty s in
  _ ← modify (with_peerScorer s);
  _ ← (if (isban : bool) then with_peersMutex (peers ← gets peers_; close_banned endpoint peers)
       else mret tt);
  refreshMetrics.

Definition rewardPeerByEndpoint (endpoint : string) (amount : Z) : M unit :=
  _ ← modify (fun n => with_peerScorer (rewardPeer endpoint amount (peerScorer_ n)) n);
  refreshMetrics.

Definition removePeer (p : nat) (quar : bool) : M unit :=
  endpoint ← gets (endpointOf p);
  _ ← (if quar then quarantine endpoint else mret tt);
  _ ← unregister endpoint;
  with_peersMutex (
    _ ← modify (fun n => with_peers
          (filter (fun q => negb (Nat.eqb q p || negb (connected q n)) = true) (peers_ n)) n);
    refreshMetrics).

(** *** Connections *)

Definition isAlreadyConnected (host : string) (port : Z) : M bool :=
  with_peersMutex (gets (fun n =>
    let endpoint := makeEndpoint host port in
    existsb (fun p =>
      let s := socket (peerObj p n) in
      if negb (isConnected s) then false
      else String.eqb (getEndpoint s) endpoint || (knownListenPort_ s =? port) || (getPort s =? port))
      (peers_ n))).

(** Close the first peer in the list with this endpoint. *)
Fixpoint close_first (endpoint : string) (peers : list nat) : M unit :=
  match peers with
  | [] => mret tt
  | p :: peers =>
      e ← gets (endpointOf p);
      if String.eqb e endpoint then closePeerObj p else close_first endpoint peers
  end.

(** The drop of a low-score peer, in [connectToPeer] and in [doAccept]. *)
Definition dropLowScore : M unit :=
  scores ← connectedPeerScores;
  let dropCandidate := selectLowestScorePeerToDrop scores in
  if negb (str_empty dropCandidate)
  then with_peersMutex (peers ← gets peers_; close_first dropCandidate peers)
  else mret tt.

Definition connectToPeer (host : string) (port retryCount : Z) : M unit :=
  own ← gets port_;
  if port =? own then mret tt else
  let endpoint := makeEndpoint host port in
  dup ← isAlreadyConnected host port;
  if (dup : bool) then mret tt else
  t ← steady_now;
  go ← gets (fun n => shouldAttemptConnection t endpoint
                        (reconnectCooldownMs (retryPolicy (options_ n))) (peerManager_ n));
  if negb go then mret tt else
  t ← steady_now;
  quarantined ← gets (fun n => isQuarantined t endpoint (peerManager_ n));
  if (quarantined : bool) then mret tt else
  isban ← gets (fun n => isBanned endpoint (peerScorer_ n));
  if (isban : bool) then mret tt else
  room ← gets (fun n => canAccept OUTBOUND (connectionManager_ n));
  _ ← (if negb room then dropLowScore else mret tt);
  room ← gets (fun n => canAccept OUTBOUND (connectionManager_ n));
  if negb room then
    modify (fun n => with_networkMetrics (incrementRejectedPeers (networkMetrics_ n)) n)
  else
    t ← steady_now;
    _ ← modify (fun n => with_peerManager (markDialAttempt t endpoint (peerManager_ n)) n);
    start (AsyncResolve host port retryCount).

(** Arithmetic in [int]; a shift or product that overflows is undefined in C++. *)
Definition retryDelay (p : RetryPolicy) (retryCount : Z) : Z :=
  int_min (i32 (baseDelayMs p * i32 (Z.shiftl 1 retryCount))) (maxDelayMs p).

Definition retryConnect (host : string) (port retryCount : Z) : M unit :=
  p ← gets (fun n => retryPolicy (options_ n));
  if maxRetries p <=? retryCount then quarantine (makeEndpoint host port)
  else
    jitter ← reading (fun i => uniform_int i 0 (int_max 0 (jitterMs p)));
    start (RetryTimer (i32 (retryDelay p retryCount + jitter)) host port retryCount).

Definition onRetryTimer (host : string) (port retryCount : Z) : M unit :=
  connectToPeer host port (retryCount + 1).

(** The resolver or the connection failed. *)
Definition onDialFailed (host : string) (port retryCount : Z) : M unit := retryConnect host port retryCount.

Definition addKnown (endpoint : string) : M unit :=
  modify (fun n => with_peerManager (addKnownPeer endpoint (peerManager_ n)) n).
Definition registerTopology (endpoint : string) : M unit :=
  modify (fun n => with_bootstrapManager (registerPeer endpoint (bootstrapManager_ n)) n).
Definition addScored (host : string) (port : Z) : M unit :=
  t ← steady_now;
  modify (fun n => with_peerScorer (addPeer t host port (peerScorer_ n)) n).
Definition pushPeer (p : nat) : M unit :=
  with_peersMutex (modify (fun n => with_peers (peers_ n ++ [p]) n)).

Definition sendNodeAnnounce (p : nat) : M unit :=
  id ← gets nodeIdentity_;
  own ← gets port_;
  send p (mkMessage NODE_ANNOUNCE (json_object [
    ("nodeId", JString (nodeId id)); ("publicKey", JString (publicKey id));
    ("publicIp", JString (advertisedIp id)); ("port", JUnsigned own);
    ("endpoint", JString (identityEndpoint id))])).

(** The connection to [host:port] is established. *)
Definition onConnected (s : PeerSocket) (host : string) (port : Z) : M unit :=
  let endpoint := makeEndpoint host port in
  p ← makePeer s;
  _ ← update_peer p (fun o => with_socket (setListenPort port (socket o)) o);
  _ ← addScored host port;
  _ ← addKnown endpoint;
  _ ← registerTopology endpoint;
  _ ← pushPeer p;
  _ ← registerC endpoint OUTBOUND;
  _ ← start (AsyncRead p);
  _ ← sendNodeAnnounce p;
  id ← gets nodeIdentity_;
  _ ← send p (mkMessage REGISTER_NODE (json_object [
        ("endpoint", JString (identityEndpoint id)); ("nodeId", JString (nodeId id))]));
  _ ← send p (mkMessage REQUEST_BOOTSTRAP (JObject []));
  _ ← send p (mkMessage REQUEST_PEERS (json_object [
        ("requester", JString (identityEndpoint id)); ("nodeId", JString (nodeId id))]));
  _ ← send p (mkMessage REQUEST_CHAIN (JObject []));
  refreshMetrics.

(** The acceptor's handler; [None] is an error code. *)
Definition onAccept (s : option PeerSocket) : M unit :=
  match s with
  | None => start AsyncAccept
  | Some s =>
      room ← gets (fun n => canAccept INBOUND (connectionManager_ n));
      _ ← (if negb room then dropLowScore else mret tt);
      room ← gets (fun n => canAccept INBOUND (connectionManager_ n));
      if negb room then
        _ ← modify (fun n => with_networkMetrics (incrementRejectedPeers (networkMetrics_ n)) n);
        start AsyncAccept
      else
        p ← makePeer s;
        let endpoint := getEndpoint s in
        _ ← addKnown endpoint;
        _ ← registerTopology endpoint;
        _ ← registerC endpoint INBOUND;
        _ ← pushPeer p;
        _ ← start (AsyncRead p);
        _ ← sendNodeAnnounce p;
        _ ← refreshMetrics;
        start AsyncAccept
  end.

(** *** Gossip *)

Fixpoint for_endpoints (l : list string) : M unit :=
  match l with
  | [] => mret tt
  | e :: l =>
      let '(ok, host, port) := parseEndpoint e EmptyString 0 in
      _ ← (if (ok : bool) then connectToPeer host port 0 else mret tt);
      for_endpoints l
  end.

Definition attemptRandomPeerExpansion : M unit :=
  outbound ← gets (fun n => outboundCount (connectionManager_ n));
  limit ← gets (fun n => maxOutboundPeers (options_ n));
  if Nat.leb limit outbound then mret tt else
  connectedPeers ← getPeerList;
  id ← gets nodeIdentity_;
  let exclude := connectedPeers ++ [identityEndpoint id] in
  let needed := (limit - outbound)%nat in
  t ← steady_now;
  perm ← reading shuffle;
  peers ← gets (fun n => getRandomPeers perm t (Nat.max needed 2) exclude (peerManager_ n));
  for_endpoints peers.

Definition connectToBootstrapPeers : M unit :=
  l ← gets (fun n => bootstrapPeers_ (bootstrapManager_ n));
  for_endpoints l.

(** The entries of a received list that are kept. *)
Fixpoint discover (entries : list json) : M (list string) :=
  match entries with
  | [] => mret []
  | JString endpoint :: entries =>
      id ← gets nodeIdentity_;
      own ← gets port_;
      let '(ok, host, port) := parseEndpoint endpoint EmptyString 0 in
      if str_empty endpoint || String.eqb endpoint (identityEndpoint id) then discover entries
      else if negb ok then discover entries
      else if port =? own then discover entries
      else
        isban ← gets (fun n => isBanned endpoint (peerScorer_ n));
        t ← steady_now;
        quarantined ← gets (fun n => isQuarantined t endpoint (peerManager_ n));
        if isban || quarantined then discover entries
        else rest ← discover entries; mret (endpoint :: rest)
  | _ :: entries => discover entries
  end.

Definition handleReceivedPeers (p : json) : M unit :=
  if negb (is_array p) then mret tt
  else
    discovered ← discover (json_items p);
    _ ← modify (fun n => with_peerManager (mergeKnownPeers discovered (peerManager_ n)) n);
    _ ← for_each discovered registerTopology;
    _ ← attemptRandomPeerExpansion;
    refreshMetrics.

(** *** Messages *)

(** [static_cast<int>(msg.type)]: the position in the enumeration. *)
Definition typeIndex (t : MessageType) : Z :=
  match t with
  | NEW_TRANSACTION => 0 | NEW_BLOCK => 1 | REQUEST_CHAIN => 2 | RESPONSE_CHAIN => 3
  | PING => 4 | PONG => 5 | PEER_LIST => 6 | REQUEST_PEERS => 7 | RESPONSE_PEERS => 8
  | NODE_ANNOUNCE => 9 | REGISTER_NODE => 10 | REQUEST_BOOTSTRAP => 11
  | RESPONSE_BOOTSTRAP => 12 | UNKNOWN => 13
  end.

Definition age (now t : Z) : Z := Z.quot (now - t) (10 ^ 9).

(** The duplicate filter: [true] when the message was seen within the window. *)
Definition isDuplicate (now : Z) (msg : Message) : M bool :=
  text ← lift (json_dump None (Peer.payload msg));
  let key := to_string (typeIndex (type msg)) +:+ ":" +:+ sha256 text in
  window ← gets (fun n => dedupWindowSec (timeouts (options_ n)));
  entry ← gets (fun n => messageDedup_ n !! key);
  if match entry with Some t => age now t <? window | None => false end then mret true
  else
    _ ← modify (fun n => with_messageDedup
          (filter (fun kt => (window <? age now kt.2) = false) (<[key := now]> (messageDedup_ n))) n);
    mret false.

Definition string_array (l : list string) : json := JArray (map JString l).

Definition topology (maxCount : nat) : M (list string) :=
  gets (fun n => knownTopology hash_order maxCount (bootstrapManager_ n)).

Definition handleNodeAnnounce (p : nat) (msg : Message) : M unit :=
  publicIp ← lift (value_string "publicIp" "" (Peer.payload msg));
  port ← lift (value_i32 "port" 0 (Peer.payload msg));
  let peerPort := u16 port in
  endpoint ← lift (value_string "endpoint" "" (Peer.payload msg));
  _ ← (if negb (str_empty publicIp) && (0 <? peerPort) then
         _ ← update_peer p (fun o => with_socket (setListenPort peerPort (socket o)) o);
         _ ← addScored publicIp peerPort;
         _ ← addKnown (makeEndpoint publicIp peerPort);
         registerTopology (makeEndpoint publicIp peerPort)
       else mret tt);
  if negb (str_empty endpoint) then _ ← addKnown endpoint; registerTopology endpoint
  else mret tt.

Definition sendBootstrap (p : nat) : M unit :=
  t ← topology 512;
  send p (mkMessage RESPONSE_BOOTSTRAP (string_array t)).

Definition handleRegisterNode (p : nat) (msg : Message) : M unit :=
  endpoint ← lift (value_string "endpoint" "" (Peer.payload msg));
  _ ← (if negb (str_empty endpoint) then _ ← registerTopology endpoint; addKnown endpoint
       else mret tt);
  sendBootstrap p.

Definition handleNewTransaction (p : nat) (peerKey : string) (msg : Message) : M unit :=
  try_or
    (tx ← lift (txFromJson (Peer.payload msg));
     alreadySeen ← noteTx (txID tx);
     if (alreadySeen : bool) then mret tt
     else
       accepted ← addTransactionM tx;
       if (accepted : bool) then
         _ ← rewardPeerByEndpoint peerKey REWARD_VALID_TX;
         broadcast (mkMessage NEW_TRANSACTION (Peer.payload msg)) (Some p)
       else penalizePeerByEndpoint peerKey PENALTY_INVALID_TX)
    (penalizePeerByEndpoint peerKey PENALTY_INVALID_TX).

Definition handleNewBlock (p : nat) (peerKey : string) (msg : Message) : M unit :=
  try_or
    (b ← lift (blockFromJson (Peer.payload msg));
     alreadySeen ← noteBlock (hash b);
     if (alreadySeen : bool) then mret tt
     else
       chain ← read_chain getChain;
       let size := Z.of_nat (length chain) in
       accepted ←
         (if (index b =? size) && String.eqb (previousHash b) (hash (tip chain)) then acceptBlockM b
          else if size <=? index b then
            _ ← send p (mkMessage REQUEST_CHAIN (JObject [])); mret false
          else mret false);
       if (accepted : bool) then
         _ ← rewardPeerByEndpoint peerKey REWARD_VALID_BLOCK;
         broadcast (mkMessage NEW_BLOCK (Peer.payload msg)) (Some p)
       else mret tt)
    (penalizePeerByEndpoint peerKey PENALTY_INVALID_BLOCK).

Definition handleRequestChain (p : nat) : M unit :=
  j ← read_chain chainToJson;
  send p (mkMessage RESPONSE_CHAIN j).

Definition handleResponseChain (peerKey : string) (msg : Message) : M unit :=
  try_or
    (newChain ← lift (rmap blockFromJson (json_items (Peer.payload msg)));
     replaced ← replaceChainM newChain;
     if (replaced : bool) then rewardPeerByEndpoint peerKey REWARD_VALID_BLOCK else mret tt)
    (penalizePeerByEndpoint peerKey PENALTY_INVALID_BLOCK).

(** [sort], then [erase] of [unique]: the distinct endpoints in order. *)
Definition handleRequestPeers (p : nat) : M unit :=
  known ← gets (fun n => getKnownPeers (peerManager_ n));
  id ← gets nodeIdentity_;
  t ← topology 256;
  let peers := sorted_keys (list_to_set (known ++ [identityEndpoint id] ++ t)) in
  send p (mkMessage RESPONSE_PEERS (string_array peers)).

Definition dispatch (p : nat) (peerKey : string) (msg : Message) : M unit :=
  match type msg with
  | NODE_ANNOUNCE => handleNodeAnnounce p msg
  | REGISTER_NODE => handleRegisterNode p msg
  | REQUEST_BOOTSTRAP => sendBootstrap p
  | RESPONSE_BOOTSTRAP => handleReceivedPeers (Peer.payload msg)
  | NEW_TRANSACTION => handleNewTransaction p peerKey msg
  | NEW_BLOCK => handleNewBlock p peerKey msg
  | REQUEST_CHAIN => handleRequestChain p
  | RESPONSE_CHAIN => handleResponseChain peerKey msg
  | PING => send p (mkMessage PONG (JObject []))
  | PONG =>
      t ← steady_now;
      modify (fun n => with_peerScorer (markPongReceived t peerKey (peerScorer_ n)) n)
  | REQUEST_PEERS => handleRequestPeers p
  | RESPONSE_PEERS | PEER_LIST => handleReceivedPeers (Peer.payload msg)
  | UNKNOWN => mret tt
  end.

(** [peer->isRateLimited(100)] *)
Definition rateLimited (p : nat) : M bool :=
  t ← steady_now;
  times ← gets (fun n => messageTimes_ (peerObj p n));
  let '(limited, times) := isRateLimited t 100 times in
  _ ← update_peer p (with_times times);
  mret limited.

(** [handleMessage] after its test of the ban. *)
Definition handleUnbanned (p : nat) (peerKey : string) (msg : Message) : M unit :=
  limited ← rateLimited p;
  if (limited : bool) then penalizePeerByEndpoint peerKey PENALTY_INVALID_TX else
  now ← steady_now;
  duplicate ← (match type msg with PING | PONG => mret false | _ => isDuplicate now msg end);
  if (duplicate : bool) then mret tt else
  t ← steady_now;
  _ ← modify (fun n => with_peerScorer (markSeen t peerKey (peerScorer_ n)) n);
  _ ← dispatch p peerKey msg;
  refreshMetrics.

Definition handleMessage (p : nat) (msg : Message) : M unit :=
  peerKey ← gets (endpointOf p);
  isban ← gets (fun n => isBanned peerKey (peerScorer_ n));
  if (isban : bool) then removePeer p true else handleUnbanned p peerKey msg.

(** *** Timers *)

Definition startHeartbeatTimer : M unit :=
  sec ← gets (fun n => heartbeatIntervalSec (timeouts (options_ n))); start (HeartbeatTimer sec).
Definition startGossipTimer : M unit :=
  sec ← gets (fun n => gossipIntervalSec (timeouts (options_ n))); start (GossipTimer sec).
Definition startPeerRotationTimer : M unit :=
  sec ← gets (fun n => peerRotationSec (timeouts (options_ n))); start (RotationTimer sec).

Definition onGossipTimer : M unit :=
  _ ← requestPeersFromAll;
  _ ← attemptRandomPeerExpansion;
  t ← steady_now;
  _ ← modify (fun n => with_peerScorer (evictStalePeers t 300 (peerScorer_ n)) n);
  _ ← refreshMetrics;
  startGossipTimer.

Definition onRotationTimer : M unit :=
  _ ← attemptRandomPeerExpansion;
  startPeerRotationTimer.

(** The clean-up of disconnected peers: each frees the slot of the endpoint it
    has now. *)
Fixpoint sweep (peers : list nat) : M (list nat) :=
  match peers with
  | [] => mret []
  | p :: peers =>
      c ← gets (connected p);
      if negb c then
        e ← gets (endpointOf p); _ ← unregister e; sweep peers
      else rest ← sweep peers; mret (p :: rest)
  end.

Definition ping (p : nat) : M unit :=
  e ← gets (endpointOf p);
  t ← steady_now;
  _ ← modify (fun n => with_peerScorer (markPingSent t e (peerScorer_ n)) n);
  send p (mkMessage PING (JObject [])).

(** Close the peers whose pong is overdue. *)
Definition closeTimedOut (peers : list nat) (endpoint : string) : M unit :=
  _ ← for_each peers (fun p =>
        e ← gets (endpointOf p);
        if String.eqb e endpoint then _ ← closePeerObj p; quarantine endpoint else mret tt);
  unregister endpoint.

Definition onHeartbeatTimer : M unit :=
  snapshot ← with_peersMutex (
    peers ← gets peers_;
    alive ← sweep peers;
    _ ← modify (with_peers alive);
    mret alive);
  _ ← for_each snapshot ping;
  t ← steady_now;
  timedOut ← gets (fun n => getHeartbeatTimeoutPeers t
                     (heartbeatTimeoutSec (timeouts (options_ n))) (peerScorer_ n));
  _ ← (match timedOut with
       | [] => mret tt
       | _ => with_peersMutex (peers ← gets peers_; for_each timedOut (closeTimedOut peers))
       end);
  _ ← refreshMetrics;
  startHeartbeatTimer.

(** [Node::start] *)
Definition startNode : M unit :=
  _ ← start AsyncAccept;
  _ ← startHeartbeatTimer;
  _ ← startGossipTimer;
  _ ← startPeerRotationTimer;
  _ ← connectToBootstrapPeers;
  start (SyncTimer 2).

(** [connectToPeer(port)] *)
Definition connectToLocalPeer (port : Z) : M unit := connectToPeer "127.0.0.1" port 0.

End node.

(** The constructor, with the identity [loadOrCreate] made. *)
Definition newNode (bc : Blockchain) (fs : FS) (evs : list event) (port now : Z) (options : NodeOptions)
    (identity : NodeIdentityRecord) : Node :=
  mkNode (setOnTransactionAdded (setOnBlockAdded bc)) fs evs port options identity ∅ [] false Free ∅ ∅ ∅ ∅
    (foldl (fun m e => addKnownPeer e m) emptyPeerManager (bootstrapNodes options))
    (setBootstrapPeers (bootstrapNodes options) emptyBootstrap)
    (newConnectionManager (maxOutboundPeers options) (maxInboundPeers options))
    (newMetrics now) [] 0.
