(* ===== verification/NodeFacts.v ===== *)
(** * NodeFacts: the events of the node, and the logics of its handlers

    The events of the node ([node_event]); relations that every handler keeps
    ([LocalRel], [EventRel]) and how the handlers end and leave the mutex of the
    peer list ([lock_ok]); what the node remembers of the hashes it has seen, along
    any history ([remembers]); the ledger under any history of events. *)

From S2P Require Import Prelude StdTime Json Crypto Transaction Block State Consensus Storage Blockchain SampleNode ChainInvariant Texts Peer PeerScorer PeerManager Connections Effects Node.
From stdpp Require Import relations.
#[local] Open Scope Z_scope.

(** ** Relations a computation keeps *)

Section keeps_node.
Variable R : Node -> Node -> Prop.
Context `{!PreOrder R}.

Lemma keeps_mutex {A} (m : M A) :
  (forall n b, R n (with_peersLocked b n)) -> keeps R m -> keeps R (with_peersMutex m).
Proof.
  intros Hl Hm n. unfold with_peersMutex. destruct (peersLocked n); [done|].
  specialize (Hm (with_peersLocked true n)).
  destruct (m (with_peersLocked true n)) as [n1 [a|e| | |]]; simpl in *;
    (etrans; [apply (Hl n true)|]); try done; (etrans; [exact Hm|apply Hl]).
Qed.

Lemma keeps_chain_mutex {A} (m : M A) :
  (forall n x, R n (with_chainLock x n)) -> keeps R m -> keeps R (with_chainMutex m).
Proof.
  intros Hl Hm n. unfold with_chainMutex. destruct (chainLock n); [|done..].
  specialize (Hm (with_chainLock Held n)).
  destruct (m (with_chainLock Held n)) as [n1 [a|e| | |]]; simpl in *;
    (etrans; [apply (Hl n Held)|]); try done; (etrans; [exact Hm|apply Hl]).
Qed.

Lemma keeps_reading {A} (f : nat -> A) :
  (forall n t, R n (with_ticks t n)) -> keeps R (reading f).
Proof. intros Ht n. apply Ht. Qed.

End keeps_node.

(** *** Computations that leave the ledger alone *)

(** The chain object and the disk are untouched, and so is what the node was
    constructed with. *)
Definition same_ledger (n n' : Node) : Prop :=
  blockchain_ n' = blockchain_ n /\ disk n' = disk n /\ faults n' = faults n.

#[export] Instance same_ledger_preorder : PreOrder same_ledger.
Proof.
  split; unfold same_ledger; [done|].
  intros n1 n2 n3 (? & ? & ?) (? & ? & ?). split_and!; congruence.
Qed.

(** The requests that arm a periodic timer. *)
Definition is_timer (r : request) : bool :=
  match r with HeartbeatTimer _ | GossipTimer _ | RotationTimer _ => true | _ => false end.

(** A relation kept by whatever touches neither the ledger nor a timer. *)
Class LocalRel (R : Node -> Node -> Prop) : Prop := {
  local_preorder :: PreOrder R;
  local_peerObjs n x : R n (with_peerObjs x n);
  local_peers n x : R n (with_peers x n);
  local_locked n x : R n (with_peersLocked x n);
  local_chainLock n x : R n (with_chainLock x n);
  local_seenTxIDs n x : R n (with_seenTxIDs (insert_capped 10000 x (seenTxIDs_ n)) n);
  local_seenBlockHashes n x : R n (with_seenBlockHashes (insert_capped 1000 x (seenBlockHashes_ n)) n);
  local_messageDedup n x : R n (with_messageDedup x n);
  local_peerScorer n x : R n (with_peerScorer x n);
  local_peerManager n x : R n (with_peerManager x n);
  local_bootstrapManager n x : R n (with_bootstrapManager x n);
  local_connectionManager n x : R n (with_connectionManager x n);
  local_networkMetrics n x : R n (with_networkMetrics x n);
  local_tick n : R n (with_ticks (S (ticks n)) n);
  local_start n r : is_timer r = false -> R n (with_requests (requests n ++ [r]) n)
}.

#[export] Instance same_ledger_local : LocalRel same_ledger.
Proof. split; try done. apply _. Qed.

Create HintDb node discriminated.
#[export] Hint Resolve keeps_ret keeps_gets keeps_lift : node.

(** A change of one member. *)
Ltac local_member :=
  first [ apply local_peerObjs | apply local_peers | apply local_locked | apply local_chainLock | apply local_seenTxIDs
        | apply local_seenBlockHashes | apply local_messageDedup | apply local_peerScorer
        | apply local_peerManager | apply local_bootstrapManager | apply local_connectionManager
        | apply local_networkMetrics | apply local_tick | by apply local_start | solve [auto 1]
        | done | apply rtc_refl ].

(** One structural step of a [keeps] goal. *)
Ltac keeps_step :=
  lazymatch goal with
  | |- keeps _ (mret _) => apply keeps_ret, _
  | |- keeps _ (gets _) => apply keeps_gets, _
  | |- keeps _ (lift _) => apply keeps_lift, _
  | |- keeps _ (modify _) => apply keeps_modify; intros ?; local_member
  | |- keeps _ (start _) => apply keeps_modify; intros ?; local_member
  | |- keeps _ (reading _) => intros ?; cbn [fst reading]; local_member
  | |- keeps _ (_ ≫= _) => apply keeps_bind; [apply _| |intros ?]
  | |- keeps _ (with_peersMutex _) => apply keeps_mutex; [apply _|intros ??; local_member|]
  | |- keeps _ (with_chainMutex _) => apply keeps_chain_mutex; [apply _|intros ??; local_member|]
  | |- keeps _ (read_chain _) => apply keeps_chain_mutex; [apply _|intros ??; local_member|apply keeps_gets, _]
  | |- keeps _ (for_each _ _) => apply keeps_for_each; [apply _|intros ?]
  | |- keeps _ (try_or _ _) => apply keeps_try; [apply _| |]
  | |- keeps _ (let '(_, _) := ?x in _) => destruct x
  | |- keeps _ (match ?x with _ => _ end) => destruct x
  end.
Ltac keeps_solve := repeat (keeps_step || solve [auto with node]).

Section local.
Context `{W : World} `{OS : OpenSSL} `{JT : JsonText}.
Context (R : Node -> Node -> Prop) {L : LocalRel R}.

Lemma local_send p m : keeps R (send p m).
Proof. unfold send, update_peer. keeps_solve. Qed.
#[local] Hint Resolve local_send : node.

Lemma local_makePeer s : keeps R (makePeer s).
Proof. unfold makePeer, update_peer. keeps_solve. Qed.

Lemma local_refreshMetrics : keeps R refreshMetrics.
Proof. unfold refreshMetrics, getPeerList. keeps_solve. Qed.
#[local] Hint Resolve local_makePeer local_refreshMetrics : node.

Lemma local_broadcast m ex : keeps R (broadcast m ex).
Proof. unfold broadcast. keeps_solve. Qed.
#[local] Hint Resolve local_broadcast : node.

Lemma local_note x : keeps R (noteTx x) /\ keeps R (noteBlock x).
Proof. unfold noteTx, noteBlock. split; keeps_solve. Qed.

Lemma local_notify ns : keeps R (notify ns).
Proof.
  pose proof (fun x => proj1 (local_note x)). pose proof (fun x => proj2 (local_note x)).
  unfold notify, broadcastTransaction, broadcastBlock. keeps_solve.
Qed.

Lemma local_quarantine e : keeps R (quarantine e).
Proof. unfold quarantine, steady_now. keeps_solve. Qed.
#[local] Hint Resolve local_quarantine local_notify : node.

Lemma local_close_banned e ps : keeps R (close_banned e ps).
Proof. induction ps; simpl; unfold closePeerObj, update_peer, unregister; keeps_solve. Qed.
#[local] Hint Resolve local_close_banned : node.

Lemma local_penalize e z : keeps R (penalizePeerByEndpoint e z).
Proof. unfold penalizePeerByEndpoint. keeps_solve. Qed.

Lemma local_reward e z : keeps R (rewardPeerByEndpoint e z).
Proof. unfold rewardPeerByEndpoint. keeps_solve. Qed.

Lemma local_removePeer p b : keeps R (removePeer p b).
Proof. unfold removePeer, unregister. keeps_solve. Qed.
#[local] Hint Resolve local_penalize local_reward local_removePeer : node.

Lemma local_dropLowScore : keeps R dropLowScore.
Proof.
  assert (Hc : forall e ps, keeps R (close_first e ps)).
  { intros e ps. induction ps; simpl; unfold closePeerObj, update_peer; keeps_solve. }
  unfold dropLowScore, connectedPeerScores, getPeerList. keeps_solve.
Qed.
#[local] Hint Resolve local_dropLowScore : node.

Lemma local_connectToPeer h p r : keeps R (connectToPeer h p r).
Proof. unfold connectToPeer, isAlreadyConnected, steady_now. keeps_solve. Qed.
#[local] Hint Resolve local_connectToPeer : node.

Lemma local_retryConnect h p r : keeps R (retryConnect h p r).
Proof. unfold retryConnect. keeps_solve. Qed.

Lemma local_announce p : keeps R (sendNodeAnnounce p).
Proof. unfold sendNodeAnnounce. keeps_solve. Qed.
#[local] Hint Resolve local_retryConnect local_announce : node.

Lemma local_onConnected s h p : keeps R (onConnected s h p).
Proof.
  unfold onConnected, update_peer, addScored, addKnown, registerTopology, pushPeer, registerC,
    steady_now. keeps_solve.
Qed.

Lemma local_onAccept s : keeps R (onAccept s).
Proof. unfold onAccept, addKnown, registerTopology, pushPeer, registerC. keeps_solve. Qed.

Lemma local_for_endpoints l : keeps R (for_endpoints l).
Proof. induction l; simpl; keeps_solve. Qed.
#[local] Hint Resolve local_for_endpoints : node.

Lemma local_expansion : keeps R attemptRandomPeerExpansion.
Proof. unfold attemptRandomPeerExpansion, getPeerList, steady_now. keeps_solve. Qed.

Lemma local_discover l : keeps R (discover l).
Proof. induction l; simpl; unfold steady_now; keeps_solve. Qed.
#[local] Hint Resolve local_expansion local_discover : node.

Lemma local_receivedPeers j : keeps R (handleReceivedPeers j).
Proof. unfold handleReceivedPeers, registerTopology. keeps_solve. Qed.
#[local] Hint Resolve local_receivedPeers : node.

Lemma local_isDuplicate t m : keeps R (isDuplicate t m).
Proof. unfold isDuplicate. keeps_solve. Qed.

Lemma local_rateLimited p : keeps R (rateLimited p).
Proof. unfold rateLimited, steady_now, update_peer. keeps_solve. Qed.
#[local] Hint Resolve local_isDuplicate local_rateLimited : node.

Lemma local_sendBootstrap p : keeps R (sendBootstrap p).
Proof. unfold sendBootstrap, topology. keeps_solve. Qed.
#[local] Hint Resolve local_sendBootstrap : node.

(** The messages that cannot touch the ledger. *)
Definition ledger_message (t : MessageType) : bool :=
  match t with NEW_TRANSACTION | NEW_BLOCK | RESPONSE_CHAIN => true | _ => false end.

Lemma local_dispatch p k m : ledger_message (type m) = false -> keeps R (dispatch p k m).
Proof.
  unfold dispatch. destruct (type m); intros Ht; try discriminate Ht; clear Ht;
    unfold handleNodeAnnounce, handleRegisterNode, handleRequestChain, handleRequestPeers, topology,
      update_peer, addScored, addKnown, registerTopology, steady_now; keeps_solve.
Qed.

(** A handler of a timer re-arms it, so it needs a relation that allows that. *)
Lemma local_timers :
  (forall n r, R n (with_requests (requests n ++ [r]) n)) ->
  keeps R onGossipTimer /\ keeps R onRotationTimer /\ keeps R onHeartbeatTimer /\ keeps R startNode.
Proof.
  intros Hstart. assert (Hs : forall l, keeps R (sweep l)).
  { induction l; simpl; unfold unregister; keeps_solve. }
  unfold onGossipTimer, onRotationTimer, onHeartbeatTimer, startNode, connectToBootstrapPeers,
    startGossipTimer, startHeartbeatTimer, startPeerRotationTimer, requestPeersFromAll, closeTimedOut,
    ping, closePeerObj, unregister, update_peer, steady_now.
  split_and!; keeps_solve.
Qed.

End local.

(** ** Events *)

(** What the event loop can run: the completion of an asynchronous operation, a
    message from a peer, or a call of the HTTP interface into the chain. *)
Inductive node_event : Type :=
| EvStart
| EvAccept (s : option PeerSocket)
| EvConnected (s : PeerSocket) (host : string) (port : Z)
| EvDialFailed (host : string) (port retryCount : Z)
| EvRetry (host : string) (port retryCount : Z)
| EvMessage (p : nat) (msg : Message)
| EvWriteDone (p : nat)
| EvWriteError (p : nat)
| EvReadError (p : nat)
| EvHeartbeat
| EvGossip
| EvRotation
| EvSync
| EvSubmit (tx : Transaction)
| EvMine (fuel : nat) (miner : string).

Section events.
Context `{W : World} `{OS : OpenSSL} `{JT : JsonText}.

Definition peerWriteDone (p : nat) : M unit :=
  q ← gets (fun n => queue (peerObj p n));
  let '(q, next) := onWriteDone q in
  _ ← update_peer p (with_queue q);
  match next with Some data => start (AsyncWrite p data) | None => mret tt end.

(** [minePendingTransactions] with [fuel] nonces to try. *)
Definition minePending (fuel : nat) (miner : string) : M Block :=
  with_chainMutex
    (t1 ← system_now;
     t2 ← system_now;
     bc ← gets blockchain_;
     match minePendingTransactions fuel t1 t2 miner bc with
     | None => unfinished
     | Some p => on_chain (fun _ => p)
     end).

Definition run_event (e : node_event) : M unit :=
  match e with
  | EvStart => startNode
  | EvAccept s => onAccept s
  | EvConnected s host port => onConnected s host port
  | EvDialFailed host port n => onDialFailed host port n
  | EvRetry host port n => onRetryTimer host port n
  | EvMessage p msg => handleMessage p msg
  | EvWriteDone p => peerWriteDone p
  | EvWriteError p => update_peer p (fun o => with_queue (onWriteError (queue o)) o)
  | EvReadError p => closePeerObj p
  | EvHeartbeat => onHeartbeatTimer
  | EvGossip => onGossipTimer
  | EvRotation => onRotationTimer
  | EvSync => requestChainFromPeers
  | EvSubmit tx => _ ← addTransactionM tx; mret tt
  | EvMine fuel miner => _ ← minePending fuel miner; mret tt
  end.

(** A history of the node: each event runs on the state the last one left,
    whatever its ending. *)
Definition after (n : Node) (es : list node_event) : Node := foldl (fun n e => (run_event e n).1) n es.

(** ** The ledger evolves by the blockchain's operations only *)

Definition evolves (n n' : Node) : Prop := rtc bstep (blockchain_ n) (blockchain_ n').

#[export] Instance evolves_preorder : PreOrder evolves.
Proof.
  split; [by intros n; apply rtc_refl|]. intros n1 n2 n3 H1 H2. unfold evolves in *. by etrans.
Qed.

(** A relation kept by whatever arms no timer: it allows the steps of the
    blockchain, with what they do to the disk. *)
Class EventRel (R : Node -> Node -> Prop) : Prop := {
  event_local :: LocalRel R;
  event_disk n evs fs : R n (with_faults evs (with_disk fs n));
  event_chain n bc : bstep (blockchain_ n) bc -> R n (with_blockchain bc n)
}.

#[export] Instance evolves_event : EventRel evolves.
Proof.
  split.
  - split; try (intros; apply rtc_refl). apply _.
  - intros. apply rtc_refl.
  - intros n bc Hs. by apply rtc_once.
Qed.

Lemma local_peer_writes (R : Node -> Node -> Prop) {L : LocalRel R} p :
  keeps R (peerWriteDone p) /\ keeps R (closePeerObj p) /\
  keeps R (update_peer p (fun o => with_queue (onWriteError (queue o)) o)).
Proof. unfold peerWriteDone, closePeerObj, update_peer. split_and!; keeps_solve. Qed.

Section steps.
Context (R : Node -> Node -> Prop) {ER : EventRel R}.

Lemma on_chain_steps {A} (op : Blockchain -> prog (outcome A)) n :
  (forall evs fs bc' ns r fs',
     run (op (blockchain_ n)) evs fs = (Some (bc', ns, r), fs') -> bstep (blockchain_ n) bc') ->
  R n (on_chain op n).1.
Proof.
  intros Hop. unfold on_chain. specialize (Hop (faults n) (disk n)). unfold run in Hop.
  destruct (exec (op (blockchain_ n)) (faults n) (disk n)) as [[[[[bc ns] r]|] fs] evs];
    [|apply event_disk].
  specialize (Hop bc ns r fs eq_refl).
  etrans; [by apply event_chain|]. etrans; [apply (event_disk _ evs fs)|].
  assert (Hn : keeps R (_ ← notify ns; lift r)).
  { apply keeps_bind; [apply _|apply local_notify, _|intros ?; apply keeps_lift, _]. }
  apply Hn.
Qed.

Lemma addTransaction_steps tx : keeps R (addTransactionM tx).
Proof.
  unfold addTransactionM, system_now. apply keeps_chain_mutex; [apply _|apply local_chainLock|].
  apply keeps_bind; [apply _|intros ?; apply local_tick|intros now].
  intros n. unfold mbind at 1, M_bind at 1, gets. cbn beta iota.
  pose proof (step_add now tx (blockchain_ n)) as Hstep.
  destruct (addTransaction now tx (blockchain_ n)) as [[accepted bc] ns]. cbn in Hstep.
  transitivity (with_blockchain bc n); [by apply event_chain|].
  assert (Hn : keeps R (_ ← notify ns; mret accepted)).
  { apply keeps_bind; [apply _|apply local_notify, _|intros ?; apply keeps_ret, _]. }
  apply Hn.
Qed.

Lemma accept_replace_steps :
  (forall b, keeps R (acceptBlockM b)) /\ (forall c, keeps R (replaceChainM c)).
Proof.
  split; intros x; unfold acceptBlockM, replaceChainM, system_now;
    (apply keeps_chain_mutex; [apply _|apply local_chainLock|]);
    (apply keeps_bind; [apply _|intros ?; apply local_tick|intros now n]);
    apply on_chain_steps; intros; by econstructor.
Qed.

Lemma minePending_steps fuel miner : keeps R (minePending fuel miner).
Proof.
  unfold minePending, system_now. apply keeps_chain_mutex; [apply _|apply local_chainLock|].
  do 2 (apply keeps_bind; [apply _|intros ?; apply local_tick|intros ?]).
  intros n. unfold mbind at 1, M_bind at 1, gets. cbn beta iota.
  destruct (minePendingTransactions fuel _ _ miner (blockchain_ n)) as [p|] eqn:E; [|reflexivity].
  apply on_chain_steps. intros. by econstructor.
Qed.

Lemma dispatch_steps p k m : keeps R (dispatch p k m).
Proof.
  destruct (ledger_message (type m)) eqn:Ht; [|by apply local_dispatch; [apply _|]].
  destruct accept_replace_steps as [Ha Hr]. pose proof addTransaction_steps as Hadd.
  pose proof (fun x => proj1 (local_note R x)). pose proof (fun x => proj2 (local_note R x)).
  pose proof (local_penalize R). pose proof (local_reward R). pose proof (local_broadcast R).
  pose proof (local_send R).
  unfold dispatch. destruct (type m); try discriminate Ht;
    unfold handleNewTransaction, handleNewBlock, handleResponseChain; repeat (keeps_step || auto).
Qed.

Lemma handleMessage_steps p msg : keeps R (handleMessage p msg).
Proof.
  pose proof dispatch_steps. pose proof (local_removePeer R). pose proof (local_rateLimited R).
  pose proof (local_penalize R). pose proof (local_isDuplicate R). pose proof (local_refreshMetrics R).
  unfold handleMessage, handleUnbanned, steady_now. repeat (keeps_step || auto).
Qed.

(** The events that arm timers. *)
Definition timer_event (e : node_event) : bool :=
  match e with EvStart | EvHeartbeat | EvGossip | EvRotation => true | _ => false end.

Lemma event_steps e : timer_event e = false -> keeps R (run_event e).
Proof.
  pose proof (local_onAccept R). pose proof (local_onConnected R). pose proof (local_retryConnect R).
  pose proof (local_connectToPeer R). pose proof handleMessage_steps. pose proof (local_broadcast R).
  pose proof addTransaction_steps. pose proof minePending_steps.
  destruct e; intros He; try discriminate He; cbn [run_event];
    unfold onDialFailed, onRetryTimer, requestChainFromPeers;
    try apply (local_peer_writes R); repeat (keeps_step || auto).
Qed.

End steps.

Lemma local_handleMessage p msg :
  ledger_message (type msg) = false -> keeps same_ledger (handleMessage p msg).
Proof.
  intros Ht. pose proof (fun p k => local_dispatch same_ledger p k msg Ht).
  pose proof (local_removePeer same_ledger). pose proof (local_rateLimited same_ledger).
  pose proof (local_penalize same_ledger). pose proof (local_isDuplicate same_ledger).
  pose proof (local_refreshMetrics same_ledger). unfold handleMessage, handleUnbanned, steady_now.
  repeat (keeps_step || auto).
Qed.

Lemma event_keeps (R : Node -> Node -> Prop) {ER : EventRel R} :
  (forall n r, R n (with_requests (requests n ++ [r]) n)) -> forall e, keeps R (run_event e).
Proof.
  intros Hstart e. destruct (local_timers R Hstart) as (Hg & Hr & Hh & Hs).
  destruct (timer_event e) eqn:He; [|by apply event_steps; [apply _|]].
  by destruct e.
Qed.

Lemma after_keeps (R : Node -> Node -> Prop) {ER : EventRel R} :
  (forall n r, R n (with_requests (requests n ++ [r]) n)) -> forall n es, R n (after n es).
Proof.
  intros Hstart n es. revert n. induction es as [|e es IH]; intros n; [reflexivity|]. simpl.
  etrans; [exact (event_keeps R Hstart e n)|apply IH].
Qed.

Lemma event_evolves e : keeps evolves (run_event e).
Proof. apply event_keeps; [apply _|]. intros. apply rtc_refl. Qed.

Lemma after_evolves n es : evolves n (after n es).
Proof. apply after_keeps; [apply _|]. intros. apply rtc_refl. Qed.

End events.

(** ** Locking *)

(** Started with [peersMutex_] in state [b] and the blockchain's mutex in state
    [c], the computation ends in one of the ways [ok] and leaves the mutexes so. *)
Definition locks (b : bool) (c : mutex) (n : Node) : Prop := peersLocked n = b /\ chainLock n = c.
Definition lock_ok (ok : kind -> Prop) (b : bool) (c : mutex) {A} (m : M A) : Prop :=
  holds (locks b c) ok m.

Definition not_deadlock (k : kind) : Prop := k <> KDeadlocks.
Abbreviation lock_safe := (lock_ok not_deadlock).

Lemma not_deadlock_ending {A} (e : ending A) : not_deadlock (kind_of e) <-> e <> Deadlocks.
Proof. unfold not_deadlock. by destruct e. Qed.

Lemma not_unfinished_ending {A} (e : ending A) : kind_of e <> KUnfinished <-> e <> Unfinished.
Proof. by destruct e. Qed.

(** Endings that include returning and exclude blocking, and that the messages
    [sendable] can be sent with; a ping is one. *)
Class LockKind `{JT : JsonText} (ok : kind -> Prop) (sendable : Message -> Prop) : Prop := {
  ok_returns : ok KReturns;
  ok_no_deadlock : ~ ok KDeadlocks;
  ok_send b c p m : sendable m -> lock_ok ok b c (send p m);
  ok_ping : sendable (mkMessage PING (JObject []))
}.

Section lock_rules.
Variables (ok : kind -> Prop) (b : bool) (c : mutex).
Hypothesis Hret : ok KReturns.

Lemma safe_ret {A} (a : A) : lock_ok ok b c (mret a).
Proof. by apply holds_ret. Qed.

Lemma safe_gets {A} (f : Node -> A) : lock_ok ok b c (gets f).
Proof. by apply holds_gets. Qed.

Lemma safe_modify f :
  (forall n, peersLocked (f n) = peersLocked n /\ chainLock (f n) = chainLock n) -> lock_ok ok b c (modify f).
Proof. intros Hf. apply holds_modify; [done|]. intros n [Hb Hc]. destruct (Hf n). split; congruence. Qed.

Lemma safe_reading {A} (f : nat -> A) : lock_ok ok b c (reading f).
Proof. by intros n. Qed.

Lemma safe_bind {A B} (m : M A) (f : A -> M B) :
  lock_ok ok b c m -> (forall a, lock_ok ok b c (f a)) -> lock_ok ok b c (m ≫= f).
Proof. by apply holds_bind. Qed.

Lemma safe_for_each {A} (l : list A) (f : A -> M unit) :
  (forall x, lock_ok ok b c (f x)) -> lock_ok ok b c (for_each l f).
Proof. by apply holds_for_each. Qed.

Lemma safe_try_with {A} (m : M A) h :
  lock_ok ok b c m -> (forall e, lock_ok ok b c (h e)) -> lock_ok ok b c (try_with m h).
Proof.
  intros Hm Hh. apply (holds_try_with _ (fun _ => True)); [done| |intros e _; apply Hh].
  eapply holds_weaken; [|exact Hm]. by right.
Qed.

End lock_rules.

Lemma safe_mutex (ok : kind -> Prop) c {A} (m : M A) :
  ~ ok KDeadlocks -> lock_ok ok true c m -> lock_ok ok false c (with_peersMutex m).
Proof.
  intros Hno Hm n [Hn Hc]. unfold with_peersMutex. rewrite Hn.
  destruct (Hm (with_peersLocked true n)) as [H1 H2]; [done|].
  destruct (m (with_peersLocked true n)) as [n1 [a|e| | |]]; simpl in *; try done;
    (split; [done|]; intros Hk; by destruct (H2 Hk)).
Qed.

Lemma safe_chain_mutex (ok : kind -> Prop) b {A} (m : M A) :
  ~ ok KDeadlocks -> lock_ok ok b Held m -> lock_ok ok b Free (with_chainMutex m).
Proof.
  intros Hno Hm n [Hn Hc]. unfold with_chainMutex. rewrite Hc.
  destruct (Hm (with_chainLock Held n)) as [H1 H2]; [done|].
  destruct (m (with_chainLock Held n)) as [n1 [a|e| | |]]; simpl in *; try done;
    (split; [done|]; intros Hk; by destruct (H2 Hk)).
Qed.

Lemma safe_read_chain (ok : kind -> Prop) b {A} (f : Blockchain -> A) :
  ok KReturns -> lock_ok ok b Free (read_chain f).
Proof. intros Hok n [Hn Hc]. unfold read_chain, with_chainMutex. by rewrite Hc. Qed.

Create HintDb lock discriminated.

Ltac safe_step :=
  lazymatch goal with
  | |- lock_ok _ _ _ (mret _) => apply safe_ret, ok_returns
  | |- lock_ok _ _ _ (gets _) => apply safe_gets, ok_returns
  | |- lock_ok _ _ _ (lift _) => apply holds_lift; done
  | |- lock_ok _ _ _ (modify _) => apply safe_modify; [apply ok_returns|done]
  | |- lock_ok _ _ _ (start _) => apply safe_modify; [apply ok_returns|done]
  | |- lock_ok _ _ _ unfinished => done
  | |- lock_ok _ _ _ (reading _) => apply safe_reading, ok_returns
  | |- lock_ok _ _ _ (send _ _) => eapply ok_send
  | |- lock_ok _ _ _ (_ ≫= _) => apply safe_bind; [|intros ?]
  | |- lock_ok _ _ _ (with_peersMutex _) => apply safe_mutex; [apply ok_no_deadlock|]
  | |- lock_ok _ _ _ (with_chainMutex _) => apply safe_chain_mutex; [apply ok_no_deadlock|]
  | |- lock_ok _ _ _ (read_chain _) => apply safe_read_chain, ok_returns
  | |- lock_ok _ _ _ (for_each _ _) => apply safe_for_each; [apply ok_returns|intros ?]
  | |- lock_ok _ _ _ (try_or _ _) => apply safe_try_with; [|intros ?]
  | |- lock_ok _ _ _ (let '(_, _) := ?x in _) => destruct x
  | |- lock_ok _ _ _ (match ?x with _ => _ end) => destruct x
  end.
Ltac safe_solve := repeat (safe_step || solve [auto with lock]).

(** *** Handlers that only send *)

(** The message of [requestPeersFromAll]. *)
Definition peersRequest (id : NodeIdentityRecord) : Message :=
  mkMessage REQUEST_PEERS
    (json_object [("requester", JString (identityEndpoint id)); ("nodeId", JString (nodeId id))]).

Section locking.
Context `{W : World} `{OS : OpenSSL} `{JT : JsonText}.
Context (ok : kind -> Prop) (sendable : Message -> Prop) (c : mutex) {LK : LockKind ok sendable}.

Lemma safe_refreshMetrics : lock_ok ok false c refreshMetrics.
Proof. unfold refreshMetrics, getPeerList. safe_solve. Qed.
#[local] Hint Resolve safe_refreshMetrics : lock.

Lemma safe_broadcast m ex : sendable m -> lock_ok ok false c (broadcast m ex).
Proof. intros Hm. unfold broadcast. safe_solve. Qed.
#[local] Hint Resolve safe_broadcast : lock.

(** The messages that tell of a notice. *)
Definition notice_sendable (x : notice) : Prop :=
  match x with
  | TransactionAdded tx => sendable (mkMessage NEW_TRANSACTION (txToJson tx))
  | BlockAdded b => sendable (mkMessage NEW_BLOCK (blockToJson b))
  | BlockAccepted _ => True
  end.

Lemma safe_notify ns : Forall notice_sendable ns -> lock_ok ok false c (notify ns).
Proof.
  unfold notify. induction 1 as [|x ns Hx _ IH]; [apply safe_ret, ok_returns|]. cbn [for_each].
  apply safe_bind; [|by intros []].
  destruct x; cbn [notice_sendable] in Hx; unfold broadcastTransaction, broadcastBlock, noteTx, noteBlock; safe_solve.
Qed.

Lemma safe_quarantine b e : lock_ok ok b c (quarantine e).
Proof. unfold quarantine, steady_now. safe_solve. Qed.
#[local] Hint Resolve safe_quarantine : lock.

Lemma safe_closing e ps : lock_ok ok true c (close_banned e ps) /\ lock_ok ok true c (close_first e ps).
Proof. split; induction ps; simpl; unfold closePeerObj, update_peer, unregister; safe_solve. Qed.

Lemma safe_penalize e z : lock_ok ok false c (penalizePeerByEndpoint e z).
Proof.
  pose proof (fun e ps => proj1 (safe_closing e ps)). unfold penalizePeerByEndpoint. safe_solve.
Qed.

Lemma safe_reward e z : lock_ok ok false c (rewardPeerByEndpoint e z).
Proof. unfold rewardPeerByEndpoint. safe_solve. Qed.

Lemma safe_dropLowScore : lock_ok ok false c dropLowScore.
Proof.
  pose proof (fun e ps => proj2 (safe_closing e ps)).
  unfold dropLowScore, connectedPeerScores, getPeerList. safe_solve.
Qed.
#[local] Hint Resolve safe_penalize safe_reward safe_dropLowScore : lock.

Lemma safe_connectToPeer h p r : lock_ok ok false c (connectToPeer h p r).
Proof. unfold connectToPeer, isAlreadyConnected, steady_now. safe_solve. Qed.
#[local] Hint Resolve safe_connectToPeer : lock.

Lemma safe_retryConnect h p r : lock_ok ok false c (retryConnect h p r).
Proof. unfold retryConnect. safe_solve. Qed.

Lemma safe_for_endpoints l : lock_ok ok false c (for_endpoints l).
Proof. induction l; simpl; safe_solve. Qed.
#[local] Hint Resolve safe_for_endpoints : lock.

Lemma safe_expansion : lock_ok ok false c attemptRandomPeerExpansion.
Proof. unfold attemptRandomPeerExpansion, getPeerList, steady_now. safe_solve. Qed.
#[local] Hint Resolve safe_expansion : lock.

Lemma safe_discover l : lock_ok ok false c (discover l).
Proof. induction l; simpl; unfold steady_now; safe_solve. Qed.
#[local] Hint Resolve safe_discover : lock.

Lemma safe_sweep l : lock_ok ok true c (sweep l).
Proof. induction l; simpl; unfold unregister; safe_solve. Qed.
#[local] Hint Resolve safe_sweep : lock.
#[local] Hint Extern 1 (sendable (mkMessage PING _)) => apply ok_ping : lock.

Lemma safe_timers :
  lock_ok ok false c onRotationTimer /\ lock_ok ok false c onHeartbeatTimer /\ lock_ok ok false c startNode.
Proof.
  unfold onRotationTimer, onHeartbeatTimer, startNode, connectToBootstrapPeers,
    startGossipTimer, startHeartbeatTimer, startPeerRotationTimer, closeTimedOut,
    ping, closePeerObj, unregister, update_peer, steady_now.
  split_and!; safe_solve.
Qed.

(** The gossip round sends the node's identity. *)
Lemma safe_gossip n :
  sendable (peersRequest (nodeIdentity_ n)) -> locks false c n ->
  ok (kind_of (onGossipTimer n).2) /\ (kind_of (onGossipTimer n).2 <> KUnfinished -> locks false c (onGossipTimer n).1).
Proof.
  intros Hm Hn.
  set (rest := _ ← attemptRandomPeerExpansion; t ← steady_now;
    _ ← modify (fun n => with_peerScorer (evictStalePeers t 300 (peerScorer_ n)) n);
    _ ← refreshMetrics; startGossipTimer).
  change (onGossipTimer n) with ((_ ← broadcast (peersRequest (nodeIdentity_ n)) None; rest) n).
  assert (H : lock_ok ok false c (_ ← broadcast (peersRequest (nodeIdentity_ n)) None; rest)); [|by apply H].
  subst rest. unfold startGossipTimer, steady_now. safe_solve.
Qed.

(** With every message sendable. *)
Hypothesis sendable_all : forall m, sendable m.
#[local] Hint Resolve sendable_all : lock.

Lemma safe_notify_all ns : lock_ok ok false c (notify ns).
Proof. apply safe_notify. apply Forall_forall. intros [] _; cbn; auto. Qed.
#[local] Hint Resolve safe_notify_all : lock.

Lemma safe_onConnected s h p : lock_ok ok false c (onConnected s h p).
Proof.
  unfold onConnected, makePeer, update_peer, addScored, addKnown, registerTopology, pushPeer, registerC,
    sendNodeAnnounce, steady_now. safe_solve.
Qed.

Lemma safe_onAccept s : lock_ok ok false c (onAccept s).
Proof.
  unfold onAccept, makePeer, update_peer, addKnown, registerTopology, pushPeer, registerC,
    sendNodeAnnounce. safe_solve.
Qed.

(** The body of an operation of the chain may die with the process, or raise what it
    raises. *)
Lemma safe_on_chain {A} (op : Blockchain -> prog (outcome A)) :
  ok KDies ->
  (forall bc evs fs bc' ns e fs', run (op bc) evs fs = (Some (bc', ns, Throw e), fs') -> ok (KRaises e)) ->
  lock_ok ok false c (on_chain op).
Proof.
  intros Hd Hop n Hn. unfold on_chain. pose proof (Hop (blockchain_ n) (faults n) (disk n)) as He. unfold run in He.
  destruct (exec (op (blockchain_ n)) (faults n) (disk n)) as [[[[[bc ns] r]|] fs] evs]; [|done].
  apply safe_bind; [apply safe_notify_all|intros _; apply holds_lift; [apply ok_returns|]|done].
  intros e ->. by eapply He.
Qed.

End locking.

(** The operations of the blockchain, under its mutex. *)
Section chain_locking.
Context `{W : World} `{OS : OpenSSL} `{JT : JsonText}.
Context (ok : kind -> Prop) (sendable : Message -> Prop) {LK : LockKind ok sendable}.
Hypothesis sendable_all : forall m, sendable m.

Lemma safe_addTransaction tx : lock_ok ok false Free (addTransactionM tx).
Proof. pose proof (safe_notify_all ok sendable Held sendable_all). unfold addTransactionM, system_now. safe_solve. Qed.

Lemma safe_minePending fuel miner {JTS : JsonTextSpec JT} :
  ok KDies -> ok KUnfinished -> (forall e, is_ascii (what e) = true -> ok (KRaises e)) ->
  lock_ok ok false Free (minePending fuel miner).
Proof.
  intros Hd Hu He. unfold minePending, system_now. apply safe_chain_mutex; [apply ok_no_deadlock|].
  do 2 (apply safe_bind; [apply safe_reading, ok_returns|intros ?]).
  apply safe_bind; [apply safe_gets, ok_returns|intros bc].
  destruct (minePendingTransactions fuel a a0 miner bc) as [p|] eqn:E; [|by intros n Hn].
  apply (safe_on_chain _ sendable); [done..|]. intros _ evs fs bc' ns e fs' Hrun. apply He. unfold run in Hrun.
  destruct (exec p evs fs) as [[o fs1] evs1] eqn:Ex. cbn [fst] in Hrun. injection Hrun as -> ->.
  by apply (exec_leaves _ _ (leaves_mining _ _ _ _ _ _ E)) in Ex; apply Ex.
Qed.

End chain_locking.

(** *** Kinds of endings *)

Lemma send_endings `{JT : JsonText} (ok : kind -> Prop) b c p m :
  ok KReturns -> (forall e, serialize m = Throw e -> ok (KRaises e)) -> lock_ok ok b c (send p m).
Proof.
  intros Hret Hok. unfold send, update_peer.
  apply safe_bind; [by apply safe_gets|intros q]. apply safe_bind.
  - apply holds_lift; [done|]. intros e He. apply Hok. unfold peerSend in He.
    destruct (serialize m) as [s|e']; [|by injection He as ->]. cbn [rbind] in He.
    by destruct (enqueue s q) as [[? ?] ?].
  - intros [[q' sent] w]. apply safe_bind; [by apply safe_modify|intros _].
    destruct w; [by apply safe_modify|by apply safe_ret].
Qed.

(** Any but blocking. *)
#[export] Instance not_deadlock_kind `{JT : JsonText} : LockKind not_deadlock (fun _ => True).
Proof. split; [done|by intros H| |done]. intros b c p m _. by apply send_endings. Qed.

(** Returning, when the text of the messages is UTF-8. *)
Definition message_utf8 (m : Message) : Prop := json_utf8 (messageJson m) = true.

#[export] Instance returns_kind `{JT : JsonText} {JTS : JsonTextSpec JT} : LockKind (eq KReturns) message_utf8.
Proof.
  split; [done|done| |done]. intros b c p m Hm. apply send_endings; [done|]. intros e He. unfold serialize in He.
  destruct (dump_total None _ Hm) as [s Hs]. by rewrite Hs in He.
Qed.

(** Returning, or an exception with an ASCII text; when [live], also dying in a
    disk operation or searching on for a nonce. *)
Definition plain_ending (live : bool) (k : kind) : Prop :=
  match k with
  | KReturns => True
  | KRaises e => is_ascii (what e) = true
  | KDeadlocks => False
  | KDies | KUnfinished => live = true
  end.

#[export] Instance plain_kind `{JT : JsonText} {JTS : JsonTextSpec JT} live :
  LockKind (plain_ending live) (fun _ => True).
Proof.
  split; [done|by intros []| |done]. intros b c p m _. apply send_endings; [done|]. intros e He.
  unfold serialize in He. destruct (json_dump None (messageJson m)) as [s|x] eqn:E; [done|].
  injection He as <-. by eapply dump_raises.
Qed.

(** *** Handlers that may raise *)

Section raising.
Context `{W : World} `{OS : OpenSSL} `{JT : JsonText}.

#[local] Hint Extern 1 (lock_ok not_deadlock _ _ _) =>
  first [ eapply safe_refreshMetrics, _ | eapply (safe_broadcast _ (fun _ => True) _); exact I
        | eapply (safe_notify_all _ (fun _ => True) _); done
        | eapply safe_quarantine, _ | eapply safe_penalize, _ | eapply safe_reward, _
        | eapply safe_connectToPeer, _ | eapply safe_expansion, _ | eapply safe_discover, _
        | eapply (safe_addTransaction _ (fun _ => True)); done ] : lock.

Lemma safe_chain_op {A} c (op : Blockchain -> prog (outcome A)) : lock_safe false c (on_chain op).
Proof. by apply (safe_on_chain _ (fun _ => True) _ (fun _ => I)). Qed.
#[local] Hint Resolve safe_chain_op : lock.

Lemma safe_dispatch p k m : lock_safe false Free (dispatch p k m).
Proof.
  unfold dispatch, handleNodeAnnounce, handleRegisterNode, sendBootstrap, handleReceivedPeers,
    handleNewTransaction, handleNewBlock, handleResponseChain, handleRequestChain, handleRequestPeers,
    noteTx, noteBlock, acceptBlockM, replaceChainM, topology, update_peer, addScored, addKnown,
    registerTopology, steady_now, system_now.
  safe_solve.
Qed.
#[local] Hint Resolve safe_dispatch : lock.

Lemma safe_handleUnbanned p k m : lock_safe false Free (handleUnbanned p k m).
Proof. unfold handleUnbanned, rateLimited, isDuplicate, update_peer, steady_now. safe_solve. Qed.

(** The events other than a message from a banned peer. *)
Definition banned_message (n : Node) (e : node_event) : bool :=
  match e with
  | EvMessage p _ => isBanned (endpointOf p n) (peerScorer_ n)
  | _ => false
  end.

Lemma safe_event e :
  match e with EvMessage _ _ => True | _ => lock_safe false Free (run_event e) end.
Proof.
  destruct (safe_timers not_deadlock (fun _ => True) Free) as (Hr & Hh & Hs).
  pose proof (fun n => safe_gossip not_deadlock (fun _ => True) Free n I).
  pose proof (safe_onAccept not_deadlock _ Free (fun _ => I)).
  pose proof (safe_retryConnect not_deadlock (fun _ => True) Free).
  pose proof (safe_onConnected not_deadlock _ Free (fun _ => I)).
  destruct e; cbn [run_event]; try done;
    unfold onDialFailed, onRetryTimer, peerWriteDone, minePending, closePeerObj, update_peer,
      requestChainFromPeers, system_now; safe_solve.
Qed.

Lemma event_safe n e :
  banned_message n e = false -> locks false Free n ->
  (run_event e n).2 <> Deadlocks /\ ((run_event e n).2 <> Unfinished -> locks false Free (run_event e n).1).
Proof.
  rewrite <- not_deadlock_ending, <- not_unfinished_ending. intros Hb Hn. pose proof (safe_event e) as He.
  destruct e; try (by apply He). cbn [banned_message run_event] in *.
  unfold handleMessage, mbind, M_bind, gets. rewrite Hb. by apply safe_handleUnbanned.
Qed.

End raising.

(** ** Elementary effects *)

Section effects.
Context `{W : World} `{OS : OpenSSL} `{JT : JsonText}.

Lemma banned_message_blocks p msg n c :
  isBanned (endpointOf p n) (peerScorer_ n) = true -> locks false c n ->
  (handleMessage p msg n).2 = Deadlocks /\ locks true c (handleMessage p msg n).1.
Proof.
  intros Hb [Hn Hc]. unfold handleMessage, mbind, M_bind, gets. rewrite Hb.
  unfold removePeer, quarantine, unregister, refreshMetrics, getPeerList, steady_now, reading,
    with_peersMutex, modify, mbind, M_bind, gets. simpl. rewrite Hn. done.
Qed.

Lemma erase_begin_incl s x : x ∈ erase_begin s -> x ∈ s.
Proof. unfold erase_begin. case_match; set_solver. Qed.

Lemma insert_capped_small cap x s :
  (size s < cap)%nat -> insert_capped cap x s = {[x]} ∪ s.
Proof.
  intros Hs. unfold insert_capped.
  replace (size ({[x]} ∪ s) - cap)%nat with 0%nat; [done|].
  destruct (decide (x ∈ s)) as [Hx|Hx].
  - rewrite (subseteq_union_1_L {[x]} s) by set_solver. lia.
  - rewrite size_union, size_singleton by set_solver. lia.
Qed.

Lemma size_erase_begin s : (size s <= S (size (erase_begin s)))%nat.
Proof.
  unfold erase_begin. destruct (sorted_keys s) as [|y l]; [lia|]. rewrite size_difference_alt.
  assert (size (s ∩ {[y]}) <= size ({[y]} : gset string))%nat as H by (apply subseteq_size; set_solver).
  rewrite size_singleton in H. lia.
Qed.

(** A full set stays full. *)
Lemma insert_capped_full cap x s : (cap <= size s)%nat -> (cap <= size (insert_capped cap x s))%nat.
Proof.
  intros Hs. unfold insert_capped. assert (Hu : (cap <= size ({[x]} ∪ s))%nat).
  { etrans; [exact Hs|]. apply subseteq_size. set_solver. }
  revert Hu. generalize ({[x]} ∪ s). clear s Hs. intros s Hs.
  assert (H : forall k, (size s <= k + size (Nat.iter k erase_begin s))%nat).
  { induction k as [|k IH]; [done|].
    change (Nat.iter (S k) erase_begin s) with (erase_begin (Nat.iter k erase_begin s)).
    pose proof (size_erase_begin (Nat.iter k erase_begin s)). lia. }
  specialize (H (size s - cap)%nat). lia.
Qed.

(** *** What was seen stays seen while the set is not full *)

Definition remembers (seen : Node -> gset string) (cap : nat) (n n' : Node) : Prop :=
  (size (seen n') < cap)%nat -> seen n ⊆ seen n'.

#[export] Instance remembers_preorder seen cap : PreOrder (remembers seen cap).
Proof.
  split; unfold remembers; [intros n _ x Hx; exact Hx|]. intros n1 n2 n3 H1 H2 H3. specialize (H2 H3).
  etrans; [|exact H2]. apply H1. pose proof (subseteq_size _ _ H2). lia.
Qed.

Lemma remembers_insert cap x s : (size (insert_capped cap x s) < cap)%nat -> s ⊆ insert_capped cap x s.
Proof.
  intros H. destruct (decide (size s < cap)%nat) as [Hs|Hs].
  - rewrite insert_capped_small by done. set_solver.
  - pose proof (insert_capped_full cap x s). lia.
Qed.

#[export] Instance remembers_txs : EventRel (remembers seenTxIDs_ 10000).
Proof.
  split; [split|..]; try (intros; unfold remembers; intros _ y Hy; exact Hy); [apply _|].
  intros n x. unfold remembers. cbn [seenTxIDs_ with_seenTxIDs]. apply remembers_insert.
Qed.

#[export] Instance remembers_blocks : EventRel (remembers seenBlockHashes_ 1000).
Proof.
  split; [split|..]; try (intros; unfold remembers; intros _ y Hy; exact Hy); [apply _|].
  intros n x. unfold remembers. cbn [seenBlockHashes_ with_seenBlockHashes]. apply remembers_insert.
Qed.

Lemma still_seen_tx n es x :
  x ∈ seenTxIDs_ n -> (size (seenTxIDs_ (after n es)) < 10000)%nat -> x ∈ seenTxIDs_ (after n es).
Proof. intros Hx Hs. by apply (after_keeps (remembers seenTxIDs_ 10000) (fun _ _ _ _ Hy => Hy) n es). Qed.

Lemma still_seen_block n es x :
  x ∈ seenBlockHashes_ n -> (size (seenBlockHashes_ (after n es)) < 1000)%nat -> x ∈ seenBlockHashes_ (after n es).
Proof. intros Hx Hs. by apply (after_keeps (remembers seenBlockHashes_ 1000) (fun _ _ _ _ Hy => Hy) n es). Qed.

Lemma noteBlock_seen h n : h ∈ seenBlockHashes_ n -> noteBlock h n = (n, Returns true).
Proof. intros Hh. unfold noteBlock, mbind, M_bind, gets. by rewrite bool_decide_eq_true_2. Qed.

Lemma noteBlock_new h n :
  h ∉ seenBlockHashes_ n ->
  noteBlock h n =
  (with_seenBlockHashes (insert_capped 1000 h (seenBlockHashes_ n)) n, Returns false).
Proof.
  intros Hh. unfold noteBlock, mbind, M_bind, gets. by rewrite bool_decide_eq_false_2.
Qed.

Lemma noteTx_seen h n : h ∈ seenTxIDs_ n -> noteTx h n = (n, Returns true).
Proof. intros Hh. unfold noteTx, mbind, M_bind, gets. by rewrite bool_decide_eq_true_2. Qed.

Lemma noteTx_new h n :
  h ∉ seenTxIDs_ n ->
  noteTx h n = (with_seenTxIDs (insert_capped 10000 h (seenTxIDs_ n)) n, Returns false).
Proof. intros Hh. unfold noteTx, mbind, M_bind, gets. by rewrite bool_decide_eq_false_2. Qed.

(** An operation of the blockchain that returns, when its mutex is free. *)
Lemma chain_mutex_free {A} (m : M A) n n' a :
  chainLock n = Free -> m (with_chainLock Held n) = (n', Returns a) ->
  with_chainMutex m n = (with_chainLock Free n', Returns a).
Proof. intros Hc Hm. unfold with_chainMutex. by rewrite Hc, Hm. Qed.

Lemma read_chain_free {A} (f : Blockchain -> A) n :
  chainLock n = Free -> read_chain f n = (n, Returns (f (blockchain_ n))).
Proof. intros Hc. unfold read_chain, with_chainMutex, gets. destruct n. cbn in Hc. by subst. Qed.

(** A block message whose hash was seen, or whose index is below the length of
    the chain, changes nothing but the set of hashes. *)
Lemma handleNewBlock_seen p k j b n :
  blockFromJson j = Ok b -> hash b ∈ seenBlockHashes_ n ->
  handleNewBlock p k (mkMessage NEW_BLOCK j) n = (n, Returns tt).
Proof.
  intros Hj Hs. unfold handleNewBlock, try_or, try_with, mbind, M_bind, lift. cbn [Peer.payload].
  by rewrite Hj, noteBlock_seen.
Qed.

Lemma handleNewBlock_old p k j b n :
  blockFromJson j = Ok b -> hash b ∉ seenBlockHashes_ n -> chainLock n = Free ->
  index b < Z.of_nat (length (chain_ (blockchain_ n))) ->
  handleNewBlock p k (mkMessage NEW_BLOCK j) n =
  (with_seenBlockHashes (insert_capped 1000 (hash b) (seenBlockHashes_ n)) n, Returns tt).
Proof.
  intros Hj Hs Hc Hi. unfold handleNewBlock, try_or, try_with, mbind, M_bind, lift. cbn [Peer.payload].
  rewrite Hj, noteBlock_new, read_chain_free by done. unfold getChain. cbn [blockchain_ with_seenBlockHashes].
  rewrite (proj2 (Z.eqb_neq _ _)) by lia. cbn [andb].
  by rewrite (proj2 (Z.leb_gt _ _)) by lia.
Qed.

End effects.

(** ** Properties *)

Section properties.
Context `{W : World} `{OS : OpenSSL} `{JT : JsonText}.

(** Whatever the node is sent and whatever its timers, connections, clocks,
    shuffles and disk faults do, its ledger changes only by operations of the
    blockchain: along any history of events the blockchain invariant holds and
    the chain is kept or replaced by a longer one. *)
Lemma node_ledger_refines (n : Node) (es : list node_event) :
  chain_inv (blockchain_ n) ->
  rtc bstep (blockchain_ n) (blockchain_ (after n es)) /\
  chain_inv (blockchain_ (after n es)) /\
  (chain_ (blockchain_ (after n es)) = chain_ (blockchain_ n) \/
   (length (chain_ (blockchain_ n)) < length (chain_ (blockchain_ (after n es))))%nat).
Proof.
  intros Hinv. pose proof (after_evolves n es) as Hr. unfold evolves in Hr. split; [done|].
  split; [|by apply chain_steps_grow]. by eapply chain_steps_inv.
Qed.

(** Only three kinds of messages can touch the ledger: any other message,
    and any timer or connection event, leaves the chain object and the disk as
    they are. *)
Lemma ledger_messages_only (n : Node) (e : node_event) :
  match e with
  | EvMessage _ msg => ledger_message (type msg) = false
  | EvSubmit _ | EvMine _ _ => False
  | _ => True
  end ->
  same_ledger n (run_event e n).1.
Proof.
  intros He. destruct (local_timers same_ledger) as (Hg & Hr & Hh & Hs); [done|].
  destruct e; try (exfalso; exact He); cbn [run_event].
  - exact (Hs n).
  - exact (local_onAccept same_ledger _ n).
  - exact (local_onConnected same_ledger _ _ _ n).
  - exact (local_retryConnect same_ledger _ _ _ n).
  - exact (local_connectToPeer same_ledger _ _ _ n).
  - exact (local_handleMessage p msg He n).
  - exact (proj1 (local_peer_writes same_ledger p) n).
  - exact (proj2 (proj2 (local_peer_writes same_ledger p)) n).
  - exact (proj1 (proj2 (local_peer_writes same_ledger p)) n).
  - exact (Hh n).
  - exact (Hg n).
  - exact (Hr n).
  - exact (local_broadcast same_ledger _ _ n).
Qed.

End properties.
