(* ===== verification/NodeSafety.v ===== *)
(** * NodeSafety: what the node's handlers do

    Relaying, bans, locking and malformed messages, on the definitions of Node.v
    with the relations and lemmas of NodeFacts.v. *)

From S2P Require Import Prelude StdTime Json Crypto Transaction Block State Consensus Storage Blockchain SampleNode ChainInvariant Peer PeerScorer PeerManager Connections Effects Node NodeFacts.
#[local] Open Scope Z_scope.

Section safety.
Context `{W : World} `{OS : OpenSSL} `{JT : JsonText}.

(** ** Sending *)

(** A peer object after [send] of a message that prints as [s]. *)
Definition delivered (s : string) (o : PeerObj) : PeerObj :=
  with_queue (enqueue s (queue o)).1.1 o.

(** Nothing but the peer objects and the started operations differs. *)
Definition only_sends (n n' : Node) : Prop :=
  exists o r, n' = with_requests r (with_peerObjs o n).

(** The peers of [targets] got the message, the others are as they were. *)
Definition sent (s : string) (targets : list nat) (n n' : Node) : Prop :=
  only_sends n n' /\
  forall q, peerObj q n' =
    if bool_decide (q ∈ targets) then delivered s (peerObj q n) else peerObj q n.

Lemma peerObj_insert q p o n :
  peerObj q (with_peerObjs (<[p := o]> (peerObjs n)) n) = if bool_decide (q = p) then o else peerObj q n.
Proof.
  unfold peerObj. simpl. case_bool_decide; [by subst; rewrite lookup_insert_eq|].
  by rewrite lookup_insert_ne.
Qed.

Lemma only_sends_refl n : only_sends n n.
Proof. exists (peerObjs n), (requests n). by destruct n. Qed.

Lemma only_sends_trans n1 n2 n3 : only_sends n1 n2 -> only_sends n2 n3 -> only_sends n1 n3.
Proof. intros (o & r & ->) (o' & r' & ->). by exists o', r'. Qed.

Lemma send_sent p m s n :
  serialize m = Ok s -> exists n', send p m n = (n', Returns tt) /\ sent s [p] n n'.
Proof.
  intros Hs. unfold send, update_peer, start, lift, modify, gets, mbind, M_bind, peerSend.
  rewrite Hs. cbn [rbind].
  destruct (enqueue s (queue (peerObj p n))) as [[q' added] [data|]] eqn:E; cbn;
    (eexists; split; [reflexivity|]); split.
  - by eexists _, _.
  - intros q. unfold delivered. 
    change (peerObj q (with_peerObjs (<[p := with_queue q' (peerObj p n)]> (peerObjs n)) n) =
      if bool_decide (q ∈ [p]) then with_queue (enqueue s (queue (peerObj q n))).1.1 (peerObj q n)
      else peerObj q n).
    rewrite peerObj_insert. rewrite (bool_decide_ext (q ∈ [p]) (q = p)) by set_solver.
    case_bool_decide; [subst; by rewrite E|done].
  - exists (<[p := with_queue q' (peerObj p n)]> (peerObjs n)), (requests n). by destruct n.
  - intros q. unfold delivered. rewrite peerObj_insert.
    rewrite (bool_decide_ext (q ∈ [p]) (q = p)) by set_solver.
    case_bool_decide; [subst; by rewrite E|done].
Qed.

Lemma sent_connected s ts n n' q : sent s ts n n' -> connected q n' = connected q n.
Proof. intros [_ Hq]. unfold connected. rewrite (Hq q). by case_bool_decide. Qed.

Lemma sent_nil s n : sent s [] n n.
Proof. split; [apply only_sends_refl|]. intros q. by rewrite bool_decide_eq_false_2 by set_solver. Qed.

Lemma sent_app s ts1 ts2 n1 n2 n3 :
  sent s ts1 n1 n2 -> sent s ts2 n2 n3 -> (forall q, q ∈ ts1 -> q ∉ ts2) -> sent s (ts1 ++ ts2) n1 n3.
Proof.
  intros [H1 Hq1] [H2 Hq2] Hd. split; [by eapply only_sends_trans|]. intros q.
  rewrite (Hq2 q), (Hq1 q). specialize (Hd q).
  repeat case_bool_decide; set_solver.
Qed.

(** Who a broadcast reaches. *)
Definition reaches (n : Node) (exclude : option nat) (p : nat) : bool :=
  negb (bool_decide (Some p = exclude)) && connected p n.
Definition targets (n : Node) (exclude : option nat) : list nat :=
  filter (fun p => reaches n exclude p = true) (peers_ n).

Lemma broadcast_loop m s ex ps n :
  serialize m = Ok s -> NoDup ps ->
  exists n',
    for_each ps (fun p =>
      c ← gets (connected p);
      if negb (bool_decide (Some p = ex)) && c then send p m else mret tt) n = (n', Returns tt) /\
    sent s (filter (fun p => reaches n ex p = true) ps) n n'.
Proof.
  intros Hs. revert n. induction ps as [|p ps IH]; intros n Hnd.
  { exists n. split; [done|apply sent_nil]. }
  apply NoDup_cons in Hnd as [Hp Hnd]. cbn [for_each].
  assert (Hstep : exists n1,
    (c ← gets (connected p); if negb (bool_decide (Some p = ex)) && c then send p m else mret tt) n
      = (n1, Returns tt) /\ sent s (filter (fun p => reaches n ex p = true) [p]) n n1).
  { unfold mbind at 1, M_bind at 1, gets. cbn beta iota. rewrite filter_cons, filter_nil.
    change (negb (bool_decide (Some p = ex)) && connected p n) with (reaches n ex p).
    destruct (decide (reaches n ex p = true)) as [E|E].
    - rewrite E. by apply send_sent.
    - apply not_true_is_false in E. rewrite E. exists n. split; [done|apply sent_nil]. }
  destruct Hstep as (n1 & E1 & S1). destruct (IH n1 Hnd) as (n' & E2 & S2). exists n'. split.
  - unfold mbind at 1, M_bind at 1. rewrite E1. exact E2.
  - change (p :: ps) with ([p] ++ ps). rewrite filter_app. eapply sent_app; [exact S1| |].
    + rewrite (list_filter_iff _ (fun p => reaches n1 ex p = true)); [exact S2|].
      intros q. unfold reaches. by rewrite (sent_connected _ _ _ _ _ S1).
    + intros q [_ Hq]%list_elem_of_filter [_ Hq']%list_elem_of_filter. set_solver.
Qed.

Lemma broadcast_sent m s ex n :
  serialize m = Ok s -> NoDup (peers_ n) -> peersLocked n = false ->
  exists n', broadcast m ex n = (n', Returns tt) /\ sent s (targets n ex) n n'.
Proof.
  intros Hs Hnd Hl. unfold broadcast, with_peersMutex. rewrite Hl.
  unfold mbind at 1, M_bind at 1, gets at 1. cbn beta iota.
  destruct (broadcast_loop m s ex (peers_ n) (with_peersLocked true n) Hs Hnd) as (n' & E & Hsent).
  change (peers_ (with_peersLocked true n)) with (peers_ n). rewrite E.
  destruct Hsent as [(o & r & ->) Hq]. eexists. split; [reflexivity|]. split.
  - exists o, r. by rewrite <- Hl; destruct n.
  - exact Hq.
Qed.

(** ** Metrics and scores *)

(** Nothing but the counters differs. *)
Lemma refreshMetrics_returns n :
  peersLocked n = false ->
  exists mt, refreshMetrics n = (with_networkMetrics mt n, Returns tt).
Proof.
  intros Hl. unfold refreshMetrics, getPeerList, with_peersMutex, modify, gets, mbind, M_bind.
  rewrite Hl. cbn. eexists. rewrite <- Hl. by destruct n.
Qed.

Lemma reward_returns k z n :
  peersLocked n = false ->
  exists mt, rewardPeerByEndpoint k z n =
    (with_networkMetrics mt (with_peerScorer (rewardPeer k z (peerScorer_ n)) n), Returns tt).
Proof.
  intros Hl. unfold rewardPeerByEndpoint, modify, mbind, M_bind.
  by apply refreshMetrics_returns.
Qed.

(** The blockchain after a transaction was admitted. *)
Definition admitted (tx : Transaction) (bc : Blockchain) : Blockchain :=
  bump_version (set_mempool (mempool_ bc ++ [tx]) bc).

(** The callback of [addTransaction] finds the identifier already seen. *)
Lemma addTransactionM_accepts tx n :
  chainLock n = Free -> acceptable (system_clock (ticks n)) tx (blockchain_ n) -> txID tx ∈ seenTxIDs_ n ->
  addTransactionM tx n =
  (with_blockchain (admitted tx (blockchain_ n)) (with_ticks (S (ticks n)) n), Returns true).
Proof.
  intros Hc Ha Hs. unfold addTransactionM.
  rewrite (chain_mutex_free _ n (with_blockchain (admitted tx (blockchain_ n)) (with_ticks (S (ticks n))
    (with_chainLock Held n))) true Hc); [destruct n; cbn in *; by subst|].
  unfold system_now, reading, mbind, M_bind, gets.
  cbn [blockchain_ with_ticks with_chainLock ticks]. rewrite addTransaction_accepts by done. unfold modify.
  destruct (onTransactionAdded_ (blockchain_ n)); [|done].
  unfold notify. cbn [for_each]. unfold broadcastTransaction, mbind, M_bind.
  by rewrite noteTx_seen.
Qed.

(** What a relayed transaction leaves, step by step. *)
Lemma handleNewTransaction_accepts p k j tx s n :
  locks false Free n -> NoDup (peers_ n) ->
  txFromJson j = Ok tx -> serialize (mkMessage NEW_TRANSACTION j) = Ok s ->
  txID tx ∉ seenTxIDs_ n -> (size (seenTxIDs_ n) < 10000)%nat ->
  acceptable (system_clock (ticks n)) tx (blockchain_ n) ->
  exists mt n',
    let n1 := with_networkMetrics mt (with_peerScorer (rewardPeer k REWARD_VALID_TX (peerScorer_ n))
      (with_blockchain (admitted tx (blockchain_ n)) (with_ticks (S (ticks n))
        (with_seenTxIDs ({[txID tx]} ∪ seenTxIDs_ n) n)))) in
    handleNewTransaction p k (mkMessage NEW_TRANSACTION j) n = (n', Returns tt) /\
    sent s (targets n (Some p)) n1 n'.
Proof.
  intros [Hl Hc] Hnd Hj Hs Hns Hsz Ha.
  set (n0 := with_seenTxIDs ({[txID tx]} ∪ seenTxIDs_ n) n).
  assert (E0 : addTransactionM tx n0 = (with_blockchain (admitted tx (blockchain_ n))
    (with_ticks (S (ticks n)) n0), Returns true)).
  { apply (addTransactionM_accepts tx n0 Hc Ha). simpl. set_solver. }
  destruct (reward_returns k REWARD_VALID_TX
    (with_blockchain (admitted tx (blockchain_ n)) (with_ticks (S (ticks n)) n0))) as [mt E1]; [done|].
  change (peerScorer_ (with_blockchain _ _)) with (peerScorer_ n) in E1.
  destruct (broadcast_sent (mkMessage NEW_TRANSACTION j) s (Some p)
    (with_networkMetrics mt (with_peerScorer (rewardPeer k REWARD_VALID_TX (peerScorer_ n))
      (with_blockchain (admitted tx (blockchain_ n)) (with_ticks (S (ticks n)) n0)))))
    as (n' & E2 & Hsent); [done..|].
  exists mt, n'. cbv zeta. split; [|exact Hsent].
  unfold handleNewTransaction, try_or, try_with. cbn [Peer.payload].
  unfold mbind at 1, M_bind at 1, lift at 1. rewrite Hj.
  unfold mbind at 1, M_bind at 1. rewrite noteTx_new, insert_capped_small by done. fold n0.
  unfold mbind at 1, M_bind at 1. rewrite E0.
  unfold mbind at 1, M_bind at 1. rewrite E1. by rewrite E2.
Qed.

(** ** Bans *)

(** The node after peer [q] of endpoint [e] was closed for a ban. *)
Definition struck (q : nat) (e : string) (n : Node) : Node :=
  with_connectionManager (unregisterConnection e (connectionManager_ n))
    (with_peerManager (quarantinePeer (steady_clock (ticks n)) e
        (quarantineSec (timeouts (options_ n))) (peerManager_ n))
      (with_ticks (S (ticks n))
        (with_peerObjs
          (<[q := with_socket (closePeer (socket (peerObj q n))) (peerObj q n)]> (peerObjs n)) n))).

Lemma close_banned_cases e ps n :
  (exists q, q ∈ ps /\ endpointOf q n = e /\ close_banned e ps n = (struck q e n, Returns tt)) \/
  ((forall q, q ∈ ps -> endpointOf q n <> e) /\ close_banned e ps n = (n, Returns tt)).
Proof.
  induction ps as [|p ps IH]; [right; split; [set_solver|done]|].
  cbn [close_banned]. unfold mbind at 1 4, M_bind at 1 4, gets at 1 2. cbn beta iota.
  destruct (String.eqb_spec (endpointOf p n) e) as [He|He].
  - left. exists p. split_and!; [set_solver|done|done].
  - destruct IH as [(q & Hin & Hq & E)|[Hno E]].
    + left. exists q. split_and!; [set_solver|done|exact E].
    + right. split; [set_solver|exact E].
Qed.

Lemma struck_facts q e n t :
  connected q (struck q e n) = false /\ slots_ (connectionManager_ (struck q e n)) !! e = None /\
  (t < steady_clock (ticks n) + seconds (quarantineSec (timeouts (options_ n))) ->
   isQuarantined t e (peerManager_ (struck q e n)) = true).
Proof.
  split_and!.
  - unfold connected, peerObj, struck. simpl. by rewrite lookup_insert_eq.
  - simpl. apply lookup_delete_eq.
  - intros Ht. unfold isQuarantined. simpl. rewrite lookup_insert_eq. by apply Z.ltb_lt.
Qed.

(** The dialler turns away a banned endpoint without starting anything. *)
Lemma banned_not_dialled h pt r n :
  peersLocked n = false -> isBanned (makeEndpoint h pt) (peerScorer_ n) = true ->
  requests (connectToPeer h pt r n).1 = requests n /\ (connectToPeer h pt r n).2 = Returns tt.
Proof.
  intros Hl Hb. unfold connectToPeer, isAlreadyConnected, with_peersMutex, steady_now, reading, mbind,
    M_bind, gets. cbv beta.
  destruct (pt =? port_ n); [done|]. cbn. rewrite Hl. cbn.
  case_match; cbn; try done.
  case_match; cbn; try done.
  case_match; cbn; try done. by rewrite Hb.
Qed.

Lemma penalize_bans key z s :
  (penalizePeer key z s).2 = true -> isBanned key (penalizePeer key z s).1 = true.
Proof.
  unfold penalizePeer, isBanned. destruct (s !! key) as [i|]; [|done].
  destruct (PeerScorer.penalize z i) as [i' b] eqn:E. simpl. intros ->. rewrite lookup_insert_eq.
  unfold PeerScorer.penalize in E. revert E. repeat case_if; by intros [= <-].
Qed.

(** ** A locked peer list *)

Lemma blocked_timers n :
  peersLocked n = true -> (run_event EvHeartbeat n).2 = Deadlocks /\ (run_event EvGossip n).2 = Deadlocks.
Proof.
  intros Hl. cbn [run_event].
  unfold onHeartbeatTimer, onGossipTimer, requestPeersFromAll, broadcast, with_peersMutex, mbind,
    M_bind, gets. by rewrite Hl.
Qed.

(** A transaction that is admitted is told to the peers under the mutex of the
    blockchain. *)
Lemma blocked_submit tx n :
  locks true Free n -> acceptable (system_clock (ticks n)) tx (blockchain_ n) ->
  onTransactionAdded_ (blockchain_ n) = true -> txID tx ∉ seenTxIDs_ n ->
  (run_event (EvSubmit tx) n).2 = Deadlocks /\
  forall A (op : M A), with_chainMutex op (run_event (EvSubmit tx) n).1 = ((run_event (EvSubmit tx) n).1, Deadlocks).
Proof.
  intros [Hl Hc] Ha Hcb Hns. cbn [run_event].
  assert (E : exists n', addTransactionM tx n = (n', Deadlocks) /\ chainLock n' = Held).
  { unfold addTransactionM, with_chainMutex. rewrite Hc.
    unfold system_now, reading, mbind, M_bind, gets. cbn [blockchain_ with_ticks with_chainLock ticks].
    rewrite addTransaction_accepts by done. rewrite Hcb. unfold modify, notify. cbn [for_each].
    unfold broadcastTransaction, broadcast, with_peersMutex, mbind, M_bind, gets. cbn beta iota.
    rewrite noteTx_new by done. cbn. rewrite Hl. by eexists. }
  destruct E as (n' & E & Hn'). unfold mbind, M_bind. rewrite E. split; [done|]. intros A op. unfold with_chainMutex.
  cbn [fst]. by rewrite Hn'.
Qed.

(** ** Properties *)

(** C16: with the mutexes free and fewer than 10000 identifiers seen, an unseen
    transaction that satisfies the admission conditions, received from peer [p]
    under the endpoint [k], is appended to the mempool; [k] gains one point, up to
    200; the message is queued, unchanged, to every connected peer but [p] and to
    nobody else (a queue that already holds 1000 messages drops it); and when it
    comes again from anyone, at once or after any later events during which the set
    of identifiers has not filled up, the node does nothing at all with it. *)
Theorem relay_exact (p : nat) (k : string) (j : json) (tx : Transaction) (s : string) (n : Node) :
  locks false Free n -> NoDup (peers_ n) ->
  txFromJson j = Ok tx -> serialize (mkMessage NEW_TRANSACTION j) = Ok s ->
  txID tx ∉ seenTxIDs_ n -> (size (seenTxIDs_ n) < 10000)%nat ->
  acceptable (system_clock (ticks n)) tx (blockchain_ n) ->
  exists n', handleNewTransaction p k (mkMessage NEW_TRANSACTION j) n = (n', Returns tt) /\
    mempool_ (blockchain_ n') = mempool_ (blockchain_ n) ++ [tx] /\
    chain_ (blockchain_ n') = chain_ (blockchain_ n) /\
    peerScorer_ n' = rewardPeer k REWARD_VALID_TX (peerScorer_ n) /\
    (forall q, peerObj q n' =
       if bool_decide (q ∈ peers_ n /\ q <> p /\ connected q n = true)
       then delivered s (peerObj q n) else peerObj q n) /\
    (forall es p' k' j' tx', es = [] \/ (size (seenTxIDs_ (after n' es)) < 10000)%nat ->
       txFromJson j' = Ok tx' -> txID tx' = txID tx ->
       handleNewTransaction p' k' (mkMessage NEW_TRANSACTION j') (after n' es) = (after n' es, Returns tt)).
Proof.
  intros Hl Hnd Hj Hs Hns Hsz Ha.
  destruct (handleNewTransaction_accepts p k j tx s n) as (mt & n' & E & (o & r & ->) & Hq); [done..|].
  eexists. split; [exact E|]. split_and!; [done..| |].
  - intros q. rewrite (Hq q).
    erewrite bool_decide_ext; [reflexivity|]. unfold targets, reaches.
    rewrite list_elem_of_filter, andb_true_iff, negb_true_iff, bool_decide_eq_false. naive_solver.
  - match goal with |- forall es, _ => intros es p' k' j' tx' Hes Hj' Hid end.
    unfold handleNewTransaction, try_or, try_with. cbn [Peer.payload].
    unfold mbind at 1, M_bind at 1, lift at 1. rewrite Hj'.
    unfold mbind at 1, M_bind at 1. rewrite noteTx_seen; [done|]. rewrite Hid.
    destruct Hes as [->|Hes]; [|apply still_seen_tx; [|done]]; simpl; set_solver.
Qed.

(** C17: the node blocks for ever exactly when it is given a message from a peer
    whose endpoint is banned: handling it locks the peer list a second time, and
    then every later event that needs the list blocks too. So does the call back
    of the next new transaction submitted, and it holds the mutex of the blockchain:
    from then on nothing about the chain can be read or changed. Every other event
    ends with the mutexes free, unless it is still searching for a nonce. *)
Theorem deadlock_exact (n : Node) (e : node_event) :
  locks false Free n ->
  ((run_event e n).2 = Deadlocks <-> banned_message n e = true) /\
  (banned_message n e = false -> (run_event e n).2 <> Unfinished -> locks false Free (run_event e n).1) /\
  (banned_message n e = true ->
   let n1 := (run_event e n).1 in
   (run_event EvHeartbeat n1).2 = Deadlocks /\ (run_event EvGossip n1).2 = Deadlocks /\
   forall tx, acceptable (system_clock (ticks n1)) tx (blockchain_ n1) ->
     onTransactionAdded_ (blockchain_ n1) = true -> txID tx ∉ seenTxIDs_ n1 ->
     let n2 := (run_event (EvSubmit tx) n1).1 in
     (run_event (EvSubmit tx) n1).2 = Deadlocks /\
     (forall A (op : M A), with_chainMutex op n2 = (n2, Deadlocks))).
Proof.
  intros Hn. pose proof (event_safe n e) as Hsafe. destruct (banned_message n e) eqn:Hb.
  - destruct e; try discriminate Hb. destruct (banned_message_blocks p msg n Free Hb Hn) as [H1 H2].
    cbn [run_event]. split_and!; [done|done|intros _]. set (n1 := (handleMessage p msg n).1) in *. cbv zeta.
    split_and!; [by apply blocked_timers, H2..|]. intros tx Ha Hcb Hns. by apply blocked_submit.
  - destruct (Hsafe eq_refl Hn) as [H1 H2]. split_and!; [|done|done]. split; [|done]. by intros ?.
Qed.

(** C20: with the mutex of the blockchain free and fewer than 1000 block hashes seen,
    a forged block message that carries the hash of a block to come (an index below
    the chain's length is enough) changes nothing in the ledger and is not
    penalised; from then on, through any later events, for as long as the set of
    hashes has not filled up, the true block is ignored from every peer. *)
Theorem forged_block_suppresses (n : Node) (p : nat) (k : string) (j : json) (b : Block) :
  blockFromJson j = Ok b -> index b < Z.of_nat (length (chain_ (blockchain_ n))) ->
  (size (seenBlockHashes_ n) < 1000)%nat -> chainLock n = Free ->
  let n1 := (handleNewBlock p k (mkMessage NEW_BLOCK j) n).1 in
  same_ledger n n1 /\ peerScorer_ n1 = peerScorer_ n /\
  (forall es p' k' j' b', es = [] \/ (size (seenBlockHashes_ (after n1 es)) < 1000)%nat ->
     blockFromJson j' = Ok b' -> hash b' = hash b ->
     handleNewBlock p' k' (mkMessage NEW_BLOCK j') (after n1 es) = (after n1 es, Returns tt)).
Proof.
  intros Hj Hi Hsz Hc n1.
  assert (E : exists s, n1 = with_seenBlockHashes s n /\ hash b ∈ s).
  { unfold n1. destruct (decide (hash b ∈ seenBlockHashes_ n)) as [Hin|Hnin].
    - exists (seenBlockHashes_ n). rewrite (handleNewBlock_seen _ _ _ b) by done. by destruct n.
    - eexists. rewrite (handleNewBlock_old _ _ _ b) by done. split; [done|].
      rewrite insert_capped_small by done. set_solver. }
  destruct E as (s & -> & Hin). split_and!; [done..|]. intros es p' k' j' b' Hes Hj' Hh.
  apply (handleNewBlock_seen _ _ _ b'); [done|]. rewrite Hh.
  destruct Hes as [->|Hes]; [done|]. by apply still_seen_block.
Qed.

(** C19: a penalty that bans is enforced at once: the call ends, a peer of that
    endpoint in the list is closed, its slot is freed and the endpoint is in
    quarantine for the configured time; and while the ban lasts the node does
    not dial the endpoint. *)
Theorem ban_enforced (n : Node) (e : string) (z : Z) :
  peersLocked n = false -> (penalizePeer e z (peerScorer_ n)).2 = true ->
  let n' := (penalizePeerByEndpoint e z n).1 in
  (penalizePeerByEndpoint e z n).2 = Returns tt /\
  isBanned e (peerScorer_ n') = true /\
  ((exists q, q ∈ peers_ n /\ endpointOf q n = e) ->
   (exists q, q ∈ peers_ n /\ endpointOf q n = e /\ connected q n' = false) /\
   slots_ (connectionManager_ n') !! e = None /\
   (forall t, t < steady_clock (ticks n) + seconds (quarantineSec (timeouts (options_ n))) ->
      isQuarantined t e (peerManager_ n') = true)) /\
  (forall h pt r, makeEndpoint h pt = e -> requests (connectToPeer h pt r n').1 = requests n').
Proof.
  intros Hl Hban. set (n0 := with_peersLocked true (with_peerScorer (penalizePeer e z (peerScorer_ n)).1 n)).
  assert (E : exists n1 mt, penalizePeerByEndpoint e z n =
      (with_networkMetrics mt (with_peersLocked false n1), Returns tt) /\
      ((exists q, q ∈ peers_ n /\ endpointOf q n = e /\ n1 = struck q e n0) \/
       ((forall q, q ∈ peers_ n -> endpointOf q n <> e) /\ n1 = n0))).
  { unfold penalizePeerByEndpoint, modify, gets. unfold mbind at 1, M_bind at 1. cbn beta iota.
    destruct (penalizePeer e z (peerScorer_ n)) as [s' b] eqn:Ep. simpl in Hban. subst b.
    unfold mbind at 1, M_bind at 1. unfold mbind at 1, M_bind at 1. unfold with_peersMutex.
    cbn [peersLocked with_peerScorer]. rewrite Hl. unfold mbind at 1, M_bind at 1. cbn beta iota.
    change (with_peersLocked true (with_peerScorer s' n)) with n0.
    change (peers_ n0) with (peers_ n).
    destruct (close_banned_cases e (peers_ n) n0) as [(q & Hin & Hq & ->)|[Hno ->]].
    - destruct (refreshMetrics_returns (with_peersLocked false (struck q e n0))) as [mt Em]; [done|].
      exists (struck q e n0), mt. split; [exact Em|]. left. by exists q.
    - destruct (refreshMetrics_returns (with_peersLocked false n0)) as [mt Em]; [done|].
      exists n0, mt. split; [exact Em|]. by right. }
  destruct E as (n1 & mt & E & Hn1). cbv zeta. rewrite E. cbn [fst snd].
  assert (Hs : peerScorer_ n1 = (penalizePeer e z (peerScorer_ n)).1).
  { by destruct Hn1 as [(q & _ & _ & ->)|[_ ->]]. }
  pose proof (penalize_bans _ _ _ Hban) as Hb.
  split_and!; [done|simpl; by rewrite Hs| |].
  - intros (q0 & Hin0 & He0). destruct Hn1 as [(q & Hin & Hq & ->)|[Hno _]]; [|by destruct (Hno q0)].
    destruct (struck_facts q e n0 0) as (H1 & H2 & _). split_and!; [by exists q|exact H2|].
    intros t Ht. by apply (struck_facts q e n0 t).
  - intros h pt r He. apply banned_not_dialled; [done|]. simpl. by rewrite Hs, He.
Qed.

(** More messages from peer [p] within the last second than the limit allows,
    counting one that is handled now. *)
Definition over_rate (p : nat) (n : Node) : bool :=
  (isRateLimited (steady_clock (ticks n)) 100 (messageTimes_ (peerObj p n))).1.

(** The same message has been handled within the window of the options. *)
Definition seen_recently (msg : Message) (n : Node) : bool :=
  match json_dump None (Peer.payload msg) with
  | Ok text =>
      match messageDedup_ n !! (to_string (typeIndex (type msg)) +:+ ":" +:+ sha256 text) with
      | Some t => age (steady_clock (S (ticks n))) t <? dedupWindowSec (timeouts (options_ n))
      | None => false
      end
  | Throw _ => false
  end.

(** An announcement whose payload is not an object raises an exception that no
    handler of the node catches, unless the peer is banned or over its rate, or the
    message was handled before; the same payload in a transaction or block message
    only costs the sender points. *)
Lemma malformed_announce_escapes {JTS : JsonTextSpec JT} (n : Node) (p : nat) (j : json) :
  is_object j = false -> json_utf8 j = true ->
  isBanned (endpointOf p n) (peerScorer_ n) = false ->
  over_rate p n = false -> seen_recently (mkMessage NODE_ANNOUNCE j) n = false -> peersLocked n = false ->
  (handleMessage p (mkMessage NODE_ANNOUNCE j) n).2 = Raises (json_type_error 306
    (exception_name "type_error" 306 +:+ "cannot use value() with " +:+ type_name j)) /\
  (forall k, (handleNewTransaction p k (mkMessage NEW_TRANSACTION j) n) =
             penalizePeerByEndpoint k PENALTY_INVALID_TX n) /\
  (forall k, (handleNewBlock p k (mkMessage NEW_BLOCK j) n) =
             penalizePeerByEndpoint k PENALTY_INVALID_BLOCK n).
Proof.
  intros Ho Hc Hb Hrate Hseen Hl. destruct (dump_total None j Hc) as [text Htext].
  assert (Hv : forall A (get : json -> result A) key def, jvalue get key def j = type_error 306 ("cannot use value() with " +:+ type_name j)).
  { intros A get key def. by destruct j. }
  split_and!.
  - unfold over_rate in Hrate. unfold seen_recently in Hseen. cbn [Peer.payload type] in Hseen. rewrite Htext in Hseen.
    unfold handleMessage, mbind, M_bind, gets. rewrite Hb.
    unfold handleUnbanned, rateLimited, isDuplicate, steady_now, reading, update_peer,
      modify, lift, mbind, M_bind, gets. cbn -[isRateLimited typeIndex sha256].
    change (peerObj p (with_ticks _ n)) with (peerObj p n).
    destruct (isRateLimited (steady_clock (ticks n)) 100 (messageTimes_ (peerObj p n))) as [limited times].
    cbn [fst] in Hrate. subst limited. cbn -[typeIndex sha256]. rewrite Htext.
    cbn -[typeIndex sha256]. cbn -[typeIndex sha256] in Hseen. rewrite Hseen. cbn.
    unfold dispatch, handleNodeAnnounce, value_string, lift, mbind, M_bind. cbn.
    by rewrite Hv.
  - intros k. unfold handleNewTransaction, try_or, try_with, lift, mbind, M_bind. cbn [Peer.payload].
    unfold txFromJson, value_string. by rewrite Hv.
  - intros k. unfold handleNewBlock, try_or, try_with, try_with, lift, mbind, M_bind. cbn [Peer.payload].
    unfold blockFromJson, value_u64. by rewrite Hv.
Qed.

End safety.
