(* ===== verification/SampleP2P.v ===== *)
(** * SampleP2P: a small concrete node, and the witnesses of the node's theorems *)

From S2P Require Import Prelude StdTime Json JsonNlohmann Crypto Transaction Block State Consensus Storage Blockchain SampleNode ChainInvariant Wallet Peer PeerScorer PeerManager Connections Effects Node NodeFacts NodeSafety.
#[local] Open Scope Z_scope.
Import ToyOpenSSL Nlohmann.

(** Clocks that tick once a second from 0, a system clock that stands still, and
    no randomness. *)
#[export] Instance sampleWorld : World := {|
  steady_clock := fun i => Z.of_nat i * 10 ^ 9;
  system_clock := fun _ => sampleNow;
  shuffle := fun _ l => l;
  uniform_int := fun _ lo _ => lo;
  random := fun i => Z.of_nat i;
  hash_order := fun s => elements s
|}.

Definition sampleIdentity : NodeIdentityRecord := mkIdentity "id" "pk" "sk" "10.0.0.9" 5000 100.

(** A node just constructed on the sample chain. *)
Definition sampleStart : Node := newNode (sampleNode None) ∅ [] 5000 0 defaultOptions sampleIdentity.

Definition socketFrom (ephemeral : Z) : PeerSocket := mkSocket true (Some ("10.0.0.1", ephemeral)) 0.

(** *** A banned peer comes back *)

(** A peer connects, announces its listening port, sends eight block messages
    that do not parse and is banned; it connects again and announces itself
    again; its next message is handled under the banned endpoint. *)
Definition announce (tag : string) : Message :=
  mkMessage NODE_ANNOUNCE (json_object [("publicIp", JString "10.0.0.1"); ("port", JUnsigned 7);
    ("nodeId", JString tag)]).
Definition badBlock (i : Z) : Message := mkMessage NEW_BLOCK (JUnsigned i).

Definition ban_history : list node_event :=
  [EvAccept (Some (socketFrom 40000)); EvMessage 0 (announce "a")]
  ++ map (fun i => EvMessage 0 (badBlock (Z.of_nat i))) (seq 0 8)
  ++ [EvHeartbeat; EvAccept (Some (socketFrom 40001)); EvMessage 1 (announce "b")].

Lemma ban_history_bans :
  isBanned (endpointOf 1 (after sampleStart ban_history)) (peerScorer_ (after sampleStart ban_history)) = true.
Proof. vm_compute. reflexivity. Qed.

(** *** A payment is relayed *)

Definition signedPayment : Transaction := Eval vm_compute in
  match signTx 0 sampleKey samplePayment with Ok tx => tx | Throw _ => emptyTx end.

(** The sender owns 100 coins. *)
Definition richChain : Blockchain :=
  set_state (mkState ∅ ∅ {[fromAddress signedPayment := 100]} ∅ ∅) (sampleNode None).

(** Three peers: the one that will send, a connected one and a closed one. *)
Definition sampleRelay : Node :=
  with_peers [0%nat; 1%nat; 2%nat]
    (with_peerObjs (<[0%nat := newPeer (socketFrom 1)]> (<[1%nat := newPeer (socketFrom 2)]> ∅))
      (with_blockchain richChain sampleStart)).

Lemma signedPayment_acceptable : acceptable sampleNow signedPayment richChain.
Proof. refine (bool_decide_unpack _ _). vm_compute. exact I. Qed.

Lemma sampleRelay_nodup : NoDup (peers_ sampleRelay).
Proof. change (NoDup [0%nat; 1%nat; 2%nat]). repeat constructor; set_solver. Qed.

Lemma sampleRelay_peers :
  peerObj 0 sampleRelay = newPeer (socketFrom 1) /\ peerObj 1 sampleRelay = newPeer (socketFrom 2).
Proof. vm_compute. split; reflexivity. Qed.

Lemma relay_exact_witness :
  exists s n',
    handleNewTransaction 0 "k" (mkMessage NEW_TRANSACTION (txToJson signedPayment)) sampleRelay
      = (n', Returns tt) /\
    mempool_ (blockchain_ n') = [signedPayment] /\
    peerObj 0 n' = newPeer (socketFrom 1) /\
    peerObj 1 n' = delivered s (newPeer (socketFrom 2)).
Proof.
  destruct (serialize (mkMessage NEW_TRANSACTION (txToJson signedPayment))) as [s|e] eqn:E.
  - exists s. destruct (relay_exact 0 "k" (txToJson signedPayment) signedPayment s sampleRelay)
      as (n' & H1 & H2 & _ & _ & Hq & _).
    + split; reflexivity.
    + exact sampleRelay_nodup.
    + vm_compute. reflexivity.
    + exact E.
    + apply not_elem_of_empty.
    + apply Nat.ltb_lt. reflexivity.
    + exact signedPayment_acceptable.
    + exists n'. split; [exact H1|]. split; [exact H2|]. split.
      * rewrite (Hq 0%nat), bool_decide_eq_false_2 by naive_solver. apply sampleRelay_peers.
      * rewrite (Hq 1%nat), bool_decide_eq_true_2; [by rewrite (proj2 sampleRelay_peers)|].
        split; [|split; [discriminate|vm_compute; reflexivity]].
        apply list_elem_of_further, list_elem_of_here.
  - vm_compute in E. discriminate.
Defined.

(** ** Witnesses of the other theorems *)

Definition lastPing : node_event := EvMessage 1 (mkMessage PING (JObject [])).

(** The node of [ban_history] blocks on the next message of the peer. *)
Lemma deadlock_exact_witness :
  (run_event lastPing (after sampleStart ban_history)).2 = Deadlocks.
Proof.
  refine (proj2 (proj1 (deadlock_exact (after sampleStart ban_history) lastPing _)) _).
  - split; vm_compute; reflexivity.
  - exact ban_history_bans.
Defined.

Lemma node_ledger_refines_witness : chain_inv (blockchain_ (after sampleStart ban_history)).
Proof.
  refine (proj1 (proj2 (node_ledger_refines sampleStart ban_history _))).
  destruct (sampleNode_inv None). constructor; assumption.
Defined.

Lemma ledger_messages_only_witness : same_ledger sampleStart (run_event lastPing sampleStart).1.
Proof. apply (ledger_messages_only sampleStart lastPing). reflexivity. Defined.

(** A block message with the hash of [sampleNext] and index 0. *)
Definition forgedBlock : Block := mkBlock 0 "" "" [] "" 0 0 (hash sampleNext).

(** A heartbeat later. *)
Lemma forged_block_suppresses_witness :
  let n1 := (handleNewBlock 0 "k" (mkMessage NEW_BLOCK (blockToJson forgedBlock)) sampleRelay).1 in
  let n2 := after n1 [EvHeartbeat] in
  handleNewBlock 1 "l" (mkMessage NEW_BLOCK (blockToJson sampleNext)) n2 = (n2, Returns tt).
Proof.
  refine (proj2 (proj2 (forged_block_suppresses sampleRelay 0 "k" (blockToJson forgedBlock) forgedBlock _ _ _ _))
    [EvHeartbeat] 1%nat "l" (blockToJson sampleNext) sampleNext _ _ _).
  - vm_compute. reflexivity.
  - apply Z.ltb_lt. reflexivity.
  - apply Nat.ltb_lt. reflexivity.
  - reflexivity.
  - right. apply Nat.ltb_lt. vm_compute. reflexivity.
  - vm_compute. reflexivity.
  - reflexivity.
Defined.

(** The node before the last of the eight malformed blocks: one penalty is left. *)
Definition nearly_banned : Node := after sampleStart (take 9 ban_history).

Lemma ban_enforced_witness :
  isBanned "10.0.0.1:7"
    (peerScorer_ (penalizePeerByEndpoint "10.0.0.1:7" PENALTY_INVALID_BLOCK nearly_banned).1) = true.
Proof.
  refine (proj1 (proj2 (ban_enforced nearly_banned "10.0.0.1:7" PENALTY_INVALID_BLOCK _ _))).
  - vm_compute. reflexivity.
  - vm_compute. reflexivity.
Defined.
