(* ===== verification/NodeLive.v ===== *)
(** * NodeLive: the periodic timers of the node keep running

    The heartbeat, gossip and rotation handlers return and arm their timer again;
    nothing else arms one. *)

From S2P Require Import Prelude StdTime Json JsonNlohmann Crypto Transaction Block State Consensus Storage Blockchain SampleNode ChainInvariant Peer PeerScorer PeerManager Connections Effects Node NodeFacts SampleP2P.
#[local] Open Scope Z_scope.

(** The periodic timers armed so far. *)
Definition timers (n : Node) : list request := filter (fun r => is_timer r = true) (requests n).

(** Nothing is armed, and the options and the identity are as they were. *)
Definition same_timers (n n' : Node) : Prop :=
  timers n' = timers n /\ options_ n' = options_ n /\ nodeIdentity_ n' = nodeIdentity_ n.

#[export] Instance same_timers_preorder : PreOrder same_timers.
Proof.
  split; unfold same_timers; [done|]. intros n1 n2 n3 (E1 & E2 & E3) (E4 & E5 & E6). split_and!; congruence.
Qed.

#[export] Instance same_timers_event `{OS : OpenSSL} `{JT : JsonText} : EventRel same_timers.
Proof.
  split; [split; [apply _|..]|..]; try done.
  intros n r Hr. split; [|done]. unfold timers. cbn [requests with_requests].
  by rewrite filter_app, filter_cons_False, filter_nil, app_nil_r by (by rewrite Hr).
Qed.

(** When it returns, the computation has armed the timers [T], in order. *)
Definition arms {A} (T : NodeOptions -> list request) (m : M A) : Prop := forall n,
  match m n with
  | (n', Returns _) =>
      timers n' = timers n ++ T (options_ n) /\ options_ n' = options_ n /\ nodeIdentity_ n' = nodeIdentity_ n
  | _ => True
  end.

Lemma arms_none {A} (m : M A) : keeps same_timers m -> arms (fun _ => []) m.
Proof.
  intros Hm n. destruct (Hm n) as (E1 & E2 & E3). destruct (m n) as [n' []]; try done.
  by rewrite app_nil_r.
Qed.

Lemma arms_after {A B} T (m : M A) (f : A -> M B) :
  keeps same_timers m -> (forall a, arms T (f a)) -> arms T (m ≫= f).
Proof.
  intros Hm Hf n. unfold mbind, M_bind. destruct (Hm n) as (E1 & E2 & E3).
  destruct (m n) as [n1 [a|e| | |]]; try done. cbn [fst] in *. specialize (Hf a n1).
  destruct (f a n1) as [n2 []]; try done. destruct Hf as (-> & -> & ->). by rewrite E1, E2, E3.
Qed.

Lemma arms_seq {A B} T1 T2 (m : M A) (f : A -> M B) :
  arms T1 m -> (forall a, arms T2 (f a)) -> arms (fun o => T1 o ++ T2 o) (m ≫= f).
Proof.
  intros Hm Hf n. unfold mbind, M_bind. specialize (Hm n).
  destruct (m n) as [n1 [a|e| | |]]; try done. destruct Hm as (E1 & E2 & E3). specialize (Hf a n1).
  destruct (f a n1) as [n2 []]; try done. destruct Hf as (-> & -> & ->). by rewrite E1, E2, E3, app_assoc.
Qed.

Section live.
Context `{W : World} `{OS : OpenSSL} `{JT : JsonText}.

Definition heartbeat_timer (o : NodeOptions) : request := HeartbeatTimer (heartbeatIntervalSec (timeouts o)).
Definition gossip_timer (o : NodeOptions) : request := GossipTimer (gossipIntervalSec (timeouts o)).
Definition rotation_timer (o : NodeOptions) : request := RotationTimer (peerRotationSec (timeouts o)).

(** The timers an event arms. *)
Definition armed (o : NodeOptions) (e : node_event) : list request :=
  match e with
  | EvStart => [heartbeat_timer o; gossip_timer o; rotation_timer o]
  | EvHeartbeat => [heartbeat_timer o]
  | EvGossip => [gossip_timer o]
  | EvRotation => [rotation_timer o]
  | _ => []
  end.

Lemma arms_starts :
  arms (fun o => [heartbeat_timer o]) startHeartbeatTimer /\
  arms (fun o => [gossip_timer o]) startGossipTimer /\
  arms (fun o => [rotation_timer o]) startPeerRotationTimer.
Proof.
  split_and!; intros n;
    unfold startHeartbeatTimer, startGossipTimer, startPeerRotationTimer, start, gets, modify, mbind,
      M_bind, timers; cbn [requests with_requests];
    by rewrite filter_app, filter_cons_True, filter_nil by done.
Qed.

Ltac quiet_step := apply arms_after; [|intros ?].

Lemma timer_events_arm e : timer_event e = true -> arms (fun o => armed o e) (run_event e).
Proof.
  destruct arms_starts as (Hh & Hg & Hr).
  pose proof (local_expansion same_timers). pose proof (local_refreshMetrics same_timers).
  pose proof (local_broadcast same_timers). pose proof (local_quarantine same_timers).
  pose proof (local_send same_timers). pose proof (local_for_endpoints same_timers).
  assert (Hs : forall l, keeps same_timers (sweep l)).
  { induction l; simpl; unfold unregister; repeat (keeps_step || auto). }
  destruct e; intros He; try discriminate He; cbn [run_event armed].
  - unfold startNode, connectToBootstrapPeers. quiet_step; [keeps_step|].
    apply (arms_seq (fun o => [heartbeat_timer o]) (fun o => [gossip_timer o; rotation_timer o])); [done|intros _].
    apply (arms_seq (fun o => [gossip_timer o]) (fun o => [rotation_timer o])); [done|intros _].
    apply (arms_seq (fun o => [rotation_timer o]) (fun _ => [])); [done|intros _].
    apply arms_none. repeat (keeps_step || auto).
  - unfold onHeartbeatTimer, ping, closeTimedOut, closePeerObj, unregister, update_peer, steady_now.
    repeat first [exact Hh | quiet_step; [repeat (keeps_step || auto)|]].
  - unfold onGossipTimer, requestPeersFromAll, steady_now.
    repeat first [exact Hg | quiet_step; [repeat (keeps_step || auto)|]].
  - unfold onRotationTimer. repeat first [exact Hr | quiet_step; [repeat (keeps_step || auto)|]].
Qed.

(** No event of the history is a message of a banned peer, and no search for a
    nonce goes on for ever. *)
Definition finished {A} (r : ending A) : bool := match r with Unfinished => false | _ => true end.
Fixpoint unblocked (n : Node) (es : list node_event) : bool :=
  match es with
  | [] => true
  | e :: es => negb (banned_message n e) && finished (run_event e n).2 && unblocked (run_event e n).1 es
  end.

Lemma event_timers {JTS : JsonTextSpec JT} n e :
  message_utf8 (peersRequest (nodeIdentity_ n)) -> locks false Free n ->
  timers (run_event e n).1 = timers n ++ armed (options_ n) e /\
  options_ (run_event e n).1 = options_ n /\ nodeIdentity_ (run_event e n).1 = nodeIdentity_ n.
Proof.
  intros Hid Hn. destruct (timer_event e) eqn:He.
  - destruct (safe_timers (eq KReturns) message_utf8 Free) as (Hr & Hh & Hs).
    pose proof (safe_gossip (eq KReturns) message_utf8 Free n Hid) as Hg.
    pose proof (timer_events_arm e He n) as Ha.
    assert (Hk : KReturns = kind_of (run_event e n).2).
    { destruct e; try discriminate He; cbn [run_event];
        [apply (Hs n Hn)|apply (Hh n Hn)|apply (Hg Hn)|apply (Hr n Hn)]. }
    by destruct (run_event e n) as [n' []].
  - destruct (event_steps same_timers e He n) as (E1 & E2 & E3). split_and!; [|done..]. rewrite E1.
    destruct e; try discriminate He; cbn [armed]; by rewrite app_nil_r.
Qed.
End live.

Section properties.
Context `{W : World} `{OS : OpenSSL} `{JT : JsonText}.

(** C18: the node's timers run for ever: along any history in which no banned peer
    sends a message and every search for a nonce ends, whatever else happens, each firing of the heartbeat, gossip
    or rotation timer returns and arms that timer once more with its configured
    interval, and no other event arms or duplicates one. The node's own address
    and id must be UTF-8: the gossip round sends them. *)
Theorem timers_run_forever {JTS : JsonTextSpec JT} (n : Node) (es : list node_event) :
  message_utf8 (peersRequest (nodeIdentity_ n)) ->
  locks false Free n -> unblocked n es = true ->
  timers (after n es) = timers n ++ concat (map (armed (options_ n)) es).
Proof.
  revert n. induction es as [|e es IH]; intros n Hid Hn Hes; [by rewrite app_nil_r|].
  cbn [unblocked] in Hes. apply andb_prop in Hes as [[Hb%negb_true_iff Hf]%andb_prop Hes].
  destruct (event_timers n e Hid Hn) as (E1 & E2 & E3). destruct (event_safe n e Hb Hn) as [_ Hl].
  specialize (Hl ltac:(by intros E; rewrite E in Hf)).
  cbn [after foldl map concat]. fold (after (run_event e n).1 es).
  by rewrite IH, E1, E2, app_assoc by (rewrite ?E3; done).
Qed.
End properties.

(** ** Witness *)

Section live_witness.
Import ToyOpenSSL Nlohmann.

(** A start, two rounds of timers, and messages in between. *)
Definition timer_history : list node_event :=
  [EvStart; EvAccept (Some (socketFrom 40000)); EvHeartbeat; EvMessage 0 (announce "a"); EvGossip;
   EvRotation; EvHeartbeat].

Lemma timers_run_forever_witness :
  timers (after sampleStart timer_history) =
  [HeartbeatTimer 15; GossipTimer 30; RotationTimer 45; HeartbeatTimer 15; GossipTimer 30;
   RotationTimer 45; HeartbeatTimer 15].
Proof.
  refine (timers_run_forever sampleStart timer_history _ _ _);
    [vm_compute; reflexivity|split; reflexivity|vm_compute; reflexivity].
Defined.
End live_witness.
