(* ===== verification/Config.v ===== *)
(** * Config: src/src/main.cpp and src/src/network/node_identity.cpp

    The configuration file and command line of the node, the options it starts
    with, and its persistent identity; Main has the start itself. A file is read
    with [operator>>], which stops after the first value of a stream
    ([json_stream]). *)

From S2P Require Import Prelude StdTime Json JsonNlohmann Crypto Transaction Block State Consensus Storage Blockchain Wallet PeerScorer Effects Node.
#[local] Open Scope Z_scope.

(** ** Configuration *)

Record PeerAddress := mkAddress { peerHost : string; peerPort : Z  (* uint16_t *) }.

Record Config := mkConfig {
  p2pPort : Z;                       (* uint16_t *)
  httpPort : Z;                      (* uint16_t *)
  confDifficulty : Z;                (* uint32_t *)
  confDataDir : string;
  consensus : string;
  name : string;
  configPath : string;
  confPublicIp : string;
  confPeers : list PeerAddress;
  confBootstrap : list PeerAddress;
  maxOutbound : Z;                   (* size_t *)
  maxInbound : Z;
  networkTimeouts : NetworkTimeouts;
  confRetry : RetryPolicy
}.

Definition defaultConfig : Config :=
  mkConfig 5000 8000 2 "./data" "pow" "PersonalBlockchain" "config.json" "" [] [] 8 32
    defaultTimeouts defaultRetry.

Definition set_p2pPort (x : Z) (c : Config) : Config :=
  mkConfig x (httpPort c) (confDifficulty c) (confDataDir c) (consensus c) (name c) (configPath c)
    (confPublicIp c) (confPeers c) (confBootstrap c) (maxOutbound c) (maxInbound c)
    (networkTimeouts c) (confRetry c).
Definition set_httpPort (x : Z) (c : Config) : Config :=
  mkConfig (p2pPort c) x (confDifficulty c) (confDataDir c) (consensus c) (name c) (configPath c)
    (confPublicIp c) (confPeers c) (confBootstrap c) (maxOutbound c) (maxInbound c)
    (networkTimeouts c) (confRetry c).
Definition set_confDifficulty (x : Z) (c : Config) : Config :=
  mkConfig (p2pPort c) (httpPort c) x (confDataDir c) (consensus c) (name c) (configPath c)
    (confPublicIp c) (confPeers c) (confBootstrap c) (maxOutbound c) (maxInbound c)
    (networkTimeouts c) (confRetry c).
Definition set_texts (dir engine nm path ip : string) (c : Config) : Config :=
  mkConfig (p2pPort c) (httpPort c) (confDifficulty c) dir engine nm path ip (confPeers c)
    (confBootstrap c) (maxOutbound c) (maxInbound c) (networkTimeouts c) (confRetry c).
Definition set_confPeers (x : list PeerAddress) (c : Config) : Config :=
  mkConfig (p2pPort c) (httpPort c) (confDifficulty c) (confDataDir c) (consensus c) (name c)
    (configPath c) (confPublicIp c) x (confBootstrap c) (maxOutbound c) (maxInbound c)
    (networkTimeouts c) (confRetry c).
Definition set_confBootstrap (x : list PeerAddress) (c : Config) : Config :=
  mkConfig (p2pPort c) (httpPort c) (confDifficulty c) (confDataDir c) (consensus c) (name c)
    (configPath c) (confPublicIp c) (confPeers c) x (maxOutbound c) (maxInbound c)
    (networkTimeouts c) (confRetry c).
Definition set_limits (out inn : Z) (c : Config) : Config :=
  mkConfig (p2pPort c) (httpPort c) (confDifficulty c) (confDataDir c) (consensus c) (name c)
    (configPath c) (confPublicIp c) (confPeers c) (confBootstrap c) out inn
    (networkTimeouts c) (confRetry c).
Definition set_policies (t : NetworkTimeouts) (r : RetryPolicy) (c : Config) : Config :=
  mkConfig (p2pPort c) (httpPort c) (confDifficulty c) (confDataDir c) (consensus c) (name c)
    (configPath c) (confPublicIp c) (confPeers c) (confBootstrap c) (maxOutbound c) (maxInbound c) t r.

Definition set_dataDir (x : string) (c : Config) : Config :=
  set_texts x (consensus c) (name c) (configPath c) (confPublicIp c) c.
Definition set_consensus (x : string) (c : Config) : Config :=
  set_texts (confDataDir c) x (name c) (configPath c) (confPublicIp c) c.
Definition set_name (x : string) (c : Config) : Config :=
  set_texts (confDataDir c) (consensus c) x (configPath c) (confPublicIp c) c.
Definition set_configPath (x : string) (c : Config) : Config :=
  set_texts (confDataDir c) (consensus c) (name c) x (confPublicIp c) c.
Definition set_publicIp (x : string) (c : Config) : Config :=
  set_texts (confDataDir c) (consensus c) (name c) (configPath c) x c.

(** [std::stoi(entry.substr(...))] cast to a port; it throws on what is not a
    number. [None]: the entry is refused. *)
Definition parseAddress (entry : string) : result (option PeerAddress) :=
  if str_empty entry then Ok None
  else
    let make host digits :=
      let! n := stoi digits in
      let port := u16 n in
      Ok (if 0 <? port then Some (mkAddress host port) else None) in
    match str_rfind ":" entry with
    | Some (S k) => make (str_take (S k) entry) (str_drop (S (S k)) entry)
    | _ => make "127.0.0.1" entry
    end.

(** The loop over entries: the addresses read before an exception are kept by
    the target, but the exception ends the program. *)
Fixpoint parseAddresses (entries : list string) : result (list PeerAddress) :=
  match entries with
  | [] => Ok []
  | e :: entries =>
      let! a := parseAddress e in
      let! rest := parseAddresses entries in
      Ok (match a with Some a => a :: rest | None => rest end)
  end.

(** [parsePeerList]: appends to the target. *)
Definition parsePeerList (peersStr : string) (target : list PeerAddress) : result (list PeerAddress) :=
  let! l := parseAddresses (filter (fun e => str_empty e = false) (getlines "," peersStr)) in
  Ok (target ++ l).

(** The strings of a JSON array, as addresses. *)
Definition addressArray (j : json) : result (list PeerAddress) :=
  parseAddresses (omap (fun x => match x with JString s => Some s | _ => None end) (json_items j)).

(** [j[key]] when [j.contains(key)] and it has the kind asked for. *)
Definition member (kind : json -> bool) (key : string) (j : json) : option json :=
  match j with
  | JObject m => match obj_find key m with Some v => if kind v then Some v else None | None => None end
  | _ => None
  end.

Definition timeoutsFromJson (t : json) (d : NetworkTimeouts) : result NetworkTimeouts :=
  let! hb := value_i32 "heartbeat_interval_sec" (heartbeatIntervalSec d) t in
  let! ht := value_i32 "heartbeat_timeout_sec" (heartbeatTimeoutSec d) t in
  let! gi := value_i32 "gossip_interval_sec" (gossipIntervalSec d) t in
  let! pr := value_i32 "peer_rotation_sec" (peerRotationSec d) t in
  let! qs := value_i32 "quarantine_sec" (quarantineSec d) t in
  let! dw := value_i32 "dedup_window_sec" (dedupWindowSec d) t in
  Ok (mkTimeouts hb ht gi pr qs dw).

Definition retryFromJson (r : json) (d : RetryPolicy) : result RetryPolicy :=
  let! mr := value_i32 "max_retries" (maxRetries d) r in
  let! bd := value_i32 "base_delay_ms" (baseDelayMs d) r in
  let! md := value_i32 "max_delay_ms" (maxDelayMs d) r in
  let! ji := value_i32 "jitter_ms" (jitterMs d) r in
  let! rc := value_i32 "reconnect_cooldown_ms" (reconnectCooldownMs d) r in
  Ok (mkRetry mr bd md ji rc).

(** The file once it is parsed. *)
Definition configFromJson (j : json) (c : Config) : result Config :=
  let! p := value_u16 "p2p_port" (p2pPort c) j in
  let! h := value_u16 "http_port" (httpPort c) j in
  let! d := value_u32 "difficulty" (confDifficulty c) j in
  let! dir := value_string "data_dir" (confDataDir c) j in
  let! engine := value_string "consensus" (consensus c) j in
  let! nm := value_string "name" (name c) j in
  let! ip := value_string "public_ip" (confPublicIp c) j in
  let c := set_texts dir engine nm (configPath c) ip
             (set_confDifficulty d (set_httpPort h (set_p2pPort p c))) in
  let! c := match member is_array "bootstrap_nodes" j with
            | Some a => let! l := addressArray a in Ok (set_confBootstrap l c)
            | None => Ok c
            end in
  let! c := match member is_array "seed_peers" j, member is_array "peers" j with
            | Some a, _ | None, Some a => let! l := addressArray a in Ok (set_confPeers l c)
            | None, None => Ok c
            end in
  let! c := match member is_object "peer_limits" j with
            | Some l =>
                let! out := value_u64 "max_outbound_peers" (maxOutbound c) l in
                let! inn := value_u64 "max_inbound_peers" (maxInbound c) l in
                Ok (set_limits out inn c)
            | None => Ok c
            end in
  let! c := match member is_object "network_timeouts" j with
            | Some t => let! t := timeoutsFromJson t (networkTimeouts c) in
                        Ok (set_policies t (confRetry c) c)
            | None => Ok c
            end in
  match member is_object "retry_policy" j with
  | Some r => let! r := retryFromJson r (confRetry c) in Ok (set_policies (networkTimeouts c) r c)
  | None => Ok c
  end.

Section config.
Context `{OS : OpenSSL} `{JT : JsonText}.

(** [file] is the content of the file, [None] when it cannot be opened. *)
Definition loadConfigFile (file : option string) (c : Config) : result Config :=
  match file with
  | None => Ok c
  | Some text => let! j := json_stream text in configFromJson j c
  end.

(** The first pass: the last [--config] counts. *)
Fixpoint findConfig (args : list string) (path : string) : string :=
  match args with
  | "--config" :: value :: args => findConfig args value
  | _ :: args => findConfig args path
  | [] => path
  end.

(** The options with a value that the second pass knows. *)
Definition option_with_value (arg value : string) (c : Config) : option (result Config) :=
  if String.eqb arg "--port" then Some (let! n := stoi value in Ok (set_p2pPort (u16 n) c))
  else if String.eqb arg "--http-port" then Some (let! n := stoi value in Ok (set_httpPort (u16 n) c))
  else if String.eqb arg "--difficulty"
       then Some (let! n := stoi value in Ok (set_confDifficulty (u32 n) c))
  else if String.eqb arg "--data-dir" then Some (Ok (set_dataDir value c))
  else if String.eqb arg "--consensus" then Some (Ok (set_consensus value c))
  else if String.eqb arg "--name" then Some (Ok (set_name value c))
  else if String.eqb arg "--peers"
       then Some (let! l := parsePeerList value (confPeers c) in Ok (set_confPeers l c))
  else if String.eqb arg "--bootstrap"
       then Some (let! l := parsePeerList value [] in Ok (set_confBootstrap l c))
  else if String.eqb arg "--public-ip" then Some (Ok (set_publicIp value c))
  else if String.eqb arg "--max-outbound-peers"
       then Some (let! n := stoul value in Ok (set_limits n (maxInbound c) c))
  else if String.eqb arg "--max-inbound-peers"
       then Some (let! n := stoul value in Ok (set_limits (maxOutbound c) n c))
  else None.

(** The second pass; [Ok None] is the exit after the help text. *)
Fixpoint applyArgs (args : list string) (c : Config) : result (option Config) :=
  match args with
  | [] => Ok (Some c)
  | arg :: rest =>
      let help := String.eqb arg "--help" || String.eqb arg "-h" in
      match rest with
      | value :: rest' =>
          match option_with_value arg value c with
          | Some r => let! c := r in applyArgs rest' c
          | None => if help then Ok None else applyArgs rest c
          end
      | [] => if help then Ok None else applyArgs rest c
      end
  end.

(** [parseArgs]; [files] is what each path reads as. *)
Definition parseArgs (files : string -> option string) (args : list string) : result (option Config) :=
  let c := set_configPath (findConfig args (configPath defaultConfig)) defaultConfig in
  let! c := loadConfigFile (files (configPath c)) c in
  applyArgs args c.

(** The options [main] hands to the node. *)
Definition nodeOptions (c : Config) : NodeOptions :=
  mkOptions (confDataDir c) (confPublicIp c)
    (map (fun a => peerHost a +:+ ":" +:+ to_string (peerPort a)) (confBootstrap c))
    (Z.to_nat (maxOutbound c)) (Z.to_nat (maxInbound c)) (confRetry c) (networkTimeouts c).

(** ** NodeIdentity *)

Definition identityPath (dir : string) : string := dir +:+ "/node_identity.json".

Definition detectAdvertisedIp : string := "127.0.0.1".

(** The object [persist] writes. *)
Definition identityDocument (r : NodeIdentityRecord) : json :=
  json_set "reputation" (JInteger (reputation r))
    (json_set "port" (JUnsigned (identityPort r))
      (json_set "advertisedIp" (JString (advertisedIp r))
        (json_set "privateKey" (JString (privateKey r))
          (json_set "publicKey" (JString (publicKey r))
            (json_set "nodeId" (JString (nodeId r)) JNull))))).

(** [persist]: the text, and a newline; the file is emptied first. *)
Definition persist (dir : string) (r : NodeIdentityRecord) : prog (result bool) :=
  op! opened := OpenTrunc (identityPath dir) in
  if failed opened then Ret (Ok false)
  else match json_dump (Some 2) (identityDocument r) with
       | Throw e => Ret (Throw e)
       | Ok text =>
           op! _ := Write (identityPath dir) (text +:+ newline) in Ret (Ok true)
       end.

(** The record a file holds, when it is complete. *)
Definition identityFromText (listenPort : Z) (publicIpOverride text : string)
    : result NodeIdentityRecord :=
  let! j := json_stream text in
  let! pub := value_string "publicKey" "" j in
  let! priv := value_string "privateKey" "" j in
  let! id := value_string "nodeId" "" j in
  let! ip := value_string "advertisedIp" "" j in
  let! _ := value_u16 "port" listenPort j in
  let! rep := value_i32 "reputation" 100 j in
  if str_empty pub || str_empty priv || str_empty id
  then Throw (runtime_error "Identity file is incomplete")
  else
    let ip := if negb (str_empty publicIpOverride) then publicIpOverride else ip in
    let ip := if str_empty ip then detectAdvertisedIp else ip in
    Ok (mkIdentity id pub priv ip listenPort rep).

(** A new identity, from a new wallet. *)
Definition freshIdentity (entropy listenPort : Z) (publicIpOverride : string)
    : result NodeIdentityRecord :=
  let! w := newWallet entropy in
  Ok (mkIdentity (sha256 (Wallet.publicKey_ w)) (Wallet.publicKey_ w) (Wallet.privateKey_ w)
        (if str_empty publicIpOverride then detectAdvertisedIp else publicIpOverride)
        listenPort 100).

(** [loadOrCreate]: the record, and whether it could be written; an exception
    while loading (also from the writing of a loaded record) leads to a new
    identity. *)
Definition createIdentity (entropy : Z) (dir : string) (listenPort : Z) (publicIpOverride : string)
    : prog (result (NodeIdentityRecord * bool)) :=
  match freshIdentity entropy listenPort publicIpOverride with
  | Throw e => Ret (Throw e)
  | Ok r => do! ok := persist dir r in Ret (let! ok := ok in Ok (r, ok))
  end.

Definition loadOrCreate (entropy : Z) (dir : string) (listenPort : Z) (publicIpOverride : string)
    : prog (result (NodeIdentityRecord * bool)) :=
  op! text := Read (identityPath dir) in
  match text with
  | RText text =>
      match identityFromText listenPort publicIpOverride text with
      | Ok r =>
          do! ok := persist dir r in
          match ok with
          | Ok ok => Ret (Ok (r, ok))
          | Throw _ => createIdentity entropy dir listenPort publicIpOverride
          end
      | Throw _ => createIdentity entropy dir listenPort publicIpOverride
      end
  | _ => createIdentity entropy dir listenPort publicIpOverride
  end.

Definition setReputation (dir : string) (x : Z) (r : NodeIdentityRecord)
    : NodeIdentityRecord * prog (result bool) :=
  let r := mkIdentity (nodeId r) (publicKey r) (privateKey r) (advertisedIp r) (identityPort r) x in
  (r, persist dir r).

End config.

(** ** Lemmas *)

Section config_lemmas.
Context `{OS : OpenSSL} `{JT : JsonText} {JTS : JsonTextSpec JT}.

Definition identity_ok (r : NodeIdentityRecord) : Prop :=
  nodeId r <> "" /\ publicKey r <> "" /\ privateKey r <> "" /\ advertisedIp r <> "" /\
  in_u 16 (identityPort r) /\ in_s 32 (reputation r) /\
  utf8 (nodeId r) && utf8 (publicKey r) && utf8 (privateKey r) && utf8 (advertisedIp r) = true.

Definition reputationJson (z : Z) : json := if 0 <=? z then JUnsigned z else JInteger z.

Lemma identityDocument_norm r :
  json_norm (identityDocument r) = JObject
    [("advertisedIp", JString (advertisedIp r)); ("nodeId", JString (nodeId r));
     ("port", JUnsigned (identityPort r)); ("privateKey", JString (privateKey r));
     ("publicKey", JString (publicKey r)); ("reputation", reputationJson (reputation r))].
Proof. reflexivity. Qed.

Lemma identityDocument_canonical r :
  identity_ok r -> json_canonical (json_norm (identityDocument r)) = true.
Proof.
  intros (_ & _ & _ & _ & Hp & Hr & Ha). rewrite identityDocument_norm. bool_to_prop.
  unfold in_u in Hp. unfold in_s in Hr. cbn [json_canonical forallb map fst snd].
  assert ((0 <=? identityPort r) && (identityPort r <? 2 ^ 64) = true) as -> by lia.
  assert (json_canonical (reputationJson (reputation r)) = true) as ->.
  { unfold reputationJson. destruct (Z.leb_spec 0 (reputation r)); cbn [json_canonical]; lia. }
  by rewrite H, H0, H1, H2.
Qed.

Lemma identityDocument_utf8 r : identity_ok r -> json_utf8 (identityDocument r) = true.
Proof.
  intros (_ & _ & _ & _ & _ & _ & [[[H1 H2]%andb_prop H3]%andb_prop H4]%andb_prop).
  change (utf8 (advertisedIp r) && (utf8 (nodeId r) && (true && (utf8 (privateKey r) && (utf8 (publicKey r) && true)))) = true).
  by rewrite H1, H2, H3, H4.
Qed.

Lemma identity_reads_back port ip text r :
  identity_ok r -> json_dump (Some 2) (identityDocument r) = Ok text -> in_u 16 port ->
  exists r', identityFromText port ip (text +:+ newline) = Ok r' /\
    nodeId r' = nodeId r /\ publicKey r' = publicKey r /\ privateKey r' = privateKey r /\
    reputation r' = reputation r /\ identityPort r' = port /\
    advertisedIp r' = if str_empty ip then advertisedIp r else ip.
Proof.
  intros Hr Ht Hp. unfold identityFromText.
  rewrite (stream_dump (Some 2) _ _ eq_refl (identityDocument_canonical r Hr) Ht), identityDocument_norm.
  destruct Hr as (H1 & H2 & H3 & H4 & _ & Hrep & _). cbn [rbind].
  unfold value_string, value_u16, value_i32, jvalue. cbn.
  replace (get_arith i32 (reputationJson (reputation r))) with (@Ok Z (reputation r)).
  - cbn. rewrite (proj2 (str_empty_false _) H1), (proj2 (str_empty_false _) H2),
      (proj2 (str_empty_false _) H3). cbn. eexists. split; [reflexivity|]. cbn.
    split_and!; try done. destruct (str_empty ip) eqn:Ei; cbn.
    + by rewrite (proj2 (str_empty_false _) H4).
    + by rewrite Ei.
  - unfold reputationJson. symmetry. destruct (Z.leb_spec 0 (reputation r)); cbn;
      by rewrite wraps_small by (lia || done).
Qed.

Lemma identity_ok_reloaded port ip r r' :
  identity_ok r -> in_u 16 port -> utf8 ip = true ->
  nodeId r' = nodeId r -> publicKey r' = publicKey r -> privateKey r' = privateKey r ->
  reputation r' = reputation r -> identityPort r' = port ->
  advertisedIp r' = (if str_empty ip then advertisedIp r else ip) -> identity_ok r'.
Proof.
  intros (H1 & H2 & H3 & H4 & _ & H6 & H7) Hp Hip E1 E2 E3 E4 E5 E6. unfold identity_ok.
  rewrite E1, E2, E3, E4, E5, E6. bool_to_prop.
  assert (Htxt : utf8 (if str_empty ip then advertisedIp r else ip) = true).
  { by destruct (str_empty ip). }
  split_and!; try done.
  - destruct (str_empty ip) eqn:Ei; [done|]. by apply str_empty_false.
  - repeat (apply andb_true_intro; split); assumption.
Qed.

Lemma value_i32_range key d j z : in_s 32 d -> value_i32 key d j = Ok z -> in_s 32 z.
Proof.
  unfold value_i32, jvalue. intros Hd. destruct j as [| | | | | | |m]; try done.
  destruct (obj_find key m) as [v|]; [|by intros [= <-]].
  destruct v; try done; intros [= <-]; by apply wraps_range.
Qed.

(** A write of the identity without faults. *)
Lemma persist_run dir r fs b fs' evs :
  exec (persist dir r) [] fs = (Some (Ok b), fs', evs) ->
  b = true /\ exists text, json_dump (Some 2) (identityDocument r) = Ok text /\
    fs' !! identityPath dir = Some (text +:+ newline).
Proof.
  unfold persist. cbn [exec perform failed]. 
  destruct (json_dump (Some 2) (identityDocument r)) as [text|e]; cbn [exec perform]; [|done].
  intros [= <- <- _]. split; [done|]. exists text. split; [done|]. apply lookup_insert_eq.
Qed.

(** Printing an address and reading it back. *)
Lemma parseAddress_print h p :
  h <> "" -> 0 < p < 65536 ->
  parseAddress (h +:+ ":" +:+ to_string p) = Ok (Some (mkAddress h p)).
Proof.
  intros Hh Hp. unfold parseAddress.
  destruct (str_empty (h +:+ ":" +:+ to_string p)) eqn:E.
  { destruct h; [done|discriminate E]. }
  change (":" +:+ to_string p) with (String ":" (to_string p)).
  rewrite str_rfind_app_none by
    (apply (str_rfind_forallb is_digit); [done|apply to_string_digits; lia]).
  destruct (String.length h) as [|k] eqn:El; [by destruct h|].
  rewrite str_take_app by done.
  replace (str_drop (S (S k)) (h +:+ String ":" (to_string p))) with (to_string p).
  - rewrite stoi_to_string by lia. cbn [rbind]. rewrite wrapu_small by (unfold in_u; lia).
    by rewrite (proj2 (Z.ltb_lt _ _)) by lia.
  - change (h +:+ String ":" (to_string p)) with (h +:+ (":" +:+ to_string p)).
    rewrite <- str_app_assoc. rewrite str_drop_app; [done|].
    rewrite str_length_app, El. simpl. lia.
Qed.

(** Where the record comes from. *)
Definition identity_source (e port : Z) (ip : string) (r : NodeIdentityRecord) : Prop :=
  freshIdentity e port ip = Ok r \/ exists text, identityFromText port ip text = Ok r.

Lemma createIdentity_run e dir port ip fs r fs' evs :
  exec (createIdentity e dir port ip) [] fs = (Some (Ok (r, true)), fs', evs) ->
  identity_source e port ip r /\
  exists text, json_dump (Some 2) (identityDocument r) = Ok text /\
    fs' !! identityPath dir = Some (text +:+ newline).
Proof.
  unfold createIdentity, identity_source. destruct (freshIdentity e port ip) as [r0|x]; [|done].
  rewrite exec_pbind. destruct (exec (persist dir r0) [] fs) as [[[[b|x]|] fs1] evs1] eqn:E; try done.
  cbn. intros [= <- -> <- <-]. apply persist_run in E as [_ ?]. split; [by left|done].
Qed.

(** Without faults there is an identity in the end when a new one can be made and
    printed; no other file is touched. *)
Definition only_at (f : string) (fs fs' : FS) : Prop := forall p, p <> f -> fs' !! p = fs !! p.

Lemma persist_only dir r fs :
  exists x fs', run (persist dir r) [] fs = (Some x, fs') /\ only_at (identityPath dir) fs fs' /\
    (json_utf8 (identityDocument r) = true -> x = Ok true).
Proof.
  unfold run, persist, only_at. pose proof (dump_utf8 (Some 2) (identityDocument r)) as Hd. cbn [exec perform failed].
  destruct (json_dump (Some 2) (identityDocument r)) as [text|e]; cbn [exec perform];
    (do 2 eexists; split; [done|]; split; [intros p Hp; by simplify_map_eq|]); [done|].
  intros Hu. rewrite Hu in Hd. by destruct Hd.
Qed.

Lemma createIdentity_total e dir port ip fs r :
  freshIdentity e port ip = Ok r -> json_utf8 (identityDocument r) = true ->
  exists fs', run (createIdentity e dir port ip) [] fs = (Some (Ok (r, true)), fs') /\ only_at (identityPath dir) fs fs'.
Proof.
  intros Hr Hu. unfold createIdentity. rewrite Hr. destruct (persist_only dir r fs) as (x & fs1 & H & Ho & Hx).
  exists fs1. erewrite run_nil_pbind by exact H. by rewrite (Hx Hu).
Qed.

Lemma loadOrCreate_total e dir port ip fs r0 :
  freshIdentity e port ip = Ok r0 -> json_utf8 (identityDocument r0) = true ->
  exists r ok fs', run (loadOrCreate e dir port ip) [] fs = (Some (Ok (r, ok)), fs') /\
    only_at (identityPath dir) fs fs'.
Proof.
  intros Hr Hu. pose proof (fun fs => createIdentity_total e dir port ip fs r0 Hr Hu) as Hc.
  assert (Hnew : exists r ok fs', run (createIdentity e dir port ip) [] fs = (Some (Ok (r, ok)), fs') /\
    only_at (identityPath dir) fs fs') by (destruct (Hc fs) as (fs1 & ? & ?); eauto).
  unfold run, loadOrCreate in *. cbn [exec perform].
  destruct (fs !! identityPath dir) as [text|]; [|exact Hnew].
  destruct (identityFromText port ip text) as [r|x]; [|exact Hnew].
  destruct (persist_only dir r fs) as (x & fs1 & H & Ho & _). rewrite exec_pbind, exec_nil_run, H.
  destruct x as [ok|x]; [by exists r, ok, fs1|]. destruct (Hc fs1) as (fs2 & H2 & Ho2).
  exists r0, true, fs2. split; [exact H2|]. intros p Hp. by rewrite Ho2, Ho.
Qed.

(** The identity [loadOrCreate] answers is the one on disk. *)
Lemma loadOrCreate_run e dir port ip fs r fs' evs :
  exec (loadOrCreate e dir port ip) [] fs = (Some (Ok (r, true)), fs', evs) ->
  identity_source e port ip r /\
  exists text, json_dump (Some 2) (identityDocument r) = Ok text /\
    fs' !! identityPath dir = Some (text +:+ newline).
Proof.
  unfold loadOrCreate. cbn [exec perform]. destruct (fs !! identityPath dir) as [old|];
    [|apply createIdentity_run].
  destruct (identityFromText port ip old) as [r0|x] eqn:Er; [|apply createIdentity_run].
  rewrite exec_pbind. destruct (exec (persist dir r0) [] fs) as [[[[b|x]|] fs1] evs1] eqn:E; try done.
  - cbn. intros [= <- -> <- <-]. apply persist_run in E as [_ ?]. split; [right; by exists old|done].
  - intros H. destruct evs1; [|]. 
    + by eapply createIdentity_run.
    + unfold persist in E. cbn in E. destruct (json_dump _ _); cbn in E; simplify_eq.
Qed.

(** What every record has, whether it was read or made. *)
Lemma identity_source_shape {OSS : OpenSSLSpec OS} e port ip r :
  identity_source e port ip r ->
  nodeId r <> "" /\ advertisedIp r <> "" /\ identityPort r = port /\ in_s 32 (reputation r).
Proof.
  intros [H|[text H]].
  - unfold freshIdentity in H. destruct (newWallet e) as [w|]; [|done]. injection H as <-. cbn.
    split_and!; [|by destruct ip|done|done]. intros E%(f_equal String.length). by rewrite sha256_length in E.
  - unfold identityFromText in H. destruct (json_stream text) as [j|]; [cbn [rbind] in H|done].
    destruct (value_string _ _ j) as [pub|]; [cbn [rbind] in H|done]. destruct (value_string _ _ j) as [priv|]; [cbn [rbind] in H|done].
    destruct (value_string _ _ j) as [id|]; [cbn [rbind] in H|done]. destruct (value_string _ _ j) as [ip0|]; [cbn [rbind] in H|done].
    destruct (value_u16 _ _ j); [cbn [rbind] in H|done]. destruct (value_i32 _ _ j) as [rep|] eqn:Erep; [cbn [rbind] in H|done].
    destruct (_ || str_empty id) eqn:Ee; [done|]. injection H as <-. cbn [nodeId advertisedIp identityPort reputation].
    apply orb_false_elim in Ee as [_ Hid%str_empty_false]. split_and!; [done| |done|by eapply value_i32_range, Erep].
    by destruct ip; cbn [str_empty negb]; [destruct ip0|].
Qed.

(** The identity that was stored is one that can be printed and read back. *)
Lemma stored_identity_ok {OSS : OpenSSLSpec OS} e port ip r text :
  identity_source e port ip r -> json_dump (Some 2) (identityDocument r) = Ok text ->
  in_u 16 port -> publicKey r <> "" -> privateKey r <> "" -> identity_ok r.
Proof.
  intros (H1 & H2 & H3 & H4)%identity_source_shape Ht Hp Hpub Hpriv. unfold identity_ok. rewrite H3.
  split_and!; [done..|]. pose proof (dump_utf8 (Some 2) (identityDocument r)) as Hd.
  destruct (json_utf8 (identityDocument r)) eqn:Eu; [|by destruct Hd as (m & _ & Hd); rewrite Ht in Hd].
  change (utf8 (advertisedIp r) && (utf8 (nodeId r) && (true && (utf8 (privateKey r) && (utf8 (publicKey r) && true))))
    = true) in Eu. bool_to_prop. repeat (apply andb_true_intro; split); assumption.
Qed.

(** An identity whose advertised address is not UTF-8 is not printed: the file is
    left empty. *)
Lemma persist_unprintable dir r fs :
  utf8 (advertisedIp r) = false ->
  exists x, run (persist dir r) [] fs = (Some (Throw x), <[identityPath dir := EmptyString]> fs).
Proof.
  intros Hip. pose proof (dump_utf8 (Some 2) (identityDocument r)) as Hd.
  change (json_utf8 (identityDocument r)) with
    (utf8 (advertisedIp r) && (utf8 (nodeId r) && (true && (utf8 (privateKey r) && (utf8 (publicKey r) && true))))) in Hd.
  rewrite Hip in Hd. destruct Hd as (text & _ & Hd). unfold run, persist. cbn [exec perform failed]. rewrite Hd.
  by eexists.
Qed.

Lemma createIdentity_unprintable e dir port ip fs :
  str_empty ip = false -> utf8 ip = false -> fs !! identityPath dir = Some EmptyString ->
  exists x, run (createIdentity e dir port ip) [] fs = (Some (Throw x), fs).
Proof.
  intros Hne Hip Hf. unfold createIdentity, freshIdentity. destruct (newWallet e) as [w|x]; cbn [rbind]; [|by eexists].
  rewrite Hne. destruct (persist_unprintable dir (mkIdentity (sha256 (publicKey_ w)) (publicKey_ w) (privateKey_ w) ip port 100) fs Hip)
    as [x H]. exists x. erewrite run_nil_pbind by exact H. by rewrite insert_id.
Qed.

(** C40: the identity of a node survives restarts without disk faults. Once
    [loadOrCreate] has stored an identity, with keys that are not empty, a later
    start, whatever its randomness and port, finds the same node identifier, keys
    and reputation, with the new port, and an advertised address that is the old one
    unless a new one is given; its own store succeeds, so that the same holds of the
    start after it. All this when the advertised address it is given is UTF-8: with
    any other one the later start fails, and leaves an empty file, so that the
    identity is lost. *)
Theorem identity_survives_restart {OSS : OpenSSLSpec OS} (e e' : Z) (dir : string) (port port' : Z) (ip ip' : string)
    (fs fs' : FS) (r : NodeIdentityRecord) :
  run (loadOrCreate e dir port ip) [] fs = (Some (Ok (r, true)), fs') ->
  publicKey r <> "" -> privateKey r <> "" -> in_u 16 port -> in_u 16 port' ->
  if utf8 ip' then
    exists r' fs'',
      run (loadOrCreate e' dir port' ip') [] fs' = (Some (Ok (r', true)), fs'') /\
      nodeId r' = nodeId r /\ publicKey r' = publicKey r /\ privateKey r' = privateKey r /\
      reputation r' = reputation r /\ identityPort r' = port' /\
      advertisedIp r' = if str_empty ip' then advertisedIp r else ip'
  else
    exists x, run (loadOrCreate e' dir port' ip') [] fs' = (Some (Throw x), <[identityPath dir := ""]> fs').
Proof.
  intros Hrun Hpub Hpriv Hport Hp. unfold run in Hrun.
  destruct (exec (loadOrCreate e dir port ip) [] fs) as [[o fs1] evs] eqn:E.
  cbn [fst] in Hrun. injection Hrun as -> <-.
  apply loadOrCreate_run in E as (Hsrc & text & Htext & Hfile).
  assert (Hok : identity_ok r) by (by eapply stored_identity_ok).
  destruct (identity_reads_back port' ip' text r Hok Htext Hp)
    as (r' & Hr' & E1 & E2 & E3 & E4 & E5 & E6).
  assert (Hload : run (loadOrCreate e' dir port' ip') [] fs1 =
    run (do! ok := persist dir r' in
         match ok with Ok ok => Ret (Ok (r', ok)) | Throw _ => createIdentity e' dir port' ip' end) [] fs1).
  { unfold run at 1, loadOrCreate. cbn [exec perform]. by rewrite Hfile, Hr'. }
  destruct (utf8 ip') eqn:Hip.
  - destruct (persist_only dir r' fs1) as (x & fs2 & Hrun & _ & Hx).
    assert (x = Ok true) as ->.
    { apply Hx, identityDocument_utf8. by apply (identity_ok_reloaded port' ip' r r'). }
    exists r', fs2. rewrite Hload. split; [by erewrite run_nil_pbind by exact Hrun|done].
  - assert (Hne : str_empty ip' = false) by (by destruct ip'). rewrite Hne in E6.
    destruct (persist_unprintable dir r' fs1) as [x Hx]; [by rewrite E6|].
    destruct (createIdentity_unprintable e' dir port' ip' (<[identityPath dir := EmptyString]> fs1)) as [x' Hx'];
      [done|done|by simplify_map_eq|].
    exists x'. rewrite Hload. erewrite run_nil_pbind by exact Hx. exact Hx'.
Qed.

End config_lemmas.

(** ** Witness *)

Section config_witness.
Import ToyOpenSSL Nlohmann.

Definition storedIdentity : NodeIdentityRecord :=
  mkIdentity "id" "02ab" "0123" "10.0.0.7" 5000 100.

(** A data directory that holds [storedIdentity]. *)
Definition identityDisk : FS :=
  {[identityPath "d" := match json_dump (Some 2) (identityDocument storedIdentity) with
                         | Ok text => text +:+ newline
                         | Throw _ => ""
                         end]}.

(** A restart with no address, and one with an address that is no UTF-8. *)
Lemma identity_survives_restart_witness :
  (exists r' fs'', run (loadOrCreate 7 "d" 6000 "") [] identityDisk = (Some (Ok (r', true)), fs'') /\
    nodeId r' = "id") /\
  exists x, run (loadOrCreate 7 "d" 6000 (String (chr 255) "")) [] identityDisk =
    (Some (Throw x), <[identityPath "d" := ""]> identityDisk).
Proof.
  assert (H0 : run (loadOrCreate 3 "d" 5000 "") [] identityDisk = (Some (Ok (storedIdentity, true)), identityDisk))
    by (vm_compute; reflexivity).
  split.
  - destruct (identity_survives_restart (OSS := toy_spec) 3 7 "d" 5000 6000 "" "" identityDisk identityDisk storedIdentity)
      as (r' & fs'' & H1 & H2 & _); [exact H0|discriminate|discriminate|by apply in_ub_spec|by apply in_ub_spec|].
    exists r', fs''. split; [exact H1|exact H2].
  - refine (identity_survives_restart (OSS := toy_spec) 3 7 "d" 5000 6000 "" (String (chr 255) "") identityDisk identityDisk
      storedIdentity _ _ _ _ _); [exact H0|discriminate|discriminate|by apply in_ub_spec|by apply in_ub_spec].
Defined.

End config_witness.
