(* ===== verification/Http.v ===== *)
(** * Http: the handlers of src/src/network/http_server.cpp

    The HTTP interface of the node: its state (the time of each miner's last
    block, the addresses seen, the login challenges), the router and one
    computation per handler, over the state of the server and of the node it
    shares. A handler runs from start to end as one step. Every handler catches
    the exceptions of its body and answers with an error; an exception raised
    while that answer is printed leaves the handler. *)

From S2P Require Import Prelude StdTime Json Crypto Transaction Block State Consensus Storage Blockchain Wallet Peer PeerScorer PeerManager Connections Effects Node NodeFacts HttpText.
#[local] Open Scope Z_scope.

(** ** State *)

Record Http := mkHttp {
  node_ : Node;  (* the node, with the blockchain they share *)
  lastMineAt_ : gmap string Z;  (* steady_clock *)
  knownAddresses_ : gset string;
  challengeStore_ : ChallengeStore  (* of walletManager_ *)
}.

Definition with_node (n : Node) (h : Http) : Http :=
  mkHttp n (lastMineAt_ h) (knownAddresses_ h) (challengeStore_ h).
Definition with_lastMineAt (m : gmap string Z) (h : Http) : Http :=
  mkHttp (node_ h) m (knownAddresses_ h) (challengeStore_ h).
Definition with_knownAddresses (s : gset string) (h : Http) : Http :=
  mkHttp (node_ h) (lastMineAt_ h) s (challengeStore_ h).
Definition with_challengeStore (s : ChallengeStore) (h : Http) : Http :=
  mkHttp (node_ h) (lastMineAt_ h) (knownAddresses_ h) s.

(** The constructor. *)
Definition newHttpServer (n : Node) : Http := mkHttp n ∅ {["GENESIS"]} ∅.

Abbreviation HM := (St Http).

(** A call into the node. *)
Definition liftN {A} (m : M A) : HM A := fun h =>
  let '(n, r) := m (node_ h) in (with_node n h, r).

(** Getters of the blockchain, under its mutex; several in a row are one reading. *)
Definition the_chain {A} (f : Blockchain -> A) : HM A := liftN (read_chain f).

Section http.
Context `{W : World} `{OS : OpenSSL} `{JT : JsonText}.

(** ** Answers *)

Definition errorResponse (code : Z) (text errorCode message : string) : result HttpResponse :=
  let! b := json_dump None (json_object [
    ("error", JString message); ("errorCode", JString errorCode); ("message", JString message)]) in
  Ok (statusResponse code text b).

Definition fail (code : Z) (text errorCode message : string) : HM HttpResponse :=
  lift (errorResponse code text errorCode message).
Definition badRequest := fail 400 "Bad Request".

(** The catch clause of the handlers that only read. *)
Definition internalError (e : exn) : HM HttpResponse :=
  lift (let! b := json_dump None (json_object [("error", JString (what e))]) in
        Ok (statusResponse 500 "Internal Server Error" b)).

(** [resp.body = j.dump(2)] *)
Definition jsonResponse (j : json) : HM HttpResponse :=
  lift (let! b := json_dump (Some 2) j in Ok (defaultResponse b)).

(** ** Helpers *)

Definition know (address : string) : HM unit :=
  modify (fun h => with_knownAddresses ({[address]} ∪ knownAddresses_ h) h).

Definition walletExistsM (address : string) : HM bool :=
  if negb (isValidAddress address) then mret false else
  known ← gets (fun h => bool_decide (address ∈ knownAddresses_ h));
  if (known : bool) then mret true else
  balance ← the_chain (getBalanceForAddress address);
  if 0 <? balance then mret true else
  txs ← the_chain (getHistoryForAddress address);
  mret (match txs with [] => false | _ => true end).

(** Its answer when the blockchain can be read. *)
Definition walletExists (address : string) (h : Http) : bool :=
  if negb (isValidAddress address) then false
  else if bool_decide (address ∈ knownAddresses_ h) then true
  else if 0 <? getBalanceForAddress address (blockchain_ (node_ h)) then true
  else match getHistoryForAddress address (blockchain_ (node_ h)) with [] => false | _ => true end.

Definition withTxAliases (txJson : json) : result json :=
  let! id := value_string "txID" "" txJson in
  let! from := value_string "fromAddress" "" txJson in
  let! to := value_string "toAddress" "" txJson in
  Ok (json_set "receiver" (JString to) (json_set "sender" (JString from)
        (json_set "transactionId" (JString id) txJson))).

(** The fields added to the row of a pending or of a confirmed transaction. *)
Definition pendingRow (row : json) : json :=
  json_set "blockHash" (JString "") (json_set "blockHeight" JNull
    (json_set "status" (JString "pending") row)).
Definition confirmedRow (height : Z) (hash : string) (row : json) : json :=
  json_set "blockHash" (JString hash) (json_set "blockHeight" (JUnsigned height)
    (json_set "status" (JString "confirmed") row)).

(** ** Wallets and logins *)

Definition handleCreateWallet : HM HttpResponse :=
  try_with
    (entropy ← liftN (reading random);
     wallet ← lift (createWallet entropy);
     let address := addressFromPublicKey (publicKey_ wallet) in
     _ ← know address;
     jsonResponse (json_set "message" (JString "Wallet created. Save your private key locally.")
       (json_set "address" (JString address)
         (json_set "privateKey" (JString (privateKey_ wallet))
           (json_set "publicKey" (JString (publicKey_ wallet)) JNull)))))
    (fun e => fail 500 "Internal Server Error" "WALLET_CREATE_FAILED" (what e)).

Definition invalidKey : HM HttpResponse :=
  badRequest "INVALID_PRIVATE_KEY" "Private key must be exactly 64 hexadecimal characters".

Definition handleImportWallet (body : string) : HM HttpResponse :=
  try_with
    (j ← lift (json_parse body);
     key ← lift (value_string "privateKey" "" j);
     let privateKey := toLower (trim key) in
     if negb (isValidPrivateKey privateKey) then invalidKey
     else
       wallet ← lift (importWallet privateKey);
       let address := addressFromPublicKey (publicKey_ wallet) in
       _ ← know address;
       jsonResponse (json_object [("publicKey", JString (publicKey_ wallet));
         ("address", JString address); ("message", JString "Wallet imported")]))
    (fun e => badRequest "WALLET_IMPORT_FAILED" (what e)).

Definition handleWalletLogin (body : string) : HM HttpResponse :=
  try_with
    (j ← lift (json_parse body);
     key ← lift (value_string "privateKey" "" j);
     let privateKey := toLower (trim key) in
     if negb (isValidPrivateKey privateKey) then invalidKey
     else
       now ← liftN system_now;
       login ← lift (verifyPrivateKeyLogin now privateKey);
       match login with
       | None => fail 401 "Unauthorized" "AUTH_FAILED" "Private key verification failed"
       | Some (token, address, publicKey) =>
           _ ← know address;
           jsonResponse (json_object [("address", JString address); ("publicKey", JString publicKey);
             ("token", JString token); ("message", JString "Wallet authenticated")])
       end)
    (fun e => badRequest "AUTH_FAILED" (what e)).

Definition handleLoginChallenge (body : string) : HM HttpResponse :=
  try_with
    (j ← lift (json_parse body);
     address ← lift (value_string "address" "" j);
     publicKey ← lift (value_string "publicKey" "" j);
     if str_empty address || str_empty publicKey
     then badRequest "AUTH_FAILED" "address and publicKey are required"
     else if negb (isValidAddress address)
     then badRequest "INVALID_ADDRESS" "Wallet address format is invalid"
     else
       r1 ← liftN (reading random);
       r2 ← liftN (reading random);
       t1 ← liftN system_now;
       t2 ← liftN system_now;
       store ← gets challengeStore_;
       let '(r, store) := createLoginChallenge r1 r2 t1 t2 address publicKey store in
       _ ← modify (with_challengeStore store);
       challenge ← lift r;
       jsonResponse (json_object [("challenge", JString challenge); ("expiresInSec", JInteger 300)]))
    (fun e => badRequest "AUTH_FAILED" (what e)).

Definition handleVerifyLogin (body : string) : HM HttpResponse :=
  try_with
    (j ← lift (json_parse body);
     address ← lift (value_string "address" "" j);
     publicKey ← lift (value_string "publicKey" "" j);
     challenge ← lift (value_string "challenge" "" j);
     signature ← lift (value_string "signature" "" j);
     if str_empty address || str_empty publicKey || str_empty challenge || str_empty signature
     then badRequest "AUTH_FAILED" "address, publicKey, challenge, signature are required"
     else if negb (isValidAddress address)
     then badRequest "INVALID_ADDRESS" "Wallet address format is invalid"
     else
       now ← liftN system_now;
       store ← gets challengeStore_;
       let '(token, store) := verifyLogin now address publicKey challenge signature store in
       _ ← modify (with_challengeStore store);
       match token with
       | None => fail 401 "Unauthorized" "AUTH_FAILED" "Invalid login signature or expired challenge"
       | Some token =>
           _ ← know address;
           jsonResponse (json_object [("address", JString address); ("token", JString token)])
       end)
    (fun e => badRequest "AUTH_FAILED" (what e)).

(** ** Transactions *)

(** The guards of [handleSendTransaction], in order, up to the transaction
    that is submitted; [inl] is an early return. *)
Definition prepareSend (body : string) : HM (HttpResponse + Transaction) :=
  let reject (m : HM HttpResponse) : HM (HttpResponse + Transaction) := r ← m; mret (inl r) in
  j ← lift (json_parse body);
  from ← lift (value_string "fromAddress" "" j);
  to ← lift (value_string "toAddress" "" j);
  let from := trim from in
  let to := trim to in
  senderPublicKey ← lift (value_string "senderPublicKey" "" j);
  receiverPublicKey ← lift (value_string "receiverPublicKey" "" j);
  payload ← lift (value_string "payload" "" j);
  timestamp ← lift (value_string "timestamp" "" j);
  id ← lift (value_string "txID" "" j);
  digital ← lift (value_string "digitalSignature" "" j);
  signature ← lift (value_string "signature" digital j);
  amount ← lift (value_u64 "amount" 0 j);
  nonce ← lift (value_u64 "nonce" 0 j);
  if str_empty from || str_empty to || str_empty senderPublicKey || str_empty signature
  then reject (badRequest "INVALID_TRANSACTION"
    "Missing required fields: fromAddress,toAddress,senderPublicKey,signature")
  else if amount =? 0 then reject (badRequest "INVALID_TRANSACTION" "amount must be > 0")
  else if Nat.ltb 2048 (String.length payload)
  then reject (fail 413 "Payload Too Large" "INVALID_TRANSACTION" "payload too large")
  else if negb (isValidAddress from) || negb (String.eqb from (addressFromPublicKey senderPublicKey))
  then reject (badRequest "INVALID_ADDRESS"
    "Sender address is invalid or does not match sender public key")
  else if negb (isValidAddress to)
  then reject (badRequest "INVALID_ADDRESS" "Receiver address format is invalid")
  else
    exists_ ← walletExistsM to;
    if negb exists_ then reject (badRequest "RECEIVER_NOT_FOUND" "Receiver wallet does not exist")
    else
      balance ← the_chain (getBalanceForAddress from);
      if balance <? amount
      then reject (badRequest "INSUFFICIENT_BALANCE" "Insufficient balance")
      else
        timestamp ← (if str_empty timestamp then now ← liftN system_now; mret (currentTimestamp now)
                     else mret timestamp);
        let tx := computeTxID (mkTx "" senderPublicKey receiverPublicKey from to amount nonce payload
                                 timestamp "") in
        if negb (str_empty id) && negb (String.eqb id (txID tx))
        then reject (badRequest "INVALID_TRANSACTION" "txID mismatch")
        else mret (inr (set_signature signature tx)).

(** Balances in [int64_t]; the sums wrap where C++ leaves them undefined. *)
Definition pendingBalance (confirmed received sent : Z) : Z :=
  i64 (i64 (i64 confirmed + i64 received) - i64 sent).

Definition walletRow (a : string) (bc : Blockchain) : list (string * json) :=
  let confirmed := walletBalance a bc in
  let sent := pendingOutgoing a (mempool_ bc) in
  let received := pendingIncoming a (mempool_ bc) in
  [("address", JString a); ("confirmedBalance", JUnsigned confirmed);
   ("pendingSent", JUnsigned sent); ("pendingReceived", JUnsigned received);
   ("pendingBalance", JInteger (pendingBalance confirmed received sent));
   ("nextNonce", JUnsigned (u64 (highestSeenNonce a bc + 1)))].

Definition sendAccepted (tx : Transaction) : HM HttpResponse :=
  row ← lift (withTxAliases (txToJson tx));
  bc ← the_chain id;
  jsonResponse (json_set "mempoolSize" (JUnsigned (Z.of_nat (length (getMempool bc))))
    (json_set "wallet" (json_object (walletRow (fromAddress tx) bc))
      (json_set "transaction" (pendingRow row)
        (json_set "transactionId" (JString (txID tx))
          (json_set "txID" (JString (txID tx))
            (json_set "message" (JString "Transaction accepted") JNull)))))).

Definition submit (tx : Transaction) : HM HttpResponse :=
  accepted ← liftN (addTransactionM tx);
  if (accepted : bool) then sendAccepted tx
  else badRequest "INVALID_TRANSACTION" "Transaction rejected (invalid signature, nonce replay, insufficient balance, expired, or double-spend)".

Definition handleSendTransaction (body : string) : HM HttpResponse :=
  try_with
    (r ← prepareSend body;
     match r with inl response => mret response | inr tx => submit tx end)
    (fun e => if is_json_exn e
              then badRequest "INVALID_TRANSACTION" ("JSON parse error: " +:+ what e)
              else fail 500 "Internal Server Error" "TX_SEND_FAILED" (what e)).

(** ** Mining *)

Definition kMiningCooldownSeconds : Z := 30.

(** The miner named by the query, or by a body that opens an object. *)
Definition minerOf (body path : string) : result string :=
  let! a := match body with
            | String "{" _ => let! j := json_parse body in value_string "minerAddress" "" j
            | _ => Ok (queryParam path "minerAddress")
            end in
  Ok (if str_empty a then "GENESIS" else a).

(** The seconds left when the miner is in its cooldown. *)
Definition cooldownRemaining (now : Z) (last : option Z) : option Z :=
  match last with
  | None => None
  | Some t =>
      let elapsed := age now t in
      if elapsed <? kMiningCooldownSeconds then Some (kMiningCooldownSeconds - elapsed) else None
  end.

Definition cooldownResponse (remaining : Z) : HM HttpResponse :=
  _ ← fail 429 "Too Many Requests" "MINING_COOLDOWN_ACTIVE" "Mining cooldown active";
  b ← lift (json_dump None (json_object [("error", JString "Mining cooldown active");
        ("errorCode", JString "MINING_COOLDOWN_ACTIVE"); ("message", JString "Mining cooldown active");
        ("cooldownRemainingSeconds", JInteger remaining)]));
  mret (statusResponse 429 "Too Many Requests" b).

(** The block is mined, and the miner's clock started. *)
Definition mine (fuel : nat) (minerAddress : string) : HM HttpResponse :=
  mempool ← the_chain getMempool;
  let pendingCountBeforeMine := length mempool in
  newBlock ← liftN (minePending fuel minerAddress);
  t ← liftN steady_now;
  _ ← modify (fun h => with_lastMineAt (<[minerAddress := t]> (lastMineAt_ h)) h);
  _ ← know minerAddress;
  balance ← the_chain (walletBalance minerAddress);
  jsonResponse (json_set "newBalance" (JUnsigned balance)
    (json_set "rewardOnlyBlock" (JBool (Nat.eqb pendingCountBeforeMine 0))
      (json_set "mempoolTransactionsMined" (JUnsigned (Z.of_nat pendingCountBeforeMine))
        (json_set "cooldownSeconds" (JInteger kMiningCooldownSeconds)
          (json_set "notification" (JString "50 PCN mined successfully")
            (json_set "reward" (JInteger 50)
              (json_set "minerAddress" (JString minerAddress)
                (json_set "block" (blockToJson newBlock)
                  (json_set "message" (JString "Block mined successfully") JNull))))))))).

Definition handleMine (fuel : nat) (body path : string) : HM HttpResponse :=
  try_with
    (minerAddress ← lift (minerOf body path);
     if negb (String.eqb minerAddress "GENESIS") && negb (isValidAddress minerAddress)
     then badRequest "INVALID_ADDRESS" "Miner address format is invalid"
     else
       now ← liftN steady_now;
       last ← gets (fun h => lastMineAt_ h !! minerAddress);
       match cooldownRemaining now last with
       | Some remaining => cooldownResponse remaining
       | None => mine fuel minerAddress
       end)
    (fun e => fail 500 "Internal Server Error" "MINE_FAILED" (what e)).

Definition handleTrade (body : string) : HM HttpResponse :=
  fail 501 "Not Implemented" "TRADE_NOT_IMPLEMENTED" "Trade endpoint is not implemented yet".

(** ** Reading *)

Definition handleGetChain : HM HttpResponse :=
  try_with
    (bc ← the_chain id;
     jsonResponse (json_set "chain" (chainToJson bc)
       (json_set "length" (JUnsigned (getChainLength bc)) JNull)))
    internalError.

Definition confirmedRows (chain : list Block) : result (list json) :=
  let! rows := rmap (fun b =>
    rmap (fun tx => let! row := withTxAliases (txToJson tx) in Ok (confirmedRow (index b) (hash b) row))
      (transactions b)) chain in
  Ok (concat rows).

Definition confirmedIds (txs : list Transaction) : gset string := list_to_set (map txID txs).

Definition json_count (l : list json) : json := JUnsigned (Z.of_nat (length l)).

Definition handleGetTransactions : HM HttpResponse :=
  try_with
    (chain ← the_chain getChain;
     mempool ← the_chain getMempool;
     confirmed ← lift (confirmedRows chain);
     let confirmedTxIds := confirmedIds (concat (map transactions chain)) in
     pending ← lift (rmap (fun tx => let! row := withTxAliases (txToJson tx) in Ok (pendingRow row))
                       (filter (fun tx => txID tx ∉ confirmedTxIds) mempool));
     jsonResponse (json_object [("count", json_count (confirmed ++ pending));
       ("transactions", JArray (confirmed ++ pending)); ("confirmedTransactions", JArray confirmed);
       ("pendingTransactions", JArray pending)]))
    internalError.

Definition handleGetMempool : HM HttpResponse :=
  try_with
    (txs ← the_chain getMempool;
     rows ← lift (rmap (fun tx => let! row := withTxAliases (txToJson tx) in
                                  Ok (json_set "status" (JString "pending") row)) txs);
     jsonResponse (json_set "transactions" (JArray rows)
       (json_set "count" (JUnsigned (Z.of_nat (length txs))) JNull)))
    internalError.

Definition handleGetWalletBalance (address : string) : HM HttpResponse :=
  try_with
    (if negb (isValidAddress address)
     then badRequest "INVALID_ADDRESS" "Wallet address format is invalid"
     else
       _ ← know address;
       bc ← the_chain id;
       jsonResponse (json_object
         (("balance", JUnsigned (walletBalance address bc)) :: walletRow address bc)))
    internalError.

Definition direction (address : string) (tx : Transaction) : string :=
  if isCoinbase tx then "reward" else if String.eqb (fromAddress tx) address then "sent" else "received".

(** [txBlockMeta]: the last block that holds each transaction. *)
Definition blockMeta (chain : list Block) : gmap string (Z * string) :=
  foldl (fun m b => foldl (fun m tx => <[txID tx := (index b, hash b)]> m) m (transactions b)) ∅ chain.

Definition historyRow (address : string) (meta : gmap string (Z * string)) (tx : Transaction) : result json :=
  let! row := withTxAliases (txToJson tx) in
  let row := json_set "status" (JString "confirmed")
               (json_set "direction" (JString (direction address tx)) row) in
  Ok (match meta !! txID tx with
      | Some (height, hash) =>
          json_set "blockHash" (JString hash) (json_set "blockHeight" (JUnsigned height) row)
      | None => json_set "blockHash" (JString "") (json_set "blockHeight" JNull row)
      end).

(** The pending transactions of an address that its history does not hold. *)
Definition pendingFor (address : string) (confirmed : gset string) (mempool : list Transaction)
    : list Transaction :=
  filter (fun tx => (fromAddress tx = address \/ toAddress tx = address) /\ txID tx ∉ confirmed) mempool.

Definition handleGetWalletTransactions (address : string) : HM HttpResponse :=
  try_with
    (if negb (isValidAddress address)
     then badRequest "INVALID_ADDRESS" "Wallet address format is invalid"
     else
       bc ← the_chain id;
       let txs := walletTransactions address bc in
       confirmed ← lift (rmap (historyRow address (blockMeta (getChain bc))) txs);
       pending ← lift (rmap (fun tx =>
                   let! row := withTxAliases (txToJson tx) in
                   Ok (pendingRow (json_set "direction" (JString (direction address tx)) row)))
                   (pendingFor address (confirmedIds txs) (getMempool bc)));
       jsonResponse (json_object [("address", JString address); ("count", json_count (confirmed ++ pending));
         ("transactions", JArray (confirmed ++ pending)); ("confirmedTransactions", JArray confirmed);
         ("pendingTransactions", JArray pending)]))
    internalError.

Definition handleGetPeers : HM HttpResponse :=
  try_with
    (peers ← liftN getPeerList;
     jsonResponse (json_set "peers" (string_array peers)
       (json_set "count" (JUnsigned (Z.of_nat (length peers))) JNull)))
    internalError.

Definition handleHealth : HM HttpResponse :=
  try_with
    (bc ← the_chain id;
     peers ← liftN getPeerList;
     jsonResponse (json_set "mempoolSize" (JUnsigned (Z.of_nat (length (getMempool bc))))
       (json_set "peerCount" (JUnsigned (Z.of_nat (length peers)))
         (json_set "difficulty" (JUnsigned (getDifficulty bc))
           (json_set "chainUpdateVersion" (JUnsigned (getChainUpdateVersion bc))
             (json_set "chainLength" (JUnsigned (getChainLength bc))
               (json_set "status" (JString "ok") JNull)))))))
    internalError.

Definition peerRow (key : string) (info : PeerInfo) : json :=
  json_set "invalidBlockCount" (JInteger (invalidBlockCount info))
    (json_set "banned" (JBool (banned info))
      (json_set "score" (JInteger (score info))
        (json_set "port" (JUnsigned (PeerScorer.port info))
          (json_set "host" (JString (host info)) (json_set "endpoint" (JString key) JNull))))).

Definition handleGetPeerScores : HM HttpResponse :=
  try_with
    (allPeers ← gets (fun h => getAllPeers (peerScorer_ (node_ h)));
     let rows := omap (fun k => peerRow k <$> allPeers !! k) (sorted_keys (dom allPeers)) in
     jsonResponse (json_set "peers" (JArray rows)
       (json_set "count" (JUnsigned (Z.of_nat (size allPeers))) JNull)))
    internalError.

Definition handleNetworkStats : HM HttpResponse :=
  try_with (stats ← liftN getNetworkStats; jsonResponse stats) internalError.

(** ** Routing *)

Definition route (method path : string) (req : HttpRequest) : bool :=
  String.eqb (HttpText.method req) method && String.eqb (routePath (HttpText.path req)) path.
Definition routePrefix (method path : string) (req : HttpRequest) : bool :=
  String.eqb (HttpText.method req) method && str_prefix path (routePath (HttpText.path req)).
Definition pathAfter (prefix : string) (req : HttpRequest) : string :=
  str_drop (String.length prefix) (routePath (HttpText.path req)).

Definition handleRequest (fuel : nat) (req : HttpRequest) : HM HttpResponse :=
  if String.eqb (method req) "OPTIONS" then mret (statusResponse 204 "No Content" "")
  else if route "POST" "/wallet/create" req then handleCreateWallet
  else if route "POST" "/wallet/import" req then handleImportWallet (body req)
  else if route "POST" "/wallet/login" req then handleWalletLogin (body req)
  else if route "POST" "/wallet/loginChallenge" req then handleLoginChallenge (body req)
  else if route "POST" "/wallet/verifyLogin" req then handleVerifyLogin (body req)
  else if route "POST" "/transaction/send" req then handleSendTransaction (body req)
  else if routePrefix "POST" "/mine" req then handleMine fuel (body req) (path req)
  else if route "POST" "/api/trade" req then handleTrade (body req)
  else if route "GET" "/chain" req then handleGetChain
  else if route "GET" "/transactions" req then handleGetTransactions
  else if route "GET" "/mempool" req then handleGetMempool
  else if routePrefix "GET" "/wallet/balance/" req
  then handleGetWalletBalance (pathAfter "/wallet/balance/" req)
  else if routePrefix "GET" "/wallet/transactions/" req
  then handleGetWalletTransactions (pathAfter "/wallet/transactions/" req)
  else if route "GET" "/peers" req then handleGetPeers
  else if route "GET" "/peers/scores" req then handleGetPeerScores
  else if route "GET" "/network/stats" req then handleNetworkStats
  else if route "GET" "/health" req then handleHealth
  else if route "GET" "/status" req then handleHealth
  else mret (statusResponse 404 "Not Found" (errorText "Endpoint not found")).

(** A connection: what the first read delivered ([None] on an error), and the
    outcome of the second one. The result is what is written back. *)
Definition handleConnection (fuel : nat) (raw : option string) (more : nat -> option string)
    : HM (option string) :=
  match raw ≫= planRequest with
  | None => mret None
  | Some p =>
      match requestOf p more with
      | inl r => mret (Some (serializeResponse r))
      | inr req => r ← handleRequest fuel req; mret (Some (serializeResponse r))
      end
  end.

End http.
