(* ===== verification/HttpFacts.v ===== *)
(** * HttpFacts: what the HTTP interface does to the node and what it answers

    Requests change the ledger by operations of the blockchain only; the routes
    that can change it; what a blocked peer list and a question for a balance
    lead to. HttpAnswers has how requests end, HttpMining the mining cooldown. *)

From S2P Require Import Prelude StdTime Json Crypto Transaction Block State Consensus Storage Blockchain ChainInvariant Wallet Peer PeerScorer PeerManager Connections Effects Node NodeFacts HttpText Http.
From stdpp Require Import relations.
#[local] Open Scope Z_scope.

(** ** Relations that requests keep *)

Lemma the_chain_free {A} (f : Blockchain -> A) h :
  chainLock (node_ h) = Free -> the_chain f h = (h, Returns (f (blockchain_ (node_ h)))).
Proof. intros Hc. unfold the_chain, liftN. rewrite read_chain_free by done. by destruct h. Qed.

(** Whatever the mutex, a getter that returns has read the chain and changed
    nothing. *)
Lemma the_chain_returns {A} (f : Blockchain -> A) h h' a :
  the_chain f h = (h', Returns a) -> h' = h /\ a = f (blockchain_ (node_ h)).
Proof.
  intros E. destruct (chainLock (node_ h)) eqn:Hc; [rewrite the_chain_free in E by done; by injection E as <- <-|..];
    unfold the_chain, liftN, read_chain, with_chainMutex in E; by rewrite Hc in E.
Qed.

Lemma walletExists_free address h :
  chainLock (node_ h) = Free -> walletExistsM address h = (h, Returns (walletExists address h)).
Proof.
  intros Hc. unfold walletExistsM, walletExists, mbind, M_bind, gets. case_if; [done|]. case_bool_decide; [done|].
  rewrite the_chain_free by done. case_if; [done|]. by rewrite the_chain_free.
Qed.

Lemma walletExists_returns address h h' b :
  walletExistsM address h = (h', Returns b) -> h' = h /\ b = walletExists address h.
Proof.
  unfold walletExistsM, walletExists, mbind, M_bind, gets.
  case_if; [by intros [= <- <-]|]. case_bool_decide; [by intros [= <- <-]|].
  destruct (the_chain (getBalanceForAddress address) h) as [h1 [x|e| | |]] eqn:Eb; try done.
  apply the_chain_returns in Eb as [-> ->]. case_if; [by intros [= <- <-]|].
  destruct (the_chain (getHistoryForAddress address) h) as [h2 [x|e| | |]] eqn:Eh; try done.
  apply the_chain_returns in Eh as [-> ->]. by intros [= <- <-].
Qed.

(** A question that, when it is answered, changes nothing. *)
Lemma triple_query {A B} (P : Http -> Prop) (m : HM A) (g : Http -> A) (f : A -> HM B) Q :
  (forall s s' a, m s = (s', Returns a) -> s' = s /\ a = g s) ->
  (forall a, triple (fun s => P s /\ g s = a) (f a) Q) -> triple P (m ≫= f) Q.
Proof.
  intros Hm. apply triple_bind. intros s Hs. destruct (m s) as [s' [a|e| | |]] eqn:E; try done.
  by apply Hm in E as [-> ->].
Qed.

Lemma triple_the_chain {A B} P (g : Blockchain -> A) (f : A -> HM B) Q :
  (forall a, triple (fun s => P s /\ g (blockchain_ (node_ s)) = a) (f a) Q) ->
  triple P (the_chain g ≫= f) Q.
Proof. apply (triple_query P (the_chain g) (fun s => g (blockchain_ (node_ s)))). intros s s' a. apply the_chain_returns. Qed.

Section rules.
Context `{W : World} `{OS : OpenSSL} `{JT : JsonText}.

(** A relation on nodes, on the nodes of two servers. *)
Definition on_node (R : Node -> Node -> Prop) (h h' : Http) : Prop := R (node_ h) (node_ h').

#[export] Instance on_node_preorder R : PreOrder R -> PreOrder (on_node R).
Proof.
  intros HR. split; unfold on_node; [intros h; reflexivity|].
  intros h1 h2 h3 H1 H2. by etrans.
Qed.

Lemma keeps_liftN R {A} (m : M A) : keeps R m -> keeps (on_node R) (liftN m).
Proof.
  intros Hm h. unfold liftN, on_node. specialize (Hm (node_ h)).
  by destruct (m (node_ h)) as [n r].
Qed.

Lemma keeps_the_chain R {L : LocalRel R} {A} (f : Blockchain -> A) : keeps (on_node R) (the_chain f).
Proof. apply keeps_liftN. keeps_solve. Qed.
End rules.

Ltac http_step :=
  lazymatch goal with
  | |- keeps _ (mret _) => apply keeps_ret, _
  | |- keeps _ (gets _) => apply keeps_gets, _
  | |- keeps _ (the_chain _) => apply keeps_the_chain, _
  | |- keeps _ (walletExistsM _) => unfold walletExistsM
  | |- keeps _ (lift _) => apply keeps_lift, _
  | |- keeps _ (fail _ _ _ _) => apply keeps_lift, _
  | |- keeps _ (badRequest _ _) => apply keeps_lift, _
  | |- keeps _ invalidKey => apply keeps_lift, _
  | |- keeps _ (internalError _) => apply keeps_lift, _
  | |- keeps _ (jsonResponse _) => apply keeps_lift, _
  | |- keeps _ (modify _) => apply keeps_modify; intros ?; unfold on_node; first [done|apply rtc_refl]
  | |- keeps _ (know _) => apply keeps_modify; intros ?; unfold on_node; first [done|apply rtc_refl]
  | |- keeps _ (liftN _) => apply keeps_liftN
  | |- keeps _ (reading _) => apply keeps_reading; intros ??; first [done|apply rtc_refl]
  | |- keeps _ (_ ≫= _) => apply keeps_bind; [apply _| |intros ?]
  | |- keeps _ (try_with _ _) => apply keeps_try_with; [apply _| |intros ?]
  | |- keeps _ (let '(_, _) := ?x in _) => destruct x
  | |- keeps _ (match ?x with _ => _ end) => destruct x
  end.
Ltac http_solve := repeat (http_step || assumption || solve [auto with node]).

Section ledger.
Context `{W : World} `{OS : OpenSSL} `{JT : JsonText}.

Abbreviation quiet := (keeps (on_node same_ledger)).

Lemma quiet_prepareSend b : quiet (prepareSend b).
Proof. unfold prepareSend, system_now. cbv zeta. http_solve. Qed.

Lemma quiet_peers : keeps same_ledger getPeerList /\ keeps same_ledger getNetworkStats.
Proof. unfold getPeerList, getNetworkStats, steady_now. split; keeps_solve. Qed.

(** The routes that can touch the ledger. *)
Definition ledger_route (req : HttpRequest) : bool :=
  route "POST" "/transaction/send" req || routePrefix "POST" "/mine" req.

(** The handlers of the other routes, for a request with body [b]. *)
Inductive read_handler (b : string) : HM HttpResponse -> Prop :=
| read_create : read_handler b handleCreateWallet
| read_import : read_handler b (handleImportWallet b)
| read_login : read_handler b (handleWalletLogin b)
| read_challenge : read_handler b (handleLoginChallenge b)
| read_verify : read_handler b (handleVerifyLogin b)
| read_trade : read_handler b (handleTrade b)
| read_chain : read_handler b handleGetChain
| read_transactions : read_handler b handleGetTransactions
| read_mempool : read_handler b handleGetMempool
| read_balance a : read_handler b (handleGetWalletBalance a)
| read_history a : read_handler b (handleGetWalletTransactions a)
| read_peers : read_handler b handleGetPeers
| read_scores : read_handler b handleGetPeerScores
| read_stats : read_handler b handleNetworkStats
| read_health : read_handler b handleHealth
| read_fixed r : read_handler b (mret r).

(** What holds of every handler holds of the router. *)
Lemma request_by_route (P : HM HttpResponse -> Prop) fuel req :
  (forall m, read_handler (body req) m -> P m) ->
  (route "POST" "/transaction/send" req = true -> P (handleSendTransaction (body req))) ->
  (routePrefix "POST" "/mine" req = true -> P (handleMine fuel (body req) (path req))) ->
  P (handleRequest fuel req).
Proof.
  intros Hread Hsend Hmine. unfold handleRequest.
  repeat lazymatch goal with
  | |- P (if ?b then _ else _) => destruct b eqn:?
  end;
  lazymatch goal with
  | |- P (handleSendTransaction _) => by apply Hsend
  | |- P (handleMine _ _ _) => by apply Hmine
  | |- _ => apply Hread; constructor
  end.
Qed.

Lemma quiet_read b m : read_handler b m -> quiet m.
Proof.
  destruct quiet_peers as [Hp Hn]. intros Hm. destruct Hm;
    unfold handleCreateWallet, handleImportWallet, handleWalletLogin, handleLoginChallenge,
      handleVerifyLogin, handleTrade, handleGetChain, handleGetTransactions, handleGetMempool,
      handleGetWalletBalance, handleGetWalletTransactions, handleGetPeers, handleHealth,
      handleGetPeerScores, handleNetworkStats, system_now; http_solve.
Qed.

Lemma quiet_request fuel req : ledger_route req = false -> quiet (handleRequest fuel req).
Proof.
  intros [E1 E2]%orb_false_elim. apply request_by_route; [intros m; apply quiet_read|congruence..].
Qed.

Lemma quiet_evolves {A} (m : HM A) : quiet m -> keeps (on_node evolves) m.
Proof.
  apply keeps_impl. intros h h' [E _]. unfold on_node, evolves. by rewrite E.
Qed.

Lemma mine_evolves fuel a : keeps (on_node evolves) (mine fuel a).
Proof.
  pose proof (minePending_steps evolves fuel a). unfold mine, steady_now. http_solve.
Qed.

Lemma submit_evolves tx : keeps (on_node evolves) (submit tx).
Proof.
  pose proof (addTransaction_steps evolves tx). unfold submit, sendAccepted. http_solve.
Qed.

Lemma request_evolves fuel req : keeps (on_node evolves) (handleRequest fuel req).
Proof.
  pose proof submit_evolves. pose proof mine_evolves. apply request_by_route.
  - intros m Hm. by eapply quiet_evolves, quiet_read.
  - pose proof (quiet_evolves _ (quiet_prepareSend (body req))). intros _. unfold handleSendTransaction. http_solve.
  - intros _. unfold handleMine, cooldownResponse, steady_now. http_solve.
Qed.

Lemma connection_evolves fuel raw more : keeps (on_node evolves) (handleConnection fuel raw more).
Proof. pose proof request_evolves. unfold handleConnection. http_solve. Qed.

(** *** The running program *)

(** What the event loop of the program can run: an event of the node, or an HTTP
    connection. *)
Inductive system_event : Type :=
| OfNode (e : node_event)
| OfHttp (fuel : nat) (raw : option string) (more : nat -> option string).

Definition system_step (h : Http) (e : system_event) : Http :=
  match e with
  | OfNode e => (liftN (run_event e) h).1
  | OfHttp fuel raw more => (handleConnection fuel raw more h).1
  end.

Definition system_after (h : Http) (es : list system_event) : Http := foldl system_step h es.

Lemma system_evolves h es : on_node evolves h (system_after h es).
Proof.
  revert h. induction es as [|e es IH]; intros h; [apply rtc_refl|]. simpl. etrans; [|apply IH].
  destruct e; simpl; [apply keeps_liftN, event_evolves|apply connection_evolves].
Qed.

End ledger.

(** ** Properties *)

Section properties.
Context `{W : World} `{OS : OpenSSL} `{JT : JsonText}.

(** C8: the ledger of the running program, under any history of network events
    and of HTTP connections, with any bytes, timers, clocks, shuffles and disk
    faults, changes only by operations of the blockchain: its invariant holds all
    along, and the chain is kept or replaced by a longer one. *)
Theorem system_ledger_refines (h : Http) (es : list system_event) :
  chain_inv (blockchain_ (node_ h)) ->
  let h' := system_after h es in
  rtc bstep (blockchain_ (node_ h)) (blockchain_ (node_ h')) /\
  chain_inv (blockchain_ (node_ h')) /\
  (chain_ (blockchain_ (node_ h')) = chain_ (blockchain_ (node_ h)) \/
   (length (chain_ (blockchain_ (node_ h))) < length (chain_ (blockchain_ (node_ h'))))%nat).
Proof.
  intros Hinv h'. pose proof (system_evolves h es) as Hr. unfold on_node, evolves in Hr.
  split; [done|]. split; [by eapply chain_steps_inv|by apply chain_steps_grow].
Qed.

(** Once the node has handled a message of a banned peer, the routes that ask
    for the list of peers never answer. *)
Lemma health_blocks (p : nat) (msg : Message) (n : Node) (h : Http) (fuel : nat) (req : HttpRequest) :
  isBanned (endpointOf p n) (peerScorer_ n) = true -> locks false Free n ->
  node_ h = (handleMessage p msg n).1 ->
  method req = "GET" -> routePath (path req) ∈ ["/health"; "/status"; "/peers"] ->
  (handleRequest fuel req h).2 = Deadlocks.
Proof.
  intros Hb Hn Hh Hget Hpath. destruct (banned_message_blocks p msg n Free Hb Hn) as [_ [Hl Hc]].
  rewrite <- Hh in Hl, Hc.
  assert (Hhealth : (handleHealth h).2 = Deadlocks /\ (handleGetPeers h).2 = Deadlocks).
  { unfold handleHealth, handleGetPeers, try_with, mbind, M_bind. rewrite the_chain_free by done.
    unfold liftN, getPeerList, with_peersMutex. by rewrite Hl. }
  destruct Hhealth as [H1 H2]. unfold handleRequest, route, routePrefix. rewrite Hget.
  set_unfold in Hpath. destruct Hpath as [-> |[-> |[-> |[]]]]; vm_compute String.eqb; vm_compute str_prefix; exact H1 || exact H2.
Qed.

(** Asking for the balance of an address makes it an existing wallet: after
    the request, from any address in the right format, a transaction to it passes
    the check of the receiver. *)
Lemma balance_query_creates_wallet (a : string) (h : Http) (fuel : nat) (req : HttpRequest) :
  method req = "GET" -> routePath (path req) = "/wallet/balance/" +:+ a -> isValidAddress a = true ->
  walletExists a (handleRequest fuel req h).1 = true.
Proof.
  intros Hget Hpath Ha.
  unfold handleRequest, route, routePrefix, pathAfter. rewrite Hget, Hpath, str_drop_app by done.
  cbn -[handleGetWalletBalance].
  assert (Hk : a ∈ knownAddresses_ (handleGetWalletBalance a h).1).
  { unfold handleGetWalletBalance, know, modify, try_with, mbind, M_bind.
    rewrite Ha. cbn [negb]. cbn beta iota zeta. set (h1 := with_knownAddresses _ h).
    destruct (chainLock (node_ h1)) eqn:Hc;
      [|unfold the_chain, liftN, Node.read_chain, with_chainMutex; rewrite Hc; simpl; set_solver..].
    rewrite the_chain_free by done. unfold jsonResponse, internalError, lift.
    match goal with |- context [json_dump (Some 2) ?j] => destruct (json_dump (Some 2) j) as [s|e] end;
      simpl; set_solver. }
  unfold walletExists. by rewrite Ha, bool_decide_eq_true_2.
Qed.
End properties.
