(* ===== verification/HttpAnswers.v ===== *)
(** * HttpAnswers: every request is answered, but one

    How a request ends: with an answer, errors included, unless the process dies
    or searches for a nonce, or the body is not JSON in a way that the parser's
    error quotes bytes that are not UTF-8; then printing the answer about the
    error raises a second exception, which no handler catches (Main shows that it
    ends the process). The outcome of a submitted transaction, and the listing of
    all transactions. *)

From S2P Require Import Prelude StdTime Json Crypto Transaction Block State Consensus Storage Blockchain ChainInvariant Wallet HttpText Texts Peer PeerScorer PeerManager Connections Effects Node NodeFacts Http HttpFacts.
#[local] Open Scope Z_scope.

(** ** Endings *)

(** The parser's error about [b] quotes bytes that are not UTF-8. *)
Definition unprintable `{JT : JsonText} (b : string) : Prop :=
  exists e, json_parse b = Throw e /\ utf8 (what e) = false.

(** The ways a request with body [b] may end; [live]: it mines. *)
Definition answered `{JT : JsonText} (b : string) (live : bool) (k : kind) : Prop :=
  match k with
  | KReturns => True
  | KRaises e => unprintable b /\ exists text, is_ascii text = true /\ e = json_type_error 316 text
  | KDeadlocks => False
  | KDies | KUnfinished => live = true
  end.

(** The exceptions inside a handler: a printable text, or the parser's about [b]. *)
Definition from_body `{JT : JsonText} (b : string) (e : exn) : Prop :=
  utf8 (what e) = true \/ json_parse b = Throw e.

(** Both mutexes are free. *)
Definition unlocked (h : Http) : Prop := locks false Free (node_ h).

Section endings.
Context `{W : World} `{OS : OpenSSL} `{JT : JsonText} {JTS : JsonTextSpec JT}.

(** *** Errors *)

Lemma error_json_utf8 message errorCode :
  json_utf8 (json_object [("error", JString message); ("errorCode", JString errorCode);
    ("message", JString message)]) = utf8 message && (utf8 errorCode && (utf8 message && true)).
Proof. reflexivity. Qed.

(** An error answer is written when its text is UTF-8. *)
Lemma fail_outcome code text errorCode message h :
  utf8 errorCode = true ->
  if utf8 message
  then exists resp, fail code text errorCode message h = (h, Returns resp) /\ statusCode resp = code
  else exists t, is_ascii t = true /\ fail code text errorCode message h = (h, Raises (json_type_error 316 t)).
Proof.
  intros Hc. unfold fail, lift, errorResponse.
  match goal with |- context [json_dump ?i ?j] => pose proof (dump_utf8 i j) as Hd end.
  rewrite error_json_utf8, Hc in Hd. destruct (utf8 message); cbn [andb] in Hd.
  - destruct Hd as [s ->]. by eexists.
  - destruct Hd as (t & Ht & ->). by exists t.
Qed.

Lemma fail_returns code text errorCode message h :
  utf8 errorCode = true -> utf8 message = true ->
  exists resp, fail code text errorCode message h = (h, Returns resp) /\ statusCode resp = code.
Proof. intros Hc Hm. pose proof (fail_outcome code text errorCode message h Hc) as H. by rewrite Hm in H. Qed.

Variables (b : string) (live : bool).
Abbreviation answers := (holds unlocked (answered b live)).
Abbreviation body_ok := (holds unlocked (may_raise (from_body b) (answered b live))).

Lemma answer_fail code text errorCode message :
  utf8 errorCode = true -> utf8 message = true \/ unprintable b -> answers (fail code text errorCode message).
Proof.
  intros Hc Hm h Hh. pose proof (fail_outcome code text errorCode message h Hc) as H.
  destruct (utf8 message); [by destruct H as (resp & -> & _)|]. destruct H as (t & Ht & ->).
  destruct Hm as [?|Hm]; [done|]. split; [|done]. split; [done|]. by exists t.
Qed.

(** What a catch clause says about an exception of its body. *)
Lemma from_body_text e : from_body b e -> utf8 (what e) = true \/ unprintable b.
Proof. intros [H|H]; [by left|]. destruct (utf8 (what e)) eqn:E; [by left|]. right. by exists e. Qed.

Lemma answer_internalError e : from_body b e -> answers (internalError e).
Proof.
  intros He h Hh. unfold internalError, lift.
  match goal with |- context [json_dump ?i ?j] => pose proof (dump_utf8 i j) as Hd end.
  change (json_utf8 _) with (utf8 (what e) && true) in Hd. apply from_body_text in He.
  destruct (utf8 (what e)); cbn [andb] in Hd; [by destruct Hd as [s ->]|].
  destruct Hd as (t & Ht & ->). destruct He as [?|He]; [done|]. split; [|done]. split; [done|]. by exists t.
Qed.

Lemma answer_try (m : HM HttpResponse) (handler : exn -> HM HttpResponse) :
  body_ok m -> (forall e, from_body b e -> answers (handler e)) -> answers (try_with m handler).
Proof.
  apply holds_try_with. intros e (_ & t & Ht & ->). left. by apply ascii_utf8.
Qed.

(** *** Bodies *)

Lemma body_returns : may_raise (from_body b) (answered b live) KReturns.
Proof. by right. Qed.

Lemma body_lift {A} (r : result A) : ascii_throws r -> body_ok (lift r).
Proof. intros Hr. apply holds_lift; [apply body_returns|]. intros e He. left. exists e. split; [done|]. left. by apply ascii_utf8, Hr. Qed.

Lemma body_parse : body_ok (lift (json_parse b)).
Proof. apply holds_lift; [apply body_returns|]. intros e He. left. exists e. split; [done|]. by right. Qed.

Lemma body_fail code text errorCode message : body_ok (fail code text errorCode message).
Proof. apply body_lift. unfold errorResponse. ascii_solve. Qed.

Lemma body_jsonResponse j : body_ok (jsonResponse j).
Proof. apply body_lift. ascii_solve. Qed.

Lemma body_liftN {A} (m : M A) : lock_ok (plain_ending live) false Free m -> body_ok (liftN m).
Proof.
  intros Hs h Hh. unfold liftN. destruct (Hs (node_ h) Hh) as [H1 H2].
  destruct (m (node_ h)) as [n [a|e| | |]]; cbn in *; (split; [|exact H2]); try (by right).
  left. exists e. split; [done|]. left. by apply ascii_utf8.
Qed.

End endings.

Ltac body_step :=
  lazymatch goal with
  | |- holds _ _ (mret _) => apply holds_ret, body_returns
  | |- holds _ _ (gets _) => apply holds_gets, body_returns
  | |- holds _ _ (the_chain _) => apply body_liftN, safe_read_chain, ok_returns
  | |- holds _ _ (walletExistsM _) => unfold walletExistsM
  | |- holds _ _ (lift (json_parse _)) => apply body_parse
  | |- holds _ _ (lift _) => apply body_lift; solve [ascii_solve]
  | |- holds _ _ (fail _ _ _ _) => apply body_fail
  | |- holds _ _ (badRequest _ _) => apply body_fail
  | |- holds _ _ invalidKey => apply body_fail
  | |- holds _ _ (jsonResponse _) => apply body_jsonResponse
  | |- holds _ _ (modify _) => apply holds_modify; [apply body_returns|done]
  | |- holds _ _ (know _) => apply holds_modify; [apply body_returns|done]
  | |- holds _ _ (liftN (reading _)) => apply body_liftN, safe_reading, ok_returns
  | |- holds _ _ (liftN _) => apply body_liftN
  | |- holds _ _ (_ ≫= _) => apply holds_bind; [|intros ?]
  | |- holds _ _ (let '(_, _) := ?x in _) => destruct x eqn:?
  | |- holds _ _ (match ?x with _ => _ end) => destruct x
  end.
Ltac body_solve := repeat (body_step || assumption || solve [auto]).

Section answers.
Context `{W : World} `{OS : OpenSSL} `{JT : JsonText} {JTS : JsonTextSpec JT}.
Variables (b : string) (live : bool).

Lemma safe_queries (ok : kind -> Prop) sendable {LK : LockKind ok sendable} :
  lock_ok ok false Free getPeerList /\ lock_ok ok false Free getNetworkStats.
Proof. unfold getPeerList, getNetworkStats, steady_now. split; safe_solve. Qed.

Lemma ascii_aliases j : ascii_throws (withTxAliases j).
Proof. unfold withTxAliases. ascii_solve. Qed.
#[local] Hint Resolve ascii_aliases : texts.

Lemma ascii_confirmedRows chain : ascii_throws (confirmedRows chain).
Proof. unfold confirmedRows. ascii_solve. Qed.

Lemma ascii_historyRow address meta tx : ascii_throws (historyRow address meta tx).
Proof. unfold historyRow. ascii_solve. Qed.
#[local] Hint Resolve ascii_confirmedRows ascii_historyRow : texts.

Lemma answer_read m : read_handler b m -> holds unlocked (answered b live) m.
Proof.
  destruct (safe_queries (plain_ending live) (fun _ => True)) as [Hp Hn].
  intros Hm. destruct Hm; [..|by apply holds_ret];
    unfold handleCreateWallet, handleImportWallet, handleWalletLogin, handleLoginChallenge,
      handleVerifyLogin, handleTrade, handleGetChain, handleGetTransactions, handleGetMempool,
      handleGetWalletBalance, handleGetWalletTransactions, handleGetPeers, handleHealth,
      handleGetPeerScores, handleNetworkStats, system_now;
    first [by apply answer_fail; [|left]|apply answer_try;
      [body_solve|intros e He; first [by apply answer_internalError
         |apply answer_fail; [done|]; by apply from_body_text]]].
Qed.

Lemma answer_send : holds unlocked (answered b live) (handleSendTransaction b).
Proof.
  pose proof (fun tx => safe_addTransaction (plain_ending live) _ (fun _ => I) tx) as Ha.
  unfold handleSendTransaction, prepareSend, submit, sendAccepted, system_now. cbv zeta.
  apply answer_try; [body_solve|]. intros e He%from_body_text.
  destruct (is_json_exn e); (apply answer_fail; [done|]); [by rewrite utf8_app|done].
Qed.

Lemma minerOf_throws p e : minerOf b p = Throw e -> from_body b e.
Proof.
  unfold minerOf. intros H.
  assert (Hr : (exists a, minerOf b p = Ok a) \/ minerOf b p = (let! a := let! j := json_parse b in
    value_string "minerAddress" "" j in Ok (if str_empty a then "GENESIS" else a))).
  { destruct b as [|c b']; [left; by eexists|].
    destruct c as [[] [] [] [] [] [] [] []]; first [left; by eexists|by right]. }
  fold (minerOf b p) in H. destruct Hr as [[a Ha]|Hr]; [congruence|]. rewrite Hr in H.
  destruct (json_parse b) as [j|e'] eqn:E; [|right; cbn in H; congruence]. left. apply ascii_utf8. revert e H.
  change (ascii_throws (let! a := value_string "minerAddress" "" j in Ok (if str_empty a then "GENESIS" else a))).
  ascii_solve.
Qed.

Lemma answer_mine fuel p : live = true -> holds unlocked (answered b live) (handleMine fuel b p).
Proof.
  intros Hl.
  assert (Hm : forall m, lock_ok (plain_ending live) false Free (minePending fuel m)).
  { intros m. by apply (safe_minePending _ (fun _ => True)). }
  assert (Hb : holds unlocked (may_raise (from_body b) (answered b live)) (lift (minerOf b p))).
  { apply holds_lift; [apply body_returns|]. intros e He. left. exists e. split; [done|]. by apply (minerOf_throws p). }
  unfold handleMine, cooldownResponse, mine, steady_now. cbv zeta.
  apply answer_try; [|intros e He%from_body_text; by apply answer_fail].
  body_solve.
Qed.
End answers.
(** ** Submitting a transaction *)

Section sending.
Context `{W : World} `{OS : OpenSSL} `{JT : JsonText}.

(** What [prepareSend] has checked when it lets a transaction through. *)
Definition send_checked (h : Http) (tx : Transaction) : Prop :=
  fromAddress tx = addressFromPublicKey (senderPublicKey tx) /\
  amount tx <> 0 /\ amount tx <= getBalanceForAddress (fromAddress tx) (blockchain_ (node_ h)) /\
  (String.length (Transaction.payload tx) <= 2048)%nat /\
  walletExists (toAddress tx) h = true /\ txID tx = sha256 (buildTxCore tx).

Lemma fail_code code text errorCode message h h' r :
  fail code text errorCode message h = (h', Returns r) -> h' = h /\ statusCode r = code.
Proof.
  unfold fail, lift, errorResponse. destruct (json_dump None _) as [b|e]; simpl; [|done].
  by intros [= <- <-].
Qed.

(** The server between the guards: only the clock has been read. *)
Definition as_before (h s : Http) : Prop :=
  blockchain_ (node_ s) = blockchain_ (node_ h) /\ knownAddresses_ s = knownAddresses_ h.

Definition prepared (h : Http) (r : HttpResponse + Transaction) (s : Http) : Prop :=
  as_before h s /\
  match r with inl resp => statusCode resp <> 200 | inr tx => send_checked h tx /\ tx_utf8 tx = true end.

Lemma triple_reject (P : Http -> Prop) h code text errorCode message :
  (forall s, P s -> as_before h s) -> code <> 200 ->
  triple P (r ← fail code text errorCode message; mret (inl r)) (prepared h).
Proof.
  intros HP Hc. eapply triple_bind with (R := fun r s => as_before h s /\ statusCode r <> 200).
  - intros s Hs. destruct (fail code text errorCode message s) as [s' [r|e| | |]] eqn:E; try done.
    apply fail_code in E as [-> ->]. split; [by apply HP|done].
  - intros r. by apply triple_ret.
Qed.

Lemma walletExists_before a h s : as_before h s -> walletExists a s = walletExists a h.
Proof. intros [H1 H2]. unfold walletExists. by rewrite H1, H2. Qed.

(** One guard of [prepareSend]. *)
Ltac send_guard :=
  lazymatch goal with
  | |- triple _ (if ?b then _ else _) _ =>
      destruct b eqn:?; [apply triple_reject; [intros s Hs; unfold as_before in *; tauto|done]|]
  end.

Context {OSS : OpenSSLSpec OS} {JTS : JsonTextSpec JT}.

Lemma prepareSend_post body h : triple (as_before h) (prepareSend body) (prepared h).
Proof.
  unfold prepareSend. cbv zeta.
  apply triple_lift; intros j Hj%parse_utf8.
  assert (Hstr : forall key s, value_string key "" j = Ok s -> utf8 s = true).
  { intros key s. by apply jvalue_utf8. }
  apply triple_lift; intros from _. apply triple_lift; intros to _.
  apply triple_lift; intros spk Hspk%Hstr. apply triple_lift; intros rpk Hrpk%Hstr.
  apply triple_lift; intros pl Hpl%Hstr. apply triple_lift; intros ts Hts%Hstr.
  apply triple_lift; intros id _. apply triple_lift; intros digital Hdig%Hstr.
  apply triple_lift; intros sig Hsig%jvalue_utf8; [|done..].
  do 2 (apply triple_lift; intros ? _).
  do 5 send_guard.
  eapply triple_query; [apply walletExists_returns|]. intros ex. send_guard.
  apply triple_the_chain; intros balance. send_guard.
  eapply triple_bind with (R := fun ts s => ((as_before h s /\ walletExists (trim to) s = ex) /\
    getBalanceForAddress (trim from) (blockchain_ (node_ s)) = balance) /\ utf8 ts = true).
  { destruct (str_empty ts); [|by apply triple_ret].
    intros s Hs. unfold system_now, liftN, reading, mbind, M_bind. cbn beta iota zeta delta [fst snd].
    split; [done|]. apply currentTimestamp_utf8. }
  intros timestamp. send_guard.
  apply triple_ret. intros s [[[Hs Hex] Hbal] Hstamp]. split; [done|]. bool_to_prop.
  split.
  - unfold send_checked. cbn. subst. rewrite <- (walletExists_before _ h s Hs).
    destruct Hs as [Hbc _]. rewrite <- Hbc. split_and!; try done.
    by match goal with H : (2048 <? _)%nat = false |- _ => apply Nat.ltb_ge in H end.
  - unfold computeTxID, set_txID, set_signature. apply tx_utf8_make; try done; [apply sha256_utf8|by apply address_utf8..].
Qed.

(** A submission with the mutex free returns the answer of the blockchain. *)
Lemma addTransaction_notices now tx bc :
  Forall (fun x => x = TransactionAdded tx) (addTransaction now tx bc).2.
Proof. unfold addTransaction. cbv zeta. repeat case_if; by repeat constructor. Qed.

Lemma addTransactionM_returns tx n :
  tx_utf8 tx = true -> locks false Free n ->
  exists n', addTransactionM tx n =
      (n', Returns (addTransaction (system_clock (ticks n)) tx (blockchain_ n)).1.1) /\
    blockchain_ n' = (addTransaction (system_clock (ticks n)) tx (blockchain_ n)).1.2 /\
    disk n' = disk n /\ faults n' = faults n /\ locks false Free n'.
Proof.
  intros Ht [Hn Hc]. unfold addTransactionM.
  enough (exists n1, (now ← system_now; bc ← gets blockchain_;
      let '(accepted, bc, ns) := addTransaction now tx bc in
      _ ← modify (with_blockchain bc); _ ← notify ns; mret accepted) (with_chainLock Held n) =
      (n1, Returns (addTransaction (system_clock (ticks n)) tx (blockchain_ n)).1.1) /\
      blockchain_ n1 = (addTransaction (system_clock (ticks n)) tx (blockchain_ n)).1.2 /\
      disk n1 = disk n /\ faults n1 = faults n /\ peersLocked n1 = false) as (n1 & Hm & ? & ? & ? & ?).
  { exists (with_chainLock Free n1). by rewrite (chain_mutex_free _ n n1 _ Hc Hm). }
  unfold system_now, reading, mbind, M_bind, gets, modify. cbn [blockchain_ with_ticks with_chainLock ticks].
  pose proof (addTransaction_notices (system_clock (ticks n)) tx (blockchain_ n)) as Hns.
  destruct (addTransaction (system_clock (ticks n)) tx (blockchain_ n)) as [[accepted bc] ns]. cbn [snd] in Hns.
  cbn beta iota. set (n1 := with_blockchain bc (with_ticks (S (ticks n)) (with_chainLock Held n))).
  destruct (safe_notify (eq KReturns) message_utf8 Held ns) with (n := n1) as [H1 H2]; [|done|].
  { eapply Forall_impl; [exact Hns|]. intros x ->. cbn [notice_sendable]. unfold message_utf8, messageJson.
    apply json_set_utf8; [done|by apply txToJson_utf8|done]. }
  pose proof (local_notify same_ledger ns n1) as (E1 & E2 & E3).
  destruct (notify ns n1) as [n2 [a|e| | |]]; try done. exists n2. split_and!; try done. by apply H2.
Qed.

Lemma aliases_eq tx :
  withTxAliases (txToJson tx) = Ok (json_set "receiver" (JString (toAddress tx))
    (json_set "sender" (JString (fromAddress tx)) (json_set "transactionId" (JString (txID tx)) (txToJson tx)))).
Proof. reflexivity. Qed.

Lemma row_utf8 tx row :
  tx_utf8 tx = true -> withTxAliases (txToJson tx) = Ok row -> json_utf8 row = true.
Proof.
  intros Ht Hr. apply (f_equal (fun r => match r with Ok j => json_utf8 j | Throw _ => true end)) in Hr.
  rewrite aliases_eq in Hr. cbn beta iota in Hr. rewrite <- Hr. pose proof (txToJson_utf8 tx Ht) as Hj.
  revert Ht. unfold tx_utf8. cbn [forallb]. rewrite !andb_true_iff. intros (H1 & _ & _ & H4 & H5 & _).
  do 3 (apply json_set_utf8; [done|done|]). done.
Qed.

(** The answer about an accepted transaction. *)
Lemma sendAccepted_returns tx h :
  tx_utf8 tx = true -> chainLock (node_ h) = Free ->
  exists resp, sendAccepted tx h = (h, Returns resp) /\ statusCode resp = 200.
Proof.
  intros Ht Hc. unfold sendAccepted, jsonResponse, mbind, M_bind, lift.
  destruct (withTxAliases (txToJson tx)) as [row|e] eqn:Hr; [|by rewrite aliases_eq in Hr].
  apply row_utf8 in Hr; [|done]. pose proof Ht as Hid. unfold tx_utf8 in Hid. cbn [forallb] in Hid.
  rewrite !andb_true_iff in Hid. destruct Hid as (Hid & _ & _ & Hfrom & _). cbn beta iota. rewrite the_chain_free by done. cbn beta iota.
  match goal with |- context [json_dump ?i ?j] => destruct (dump_total i j) as [s ->] end; [|by eexists].
  unfold pendingRow. repeat apply json_set_utf8; try done. apply json_object_utf8.
  cbn [forallb walletRow fst snd json_utf8]. by rewrite Hfrom.
Qed.

Lemma submit_returns tx h :
  tx_utf8 tx = true -> unlocked h ->
  exists h' resp, submit tx h = (h', Returns resp) /\
    if decide (acceptable (system_clock (ticks (node_ h))) tx (blockchain_ (node_ h)))
    then statusCode resp = 200 /\
      blockchain_ (node_ h') =
        bump_version (set_mempool (mempool_ (blockchain_ (node_ h)) ++ [tx]) (blockchain_ (node_ h)))
    else statusCode resp = 400 /\ same_ledger (node_ h) (node_ h').
Proof.
  intros Ht Hh. unfold submit, liftN, mbind, M_bind.
  destruct (addTransactionM_returns tx (node_ h) Ht Hh) as (n' & -> & Hbc & Hd & Hf & _ & Hc). cbn beta iota.
  destruct (decide _) as [Ha|Ha].
  - rewrite addTransaction_accepts in Hbc |- * by done. cbn [fst snd] in *.
    destruct (sendAccepted_returns tx (with_node n' h) Ht Hc) as (resp & -> & Hs).
    exists (with_node n' h), resp. split_and!; done.
  - rewrite addTransaction_rejects in Hbc |- * by done. cbn [fst snd] in *.
    unfold badRequest.
    match goal with |- context [fail ?c ?t ?e ?m ?s] =>
      destruct (fail_returns c t e m s) as (resp & -> & Hs); [done..|] end.
    exists (with_node n' h), resp. split_and!; done.
Qed.

End sending.
(** ** Listings *)

Section listings.
Context `{W : World} `{OS : OpenSSL} `{JT : JsonText}.

Lemma txFromJson_set k v r :
  k ∉ ["txID"; "senderPublicKey"; "receiverPublicKey"; "fromAddress"; "toAddress"; "amount"; "nonce";
       "payload"; "timestamp"; "digitalSignature"] ->
  is_object r = true -> txFromJson (json_set k v r) = txFromJson r.
Proof.
  intros Hk Hr. destruct r as [| | | | | | |m]; try done.
  assert (Hv : forall A (get : json -> result A) key def,
    key ∈ ["txID"; "senderPublicKey"; "receiverPublicKey"; "fromAddress"; "toAddress"; "amount"; "nonce";
       "payload"; "timestamp"; "digitalSignature"] ->
    jvalue get key def (JObject (obj_set k v m)) = jvalue get key def (JObject m)).
  { intros A get key def Hkey. unfold jvalue. rewrite obj_find_set_ne; [done|]. by intros <-. }
  unfold txFromJson, json_set, value_string, value_u64. rewrite !Hv; [done|set_solver..].
Qed.
(** A row of a listing still reads as its transaction. *)
Definition reads_as (row : json) (tx : Transaction) : Prop :=
  is_object row = true /\ txFromJson row = Ok (fillLegacy tx).

Lemma aliases_read tx :
  tx_wf tx -> exists row, withTxAliases (txToJson tx) = Ok row /\ reads_as row tx.
Proof.
  intros [Ha Hn]. eexists. split; [reflexivity|]. split; [done|].
  unfold txFromJson. simpl. unfold value_u64, jvalue. simpl. rewrite !wrapu_small by done. by destruct tx.
Qed.

Lemma pendingRow_read row tx : reads_as row tx -> reads_as (pendingRow row) tx.
Proof.
  intros [Ho Hr]. unfold pendingRow. split; [by destruct row|].
  rewrite !txFromJson_set; [done|set_solver|by destruct row|set_solver|by destruct row|set_solver|by destruct row].
Qed.

Lemma confirmedRow_read i hs row tx : reads_as row tx -> reads_as (confirmedRow i hs row) tx.
Proof.
  intros [Ho Hr]. unfold confirmedRow. split; [by destruct row|].
  rewrite !txFromJson_set; [done|set_solver|by destruct row|set_solver|by destruct row|set_solver|by destruct row].
Qed.

(** Rows that print. *)
Definition rows_utf8 (rows : list json) : Prop := Forall (fun j => json_utf8 j = true) rows.

Lemma rows_read (decorate : json -> json) (txs : list Transaction) :
  (forall row tx, reads_as row tx -> reads_as (decorate row) tx) ->
  (forall row, json_utf8 row = true -> json_utf8 (decorate row) = true) ->
  Forall (fun tx => tx_wf tx /\ tx_utf8 tx = true) txs ->
  exists rows, rmap (fun tx => let! row := withTxAliases (txToJson tx) in Ok (decorate row)) txs = Ok rows /\
    rmap txFromJson rows = Ok (map fillLegacy txs) /\ rows_utf8 rows.
Proof.
  intros Hd Hu. induction 1 as [|tx txs [Htx Ht] _ (rows & IH & IHr & IHu)]; [exists []; split_and!; [done..|by constructor]|].
  destruct (aliases_read tx Htx) as (row & Hrow & Hread). exists (decorate row :: rows).
  destruct (Hd row tx Hread) as [_ Hr]. cbn [rmap map]. rewrite Hrow. cbn [rbind]. rewrite IH, Hr.
  cbn [rbind]. rewrite IHr. split_and!; [done..|]. constructor; [|done]. apply Hu. by eapply row_utf8.
Qed.

Lemma pendingRow_utf8 row : json_utf8 row = true -> json_utf8 (pendingRow row) = true.
Proof. intros H. unfold pendingRow. by do 3 (apply json_set_utf8; [done|done|]). Qed.

Lemma confirmedRow_utf8 i hs row :
  utf8 hs = true -> json_utf8 row = true -> json_utf8 (confirmedRow i hs row) = true.
Proof. intros Hh H. unfold confirmedRow. by do 3 (apply json_set_utf8; [done|first [done|exact Hh]|]). Qed.

Lemma rmap_app {A B} (f : A -> result B) l1 l2 r1 r2 :
  rmap f l1 = Ok r1 -> rmap f l2 = Ok r2 -> rmap f (l1 ++ l2) = Ok (r1 ++ r2).
Proof.
  revert r1. induction l1 as [|x l1 IH]; simpl; intros r1.
  - by intros [= <-].
  - destruct (f x) as [y|]; simpl; [|done]. destruct (rmap f l1) as [ys|]; simpl; [|done].
    intros [= <-] H2. by rewrite (IH ys eq_refl H2).
Qed.

(** Blocks whose texts are UTF-8. *)
Definition block_utf8 (b : Block) : Prop :=
  utf8 (hash b) = true /\ Forall (fun tx => tx_wf tx /\ tx_utf8 tx = true) (transactions b).

Lemma confirmed_read chain :
  Forall block_utf8 chain ->
  exists rows, confirmedRows chain = Ok rows /\
    rmap txFromJson rows = Ok (map fillLegacy (concat (map transactions chain))) /\ rows_utf8 rows.
Proof.
  unfold confirmedRows. induction 1 as [|b chain [Hh Hb] _ (rows & IH & IHr & IHu)]; [exists []; split_and!; [done..|by constructor]|].
  destruct (rows_read (confirmedRow (index b) (hash b)) (transactions b)) as (r & Hr & Hread & Hu);
    [apply confirmedRow_read|intros row; by apply confirmedRow_utf8|done|].
  cbn [rmap]. rewrite Hr. cbn [rbind].
  match type of IH with (let! _ := ?m in _) = _ => destruct m as [rs|e] end; simpl in *; [|done].
  injection IH as <-. exists (r ++ concat rs). split_and!; [done| |by apply Forall_app].
  rewrite map_app. by apply rmap_app.
Qed.

End listings.

(** ** Properties *)

Section properties.
Context `{W : World} `{OS : OpenSSL} `{JT : JsonText}.

(** The answer to every submission: the transaction of the request is appended
    to the mempool and the answer is 200, or the ledger is as it was. *)
Definition send_outcome (h h' : Http) (resp : HttpResponse) : Prop :=
  (statusCode resp = 200 /\
   exists now tx, send_checked h tx /\ acceptable now tx (blockchain_ (node_ h)) /\
     blockchain_ (node_ h') =
       bump_version (set_mempool (mempool_ (blockchain_ (node_ h)) ++ [tx]) (blockchain_ (node_ h)))) \/
  (statusCode resp <> 200 /\ same_ledger (node_ h) (node_ h')).

Lemma body_prepareSend {JTS : JsonTextSpec JT} body live :
  holds unlocked (may_raise (from_body body) (answered body live)) (prepareSend body).
Proof. unfold prepareSend, system_now. cbv zeta. body_solve. Qed.

(** An exception that cannot be printed comes from the parser, before anything else. *)
Lemma prepareSend_raises {JTS : JsonTextSpec JT} body h h1 e :
  unlocked h -> prepareSend body h = (h1, Raises e) -> utf8 (what e) = false -> h1 = h /\ unprintable body.
Proof.
  intros Hh E Ee. destruct (json_parse body) as [j|e'] eqn:Ep.
  - pose proof (body_prepareSend body false h Hh) as [Hk _]. rewrite E in Hk. cbn in Hk.
    destruct Hk as [(e' & [= <-] & [He|He])|(_ & text & Ht & ->)]; [congruence..|].
    cbn [what] in Ee. by rewrite (ascii_utf8 text Ht) in Ee.
  - unfold prepareSend, lift in E. unfold mbind at 1, M_bind at 1 in E. rewrite Ep in E.
    injection E as <- <-. split; [done|]. by exists e'.
Qed.

(** C22: a submission over HTTP is answered unless its body is not JSON and the
    parser's error cannot be printed; then nothing has changed. The answer is 200
    exactly when the transaction was appended to the mempool, and then it is signed
    for the sender's address, its amount is positive and covered by the confirmed
    balance, its receiver exists, and the blockchain accepts it; with any other
    answer the chain, the mempool and the disk are as they were. *)
Theorem send_transaction_outcome {OSS : OpenSSLSpec OS} {JTS : JsonTextSpec JT} (body : string) (h : Http) :
  unlocked h ->
  (exists h' resp, handleSendTransaction body h = (h', Returns resp) /\ send_outcome h h' resp) \/
  (unprintable body /\ exists text, handleSendTransaction body h = (h, Raises (json_type_error 316 text))).
Proof.
  intros Hh. unfold handleSendTransaction, try_with.
  pose proof (quiet_prepareSend body h) as Hq.
  destruct (body_prepareSend body false h Hh) as [Hk Hu]. pose proof (prepareSend_post body h h (conj eq_refl eq_refl)) as Hp.
  unfold mbind, M_bind. destruct (prepareSend body h) as [h1 [[resp|tx]|e| | |]] eqn:E; cbn in Hk, Hu, Hp, Hq;
    try (by destruct Hk as [(? & ? & _)|Hk]).
  - left. exists h1, resp. split; [done|]. right. split; [apply Hp|exact Hq].
  - left. destruct Hp as [[Hbc _] [Hchecked Ht]].
    destruct (submit_returns tx h1 Ht) as (h' & resp & -> & Hout); [by apply Hu|]. exists h', resp. split; [done|].
    destruct (decide _) as [Ha|Ha]; destruct Hout as [Hs Hl]; [left|right].
    + rewrite Hbc in Ha, Hl. split; [done|]. by exists (system_clock (ticks (node_ h1))), tx.
    + split; [by rewrite Hs|]. by etrans.
  - assert (Hmsg : utf8 (if is_json_exn e then "JSON parse error: " +:+ what e else what e) = utf8 (what e)).
    { destruct (is_json_exn e); [by rewrite utf8_app|done]. }
    assert (Hf : forall P : Http * ending HttpResponse -> Prop,
      (forall c t x, c <> 200 -> utf8 x = true ->
         P (fail c t x (if is_json_exn e then "JSON parse error: " +:+ what e else what e) h1)) ->
      P ((if is_json_exn e
          then badRequest "INVALID_TRANSACTION" ("JSON parse error: " +:+ what e)
          else fail 500 "Internal Server Error" "TX_SEND_FAILED" (what e)) h1)).
    { intros P HP. by destruct (is_json_exn e); apply HP. }
    apply Hf. clear Hf. intros c t x Hc Hx.
    pose proof (fail_outcome c t x (if is_json_exn e then "JSON parse error: " +:+ what e else what e) h1 Hx) as Ho.
    rewrite Hmsg in Ho. destruct (utf8 (what e)) eqn:Ee.
    + left. destruct Ho as (resp & -> & Hs). exists h1, resp. split; [done|]. right. by rewrite Hs.
    + right. destruct Ho as (text & _ & ->). destruct (prepareSend_raises body h h1 e Hh E Ee) as [-> Hub].
      split; [done|]. by exists text.
Qed.

Lemma answer_request {JTS : JsonTextSpec JT} fuel req :
  holds unlocked (answered (body req) (routePrefix "POST" "/mine" req)) (handleRequest fuel req).
Proof. apply request_by_route; intros; [by apply answer_read|apply answer_send|by apply answer_mine]. Qed.

(** A connection that ends leaves the mutexes free. *)
Lemma connection_unlocked {JTS : JsonTextSpec JT} fuel raw more :
  holds unlocked (fun _ => True) (handleConnection fuel raw more).
Proof.
  unfold handleConnection. destruct (raw ≫= planRequest) as [p|]; [|by apply holds_ret].
  destruct (requestOf p more) as [r|req]; [by apply holds_ret|].
  apply holds_bind; [|intros r; by apply holds_ret].
  eapply holds_weaken; [|apply answer_request]. done.
Qed.

(** C24: with the mutexes of the peer list and of the blockchain free, every request
    is answered, errors included, and they are free afterwards. Only mining can end
    with the process dying in a disk operation or the search for a nonce still
    running, under the mutex of the blockchain;
    and an exception leaves the server only when the body is not JSON and the
    parser's error about it quotes bytes that are not UTF-8. Only
    [POST /transaction/send] and [POST] on paths that start with "/mine" can
    change the chain, the mempool or the disk. *)
Theorem request_answered {JTS : JsonTextSpec JT} (fuel : nat) (req : HttpRequest) (h : Http) :
  unlocked h ->
  let r := handleRequest fuel req h in
  (r.2 <> Unfinished -> unlocked r.1) /\
  match r.2 with
  | Returns _ => True
  | Dies | Unfinished => routePrefix "POST" "/mine" req = true
  | Raises _ => unprintable (body req)
  | Deadlocks => False
  end /\
  (ledger_route req = false -> same_ledger (node_ h) (node_ r.1)).
Proof.
  intros Hh r. unfold r. clear r.
  destruct (answer_request fuel req h Hh) as [H1 H2]. split_and!; [by rewrite not_unfinished_ending in H2| |intros Hq; exact (quiet_request fuel req Hq h)].
  destruct (handleRequest fuel req h) as [h' [a|e| | |]]; cbn in *; naive_solver.
Qed.

(** The requests whose body is parsed: five routes, and mining when the body opens
    an object. *)
Definition opens_object (b : string) : bool := match b with String "{" _ => true | _ => false end.
Definition parsing_route (req : HttpRequest) : bool :=
  route "POST" "/wallet/import" req || route "POST" "/wallet/login" req ||
  route "POST" "/wallet/loginChallenge" req || route "POST" "/wallet/verifyLogin" req ||
  route "POST" "/transaction/send" req ||
  (routePrefix "POST" "/mine" req && opens_object (body req)).

Lemma fail_escapes {JTS : JsonTextSpec JT} code text errorCode message h :
  utf8 errorCode = true -> utf8 message = false ->
  exists t, fail code text errorCode message h = (h, Raises (json_type_error 316 t)).
Proof.
  intros Hc Hm. pose proof (fail_outcome code text errorCode message h Hc) as H. rewrite Hm in H.
  destruct H as (t & _ & Ht). by exists t.
Qed.

(** The handlers of these routes. *)
Inductive parsing_handler (b : string) : HM HttpResponse -> Prop :=
| parse_import : parsing_handler b (handleImportWallet b)
| parse_login : parsing_handler b (handleWalletLogin b)
| parse_challenge : parsing_handler b (handleLoginChallenge b)
| parse_verify : parsing_handler b (handleVerifyLogin b)
| parse_send : parsing_handler b (handleSendTransaction b)
| parse_mine fuel p : opens_object b = true -> parsing_handler b (handleMine fuel b p).

Lemma request_parses (P : HM HttpResponse -> Prop) fuel req :
  parsing_route req = true ->
  (forall m, parsing_handler (body req) m -> P m) -> P (handleRequest fuel req).
Proof.
  intros Hroute HP. unfold handleRequest. unfold parsing_route, route, routePrefix in *.
  destruct (String.eqb_spec (method req) "POST") as [Hm|]; [|discriminate Hroute]. rewrite Hm.
  change (String.eqb "POST" "OPTIONS") with false. cbn [andb] in *. cbn beta iota.
  rewrite !orb_true_iff in Hroute.
  destruct Hroute as [Hroute|[E Hb]%andb_prop].
  2: { assert (Hne : forall s, str_prefix "/mine" s = false -> String.eqb (routePath (path req)) s = false).
       { intros s Hs. apply String.eqb_neq. intros Heq. rewrite Heq in E. congruence. }
       rewrite !Hne by reflexivity. rewrite E. apply HP. by constructor. }
  destruct Hroute as [[[[E|E]|E]|E]|E]; apply String.eqb_eq in E;
    repeat lazymatch goal with
    | |- P (if String.eqb (routePath ?p) ?s then _ else _) =>
        destruct (String.eqb_spec (routePath p) s) as [H|H];
          [first [exfalso; rewrite E in H; discriminate H | apply HP; constructor]
          |first [exfalso; exact (H E) | clear H]]
    end.
Qed.

Lemma parsing_escapes {JTS : JsonTextSpec JT} b m e h :
  parsing_handler b m -> json_parse b = Throw e -> utf8 (what e) = false ->
  exists text, m h = (h, Raises (json_type_error 316 text)).
Proof.
  intros Hm He Hu. destruct Hm as [| | | | |fuel p Hb].
  6: { unfold handleMine, try_with, lift, mbind, M_bind.
       assert (Hmin : minerOf b p = Throw e).
       { destruct b as [|[[] [] [] [] [] [] [] []] b']; try discriminate Hb. unfold minerOf. by rewrite He. }
       rewrite Hmin. by apply fail_escapes. }
  all: unfold handleImportWallet, handleWalletLogin, handleLoginChallenge, handleVerifyLogin,
      handleSendTransaction, prepareSend, try_with, lift, mbind, M_bind;
    rewrite He; cbn beta iota zeta; try (by apply fail_escapes).
  destruct (is_json_exn e); (apply fail_escapes; [done|]); [by rewrite utf8_app|done].
Qed.

(** A request whose body is parsed, and is not JSON in a way that the parser's error
    quotes bytes that are not UTF-8, is not answered: printing the answer about the
    error raises type_error 316 from the catch clause, and the exception leaves the
    handler and the connection. *)
Lemma unprintable_body_escapes {JTS : JsonTextSpec JT} (fuel : nat) (req : HttpRequest) (h : Http)
    (raw : string) (more : nat -> option string) (p : plan) :
  planRequest raw = Some p -> requestOf p more = inr req ->
  parsing_route req = true -> unprintable (body req) ->
  exists text, handleConnection fuel (Some raw) more h = (h, Raises (json_type_error 316 text)).
Proof.
  intros Hp Hr Hroute (e & He & Hu).
  assert (H : exists text, handleRequest fuel req h = (h, Raises (json_type_error 316 text))).
  { apply (request_parses (fun m => exists text, m h = (h, Raises (json_type_error 316 text)))); [done..|]. intros m Hm. exact (parsing_escapes _ _ _ h Hm He Hu). }
  destruct H as [text H]. exists text. unfold handleConnection. cbn [mbind option_bind]. rewrite Hp, Hr.
  unfold mbind, M_bind. by rewrite H.
Qed.

(** The listing of all transactions reads back as the ledger: its confirmed
    rows are the transactions of the chain in order, its pending rows are those of
    the mempool that no block holds, and its count is that of both. The texts of the
    ledger must be UTF-8. *)
Lemma transactions_listing {JTS : JsonTextSpec JT} (h : Http) :
  Forall block_utf8 (chain_ (blockchain_ (node_ h))) ->
  Forall (fun tx => tx_wf tx /\ tx_utf8 tx = true) (mempool_ (blockchain_ (node_ h))) ->
  chainLock (node_ h) = Free ->
  let bc := blockchain_ (node_ h) in
  let ids := list_to_set (map txID (concat (map transactions (chain_ bc)))) : gset string in
  exists j s confirmed pending,
    handleGetTransactions h = (h, Returns (defaultResponse s)) /\ json_dump (Some 2) j = Ok s /\
    jvalue get_json "confirmedTransactions" JNull j = Ok (JArray confirmed) /\
    jvalue get_json "pendingTransactions" JNull j = Ok (JArray pending) /\
    jvalue get_json "transactions" JNull j = Ok (JArray (confirmed ++ pending)) /\
    value_u64 "count" 0 j = Ok (u64 (Z.of_nat (length confirmed + length pending))) /\
    rmap txFromJson confirmed = Ok (map fillLegacy (concat (map transactions (chain_ bc)))) /\
    rmap txFromJson pending = Ok (map fillLegacy (filter (fun tx => txID tx ∉ ids) (mempool_ bc))).
Proof.
  intros Hc Hm Hfree bc ids. unfold handleGetTransactions, try_with, mbind, M_bind, lift.
  rewrite !the_chain_free by done. cbn beta iota.
  destruct (confirmed_read _ Hc) as (confirmed & Ec & Hconf & Hcu). unfold getChain. rewrite Ec.
  destruct (rows_read pendingRow (filter (fun tx => txID tx ∉ ids) (mempool_ bc)) pendingRow_read pendingRow_utf8)
    as (pending & Ep & Hpend & Hpu).
  { apply Forall_forall. intros tx [_ Htx]%list_elem_of_filter. by eapply Forall_forall in Hm. }
  unfold getMempool, confirmedIds. fold bc. fold ids. rewrite Ep.
  unfold jsonResponse, lift. match goal with |- context [json_dump ?i ?j] => destruct (dump_total i j) as [s Es] end.
  { apply json_array_utf8 in Hcu as Hca, Hpu as Hpa. assert (Hall : json_utf8 (JArray (confirmed ++ pending)) = true).
    { by apply json_array_utf8, Forall_app. }
    apply json_object_utf8. cbn [forallb fst snd]. unfold json_count. rewrite Hall, Hca, Hpa. reflexivity. }
  rewrite Es. do 4 eexists. split; [reflexivity|]. split; [exact Es|]. split_and!; try done.
  unfold value_u64, jvalue, json_count. simpl. by rewrite length_app.
Qed.

End properties.
