(* ===== verification/HttpMining.v ===== *)
(** * HttpMining: the cooldown between two blocks of a miner

    The times of the last blocks are readings of the clock that are never set
    back; a block mined over HTTP refuses the miner another one for thirty
    seconds. *)

From S2P Require Import Prelude StdTime Json Crypto Transaction Block State Consensus Storage Blockchain ChainInvariant Wallet HttpText Texts Peer PeerScorer PeerManager Connections Effects Node NodeFacts Http HttpFacts HttpAnswers.
#[local] Open Scope Z_scope.

(** ** The clock and the mining times *)

(** Clocks are read in order. *)
Definition ticks_le (n n' : Node) : Prop := (ticks n <= ticks n')%nat.

#[export] Instance ticks_le_preorder : PreOrder ticks_le.
Proof. split; unfold ticks_le; [intros n; lia|intros n1 n2 n3; lia]. Qed.

Section ticking.
Context `{W : World} `{OS : OpenSSL} `{JT : JsonText}.

#[export] Instance ticks_le_event : EventRel ticks_le.
Proof. split; [split; [apply _|..]|..]; intros; unfold ticks_le; simpl; lia. Qed.

Lemma ticks_queries : keeps ticks_le getPeerList /\ keeps ticks_le getNetworkStats.
Proof. unfold getPeerList, getNetworkStats, steady_now. split; keeps_solve. Qed.

(** The mining times are readings already taken. *)
Definition times_ok (h : Http) : Prop :=
  forall m t, lastMineAt_ h !! m = Some t -> t <= steady_clock (ticks (node_ h)).

(** Time passes: no mining time is lost or set back. *)
Definition time_passes (h h' : Http) : Prop :=
  ticks_le (node_ h) (node_ h') /\
  (times_ok h -> times_ok h' /\
     forall m t, lastMineAt_ h !! m = Some t -> exists t', lastMineAt_ h' !! m = Some t' /\ t <= t').

#[export] Instance time_passes_preorder : PreOrder time_passes.
Proof.
  split; unfold time_passes.
  - intros h. split; [by unfold ticks_le|]. intros Hh. split; [done|]. intros m t Ht. exists t. split; [done|lia].
  - intros h1 h2 h3 [Ht H1] [Ht' H2]. split; [by etrans|]. intros Hh.
    destruct (H1 Hh) as [Hh2 Hn]. destruct (H2 Hh2) as [Hh3 Hn']. split; [done|].
    intros m t Hm. destruct (Hn m t Hm) as (t2 & Hm2 & ?). destruct (Hn' m t2 Hm2) as (t3 & Hm3 & ?).
    exists t3. split; [done|lia].
Qed.

Hypothesis clock_monotone : forall i j, (i <= j)%nat -> steady_clock i <= steady_clock j.

Lemma time_passes_same h h' :
  ticks_le (node_ h) (node_ h') -> lastMineAt_ h' = lastMineAt_ h -> time_passes h h'.
Proof.
  intros Ht E. split; [done|]. intros Hh. unfold times_ok in *. rewrite E. split.
  - intros m t Hm. specialize (Hh m t Hm). pose proof (clock_monotone _ _ Ht). lia.
  - intros m t Hm. exists t. split; [done|lia].
Qed.

Lemma time_liftN {A} (m : M A) : keeps ticks_le m -> keeps time_passes (liftN m).
Proof.
  intros Hm h. unfold liftN. specialize (Hm (node_ h)). destruct (m (node_ h)) as [n r].
  by apply time_passes_same.
Qed.

Lemma time_the_chain {A} (f : Blockchain -> A) : keeps time_passes (the_chain f).
Proof. apply time_liftN. keeps_solve. Qed.

Ltac time_step :=
  lazymatch goal with
  | |- keeps _ (the_chain _) => apply time_the_chain
  | |- keeps _ (modify _) => apply keeps_modify; intros ?; by apply time_passes_same
  | |- keeps _ (know _) => apply keeps_modify; intros ?; by apply time_passes_same
  | |- keeps _ (liftN (reading _)) => apply time_liftN; intros ?; unfold ticks_le; simpl; lia
  | |- keeps _ (liftN _) => apply time_liftN
  | |- _ => http_step
  end.
Ltac time_solve := repeat (time_step || assumption || solve [auto]).

(** Recording the time of a block. *)
Lemma time_record {A} miner (k : HM A) :
  keeps time_passes k ->
  keeps time_passes (t ← liftN steady_now;
    _ ← modify (fun h => with_lastMineAt (<[miner := t]> (lastMineAt_ h)) h); k).
Proof.
  intros Hk h. set (t := steady_clock (ticks (node_ h))).
  set (h0 := with_node (with_ticks (S (ticks (node_ h))) (node_ h)) h).
  transitivity (with_lastMineAt (<[miner := t]> (lastMineAt_ h0)) h0); [|apply Hk].
  split; [unfold ticks_le, h0; simpl; lia|]. intros Hh.
  pose proof (clock_monotone (ticks (node_ h)) (S (ticks (node_ h))) ltac:(lia)) as Hc.
  split; intros m u; unfold h0; simpl.
  - intros [[<- <-]|[_ Hm]]%lookup_insert_Some; [done|]. specialize (Hh m u Hm). simpl. lia.
  - intros Hm. destruct (decide (miner = m)) as [->|Hne].
    + rewrite lookup_insert_eq. eexists. split; [done|]. exact (Hh m u Hm).
    + rewrite lookup_insert_ne by done. exists u. split; [done|lia].
Qed.

Lemma time_mine fuel miner : keeps time_passes (mine fuel miner).
Proof.
  unfold mine. apply keeps_bind; [apply _|time_solve|intros mempool].
  apply keeps_bind; [apply _|apply time_liftN, minePending_steps, _|intros b]. apply time_record. time_solve.
Qed.

Lemma time_handleMine fuel b p : keeps time_passes (handleMine fuel b p).
Proof. pose proof time_mine. unfold handleMine, cooldownResponse, steady_now. time_solve. Qed.

Lemma time_request fuel req : keeps time_passes (handleRequest fuel req).
Proof.
  destruct ticks_queries as [Hl Hs]. pose proof time_mine. pose proof (addTransaction_steps ticks_le) as Hadd.
  apply request_by_route.
  - intros m Hm. destruct Hm;
      unfold handleCreateWallet, handleImportWallet, handleWalletLogin, handleLoginChallenge,
      handleVerifyLogin, handleTrade, handleGetChain, handleGetTransactions, handleGetMempool,
      handleGetWalletBalance, handleGetWalletTransactions, handleGetPeers, handleHealth,
      handleGetPeerScores, handleNetworkStats, system_now; time_solve.
  - intros _. unfold handleSendTransaction, prepareSend, submit, sendAccepted, system_now. cbv zeta. time_solve.
  - intros _. apply time_handleMine.
Qed.

(** A series of connections. *)
Definition serve_all (fuel : nat) (rs : list (option string * (nat -> option string))) (h : Http) : Http :=
  foldl (fun h r => (handleConnection fuel r.1 r.2 h).1) h rs.

Lemma time_serve fuel rs h : time_passes h (serve_all fuel rs h).
Proof.
  revert h. induction rs as [|r rs IH]; intros h; [done|]. simpl. etrans; [|apply IH].
  pose proof time_request. assert (Hc : keeps time_passes (handleConnection fuel r.1 r.2)).
  { unfold handleConnection. time_solve. }
  apply Hc.
Qed.

(** A block mined over HTTP starts the miner's cooldown. *)
Lemma mine_recorded fuel miner h h' resp :
  mine fuel miner h = (h', Returns resp) ->
  exists t, lastMineAt_ h' !! miner = Some t /\ steady_clock (ticks (node_ h)) <= t.
Proof.
  pose proof (minePending_steps ticks_le) as Hmine.
  unfold mine. unfold mbind at 1, M_bind at 1.
  match goal with |- context [the_chain ?f h] => destruct (the_chain f h) as [h0 [x|e| | |]] eqn:E end; try done.
  apply the_chain_returns in E as [-> _]. unfold liftN. unfold mbind at 1, M_bind at 1.
  specialize (Hmine fuel miner (node_ h)).
  destruct (minePending fuel miner (node_ h)) as [n1 [b|e| | |]]; try done. cbn [fst] in Hmine.
  unfold know; unfold steady_now, reading, modify, jsonResponse, lift, mbind, M_bind. cbn beta iota zeta.
  match goal with |- context [the_chain ?f ?s] => destruct (the_chain f s) as [h0 [y|e| | |]] eqn:E end; try done.
  apply the_chain_returns in E as [-> _].
  match goal with |- context [json_dump ?i ?j] => destruct (json_dump i j) as [s|e] end;
    cbn; intros [= <- <-].
  eexists. cbn. rewrite lookup_insert_eq. split; [done|]. by apply clock_monotone.
Qed.

Lemma cooldown_blocks now t t1 :
  t1 <= t -> now < t1 + kMiningCooldownSeconds * 10 ^ 9 ->
  exists r, cooldownRemaining now (Some t) = Some r.
Proof.
  unfold kMiningCooldownSeconds. intros Ht Hn. unfold cooldownRemaining, age.
  assert (Hq : Z.quot (now - t) (10 ^ 9) < 30).
  { destruct (Z_lt_le_dec (now - t) 0).
    - pose proof (Z.quot_opp_l (now - t) (10 ^ 9) ltac:(lia)).
      pose proof (Z.quot_pos (- (now - t)) (10 ^ 9) ltac:(lia) ltac:(lia)). lia.
    - apply Z.quot_lt_upper_bound; lia. }
  rewrite (proj2 (Z.ltb_lt _ _)) by done. by eexists.
Qed.

Context {JTS : JsonTextSpec JT}.

Lemma cooldown_answer r h :
  exists resp, cooldownResponse r h = (h, Returns resp) /\ statusCode resp = 429.
Proof.
  unfold cooldownResponse, mbind, M_bind, lift.
  match goal with |- context [fail ?c ?t ?e ?m h] =>
    destruct (fail_returns c t e m h) as (resp & -> & _); [done..|] end.
  match goal with |- context [json_dump ?i ?j] => destruct (dump_total i j) as [s ->]; [done|] end. by eexists.
Qed.

(** What a 200 from the mining handler means. *)
Lemma handleMine_mined fuel b p h h' resp :
  handleMine fuel b p h = (h', Returns resp) -> statusCode resp = 200 ->
  exists miner t, minerOf b p = Ok miner /\
    negb (String.eqb miner "GENESIS") && negb (isValidAddress miner) = false /\
    lastMineAt_ h' !! miner = Some t /\ steady_clock (ticks (node_ h)) <= t.
Proof.
  intros H Hs. unfold handleMine, try_with in H.
  match type of H with (match ?m with _ => _ end) = _ => destruct m as [h1 [r|e| | |]] eqn:E end; try done.
  2: { apply fail_code in H as [_ H]. congruence. }
  injection H as -> ->. revert E. unfold mbind at 1, M_bind at 1, lift at 1.
  destruct (minerOf b p) as [miner|e] eqn:Em; [|done]. case_if.
  { intros H. apply fail_code in H as [_ H]. congruence. }
  unfold steady_now, reading, liftN, gets, mbind, M_bind. cbn beta iota zeta.
  match goal with |- context [cooldownRemaining ?a ?c] => destruct (cooldownRemaining a c) as [r|] end.
  - set (h1 := with_node _ h). intros E1. destruct (cooldown_answer r h1) as (r' & E2 & Hr').
    rewrite E2 in E1. injection E1 as <- <-. congruence.
  - intros E1. apply mine_recorded in E1 as (t & Ht & Hle). exists miner, t. split_and!; try done.
    etrans; [|exact Hle]. apply clock_monotone. simpl. lia.
Qed.

End ticking.

(** ** Properties *)

Section properties.
Context `{W : World} `{OS : OpenSSL} `{JT : JsonText}.

(** C23: after a block mined over HTTP for an address, for thirty seconds of the
    steady clock no request mines for that address: whatever requests come in
    between, a further one is answered with 429 and changes nothing in the ledger. *)
Theorem mining_cooldown {JTS : JsonTextSpec JT} (n : Node) (fuel : nat) rs0 rs (b p b' p' miner : string) (h1 : Http)
    (resp : HttpResponse) :
  (forall i j, (i <= j)%nat -> steady_clock i <= steady_clock j) ->
  minerOf b p = Ok miner -> minerOf b' p' = Ok miner ->
  let h0 := serve_all fuel rs0 (newHttpServer n) in
  handleMine fuel b p h0 = (h1, Returns resp) -> statusCode resp = 200 ->
  exists t1, lastMineAt_ h1 !! miner = Some t1 /\ steady_clock (ticks (node_ h0)) <= t1 /\
    let h2 := serve_all fuel rs h1 in
    (steady_clock (ticks (node_ h2)) < t1 + kMiningCooldownSeconds * 10 ^ 9 ->
     exists h3 resp', handleMine fuel b' p' h2 = (h3, Returns resp') /\ statusCode resp' = 429 /\
       same_ledger (node_ h2) (node_ h3)).
Proof.
  intros Hclock Hm Hm' h0 H1 Hs.
  destruct (handleMine_mined Hclock fuel b p h0 h1 resp H1 Hs) as (m & t1 & Em & Hok & Hlast & Hle).
  assert (m = miner) as -> by congruence. exists t1. split_and!; [done|done|]. intros h2 Hlt.
  assert (Hnew : exists t, lastMineAt_ h2 !! miner = Some t /\ t1 <= t).
  { destruct (time_serve Hclock fuel rs0 (newHttpServer n)) as [_ H0].
    destruct (H0 ltac:(intros m t Ht; discriminate Ht)) as [Hok0 _]. fold h0 in Hok0.
    pose proof (time_handleMine Hclock fuel b p h0) as [_ Hstep]. rewrite H1 in Hstep.
    destruct (Hstep Hok0) as [Hok1 _]. destruct (time_serve Hclock fuel rs h1) as [_ H2].
    destruct (H2 Hok1) as [_ Hkeep]. by apply Hkeep. }
  destruct Hnew as (t & Ht & Hle').
  unfold handleMine, try_with, steady_now, reading, liftN, gets, lift. rewrite Hm'.
  unfold mbind, M_bind. cbn beta iota. rewrite Hok. cbn beta iota zeta. cbn [lastMineAt_ with_node].
  rewrite Ht. destruct (cooldown_blocks _ _ _ Hle' Hlt) as [r Hr]. rewrite Hr.
  match goal with |- context [cooldownResponse r ?h] =>
    destruct (cooldown_answer r h) as (resp' & Ec & Hs'); rewrite Ec end.
  by do 2 eexists.
Qed.
End properties.
