(* ===== verification/SampleHttp.v ===== *)
(** * SampleHttp: the HTTP server of the sample node, and the witnesses of its theorems *)

From S2P Require Import Prelude StdTime Json JsonNlohmann Crypto Transaction Block State Consensus Storage Blockchain SampleNode ChainInvariant Wallet Peer PeerScorer PeerManager Connections Effects Node NodeFacts NodeSafety SampleP2P HttpText Texts Http HttpFacts HttpAnswers HttpMining.
#[local] Open Scope Z_scope.
Import ToyOpenSSL Nlohmann.

Definition sampleHttp : Http := newHttpServer sampleStart.

Definition get (p : string) : HttpRequest := mkRequest "GET" p ∅ "".
Definition post (p b : string) : HttpRequest := mkRequest "POST" p ∅ b.

Definition aWallet : string := "PCN_" +:+ str_repeat 40 "a".

(** Mining for an address, twice. *)
Definition firstMine : Http * ending HttpResponse := handleMine 50 "" ("/mine?minerAddress=" +:+ aWallet) sampleHttp.

Definition respOf (e : ending HttpResponse) : HttpResponse :=
  match e with Returns r => r | _ => statusResponse 0 "" "" end.

Lemma returned (m : Http * ending HttpResponse) :
  kind_of m.2 = KReturns -> m = (m.1, Returns (respOf m.2)).
Proof. destruct m as [h []]; done. Qed.

Lemma sample_clock i j : (i <= j)%nat -> steady_clock i <= steady_clock j.
Proof. intros H. change (Z.of_nat i * 10 ^ 9 <= Z.of_nat j * 10 ^ 9). lia. Qed.

Lemma mining_cooldown_witness :
  exists h3 resp',
    handleMine 50 "" ("/mine?minerAddress=" +:+ aWallet) firstMine.1 = (h3, Returns resp') /\
    statusCode resp' = 429 /\ same_ledger (node_ firstMine.1) (node_ h3).
Proof.
  destruct (mining_cooldown sampleStart 50 [] [] "" ("/mine?minerAddress=" +:+ aWallet) ""
    ("/mine?minerAddress=" +:+ aWallet) aWallet firstMine.1 (respOf firstMine.2)) as (t1 & _ & Ht & H).
  - exact sample_clock.
  - vm_compute. reflexivity.
  - vm_compute. reflexivity.
  - change (firstMine = (firstMine.1, Returns (respOf firstMine.2))).
    apply returned. vm_compute. reflexivity.
  - vm_compute. reflexivity.
  - refine (H _). assert (E : ticks (node_ firstMine.1) = 4%nat) by (vm_compute; reflexivity).
    change (steady_clock (ticks (node_ firstMine.1)) < t1 + kMiningCooldownSeconds * 10 ^ 9).
    rewrite E. change (0 <= t1) in Ht. change (4 * 10 ^ 9 < t1 + 30 * 10 ^ 9). lia.
Defined.

(** The rich account of [richChain] pays an address whose balance was asked for. *)
Definition richHttp : Http :=
  (handleRequest 0 (get ("/wallet/balance/" +:+ aWallet))
    (newHttpServer (with_blockchain richChain sampleStart))).1.

Definition unsignedSend : Transaction :=
  mkTx "" (senderPublicKey signedPayment) "" (fromAddress signedPayment) aWallet 5 1 ""
    (Transaction.timestamp signedPayment) "".

Definition sendBody : string := Eval vm_compute in
  match signTx 0 sampleKey unsignedSend with
  | Ok tx => match json_dump None (txToJson tx) with Ok s => s | Throw _ => "" end
  | Throw _ => ""
  end.

Lemma balance_query_creates_wallet_witness : walletExists aWallet richHttp = true.
Proof.
  refine (balance_query_creates_wallet aWallet (newHttpServer (with_blockchain richChain sampleStart)) 0
    (get ("/wallet/balance/" +:+ aWallet)) _ _ _); reflexivity.
Defined.

(** The payment is accepted. *)
Lemma send_accepted : statusCode (respOf (handleSendTransaction sendBody richHttp).2) = 200.
Proof. vm_compute. reflexivity. Qed.

Lemma send_transaction_outcome_witness :
  exists h' resp, handleSendTransaction sendBody richHttp = (h', Returns resp) /\
    send_outcome richHttp h' resp.
Proof.
  refine (match send_transaction_outcome sendBody richHttp _ with
          | or_introl H => H
          | or_intror (conj (ex_intro _ e (conj He _)) _) => _
          end); [split; vm_compute; reflexivity|].
  exfalso. revert He. vm_compute. discriminate.
Defined.

(** A body of four bytes that starts a string with a byte that is not UTF-8. *)
Definition badBody : string := String (chr 34) (String (chr 255) "  ").

Lemma badBody_unprintable : unprintable badBody.
Proof. eexists. split; vm_compute; reflexivity. Qed.

(** The banned peer comes, and a block is mined over HTTP. *)
Definition system_history : list system_event :=
  map OfNode ban_history ++
  [OfHttp 50 (Some (requestText "POST" "/mine" sampleFields "{  }")) (fun _ => None)].

Lemma system_ledger_refines_witness :
  chain_inv (blockchain_ (node_ (system_after sampleHttp system_history))).
Proof.
  refine (proj1 (proj2 (system_ledger_refines sampleHttp system_history _))).
  destruct (sampleNode_inv None). constructor; assumption.
Defined.

Lemma request_answered_witness :
  same_ledger (node_ sampleHttp) (node_ (handleRequest 0 (post "/wallet/import" "{}") sampleHttp).1).
Proof.
  refine (proj2 (proj2 (request_answered 0 (post "/wallet/import" "{}") sampleHttp _)) _);
    [split|]; reflexivity.
Defined.

Lemma transactions_listing_witness :
  exists s, handleGetTransactions sampleHttp = (sampleHttp, Returns (defaultResponse s)).
Proof.
  destruct (transactions_listing sampleHttp) as (j & s & c & p & H & _).
  - apply Forall_singleton. split; [vm_compute; reflexivity|].
    assert (Hw : Forall tx_wf (transactions sampleGenesis)).
    { refine (proj2 (proj2 (proj2 (block_wfb_spec sampleGenesis _)))). reflexivity. }
    eapply Forall_impl; [apply Forall_and; split; [exact Hw|]|]; [|intros tx H; exact H].
    apply Forall_forall. intros tx Htx. vm_compute in Htx. set_unfold in Htx. destruct Htx as [-> |[]]; vm_compute; reflexivity.
  - change (Forall (fun tx => tx_wf tx /\ tx_utf8 tx = true) []). apply Forall_nil_2.
  - reflexivity.
  - exists s. exact H.
Defined.

(** The server of the node that the banned peer of [ban_history] has blocked. *)
Definition blockedHttp : Http :=
  newHttpServer (handleMessage 1 (mkMessage PING (JObject [])) (after sampleStart ban_history)).1.

Lemma health_blocks_witness : (handleRequest 0 (get "/health?x=1") blockedHttp).2 = Deadlocks.
Proof.
  refine (health_blocks 1 (mkMessage PING (JObject [])) (after sampleStart ban_history) blockedHttp 0
    (get "/health?x=1") _ _ _ _ _).
  - exact ban_history_bans.
  - split; vm_compute; reflexivity.
  - reflexivity.
  - reflexivity.
  - vm_compute. constructor.
Defined.
