(* ===== verification/Main.v ===== *)
(** * Main: the process of src/src/main.cpp, from its arguments to its exit status

    [main] reads the configuration, opens the store, loads or creates the chain
    and the identity, starts the node and the HTTP server, checks the chain, runs
    the event loop on its threads until a signal stops it, waits for the threads
    and saves the chain. Handlers run one after the other, but a handler that
    blocks, or that searches for a nonce, keeps its thread. What the operating
    system answers while the process starts is the record [Boot]. A signal comes
    while the event loop runs. *)

From S2P Require Import Prelude StdTime Json JsonNlohmann Crypto Transaction Block State Consensus Storage Blockchain SampleNode ChainInvariant ChainSafety Wallet Texts Peer PeerScorer PeerManager Connections Effects Node NodeFacts NodeSafety SampleP2P Config HttpText Http HttpFacts HttpAnswers SampleHttp.
From stdpp Require Import relations.
#[local] Open Scope Z_scope.

(** ** The process *)

Record Boot := mkBoot {
  dirReady : bool;       (* the data directory exists or can be created *)
  loadTime : Z;          (* system_clock, when the chain is loaded *)
  p2pPortFree : bool;    (* the acceptor of the node can be bound *)
  entropy : Z;           (* of a new identity *)
  startTime : Z;         (* steady_clock, when the node is constructed *)
  httpPortFree : bool;   (* the acceptor of the HTTP server can be bound *)
  cores : nat            (* hardware_concurrency *)
}.

(** How the process ends. [Hangs]: a thread is blocked for ever, or still
    searches for a nonce. *)
Inductive fate : Type :=
| Exits (status : Z)
| Terminated          (* std::terminate *)
| Killed              (* died in the middle of a disk operation *)
| Hangs.

Definition bind_error : exn := runtime_error "bind: Address already in use".

Section main.
Context `{W : World} `{OS : OpenSSL} `{JT : JsonText}.

(** *** Start *)

(** The store and the chain. *)
Definition openLedger (fuel : nat) (b : Boot) (c : Config) : prog (result (option Blockchain)) :=
  if dirReady b then
    do! _ := openStorage (confDataDir c) in
    newBlockchain fuel (loadTime b) (confDifficulty c) (Some (PoWEngine defaultAdjuster))
      (Some (confDataDir c))
  else Ret (Throw (runtime_error "filesystem_error")).

(** The node, or how the process ends before there is one, with the disk. *)
Definition bootNode (fuel : nat) (b : Boot) (c : Config) (evs : list event) (fs : FS) : fate * FS + Node :=
  match exec (openLedger fuel b c) evs fs with
  | (None, fs, _) => inl (Killed, fs)
  | (Some (Throw _), fs, _) => inl (Exits 1, fs)
  | (Some (Ok None), fs, _) => inl (Hangs, fs)
  | (Some (Ok (Some bc)), fs, evs) =>
      if negb (p2pPortFree b) then inl (Exits 1, fs)
      else match exec (loadOrCreate (entropy b) (confDataDir c) (p2pPort c) (confPublicIp c)) evs fs with
           | (None, fs, _) => inl (Killed, fs)
           | (Some (Throw _), fs, _) => inl (Exits 1, fs)
           | (Some (Ok (identity, _)), fs, evs) =>
               inr (newNode bc fs evs (p2pPort c) (startTime b) (nodeOptions c) identity)
           end
  end.

(** [chain.isChainValid()] *)
Definition checkChain : M bool :=
  with_chainMutex (now ← system_now; gets (fun n => isValidChain now (blockchain_ n))).

(** The rest of the start; the answer is whether the chain is valid. *)
Definition startServices (b : Boot) (c : Config) : M bool :=
  _ ← startNode;
  _ ← for_each (confPeers c) (fun a => connectToPeer (peerHost a) (peerPort a) 0);
  _ ← lift (if httpPortFree b then Ok tt else Throw bind_error);
  checkChain.

(** *** The event loop *)

Definition threadCount (b : Boot) : nat := Nat.max 2 (cores b).

(** An event on one of the threads. *)
Definition run_system (e : system_event) : HM unit :=
  match e with
  | OfNode e => liftN (run_event e)
  | OfHttp fuel raw more => _ ← handleConnection fuel raw more; mret tt
  end.

(** How the loop ended: a signal stopped it, with so many threads that can still
    return; an exception left a handler (in a thread of the pool as in the main
    one, whose [threads] it destroys while they run); the process died. *)
Inductive loop_end : Type := Stopped (free : nat) | Uncaught (e : exn) | Dead.

(** The loop on [free] threads. *)
Fixpoint run_loop (free : nat) (es : list system_event) (h : Http) : Http * loop_end :=
  match free, es with
  | O, _ | _, [] => (h, Stopped free)
  | S rest, e :: es =>
      match run_system e h with
      | (h, Returns _) => run_loop free es h
      | (h, Deadlocks) | (h, Unfinished) => run_loop rest es h
      | (h, Raises e) => (h, Uncaught e)
      | (h, Dies) => (h, Dead)
      end
  end.

(** [chain.persistChain()] *)
Definition persistOnExit : M unit :=
  with_chainMutex (fun n =>
    match exec (persistChain (blockchain_ n)) (faults n) (disk n) with
    | (None, fs, evs) => (with_faults evs (with_disk fs n), Dies)
    | (Some r, fs, evs) => lift r (with_faults evs (with_disk fs n))
    end).

(** After the loop: the threads are joined, and the chain is saved. *)
Definition finish (b : Boot) (h : Http) (l : loop_end) : fate * FS :=
  match l with
  | Uncaught _ => (Terminated, disk (node_ h))
  | Dead => (Killed, disk (node_ h))
  | Stopped free =>
      if Nat.eqb free (threadCount b) then
        let '(n, r) := persistOnExit (node_ h) in
        (match r with
         | Returns _ => Exits 0
         | Raises _ => Exits 1
         | Dies => Killed
         | Deadlocks | Unfinished => Hangs
         end, disk n)
      else (Hangs, disk (node_ h))
  end.

(** *** [main] *)

(** The fate of the process, the server when the loop stopped, if it ever ran, and
    the disk. *)
Definition main (fuel : nat) (files : string -> option string) (args : list string) (b : Boot)
    (es : list system_event) (evs : list event) (fs : FS) : fate * option Http * FS :=
  match parseArgs files args with
  | Throw _ => (Terminated, None, fs)
  | Ok None => (Exits 0, None, fs)
  | Ok (Some c) =>
      match bootNode fuel b c evs fs with
      | inl (o, fs) => (o, None, fs)
      | inr n =>
          match startServices b c n with
          | (n, Returns true) =>
              let '(h, l) := run_loop (threadCount b) es (newHttpServer n) in
              let '(o, fs) := finish b h l in
              (o, Some h, fs)
          | (n, Returns false) | (n, Raises _) => (Exits 1, None, disk n)
          | (n, Dies) => (Killed, None, disk n)
          | (n, Deadlocks) | (n, Unfinished) => (Hangs, None, disk n)
          end
      end
  end.

End main.

(** ** Lemmas *)

Section lemmas.
Context `{W : World} `{OS : OpenSSL} `{JT : JsonText}.

Lemma run_system_step e h : (run_system e h).1 = system_step h e.
Proof.
  destruct e as [e|fuel raw more]; [done|]. unfold run_system, system_step, mbind, M_bind.
  by destruct (handleConnection fuel raw more h) as [h1 [a|x| | |]].
Qed.

(** The loop handles the events in order, up to the one that ends it. *)
Lemma run_loop_history free es h :
  exists done_, done_ `prefix_of` es /\ (run_loop free es h).1 = system_after h done_.
Proof.
  revert free h. induction es as [|e es IH]; intros [|rest] h; try (by exists []; split; [apply prefix_nil|]).
  cbn [run_loop]. pose proof (run_system_step e h) as Hs.
  destruct (run_system e h) as [h1 r]. cbn [fst] in Hs.
  assert (Hnow : exists done_, done_ `prefix_of` e :: es /\ h1 = system_after h done_).
  { exists [e]. split; [by apply prefix_cons, prefix_nil|exact Hs]. }
  assert (Hlater : forall free, exists done_, done_ `prefix_of` e :: es /\ (run_loop free es h1).1 = system_after h done_).
  { intros free. destruct (IH free h1) as (d & Hd & E). exists (e :: d). split; [by apply prefix_cons|].
    rewrite E, Hs. done. }
  by destruct r.
Qed.

(** With every thread able to return at the end, every handler has returned. *)
Lemma run_loop_free free es h h' free' : run_loop free es h = (h', Stopped free') -> (free' <= free)%nat.
Proof.
  revert free h. induction es as [|e es IH]; intros [|rest] h; cbn [run_loop]; try (by intros [= _ <-]).
  destruct (run_system e h) as [h1 [a|x| | |]]; try done; intros H%IH; lia.
Qed.

Lemma run_loop_app free es1 es2 h h1 :
  run_loop free es1 h = (h1, Stopped free) -> run_loop free (es1 ++ es2) h = run_loop free es2 h1.
Proof.
  revert free h. induction es1 as [|e es1 IH]; intros [|rest] h; cbn [run_loop app];
    try (by intros [= <-]); try (by intros [= <-]; destruct es2).
  destruct (run_system e h) as [h2 [a|x| | |]] eqn:E; try done; [apply IH| |];
    intros H; apply run_loop_free in H; lia.
Qed.

(** The ledger of the process evolves by the operations of the blockchain. *)
Lemma loop_evolves free es h : on_node evolves h (run_loop free es h).1.
Proof. destruct (run_loop_history free es h) as (d & _ & ->). apply system_evolves. Qed.

Lemma startServices_evolves b c : keeps evolves (startServices b c).
Proof.
  pose proof (event_evolves EvStart) as Hs. cbn [run_event] in Hs.
  pose proof (local_connectToPeer evolves) as Hc. unfold startServices, checkChain, system_now.
  repeat (keeps_step || assumption || auto).
Qed.

(** A node that booted holds a constructed blockchain on the configured store. *)
Lemma bootNode_ledger fuel b c evs fs n :
  bootNode fuel b c evs fs = inr n ->
  chain_inv (blockchain_ n) /\ storage_ (blockchain_ n) = Some (confDataDir c) /\
  consensusEngine_ (blockchain_ n) = Some (PoWEngine defaultAdjuster).
Proof.
  unfold bootNode, openLedger. destruct (dirReady b); [|done]. rewrite exec_pbind.
  destruct (exec (openStorage (confDataDir c)) evs fs) as [[[u|] fs1] evs1]; [|done].
  destruct (exec (newBlockchain _ _ _ _ _) evs1 fs1) as [[[[[bc|]|e]|] fs2] evs2] eqn:E; try done.
  destruct (negb (p2pPortFree b)); [done|].
  destruct (exec (loadOrCreate _ _ _ _) evs2 fs2) as [[[[[id ok]|x]|] fs3] evs3]; try done.
  intros [= <-]. cbn [blockchain_ newNode].
  assert (Hr : run (newBlockchain fuel (loadTime b) (confDifficulty c) (Some (PoWEngine defaultAdjuster))
    (Some (confDataDir c))) evs1 fs1 = (Some (Ok (Some bc)), fs2)) by (unfold run; by rewrite E).
  destruct (constructed_setup _ _ _ _ _ _ _ _ _ Hr) as [Hs He]. split_and!; [|done..].
  assert (Hinv : chain_inv bc).
  { apply (constructed_inv (Some (PoWEngine defaultAdjuster))); [exact (PoWEngine_spec _)|]. by do 7 eexists. }
  eapply bstep_inv; [apply step_onTransactionAdded|]. eapply bstep_inv; [apply step_onBlockAdded|done].
Qed.

(** A process that came to stop, every thread free. *)
Lemma main_served fuel files args b es evs fs o h fs' :
  main fuel files args b es evs fs = (o, Some h, fs') ->
  exists c n0 n1 l, parseArgs files args = Ok (Some c) /\ bootNode fuel b c evs fs = inr n0 /\
    startServices b c n0 = (n1, Returns true) /\
    run_loop (threadCount b) es (newHttpServer n1) = (h, l) /\ finish b h l = (o, fs').
Proof.
  unfold main. destruct (parseArgs files args) as [[c|]|e]; try done.
  destruct (bootNode fuel b c evs fs) as [[o0 fs0]|n0] eqn:E0; [done|].
  destruct (startServices b c n0) as [n1 [[]|x| | |]] eqn:E1; try done.
  destruct (run_loop (threadCount b) es (newHttpServer n1)) as [h0 l] eqn:E2.
  destruct (finish b h0 l) as [o0 fs0] eqn:E3. intros [= -> -> ->]. by exists c, n0, n1, l.
Qed.

Lemma finish_exits b h l fs' :
  finish b h l = (Exits 0, fs') ->
  l = Stopped (threadCount b) /\ exists n' u, persistOnExit (node_ h) = (n', Returns u) /\ fs' = disk n'.
Proof.
  destruct l as [free|x|]; cbn [finish]; try done. destruct (Nat.eqb_spec free (threadCount b)) as [->|]; [|done].
  destruct (persistOnExit (node_ h)) as [n' [u|x| | |]]; try done. intros [= <-]. split; [done|]. by exists n', u.
Qed.

(** *** The start of a process on a disk that holds a chain *)

Lemma validate_later now now' c :
  now <= now' -> validateChainAgainstConsensus (Some (PoWEngine defaultAdjuster)) now c = true ->
  validateChainAgainstConsensus (Some (PoWEngine defaultAdjuster)) now' c = true.
Proof.
  intros Hn. rewrite !validateChain_split, !andb_true_iff. intros [Hv He]. split; [done|]. revert He.
  destruct c as [|g rest]; [done|]. clear Hv. cbn. revert g.
  induction rest as [|b rest IH]; intros g; [done|]. cbn.
  destruct (pow_validateBlock now b g) eqn:E; [|done]. rewrite (pow_validate_later now now') by done. apply IH.
Qed.

Lemma startServices_returns {JTS : JsonTextSpec JT} b c n :
  httpPortFree b = true -> locks false Free n ->
  (forall i, isValidChain (system_clock i) (blockchain_ n) = true) ->
  exists n', startServices b c n = (n', Returns true) /\ same_ledger n n' /\ locks false Free n'.
Proof.
  intros Hh Hn Hv. destruct (local_timers same_ledger) as (_ & _ & _ & Hs); [done|].
  destruct (safe_timers (eq KReturns) message_utf8 Free) as (_ & _ & Hsafe).
  set (dials := _ ← startNode; for_each (confPeers c) (fun a => connectToPeer (peerHost a) (peerPort a) 0)).
  assert (Hk : keeps same_ledger dials).
  { apply keeps_bind; [apply _|exact Hs|intros _]. apply keeps_for_each; [apply _|]. intros a.
    apply (local_connectToPeer same_ledger). }
  assert (Hl : lock_ok (eq KReturns) false Free dials).
  { apply safe_bind; [exact Hsafe|intros _]. apply safe_for_each; [done|]. intros a. eapply safe_connectToPeer, _. }
  destruct (Hl n Hn) as [Hr Hl']. specialize (Hk n).
  assert (Hsplit : startServices b c n = (_ ← dials; checkChain) n).
  { unfold startServices, dials, mbind, M_bind. rewrite Hh.
    destruct (startNode n) as [n1 [u|e| | |]]; done. }
  rewrite Hsplit. unfold mbind, M_bind. destruct (dials n) as [n1 [u|e| | |]]; try done. cbn [fst snd kind_of] in *.
  destruct (Hl' ltac:(done)) as [H1 H2]. destruct Hk as (E1 & E2 & E3).
  unfold checkChain, with_chainMutex. rewrite H2.
  unfold system_now, reading, gets, mbind, M_bind. cbn -[isValidChain].
  eexists. split; [by rewrite E1, Hv|]. split; [done|]. by split.
Qed.

(** Without faults the node boots on the chain that the constructor leaves. *)
Lemma bootNode_on {JTS : JsonTextSpec JT} fuel b c fs s r0 (P : Blockchain -> Prop) :
  dirReady b = true -> p2pPortFree b = true ->
  freshIdentity (entropy b) (p2pPort c) (confPublicIp c) = Ok r0 -> json_utf8 (identityDocument r0) = true ->
  fs !! chainFilePath (confDataDir c) = Some s ->
  (forall fs1, fs1 !! chainFilePath (confDataDir c) = Some s -> exists bc fs2,
     run (newBlockchain fuel (loadTime b) (confDifficulty c) (Some (PoWEngine defaultAdjuster)) (Some (confDataDir c)))
       [] fs1 = (Some (Ok (Some bc)), fs2) /\ P (setOnTransactionAdded (setOnBlockAdded bc))) ->
  exists n, bootNode fuel b c [] fs = inr n /\ locks false Free n /\ faults n = [] /\ P (blockchain_ n).
Proof.
  intros Hdir Hport Hid Hu Hs Hnew. unfold bootNode, openLedger. rewrite Hdir, exec_pbind, exec_nil_run.
  destruct (openStorage_keeps (confDataDir c) fs s Hs) as (fs1 & -> & Hs1).
  destruct (Hnew fs1 Hs1) as (bc & fs2 & Hb & HP). rewrite exec_nil_run, Hb. cbn beta iota. rewrite Hport. cbn [negb].
  destruct (loadOrCreate_total (entropy b) (confDataDir c) (p2pPort c) (confPublicIp c) fs2 r0 Hid Hu)
    as (r & ok & fs3 & Hr & _).
  rewrite exec_nil_run, Hr. eexists. split; [reflexivity|]. by split_and!.
Qed.

(** What a start on a ledger leads to: its chain, its state and an empty mempool. *)
Definition holds_ledger (chain : list Block) (st : StateManager) (d : Z) (bc : Blockchain) : Prop :=
  chain_ bc = chain /\ stateManager_ bc = st /\ mempool_ bc = [] /\ difficulty_ bc = d.

Lemma bootNode_resumes {JTS : JsonTextSpec JT} fuel b c bc fs r0 :
  dirReady b = true -> p2pPortFree b = true ->
  freshIdentity (entropy b) (p2pPort c) (confPublicIp c) = Ok r0 -> json_utf8 (identityDocument r0) = true ->
  chain_inv bc -> stored (confDataDir c) (chain_ bc) fs ->
  Forall block_wf (chain_ bc) -> Forall (fun b => Forall tx_complete (transactions b)) (chain_ bc) ->
  validateChainAgainstConsensus (Some (PoWEngine defaultAdjuster)) (loadTime b) (chain_ bc) = true ->
  exists n, bootNode fuel b c [] fs = inr n /\ locks false Free n /\ faults n = [] /\
    holds_ledger (chain_ bc) (stateManager_ bc) (confDifficulty c) (blockchain_ n).
Proof.
  intros Hdir Hport Hid Hu Hinv (s & Hs & Hrest) Hwf Hc Hv.
  apply (bootNode_on fuel b c fs s r0); [done..|]. intros fs1 Hs1.
  destruct (restart_restores bc (confDataDir c) (Some (PoWEngine defaultAdjuster)) fuel (loadTime b)
    (confDifficulty c) fs1) as (bc2 & Hb & Hl); [done|by exists s|done..|]. by exists bc2, fs1.
Qed.

(** The new genesis block prints. *)
Lemma genesis_prints {OSS : OpenSSLSpec OS} fuel d g :
  createGenesis fuel d = Some g ->
  json_utf8 (chainJson [g]) = true /\ json_utf8 (stateJson (applyBlockState emptyState g)) = true.
Proof.
  intros (k & -> & _)%mineBlock_candidate. split; [|reflexivity]. apply json_array_utf8, Forall_singleton.
  assert (Htx : json_utf8 (txToJson genesisCoinbase) = true).
  { apply txToJson_utf8, tx_utf8_make; try done. apply sha256_utf8. }
  assert (Hroot : forall b, transactions b = [genesisCoinbase] -> utf8 (computeMerkleRoot b) = true).
  { intros b Hb. unfold computeMerkleRoot. rewrite Hb. change (utf8 (merkle_leaf genesisCoinbase) = true).
    unfold merkle_leaf. case_match; apply sha256_utf8. }
  unfold blockToJson. repeat (apply json_set_utf8; [done| |]); try done.
  - by apply (json_array_utf8 [txToJson genesisCoinbase]), Forall_singleton.
  - apply sha256_utf8.
  - by apply Hroot.
Qed.

Lemma bootNode_gives_up {JTS : JsonTextSpec JT} {OSS : OpenSSLSpec OS} fuel b c chain fs r0 g :
  dirReady b = true -> p2pPortFree b = true ->
  freshIdentity (entropy b) (p2pPort c) (confPublicIp c) = Ok r0 -> json_utf8 (identityDocument r0) = true ->
  chain <> [] -> stored (confDataDir c) chain fs ->
  Forall block_wf chain -> Forall (fun b => Forall tx_complete (transactions b)) chain ->
  validateChainAgainstConsensus (Some (PoWEngine defaultAdjuster)) (loadTime b) chain = false ->
  createGenesis fuel (confDifficulty c) = Some g ->
  exists n, bootNode fuel b c [] fs = inr n /\ locks false Free n /\ faults n = [] /\
    holds_ledger [g] (applyBlockState emptyState g) (confDifficulty c) (blockchain_ n).
Proof.
  intros Hdir Hport Hid Hu Hne (s & Hs & Hrest) Hwf Hc Hv Hg.
  destruct (genesis_prints _ _ _ Hg) as [Hx _]. apply (dump_total (Some 2)) in Hx as [x Hx].
  apply (bootNode_on fuel b c fs s r0); [done..|]. intros fs1 Hs1.
  destruct (restart_gives_up chain (confDataDir c) (Some (PoWEngine defaultAdjuster)) fuel (loadTime b)
    (confDifficulty c) fs1 g x) as (bc2 & fs2 & Hb & Hl); [done|by exists s|done..|]. by exists bc2, fs2.
Qed.

(** *** Saving at the end *)

Lemma persistOnExit_saves n n' u :
  faults n = [] -> persistOnExit n = (n', Returns u) ->
  run (persistChain (blockchain_ n)) [] (disk n) = (Some (Ok tt), disk n').
Proof.
  intros Hf. unfold persistOnExit, with_chainMutex. destruct (chainLock n); try done.
  cbn [blockchain_ faults disk with_chainLock]. rewrite Hf, exec_nil_run.
  destruct (run (persistChain (blockchain_ n)) [] (disk n)) as [[[[]|e]|] fs]; try done. by intros [= <- _].
Qed.

Lemma persistOnExit_returns n fs :
  faults n = [] -> locks false Free n -> run (persistChain (blockchain_ n)) [] (disk n) = (Some (Ok tt), fs) ->
  exists n', persistOnExit n = (n', Returns tt) /\ disk n' = fs.
Proof.
  intros Hf [_ Hc] Hr. unfold persistOnExit, with_chainMutex. rewrite Hc.
  cbn [blockchain_ faults disk with_chainLock]. rewrite Hf, exec_nil_run, Hr. by eexists.
Qed.

Lemma run_loop_nil free h : run_loop free [] h = (h, Stopped free).
Proof. by destruct free. Qed.

(** What a process that exited with status 0 leaves: a ledger of the blockchain, on
    the configured store, that was saved without an exception. *)
Lemma main_leaves fuel files args b es evs fs fs' h c :
  main fuel files args b es evs fs = (Exits 0, Some h, fs') -> parseArgs files args = Ok (Some c) ->
  faults (node_ h) = [] ->
  chain_inv (blockchain_ (node_ h)) /\ storage_ (blockchain_ (node_ h)) = Some (confDataDir c) /\
  exists fs0, run (persistChain (blockchain_ (node_ h))) [] fs0 = (Some (Ok tt), fs').
Proof.
  intros Hmain Ec Hf.
  destruct (main_served _ _ _ _ _ _ _ _ _ _ Hmain) as (c0 & n0 & n1 & l & Ec0 & Hboot & Hstart & Hloop & Hfin).
  assert (c0 = c) as -> by congruence.
  apply finish_exits in Hfin as (-> & n' & u & Hper & ->). apply persistOnExit_saves in Hper; [|done].
  destruct (bootNode_ledger _ _ _ _ _ _ Hboot) as (Hinv0 & Hsto0 & _).
  assert (Hev : rtc bstep (blockchain_ n0) (blockchain_ (node_ h))).
  { pose proof (startServices_evolves b c n0) as H1. rewrite Hstart in H1.
    pose proof (loop_evolves (threadCount b) es (newHttpServer n1)) as H2. rewrite Hloop in H2.
    unfold on_node, evolves in *. cbn [fst node_ newHttpServer] in *. by etrans. }
  pose proof (chain_steps_inv _ _ Hev Hinv0) as Hinv. apply chain_steps_setup in Hev as [Hsto _]. rewrite Hsto0 in Hsto.
  split_and!; [done..|by eexists].
Qed.

(** A process on which nothing happens before it is stopped. *)
Lemma main_idle {JTS : JsonTextSpec JT} fuel files args b c n fs :
  parseArgs files args = Ok (Some c) -> httpPortFree b = true ->
  bootNode fuel b c [] fs = inr n -> locks false Free n -> faults n = [] ->
  (forall i, isValidChain (system_clock i) (blockchain_ n) = true) ->
  (forall fs, exists fs', run (persistChain (blockchain_ n)) [] fs = (Some (Ok tt), fs')) ->
  exists h fs0 fs', main fuel files args b [] [] fs = (Exits 0, Some h, fs') /\
    blockchain_ (node_ h) = blockchain_ n /\ run (persistChain (blockchain_ n)) [] fs0 = (Some (Ok tt), fs').
Proof.
  intros Ec Hh Hb Hl Hf Hv Hp.
  destruct (startServices_returns b c n) as (n1 & Hs & (Eb & Ed & Ef) & Hl1); [done..|].
  destruct (Hp (disk n1)) as [fs' Hr].
  destruct (persistOnExit_returns n1 fs') as (n2 & Hn2 & Hd); [by rewrite Ef|done|by rewrite Eb|].
  exists (newHttpServer n1), (disk n1), fs'. unfold main. rewrite Ec, Hb, Hs, run_loop_nil. unfold finish.
  rewrite Nat.eqb_refl. cbn [node_ newHttpServer]. by rewrite Hn2, Hd.
Qed.

(** *** Locks *)

Lemma startServices_unlocked b c n n' x :
  locks false Free n -> startServices b c n = (n', Returns x) -> locks false Free n'.
Proof.
  intros Hn E. destruct (safe_timers not_deadlock (fun _ => True) Free) as (_ & _ & Hs).
  assert (Hl : lock_ok not_deadlock false Free (startServices b c)).
  { pose proof (safe_connectToPeer not_deadlock (fun _ => True) Free).
    unfold startServices, checkChain, system_now. safe_solve. }
  destruct (Hl n Hn) as [_ Hl']. rewrite E in Hl'. by apply Hl'.
Qed.

Lemma bootNode_unlocked fuel b c evs fs n : bootNode fuel b c evs fs = inr n -> locks false Free n.
Proof.
  unfold bootNode. destruct (exec (openLedger fuel b c) evs fs) as [[[[[bc|]|e]|] fs2] evs2]; try done.
  destruct (negb (p2pPortFree b)); [done|].
  destruct (exec (loadOrCreate _ _ _ _) evs2 fs2) as [[[[[id ok]|x]|] fs3] evs3]; try done. by intros [= <-].
Qed.

Context {JTS : JsonTextSpec JT}.

(** An event whose handler returned leaves the mutexes free. *)
Lemma run_system_unlocked e h h' u : unlocked h -> run_system e h = (h', Returns u) -> unlocked h'.
Proof.
  intros Hh. destruct e as [e|fuel raw more]; cbn [run_system].
  - unfold liftN. destruct (banned_message (node_ h) e) eqn:Eb.
    + destruct e as [| | | | |p msg| | | | | | | | |]; try done. cbn [banned_message] in Eb.
      destruct (banned_message_blocks p msg (node_ h) Free Eb Hh) as [Hd _]. cbn [run_event].
      destruct (handleMessage p msg (node_ h)) as [n1 r]. cbn in Hd. by subst r.
    + destruct (event_safe (node_ h) e Eb Hh) as [_ Hs].
      destruct (run_event e (node_ h)) as [n1 r]. intros [= <- ->]. by apply Hs.
  - unfold mbind, M_bind. destruct (connection_unlocked fuel raw more h Hh) as [_ Hs].
    destruct (handleConnection fuel raw more h) as [h1 [a|x| | |]]; try done. intros [= <- _]. by apply Hs.
Qed.

Lemma run_loop_unlocked free es h h' :
  (0 < free)%nat -> unlocked h -> run_loop free es h = (h', Stopped free) -> unlocked h'.
Proof.
  revert h. induction es as [|e es IH]; intros h Hf Hh; [rewrite run_loop_nil; by intros [= <-]|].
  destruct free as [|rest]; [lia|]. cbn [run_loop].
  destruct (run_system e h) as [h1 [u|x| | |]] eqn:E; try done.
  - apply IH; [done|]. by eapply run_system_unlocked.
  - intros H%run_loop_free. lia.
  - intros H%run_loop_free. lia.
Qed.

(** A process that a signal would have stopped, given one more event. *)
Lemma main_continues fuel files args b es1 evs fs h1 fs1 :
  main fuel files args b es1 evs fs = (Exits 0, Some h1, fs1) ->
  exists rest, threadCount b = S rest /\ unlocked h1 /\
    forall e es2, main fuel files args b (es1 ++ e :: es2) evs fs =
      let '(h2, l) := run_loop (S rest) (e :: es2) h1 in let '(o, fs) := finish b h2 l in (o, Some h2, fs).
Proof.
  intros Hmain.
  destruct (main_served _ _ _ _ _ _ _ _ _ _ Hmain) as (c & n0 & n1 & l & Ec & Hboot & Hstart & Hloop & Hfin).
  apply finish_exits in Hfin as (-> & _). exists (Nat.pred (threadCount b)).
  assert (Et : threadCount b = S (Nat.pred (threadCount b))) by (unfold threadCount; lia). split; [exact Et|]. split.
  - apply (run_loop_unlocked (threadCount b) es1 (newHttpServer n1)); [lia| |exact Hloop].
    eapply startServices_unlocked; [|exact Hstart]. by eapply bootNode_unlocked.
  - intros e es2. unfold main. rewrite Ec, Hboot, Hstart, (run_loop_app _ es1 _ _ h1) by done. by rewrite <- Et.
Qed.

End lemmas.

(** ** Properties *)

Section properties.
Context `{W : World} `{OS : OpenSSL} `{JT : JsonText}.

(** What the operating system grants a start: the directory, both ports, a new
    identity that can be printed, and clocks that are not set back. *)
Record start_granted (b : Boot) (c : Config) : Prop := {
  granted_dir : dirReady b = true;
  granted_p2p : p2pPortFree b = true;
  granted_http : httpPortFree b = true;
  granted_clock : forall i, loadTime b <= system_clock i;
  granted_identity : exists r, freshIdentity (entropy b) (p2pPort c) (confPublicIp c) = Ok r /\
    json_utf8 (identityDocument r) = true
}.

(** C14: what a restart finds. When a process, whatever its history of events and of
    disk faults, exited with status 0 after a signal (with the disk working again at
    the end), then a later process on the same data directory, whatever its other
    arguments, ends its start with the same chain, the same state, an empty mempool
    and the configured difficulty, if the chain validates at the time it is loaded.
    If it does not (a block lies more than two minutes ahead of the clock, say, or
    was mined with difficulty 0), the whole chain is given up for a new genesis
    block, which is saved over it. Either way the process exits with status 0 when
    it is stopped. *)
Theorem process_restart {JTS : JsonTextSpec JT} {OSS : OpenSSLSpec OS} fuel files args b es evs fs fs' (h : Http)
    (c : Config) fuel' files' args' (b' : Boot) (c' : Config) (g : Block) :
  main fuel files args b es evs fs = (Exits 0, Some h, fs') -> faults (node_ h) = [] ->
  let bc := blockchain_ (node_ h) in
  Forall block_wf (chain_ bc) -> Forall (fun b => Forall tx_complete (transactions b)) (chain_ bc) ->
  parseArgs files args = Ok (Some c) -> parseArgs files' args' = Ok (Some c') ->
  confDataDir c' = confDataDir c -> start_granted b' c' ->
  createGenesis fuel' (confDifficulty c') = Some g -> block_wf g ->
  exists h' fs'', main fuel' files' args' b' [] [] fs' = (Exits 0, Some h', fs'') /\
    let survives := validateChainAgainstConsensus (Some (PoWEngine defaultAdjuster)) (loadTime b') (chain_ bc) in
    let chain' := if survives then chain_ bc else [g] in
    holds_ledger chain' (if survives then stateManager_ bc else applyBlockState emptyState g) (confDifficulty c')
      (blockchain_ (node_ h')) /\
    stored (confDataDir c') chain' fs''.
Proof.
  intros Hmain Hf bc Hwf Hcomplete Ec Ec' Hdir [Hd Hp2p Hhttp Hclock (r0 & Hr0 & Hu)] Hg Hgwf.
  destruct (main_leaves _ _ _ _ _ _ _ _ _ _ Hmain Ec Hf) as (Hinv & Hsto & fs0 & Hper). fold bc in Hinv, Hsto, Hper.
  pose proof (persistChain_stored _ _ _ _ Hsto Hwf Hper) as Hstored. rewrite <- Hdir in Hstored.
  cbv zeta. destruct (validateChainAgainstConsensus _ (loadTime b') (chain_ bc)) eqn:Hv.
  - destruct (bootNode_resumes fuel' b' c' bc fs' r0) as (n & Hboot & Hl & Hf' & Hledger); [done..|].
    destruct (bootNode_ledger _ _ _ _ _ _ Hboot) as (_ & Hsto' & He). pose proof Hledger as (Hc & Hs & _).
    destruct (main_idle fuel' files' args' b' c' n fs') as (h' & fs1 & fs'' & Hrun & Eb & Hlast); [done..| | |].
    + intros i. unfold isValidChain. rewrite He, Hc. by apply (validate_later (loadTime b')).
    + intros fs2. by apply (persistChain_again (confDataDir c) bc fs0 fs' (confDataDir c')).
    + exists h', fs''. rewrite Eb. split_and!; [done..|]. rewrite <- Hc.
      eapply persistChain_stored; [done|by rewrite Hc|done].
  - assert (Hne : chain_ bc <> []) by (by apply isChainValid_nonempty, inv_valid).
    destruct (bootNode_gives_up fuel' b' c' (chain_ bc) fs' r0 g) as (n & Hboot & Hl & Hf' & Hledger); [done..|].
    destruct (bootNode_ledger _ _ _ _ _ _ Hboot) as (_ & Hsto' & He). pose proof Hledger as (Hc & Hs & _).
    destruct (main_idle fuel' files' args' b' c' n fs') as (h' & fs1 & fs'' & Hrun & Eb & Hlast); [done..| | |].
    + intros i. unfold isValidChain. rewrite He, Hc, validateChain_split.
      by rewrite (createGenesis_ok _ _ _ Hg).
    + intros fs2. destruct (genesis_prints _ _ _ Hg) as [H1 H2]. apply (persistChain_prints (confDataDir c')); [done|..].
      * by rewrite Hc.
      * by rewrite Hs.
    + exists h', fs''. rewrite Eb. split_and!; [done..|]. rewrite <- Hc.
      eapply persistChain_stored; [done|rewrite Hc; by constructor|done].
Qed.

(** C21: what a peer can do to a process that a signal would have stopped. Once a
    banned peer has sent another message, no signal stops it: the handler keeps its
    thread for ever, the main thread waits for it, and the chain and the state are
    not saved. From a peer that is not banned and not over its rate, an announcement
    whose payload is not an object, unless the same one came within the
    deduplication window, ends the process at once, through [std::terminate]: the
    exception leaves the handler; nothing is saved either. In both cases the disk is
    as the event loop left it. *)
Theorem peer_ends_process {JTS : JsonTextSpec JT} fuel files args b es1 p es2 evs fs (h1 : Http) fs1 :
  main fuel files args b es1 evs fs = (Exits 0, Some h1, fs1) ->
  let receiving msg := main fuel files args b (es1 ++ OfNode (EvMessage p msg) :: es2) evs fs in
  (isBanned (endpointOf p (node_ h1)) (peerScorer_ (node_ h1)) = true -> forall msg,
     exists o h2, receiving msg = (o, Some h2, disk (node_ h2)) /\ forall status, o <> Exits status) /\
  (isBanned (endpointOf p (node_ h1)) (peerScorer_ (node_ h1)) = false ->
   over_rate p (node_ h1) = false ->
   forall j, is_object j = false -> json_utf8 j = true ->
     seen_recently (mkMessage NODE_ANNOUNCE j) (node_ h1) = false ->
     exists h2, receiving (mkMessage NODE_ANNOUNCE j) = (Terminated, Some h2, disk (node_ h1))).
Proof.
  intros Hmain receiving.
  destruct (main_continues _ _ _ _ _ _ _ _ _ Hmain) as (rest & Et & Hun & Hgo).
  pose proof (fun msg => Hgo (OfNode (EvMessage p msg)) es2 : receiving msg = _) as Hrec. clear Hgo.
  clearbody receiving. cbn [run_loop run_system run_event] in Hrec. unfold liftN in Hrec. split.
  - intros Hb msg. rewrite Hrec. destruct (banned_message_blocks p msg (node_ h1) Free Hb Hun) as [Hd _].
    destruct (handleMessage p msg (node_ h1)) as [n2 r]. cbn in Hd. subst r.
    destruct (run_loop rest es2 (with_node n2 h1)) as [h2 l] eqn:El.
    assert (Hend : exists o, finish b h2 l = (o, disk (node_ h2)) /\ forall status, o <> Exits status).
    { destruct l as [free|x|]; cbn [finish]; [|by (eexists; split; [reflexivity|discriminate])..].
      apply run_loop_free in El. rewrite (proj2 (Nat.eqb_neq _ _)) by lia.
      by (eexists; split; [reflexivity|discriminate]). }
    destruct Hend as (o & -> & Ho). by exists o, h2.
  - intros Hb Ht j Hj Hc Hd. rewrite Hrec.
    destruct (malformed_announce_escapes (node_ h1) p j Hj Hc Hb Ht Hd) as [He _]; [apply Hun|].
    pose proof (local_handleMessage p (mkMessage NODE_ANNOUNCE j) eq_refl (node_ h1)) as (_ & Hdisk & _).
    destruct (handleMessage p (mkMessage NODE_ANNOUNCE j) (node_ h1)) as [n2 r]. cbn [snd fst] in *. subst r.
    cbn [finish node_ with_node]. rewrite Hdisk. by eexists.
Qed.

(** C25: a connection that ends the process: one that delivers a [POST] to one of the
    five routes that parse their body ("/wallet/import", "/wallet/login",
    "/wallet/loginChallenge", "/wallet/verifyLogin", "/transaction/send"), or a
    [POST] to a path that starts with "/mine" whose body opens an object, when that
    body is not JSON in a way that the parser's error quotes bytes that are not
    UTF-8. Printing the answer about the error raises from the catch clause, nothing
    above catches it, and the process that a signal would have stopped ends through
    [std::terminate], without an answer and without saving. *)
Theorem unprintable_body_ends_process {JTS : JsonTextSpec JT} fuel files args b es1 es2 evs fs (h1 : Http) fs1
    (fuel' : nat) (raw : string) (more : nat -> option string) (p : plan) (req : HttpRequest) :
  main fuel files args b es1 evs fs = (Exits 0, Some h1, fs1) ->
  planRequest raw = Some p -> requestOf p more = inr req ->
  parsing_route req = true -> unprintable (body req) ->
  (exists text, handleConnection fuel' (Some raw) more h1 = (h1, Raises (json_type_error 316 text))) /\
  main fuel files args b (es1 ++ OfHttp fuel' (Some raw) more :: es2) evs fs =
    (Terminated, Some h1, disk (node_ h1)).
Proof.
  intros Hmain Hp Hr Hroute Hu.
  destruct (unprintable_body_escapes fuel' req h1 raw more p Hp Hr Hroute Hu) as [text E].
  split; [by exists text|]. destruct (main_continues _ _ _ _ _ _ _ _ _ Hmain) as (rest & _ & _ & ->).
  cbn [run_loop run_system]. unfold mbind, M_bind. by rewrite E.
Qed.

End properties.

(** ** Witnesses *)

Section main_witnesses.
Import ToyOpenSSL Nlohmann.

Definition sampleBoot : Boot := mkBoot true sampleNow true 3 0 true 4.
Definition sampleArgs : list string := ["--difficulty"; "1"; "--data-dir"; "d"].
Definition noFiles : string -> option string := fun _ => None.

(** A block is mined over HTTP. *)
Definition mined_history : list system_event :=
  [OfHttp 50 (Some (requestText "POST" "/mine" sampleFields "{  }")) (fun _ => None)].

Definition sampleRun (es : list system_event) : fate * option Http * FS :=
  main 50 noFiles sampleArgs sampleBoot es [] ∅.

(** The second start: another difficulty, the same directory. *)
Definition otherArgs : list string := ["--data-dir"; "d"; "--difficulty"; "0"].
Definition sampleConfig (d : Z) : Config := set_dataDir "d" (set_confDifficulty d defaultConfig).

Lemma sampleArgs_config :
  parseArgs noFiles sampleArgs = Ok (Some (sampleConfig 1)) /\ parseArgs noFiles otherArgs = Ok (Some (sampleConfig 0)).
Proof. split; vm_compute; reflexivity. Qed.

Lemma sampleBoot_granted d : start_granted sampleBoot (sampleConfig d).
Proof.
  split; [reflexivity..| |].
  - intros i. apply Z.le_refl.
  - eexists. split; vm_compute; reflexivity.
Qed.

(** A run that stopped with a complete chain of [k] blocks and no faults left. *)
Definition complete_tx (tx : Transaction) : bool :=
  negb (str_empty (fromAddress tx)) && negb (str_empty (toAddress tx)) && negb (amount tx =? 0).
Definition stopped_with (k : nat) (r : fate * option Http * FS) : bool :=
  match r with
  | (Exits 0, Some h, _) =>
      let chain := chain_ (blockchain_ (node_ h)) in
      forallb (fun b => block_wfb b && forallb complete_tx (transactions b)) chain && Nat.eqb (length chain) k &&
      validateChainAgainstConsensus (Some (PoWEngine defaultAdjuster)) sampleNow chain &&
      match faults (node_ h) with [] => true | _ => false end
  | _ => false
  end.

Lemma stopped_with_spec k r :
  stopped_with k r = true ->
  exists h fs, r = (Exits 0, Some h, fs) /\ faults (node_ h) = [] /\ length (chain_ (blockchain_ (node_ h))) = k /\
    Forall block_wf (chain_ (blockchain_ (node_ h))) /\
    Forall (fun b => Forall tx_complete (transactions b)) (chain_ (blockchain_ (node_ h))) /\
    validateChainAgainstConsensus (Some (PoWEngine defaultAdjuster)) sampleNow (chain_ (blockchain_ (node_ h))) = true.
Proof.
  destruct r as [[o [h|]] fs]; [|by destruct o as [[]| | |]]. destruct o as [[]| | |]; try done. unfold stopped_with.
  rewrite !andb_true_iff, forallb_forall. intros [[[Hb Hk%Nat.eqb_eq] Hv] Hf]. exists h, fs. split_and!; try done.
  - by destruct (faults (node_ h)).
  - apply Forall_forall. intros b Hin%list_elem_of_In. apply block_wfb_spec. by apply Hb, andb_prop in Hin as [? _].
  - apply Forall_forall. intros b Hin%list_elem_of_In. apply Hb, andb_prop in Hin as [_ Ht]. rewrite forallb_forall in Ht.
    apply Forall_forall. intros tx Htx%list_elem_of_In%Ht. unfold complete_tx in Htx. bool_to_prop.
    repeat match goal with H : str_empty _ = false |- _ => apply str_empty_false in H end. by split_and!; left.
Qed.

Lemma mined_stops : stopped_with 2 (sampleRun mined_history) = true.
Proof. vm_compute. reflexivity. Qed.

Lemma process_restart_witness :
  exists fs' h' fs'', main 0 noFiles otherArgs sampleBoot [] [] fs' = (Exits 0, Some h', fs'') /\
    length (chain_ (blockchain_ (node_ h'))) = 2%nat.
Proof.
  destruct (stopped_with_spec 2 _ mined_stops) as (h & fs' & Hrun & Hf & Hk & Hwf & Hc & Hv). exists fs'.
  destruct (process_restart 50 noFiles sampleArgs sampleBoot mined_history [] ∅ fs' h (sampleConfig 1)
    0 noFiles otherArgs sampleBoot (sampleConfig 0) sampleGenesis Hrun Hf Hwf Hc (proj1 sampleArgs_config)
    (proj2 sampleArgs_config) eq_refl (sampleBoot_granted 0) sampleGenesis_made) as (h' & fs'' & Hrun' & Hl & _).
  - apply block_wfb_spec. vm_compute. reflexivity.
  - exists h', fs''. split; [exact Hrun'|]. cbv zeta in Hl. change (loadTime sampleBoot) with sampleNow in Hl.
    rewrite Hv in Hl. destruct Hl as [-> _]. exact Hk.
Defined.

(** The peer of [ban_history] sends another message. *)
Definition bans (r : fate * option Http * FS) : bool :=
  match r with
  | (Exits 0, Some h, _) => isBanned (endpointOf 1 (node_ h)) (peerScorer_ (node_ h))
  | _ => false
  end.

Lemma ban_history_stops : bans (sampleRun (map OfNode ban_history)) = true.
Proof. vm_compute. reflexivity. Qed.

Lemma bans_spec r :
  bans r = true -> exists h fs, r = (Exits 0, Some h, fs) /\ isBanned (endpointOf 1 (node_ h)) (peerScorer_ (node_ h)) = true.
Proof.
  destruct r as [[o [h|]] fs]; [|by destruct o as [[]| | |]]. destruct o as [[]| | |]; try done. intros H. by exists h, fs.
Qed.

(** Another peer connects and announces itself with [null]. *)
Definition accepted_history : list system_event := [OfNode (EvAccept (Some (socketFrom 40000)))].
Definition may_announce (j : json) (r : fate * option Http * FS) : bool :=
  match r with
  | (Exits 0, Some h, _) =>
      let n := node_ h in
      negb (isBanned (endpointOf 0 n) (peerScorer_ n)) && negb (over_rate 0 n) &&
      negb (seen_recently (mkMessage NODE_ANNOUNCE j) n)
  | _ => false
  end.

Lemma accepted_stops : may_announce JNull (sampleRun accepted_history) = true.
Proof. vm_compute. reflexivity. Qed.

Lemma may_announce_spec j r :
  may_announce j r = true -> exists h fs, r = (Exits 0, Some h, fs) /\
    isBanned (endpointOf 0 (node_ h)) (peerScorer_ (node_ h)) = false /\ over_rate 0 (node_ h) = false /\
    seen_recently (mkMessage NODE_ANNOUNCE j) (node_ h) = false.
Proof.
  destruct r as [[o [h|]] fs]; [|by destruct o as [[]| | |]]. destruct o as [[]| | |]; try done.
  unfold may_announce. rewrite !andb_true_iff, !negb_true_iff. intros [[H1 H2] H3]. by exists h, fs.
Qed.

Lemma peer_ends_process_witness :
  (exists o h, sampleRun (map OfNode ban_history ++ [OfNode (EvMessage 1 (mkMessage PING JNull))]) =
    (o, Some h, disk (node_ h)) /\ o <> Exits 0) /\
  (exists h fs, sampleRun (accepted_history ++ [OfNode (EvMessage 0 (mkMessage NODE_ANNOUNCE JNull))]) =
    (Terminated, h, fs)).
Proof.
  split.
  - destruct (bans_spec _ ban_history_stops) as (h1 & fs1 & Hrun & Hb).
    destruct (proj1 (peer_ends_process 50 noFiles sampleArgs sampleBoot (map OfNode ban_history) 1 [] [] ∅ h1 fs1 Hrun)
      Hb (mkMessage PING JNull)) as (o & h2 & H & Ho).
    exists o, h2. split; [exact H|exact (Ho 0)].
  - destruct (may_announce_spec _ _ accepted_stops) as (h1 & fs1 & Hrun & Hb & Hr & Hs).
    destruct (proj2 (peer_ends_process 50 noFiles sampleArgs sampleBoot accepted_history 0 [] [] ∅ h1 fs1 Hrun)
      Hb Hr JNull eq_refl eq_refl Hs) as (h2 & H).
    exists (Some h2), (disk (node_ h1)). exact H.
Defined.

(** Nothing happens before the connection. *)
Lemma idle_stops : exists h fs, sampleRun [] = (Exits 0, Some h, fs).
Proof.
  assert (H : stopped_with 1 (sampleRun []) = true) by (vm_compute; reflexivity).
  destruct (stopped_with_spec 1 _ H) as (h & fs & Hrun & _). by exists h, fs.
Qed.

Lemma unprintable_body_ends_process_witness :
  exists h, sampleRun [OfHttp 0 (Some (requestText "POST" "/wallet/login?x" sampleFields badBody)) (fun _ => None)] =
    (Terminated, Some h, disk (node_ h)).
Proof.
  destruct idle_stops as (h & fs & Hrun). exists h.
  refine (proj2 (unprintable_body_ends_process 50 noFiles sampleArgs sampleBoot [] [] [] ∅ h fs 0
    (requestText "POST" "/wallet/login?x" sampleFields badBody) (fun _ => None) _
    (mkRequest "POST" "/wallet/login?x" (field_map sampleFields) badBody) Hrun _ _ _ badBody_unprintable)).
  - vm_compute. reflexivity.
  - vm_compute. reflexivity.
  - vm_compute. reflexivity.
Defined.

(** A block mined with difficulty 0 is given up at the next start. *)
Lemma difficulty_zero_loses_chain :
  let '(o, h, fs) := main 0 noFiles otherArgs sampleBoot mined_history [] ∅ in
  let '(o', h', fs') := main 0 noFiles otherArgs sampleBoot [] [] fs in
  let blocks h := option_map (fun h => length (chain_ (blockchain_ (node_ h)))) h in
  (o, blocks h, o', blocks h') = (Exits 0, Some 2%nat, Exits 0, Some 1%nat).
Proof. vm_compute. reflexivity. Qed.

End main_witnesses.
